(* ===== verification/_CoqProject ===== *)
-Q . S2P
Prelude.v
Ring.v
Spinlock.v
Kernel.v
Sched.v
Str.v
Ulib.v
Cons.v
Line.v
Bio.v
BioSpec.v
Log.v
LogCrash.v
Inode.v
Fs.v
FsSpec.v
FsRead.v
FsAlloc.v
FsGrow.v
Mkfs.v
MkfsSpec.v
MkfsMain.v
MkfsBoot.v
Kalloc.v
Vm.v
VmSpec.v
MemFrame.v
VmProc.v
Umem.v
File.v
Proc.v
ProcSpec.v
Exec.v
Args.v
PipeSpec.v
Sysfile.v
Syscall.v
Grep.v
Sh.v
ShSpec.v
ShPrint.v
Umalloc.v
UmallocSpec.v
Sim.v
Simulador.v
SimSpec.v
Libc.v
Buf.v
Wordheap.v
WordheapSpec.v
Canvas.v
Msgbox.v
Printf.v
Uthread.v
Labs.v
Glob.v
Mp.v
Ide.v
IdeSpec.v
Boot.v
Desc.v
Apic.v
Uprog.v
Programs.v
ProgramsSpec.v
Ptable.v
PtableSpec.v
Forktest.v
LabSh.v
SchedThreads.v
ForkPrio.v
LabFiles.v
Smp.v
