(* ===== verification/Prelude.v ===== *)
(** * A verification of an xv6 kernel, of its programs and of the labs around it

    The repository has a version of xv6, a small Unix kernel for x86 multiprocessors, in
    src/xv6, with the system calls that the labs add to it ([answer], [pscnt], [getppid],
    [trace], [pgcnt]), and the programs of eight labs on operating systems in src/lab-01
    to src/lab-08.  This development translates them into Rocq functions, keeping the
    names of the C code, and proves what they promise.

    ** The parts and their files

    The kernel.  [Kernel] has the data: one record field of [kstate] for each global, and
    the monad [M] of kernel code, whose results are a return, a panic, a wait for ever,
    undefined behaviour of C, or the end of a loop's fuel.  Above it, from the bottom:
    - locks and processes: [Spinlock] (spinlock.c, several CPUs interleaved), [Sched]
      (sched, sleep, wakeup, kill; sleeplock.c), [Proc] (the rest of proc.c), [ProcSpec],
      [Ptable] (fork, wait and exit on the process table alone), [PtableSpec];
    - memory: [Kalloc] (kalloc.c), [Vm] (vm.c), [VmSpec], [VmProc], [Umem], and [MemFrame],
      what the memory functions leave alone;
    - disks: [Ide] (ide.c), [IdeSpec], [Bio] (bio.c over memide.c), [BioSpec];
    - files: [Log] (log.c), [LogCrash], [Inode] and [Fs] (fs.c), [FsSpec], [FsRead],
      [FsAlloc], [FsGrow], [File] (file.c, pipe.c), [PipeSpec], [Mkfs] (mkfs.c), [MkfsSpec],
      [MkfsMain], [MkfsBoot];
    - console and strings: [Ring], [Cons] (console.c, kbd.c), [Line], [Str] (string.c);
    - system calls: [Args] (argument fetching, sysproc.c), [Exec] (exec.c), [Sysfile]
      (sysfile.c), [Syscall] (dispatch of syscall.c, trap.c, main.c);
    - the machine: [Boot] (bootmain.c), [Mp] (mp.c), [Desc] (descriptors of mmu.h,
      seginit, tvinit, idtinit, the task state of switchuvm), [Apic] (ioapic.c, lapic.c,
      picirq.c, uart.c), [Smp] (startothers, mpenter, mpmain, switchkvm, getcallerpcs and
      the report of panic).

    User code.  [Ulib] (ulib.c), [Printf] (printf.c), [Umalloc] (umalloc.c) and
    [UmallocSpec] are the library; [Grep] (grep.c), [Sh], [ShSpec] and [ShPrint] (sh.c)
    and [Uthread] (uthreadlib.c, uthread.c) are programs as functions.  [Uprog] has
    programs as interaction trees over the system calls, [Programs] the other programs of
    xv6 in that form, and [ProgramsSpec] what they do; [Forktest] runs forktest and its
    children on the table of [Ptable].

    The labs.  [Libc] has what they use of the C library.  [Labs] is lab-01, [LabSh] the
    shell of lab-02, [ForkPrio] lab-03, [Glob] and [SchedThreads] lab-04, [Buf],
    [Wordheap], [WordheapSpec], [Canvas] and [Msgbox] lab-05, [Sim], [Simulador] and
    [SimSpec] lab-07, and [LabFiles] the programs of lab-06 and lab-08 that write files.

    ** How code becomes definitions

    Integers are [Z], wrapped at their width where the code can overflow.  A pointer into
    a static table is an index of it, and memory is bytes.  Kernel functions pass the
    state along in [M]; where a process gives up the CPU, [w_env] says what the other
    threads do to the globals meanwhile.  Programs whose threads or processors share
    memory are step functions, run by a list that chooses who takes the next step, and
    their theorems are about every such list.  Devices are the registers that the code
    reads and writes.

    ** What the theorems show

    - Crashes: a crash at any point of a commit, or of the recovery from one, leaves the
      files before or after the transaction ([LogCrash]).
    - Isolation: [copyuvm] and [fork] give a child a copy of the memory in pages of its
      own, and [fork] changes nothing else; system calls accept only pointers into the caller's memory; traps enter the
      kernel only through the gates of [tvinit] ([VmProc], [ProcSpec], [Args], [Desc]).
    - Refinement: the page allocator is a list of pages, pipes are queues, console input
      is a line editor, the disk driver is a synchronous disk that wakes up the processes
      it has served, FIFO paging is a queue, and the kernel's [fork], [wait] and [exit] are
      the operations on the table ([Kalloc], [PipeSpec], [Line], [IdeSpec], [SimSpec],
      [PtableSpec]).
    - Round trips: [writei], also when it makes the file larger, and [readi], [mkfs] and
      [readi], printing a shell command and parsing it ([FsGrow], [MkfsBoot], [ShPrint]).
    - Interleavings: exclusion of the spin lock, order and progress of the bounded buffer,
      the word stack, and turns of the user threads and of the scheduler ([Spinlock],
      [Buf], [WordheapSpec], [Uthread], [ProcSpec]).
    - The machine: the boot loader loads the kernel, the processors are found and each one
      is started once, and the device interrupts are routed ([Boot], [Mp], [Smp], [Apic]).
    - Programs: the matcher of grep decides its patterns, [malloc] hands out disjoint
      blocks to requests of less than 2 GB, [wc] counts the whole text however it is read,
      [forktest] succeeds under every schedule of its children, and the redirections of the
      lab's shell reach the program ([Grep], [UmallocSpec], [ProgramsSpec], [Forktest],
      [LabSh]).

    Some theorems show that the code does not do what it means to: [Mp.mpinit_hangs],
    [SimSpec.lru_pierde_pagina], [Uthread.create_past_table], [Buf.main_destruye_en_uso],
    [SchedThreads.hilos_pierden], [WordheapSpec.palabra_larga] and others, each one with its comment.

    ** Bounds and fuel

    A loop whose end is not evident from its data takes fuel, and what it does without
    fuel is an outcome of its own, different from every result of the code.  The fuel is
    computed from the data: the sectors of a segment in [Boot], the length of the table in
    [Mp], four units for each character of a line in the parser of [Sh], the blocks that a
    request covers in [Fs].  A loop that sleeps in each round ([Kernel.loop_sleep]) has as
    many rounds as the schedule has turns.  Where the fuel is an argument, in
    [Apic.Cmos.cmostime], [LabFiles.write_loop], [Uthread.main] and [Uprog.run], the theorems say that
    some fuel is enough, or that none is.  The theorems about results are of total
    correctness: they say that the code returns.

    ** Not modelled

    - The assembly code of bootasm.S, entry.S, entryother.S, trapasm.S, initcode.S, usys.S
      and the scripts vectors.pl and sign.pl: that needs the processor's instructions.  The
      addresses that C code takes from them are parameters, [swtch] is the switch of the
      threads in [Kernel], and uthread_switch.S the one in [Uthread].
    - Registers of the processor that no C code reads back: the interrupt flag that [sti]
      and [cli] set is on when no lock is held, and [cr3] after [switchkvm] and
      [switchuvm] is only a value in [Smp] and [Desc].
    - Weak memory: steps of several processors interleave in a sequentially consistent way.
    - usertests.c, a test program of the calls, and the programs of the labs that only print
      fixed text, measure times, sleep or show what the host returns (democ.c, hola.c,
      sig_receiver.c, benchmark.c, threads.c, maps.c, fstat.c).
    - rblk.c of lab-06, pgcnt.c and sys_pgcnt.c of lab-07, which do not compile here.
    - The scheduling attributes of sched-threads.c and the processor times of forkprio.c,
      which belong to the host; failures of [mmap] and [ftruncate] in lab-05.
    - The work of a process between its system calls, and the kernel's concurrency beyond
      what [w_env], [Spinlock] and [Ide] say.

    ** This file

    The prelude: machine integers, byte strings, generic list lemmas, the record update
    notation and the tactics that the other files share.  Nothing in it is about one part
    of the program. *)

From Stdlib Require Export ZArith Lia.
From stdpp Require Export base tactics gmap functions strings numbers list.
From stdpp Require Export list_basics list_relations list_monad.

#[global] Open Scope Z_scope.

Declare Scope xv6_scope.
Delimit Scope xv6_scope with xv6.
#[global] Open Scope xv6_scope.

Ltac Zify.zify_post_hook ::= Z.div_mod_to_equations.

Create HintDb xv6 discriminated.
Create Rewrite HintDb xv6_len.

(** ** Machine integers

    A C integer of width [w] is a [Z] kept in range by the wrap functions.  An
    [uint] result is [u32 e], an [int] result is [i32 e], and so on. *)

Definition wrapu (w x : Z) : Z := x mod 2 ^ w.
Definition wraps (w x : Z) : Z := (x + 2 ^ (w - 1)) mod 2 ^ w - 2 ^ (w - 1).

Definition u8 (x : Z) : Z := x mod 256.
Definition u16 (x : Z) : Z := x mod 65536.
Definition u32 (x : Z) : Z := x mod 4294967296.
Definition i16 (x : Z) : Z := (x + 32768) mod 65536 - 32768.
Definition i32 (x : Z) : Z := (x + 2147483648) mod 4294967296 - 2147483648.

Definition is_u8 (x : Z) : Prop := 0 <= x < 256.
Definition is_u32 (x : Z) : Prop := 0 <= x < 4294967296.
Definition is_i32 (x : Z) : Prop := -2147483648 <= x < 2147483648.
Definition is_i16 (x : Z) : Prop := -32768 <= x < 32768.

Lemma u32_range x : is_u32 (u32 x).
Proof. unfold is_u32, u32. lia. Qed.

Lemma u32_id x : is_u32 x -> u32 x = x.
Proof. unfold is_u32, u32. intros. rewrite Z.mod_small; lia. Qed.

Lemma i32_id x : is_i32 x -> i32 x = x.
Proof. unfold is_i32, i32. intros. rewrite Z.mod_small; lia. Qed.

Lemma i16_id x : is_i16 x -> i16 x = x.
Proof. unfold is_i16, i16. intros. rewrite Z.mod_small; lia. Qed.

Lemma u8_id x : is_u8 x -> u8 x = x.
Proof. unfold is_u8, u8. intros. rewrite Z.mod_small; lia. Qed.

Lemma u8_range x : is_u8 (u8 x).
Proof. unfold is_u8, u8. lia. Qed.

Lemma u32_add_l x y : u32 (u32 x + y) = u32 (x + y).
Proof. unfold u32. by rewrite Zplus_mod_idemp_l. Qed.

Lemma u32_sub_l x y : u32 (u32 x - y) = u32 (x - y).
Proof. unfold u32. by rewrite Zminus_mod_idemp_l. Qed.

Lemma u32_sub_r x y : u32 (x - u32 y) = u32 (x - y).
Proof. unfold u32. by rewrite Zminus_mod_idemp_r. Qed.

Lemma i32_of_u32 x : i32 (u32 x) = i32 x.
Proof. unfold i32, u32. by rewrite Zplus_mod_idemp_l. Qed.

#[export] Hint Resolve u32_range u8_range : xv6.

(** ** Flag words

    [hasf f m] is the C condition [(f & m) != 0]; [setf] is [f |= m] and
    [clrf] is [f &= ~m]. *)

Definition hasf (f m : Z) : bool := negb (Z.land f m =? 0).
Definition setf (f m : Z) : Z := Z.lor f m.
Definition clrf (f m : Z) : Z := Z.ldiff f m.

Lemma land_bit f n : 0 <= n ->
  Z.land f (2 ^ n) = if Z.testbit f n then 2 ^ n else 0.
Proof.
  intros Hn. apply Z.bits_inj'. intros i Hi.
  rewrite Z.land_spec, Z.pow2_bits_eqb by lia.
  destruct (Z.eqb_spec n i) as [->|Hne].
  - rewrite andb_true_r. destruct (Z.testbit f i); [by rewrite Z.pow2_bits_true | by rewrite Z.bits_0].
  - rewrite andb_false_r. destruct (Z.testbit f n); [by rewrite Z.pow2_bits_false | by rewrite Z.bits_0].
Qed.

Lemma hasf_bit f n : 0 <= n -> hasf f (2 ^ n) = Z.testbit f n.
Proof.
  intros Hn. unfold hasf. rewrite land_bit by done.
  assert (2 ^ n <> 0) by (apply Z.pow_nonzero; lia).
  destruct (Z.testbit f n); [|done].
  by destruct (Z.eqb_spec (2 ^ n) 0).
Qed.

Lemma hasf_setf f n m : 0 <= n -> 0 <= m ->
  hasf (setf f (2 ^ n)) (2 ^ m) = (n =? m) || hasf f (2 ^ m).
Proof.
  intros. rewrite !hasf_bit by done. unfold setf.
  rewrite Z.lor_spec, Z.pow2_bits_eqb by lia. apply orb_comm.
Qed.

Lemma hasf_clrf f n m : 0 <= n -> 0 <= m ->
  hasf (clrf f (2 ^ n)) (2 ^ m) = negb (n =? m) && hasf f (2 ^ m).
Proof.
  intros. rewrite !hasf_bit by done. unfold clrf.
  rewrite Z.ldiff_spec, Z.pow2_bits_eqb by lia. apply andb_comm.
Qed.

(** ** Record update

    [r <| f := v |>] is the C assignment [r.f = v]; [r <| f ::= g |>] applies
    [g] to the field.  A record type declares [mkT], its field-wise rebuild,
    and the setter of each field is computed from it. *)

Class Settable (R : Type) := rebuild : R -> R.

Class Setter {R T : Type} (proj : R -> T) := setter : (T -> T) -> R -> R.

Ltac solve_setter R proj :=
  let b := constr:(_ : Settable R) in
  let b := eval unfold rebuild in b in
  let b := eval hnf in b in
  let b := eval pattern proj in b in
  lazymatch b with
  | ?f _ => exact (fun g => f (fun r => g (proj r)))
  end.

#[global] Hint Extern 1 (@Setter ?R ?T ?proj) => solve_setter R proj : typeclass_instances.

Notation "r <| f ::= g |>" := (setter (proj:=f) g r)
  (at level 1, f at level 0, g at level 200, format "r  <| f  ::=  g |>") : xv6_scope.
Notation "r <| f := v |>" := (setter (proj:=f) (fun _ => v) r)
  (at level 1, f at level 0, v at level 200, format "r  <| f  :=  v |>") : xv6_scope.

(** ** Characters

    C string literals as bytes. *)

Fixpoint bytes_of (s : string) : list Z :=
  match s with
  | EmptyString => []
  | String c s => Z.of_nat (Ascii.nat_of_ascii c) :: bytes_of s
  end.

(** ** Arrays

    A C array of fixed length is a list.  [slice l off n] reads [n] cells from
    [off]; [blit l off new] overwrites the cells of [l] from [off] with [new],
    which is what [memmove] into a buffer does when [new] fits. *)

(** The position of an element met by a loop over [0 .. n-1]. *)
Lemma seq_middle n pre i post : seq 0 n = pre ++ i :: post -> i = length pre /\ (i < n)%nat.
Proof.
  intros E. assert (seq 0 n !! length pre = Some i) as El by (rewrite E; by apply list_lookup_middle).
  apply lookup_seq in El. lia.
Qed.

Lemma size_union_le (X Y : gset Z) : (size (X ∪ Y) <= size X + size Y)%nat.
Proof.
  rewrite size_union_alt. assert (Y ∖ X ⊆ Y) as H%subseteq_size by set_solver. lia.
Qed.

Lemma size_list_to_set_le (l : list Z) : (size (list_to_set l : gset Z) <= length l)%nat.
Proof.
  induction l as [|x l IH]; [done|]. cbn. pose proof (size_union_le {[x]} (list_to_set l)) as H.
  rewrite size_singleton in H. lia.
Qed.

Section Arrays.
Context {A : Type}.
Implicit Types (l new : list A).

Definition slice (l : list A) (off n : nat) : list A := take n (drop off l).

Definition blit (l : list A) (off : nat) (new : list A) : list A :=
  take off l ++ new ++ drop (off + length new) l.

Lemma length_slice l off n : (off + n <= length l)%nat -> length (slice l off n) = n.
Proof. unfold slice. rewrite length_take, length_drop. lia. Qed.

Lemma length_blit l off new :
  (off + length new <= length l)%nat -> length (blit l off new) = length l.
Proof. unfold blit. rewrite !length_app, length_take, length_drop. lia. Qed.

Lemma lookup_slice l off n i :
  slice l off n !! i = if decide (i < n)%nat then l !! (off + i)%nat else None.
Proof.
  unfold slice. case_decide.
  - by rewrite lookup_take_lt, lookup_drop.
  - by rewrite lookup_take_ge by lia.
Qed.

Lemma lookup_blit l off new i :
  (off + length new <= length l)%nat ->
  blit l off new !! i =
    if decide (off <= i < off + length new)%nat then new !! (i - off)%nat else l !! i.
Proof.
  intros Hlen. unfold blit. case_decide as Hi.
  - rewrite lookup_app_r by (rewrite length_take; lia).
    rewrite length_take, lookup_app_l by lia. f_equal; lia.
  - destruct (decide (i < off)%nat).
    + rewrite lookup_app_l by (rewrite length_take; lia). by rewrite lookup_take_lt.
    + rewrite lookup_app_r by (rewrite length_take; lia).
      rewrite lookup_app_r by (rewrite length_take; lia).
      rewrite lookup_drop, length_take. f_equal; lia.
Qed.

Lemma slice_ext l1 l2 off n :
  (forall i, (off <= i < off + n)%nat -> l1 !! i = l2 !! i) ->
  slice l1 off n = slice l2 off n.
Proof.
  intros H. apply list_eq. intros i. rewrite !lookup_slice.
  case_decide; [apply H; lia | done].
Qed.

Lemma slice_blit_eq l off new :
  (off + length new <= length l)%nat -> slice (blit l off new) off (length new) = new.
Proof.
  intros Hlen. apply list_eq. intros i. rewrite lookup_slice. case_decide.
  - rewrite lookup_blit by done. rewrite decide_True by lia. f_equal; lia.
  - by rewrite lookup_ge_None_2 by lia.
Qed.

Lemma slice_blit_ne l off new off' n :
  (off + length new <= length l)%nat ->
  (off' + n <= off \/ off + length new <= off')%nat ->
  slice (blit l off new) off' n = slice l off' n.
Proof.
  intros Hlen Hd. apply slice_ext. intros i Hi.
  rewrite lookup_blit by done. by rewrite decide_False by lia.
Qed.

Lemma slice_all l : slice l 0 (length l) = l.
Proof. unfold slice. by rewrite drop_0, firstn_all. Qed.

Lemma blit_all l new : length new = length l -> blit l 0 new = new.
Proof.
  intros H. unfold blit. rewrite take_0. cbn. rewrite drop_ge by lia. apply app_nil_r.
Qed.

Lemma blit_slice l off n : (off + n <= length l)%nat -> blit l off (slice l off n) = l.
Proof.
  intros H. apply list_eq. intros i.
  rewrite lookup_blit; rewrite length_slice by done; [|done].
  case_decide; [|done]. rewrite lookup_slice, decide_True by lia. f_equal; lia.
Qed.

Lemma blit_blit_same l off new1 new2 :
  length new1 = length new2 -> (off + length new1 <= length l)%nat ->
  blit (blit l off new1) off new2 = blit l off new2.
Proof.
  intros He Hl. apply list_eq. intros i.
  rewrite !lookup_blit; rewrite ?length_blit by lia; try lia.
  case_decide; [done|]. by rewrite decide_False by lia.
Qed.

Lemma insert_as_blit l i (x : A) : (i < length l)%nat -> <[i:=x]> l = blit l i [x].
Proof. intros H. unfold blit. cbn. rewrite insert_take_drop by done. by replace (i + 1)%nat with (S i) by lia. Qed.

Lemma alter_ext_at (f g : A -> A) l i x :
  l !! i = Some x -> f x = g x -> alter f i l = alter g i l.
Proof.
  intros Hx E. apply list_eq. intros j. rewrite !list_lookup_alter.
  case_decide; [subst; rewrite Hx; cbn; by rewrite E | done].
Qed.

Lemma alter_id_at (f : A -> A) l i x : l !! i = Some x -> f x = x -> alter f i l = l.
Proof.
  intros Hx E. apply list_eq. intros j. rewrite list_lookup_alter.
  case_decide; [subst; rewrite Hx; cbn; by rewrite E | done].
Qed.

Lemma alter_as_insert (f : A -> A) l i x : l !! i = Some x -> alter f i l = <[i:=f x]> l.
Proof.
  intros Hx. apply list_eq. intros j. rewrite list_lookup_alter, list_lookup_insert.
  case_decide; [subst; rewrite Hx; cbn; rewrite decide_True; eauto using lookup_lt_Some|].
  rewrite decide_False; [done | tauto].
Qed.

Lemma alter_alter (f g : A -> A) l i : alter f i (alter g i l) = alter (fun x => f (g x)) i l.
Proof.
  apply list_eq. intros j. rewrite !list_lookup_alter. repeat case_decide; subst; try done.
  by destruct (l !! j).
Qed.

End Arrays.

(** ** Little-endian words in byte buffers *)

Fixpoint le_bytes (n : nat) (v : Z) : list Z :=
  match n with
  | O => []
  | S n => v mod 256 :: le_bytes n (v / 256)
  end.

Fixpoint le_val (l : list Z) : Z :=
  match l with
  | [] => 0
  | b :: l => b + 256 * le_val l
  end.

Definition get32 (d : list Z) (off : nat) : Z := le_val (slice d off 4).
Definition put32 (d : list Z) (off : nat) (v : Z) : list Z := blit d off (le_bytes 4 v).
Definition get16 (d : list Z) (off : nat) : Z := le_val (slice d off 2).
Definition put16 (d : list Z) (off : nat) (v : Z) : list Z := blit d off (le_bytes 2 v).

Definition bytes_ok (d : list Z) : Prop := Forall is_u8 d.

Lemma length_le_bytes n v : length (le_bytes n v) = n.
Proof. revert v. induction n; intros; cbn; auto. Qed.

Lemma le_val_le_bytes n v : le_val (le_bytes n v) = v mod 256 ^ Z.of_nat n.
Proof.
  revert v. induction n as [|n IH]; intros v.
  - cbn. by rewrite Z.mod_1_r.
  - cbn [le_bytes le_val]. rewrite IH, Nat2Z.inj_succ, Z.pow_succ_r by lia.
    rewrite Z.rem_mul_r; lia.
Qed.

Lemma le_bytes_ok n v : bytes_ok (le_bytes n v).
Proof. revert v. induction n as [|n IH]; intros; cbn; constructor; [unfold is_u8; lia | apply IH]. Qed.

Lemma le_val_range l : bytes_ok l -> 0 <= le_val l < 256 ^ Z.of_nat (length l).
Proof.
  induction 1 as [|b l Hb Hl IH]; [cbn; lia|].
  cbn [le_val length]. rewrite Nat2Z.inj_succ, Z.pow_succ_r by lia.
  unfold is_u8 in Hb. lia.
Qed.

Lemma le_bytes_le_val l : bytes_ok l -> le_bytes (length l) (le_val l) = l.
Proof.
  induction 1 as [|b l Hb Hl IH]; [done|].
  unfold is_u8 in Hb. cbn [le_bytes le_val length].
  replace ((b + 256 * le_val l) mod 256) with b by lia.
  replace ((b + 256 * le_val l) / 256) with (le_val l) by lia.
  by rewrite IH.
Qed.

Lemma length_put32 d off v : (off + 4 <= length d)%nat -> length (put32 d off v) = length d.
Proof. intros. unfold put32. by rewrite length_blit by (rewrite length_le_bytes; lia). Qed.

Lemma length_put16 d off v : (off + 2 <= length d)%nat -> length (put16 d off v) = length d.
Proof. intros. unfold put16. by rewrite length_blit by (rewrite length_le_bytes; lia). Qed.

Lemma get32_put32_eq d off v : (off + 4 <= length d)%nat -> get32 (put32 d off v) off = u32 v.
Proof.
  intros H. unfold get32, put32.
  pose proof (slice_blit_eq d off (le_bytes 4 v)) as E. rewrite length_le_bytes in E.
  rewrite E by lia. apply le_val_le_bytes.
Qed.

Lemma get16_put16_eq d off v : (off + 2 <= length d)%nat -> get16 (put16 d off v) off = u16 v.
Proof.
  intros H. unfold get16, put16.
  pose proof (slice_blit_eq d off (le_bytes 2 v)) as E. rewrite length_le_bytes in E.
  rewrite E by lia. apply le_val_le_bytes.
Qed.

Lemma get32_put32_ne d off off' v :
  (off + 4 <= length d)%nat -> (off' + 4 <= off \/ off + 4 <= off')%nat ->
  get32 (put32 d off v) off' = get32 d off'.
Proof.
  intros H Hd. unfold get32, put32. rewrite slice_blit_ne; rewrite ?length_le_bytes; lia || done.
Qed.

Lemma get32_range d off : bytes_ok d -> (off + 4 <= length d)%nat -> is_u32 (get32 d off).
Proof.
  intros Hd Hl. unfold get32, is_u32.
  assert (bytes_ok (slice d off 4)) as Hs by (apply Forall_take, Forall_drop, Hd).
  apply le_val_range in Hs. rewrite length_slice in Hs by lia. exact Hs.
Qed.

Lemma blit_ok d off new : bytes_ok d -> bytes_ok new -> bytes_ok (blit d off new).
Proof.
  intros. unfold blit, bytes_ok in *. rewrite !Forall_app.
  repeat split; auto using Forall_take, Forall_drop.
Qed.

#[global] Arguments slice : simpl never.
#[global] Arguments blit : simpl never.
#[global] Arguments get32 : simpl never.
#[global] Arguments put32 : simpl never.
#[global] Arguments get16 : simpl never.
#[global] Arguments put16 : simpl never.
#[global] Arguments u32 : simpl never.
#[global] Arguments i32 : simpl never.
#[global] Arguments u16 : simpl never.
#[global] Arguments i16 : simpl never.
#[global] Arguments u8 : simpl never.

#[export] Hint Resolve le_bytes_ok blit_ok : xv6.
#[export] Hint Rewrite @length_le_bytes @length_insert @length_app @length_replicate : xv6_len.
