(* ===== verification/Ring.v ===== *)
(** Ring buffers indexed by free-running 32-bit counters, as the console
    (console.c) and the pipes (pipe.c) use them: the cell of counter [r] is
    [r % size], and [size] divides 2^32, so a counter may wrap around. *)

From S2P Require Import Prelude.

Section Ring.
Context (size : Z).

(** From counter [r] on, the ring [buf] holds the queue [q]. *)
Definition ring (buf : list Z) (r : Z) (q : list Z) : Prop :=
  0 < size /\ (4294967296 mod size = 0) /\ length buf = Z.to_nat size /\
  Z.of_nat (length q) <= size /\
  forall j x, q !! j = Some x -> buf !! Z.to_nat ((r + Z.of_nat j) mod size) = Some x.

Lemma ring_mod r : 0 < size -> 4294967296 mod size = 0 -> u32 r mod size = r mod size.
Proof.
  intros Hs Hd. unfold u32. apply Z.mod_mod_divide, Z.mod_divide; lia.
Qed.

Lemma ring_wrap buf r q : ring buf (u32 r) q <-> ring buf r q.
Proof.
  unfold ring. split; intros (Hs & Hd & Hl & Hq & H); (do 4 (split; [done|])); intros j x Hx;
    rewrite <- (H j x Hx); do 2 f_equal;
    rewrite <- (Zplus_mod_idemp_l (u32 r)), <- (Zplus_mod_idemp_l r), ring_mod by done; done.
Qed.

Lemma ring_nil buf r :
  0 < size -> 4294967296 mod size = 0 -> length buf = Z.to_nat size -> ring buf r [].
Proof. intros. repeat split; cbn; [done..|lia|done]. Qed.

(** The cells of distinct counters of a full ring are distinct. *)
Lemma ring_cell_ne r i j :
  0 < size -> 0 <= i < size -> 0 <= j < size -> i <> j ->
  Z.to_nat ((r + i) mod size) <> Z.to_nat ((r + j) mod size).
Proof.
  intros Hs Hi Hj Hij E.
  apply Z2Nat.inj in E as E'; [|by apply Z.mod_pos_bound..]. clear E.
  assert ((i - j) mod size = 0) as H.
  { replace (i - j) with ((r + i) - (r + j)) by lia. rewrite Zminus_mod, E', Z.sub_diag. by apply Z.mod_0_l; lia. }
  clear E'. apply Z.mod_divide in H as [k Hk]; [|lia]. assert (k = 0) by nia. nia.
Qed.

(** [buf[w++ % size] = x] *)
Lemma ring_push buf r q x :
  ring buf r q -> Z.of_nat (length q) < size ->
  ring (<[Z.to_nat ((r + Z.of_nat (length q)) mod size) := x]> buf) r (q ++ [x]).
Proof.
  intros (Hs & Hd & Hl & Hq & H) Hlt. split; [done|]. split; [done|].
  rewrite length_insert, length_app. cbn. split; [done|]. split; [lia|].
  intros j y Hy. destruct (decide (j < length q)%nat) as [Hj|Hj].
  - rewrite lookup_app_l in Hy by done. rewrite list_lookup_insert_ne; [by apply H|].
    apply ring_cell_ne; lia.
  - rewrite lookup_app_r in Hy by lia.
    assert (j = length q) as -> by (apply lookup_lt_Some in Hy; cbn in Hy; lia).
    rewrite Nat.sub_diag in Hy. cbn in Hy. simplify_eq.
    apply list_lookup_insert_eq. rewrite Hl. pose proof (Z.mod_pos_bound (r + Z.of_nat (length q)) size Hs). lia.
Qed.

(** [x = buf[r++ % size]] *)
Lemma ring_pop buf r x q :
  ring buf r (x :: q) -> buf !! Z.to_nat (r mod size) = Some x /\ ring buf (r + 1) q.
Proof.
  intros (Hs & Hd & Hl & Hq & H). split.
  - specialize (H O x eq_refl). by rewrite Z.add_0_r in H.
  - split; [done|]. split; [done|]. split; [done|]. cbn in Hq. split; [lia|].
    intros j y Hy. rewrite <- (H (S j) y Hy). do 2 f_equal. f_equal. lia.
Qed.

(** Dropping the newest element, as [w--] does. *)
Lemma ring_unpush buf r q1 q2 : ring buf r (q1 ++ q2) -> ring buf r q1.
Proof.
  intros (Hs & Hd & Hl & Hq & H). rewrite length_app in Hq.
  split; [done|]. split; [done|]. split; [done|]. split; [lia|].
  intros j y Hy. apply H. by apply lookup_app_l_Some.
Qed.

Lemma ring_length buf r q : ring buf r q -> Z.of_nat (length q) <= size.
Proof. by intros (_ & _ & _ & ? & _). Qed.

(** The element before the write counter. *)
Lemma ring_last buf r q x :
  ring buf r (q ++ [x]) -> buf !! Z.to_nat ((r + Z.of_nat (length q)) mod size) = Some x.
Proof. intros (_ & _ & _ & _ & H). apply H. by rewrite lookup_app_r, Nat.sub_diag by lia. Qed.

End Ring.
