(* ===== verification/Spinlock.v ===== *)
(** Spin locks (spinlock.c) on several CPUs.

    One lock, and CPUs that call [acquire] and [release] in any order; every
    access to the lock's words is a step of its own, and the steps of the CPUs
    interleave freely.  What a CPU does to its own [struct cpu] goes with the step
    before or after it. *)

From S2P Require Import Prelude.

(** ** Interrupts *)

(** [ncli], [intena] and the interrupt flag of a CPU. *)
Record cpu := Cpu { c_ncli : Z; c_intena : bool; c_if : bool }.

Definition pushcli (c : cpu) : cpu :=
  Cpu (c_ncli c + 1) (if c_ncli c =? 0 then c_if c else c_intena c) false.

Definition popcli (c : cpu) : cpu + string :=
  if c_if c then inr "popcli - interruptible" else
  let n := c_ncli c - 1 in
  if n <? 0 then inr "popcli"
  else inl (Cpu n (c_intena c) ((n =? 0) && c_intena c)).

(** ** The code of a CPU

    [h] says whether the CPU had the lock when it made the call; the code does not
    look at it. *)

Inductive pc :=
  | Out                                     (* outside the critical section *)
  | Acq_locked (h : bool)                   (* acquire, holding: reads lk->locked *)
  | Acq_cpu (h : bool)                      (* acquire, holding: reads lk->cpu *)
  | Acq_test (h r : bool)                   (* acquire: if(holding(lk)) *)
  | Spin                                    (* acquire: xchg *)
  | Own                                     (* acquire: lk->cpu = mycpu() *)
  | Crit                                    (* in the critical section *)
  | Rel_locked (h : bool)                   (* release, holding: reads lk->locked *)
  | Rel_cpu (h : bool)                      (* release, holding: reads lk->cpu *)
  | Rel_test (h r : bool)                   (* release: if(!holding(lk)) *)
  | Rel_clear                               (* release: lk->locked = 0 *)
  | Rel_pop                                 (* release: popcli() *)
  | Stopped (msg : string) (h : bool).      (* panic *)

(** The lock's words and the CPUs. *)
Record machine := Machine { lk_locked : Z; lk_cpu : option nat; m_cpus : list (cpu * pc) }.

Definition set_cpu (m : machine) (c : nat) (x : cpu) (p : pc) : machine :=
  Machine (lk_locked m) (lk_cpu m) (<[c := (x, p)]> (m_cpus m)).

(** The end of [holding]: [popcli], then the test of its result. *)
Definition pop_to (m : machine) (c : nat) (x : cpu) (h : bool) (p : pc) : machine :=
  match popcli x with
  | inl x => set_cpu m c x p
  | inr msg => set_cpu m c x (Stopped msg h)
  end.

(** A step of CPU [c]; outside and inside the critical section it calls [acquire]
    or [release], as [call] says. *)
Definition step (m : machine) (c : nat) (call_acquire : bool) : option machine :=
  y ← m_cpus m !! c;
  let (x, p) := y : cpu * pc in
  match p with
  | Out =>
      Some (if call_acquire then set_cpu m c (pushcli (pushcli x)) (Acq_locked false)
            else set_cpu m c (pushcli x) (Rel_locked false))
  | Crit =>
      Some (if call_acquire then set_cpu m c (pushcli (pushcli x)) (Acq_locked true)
            else set_cpu m c (pushcli x) (Rel_locked true))
  | Acq_locked h =>
      Some (if negb (lk_locked m =? 0) then set_cpu m c x (Acq_cpu h) else pop_to m c x h (Acq_test h false))
  | Acq_cpu h => Some (pop_to m c x h (Acq_test h (bool_decide (lk_cpu m = Some c))))
  | Acq_test h r => Some (set_cpu m c x (if r then Stopped "acquire" h else Spin))
  | Spin =>
      Some (Machine 1 (lk_cpu m) (<[c := (x, if lk_locked m =? 0 then Own else Spin)]> (m_cpus m)))
  | Own =>
      Some (if c_if x then set_cpu m c x (Stopped "mycpu called with interrupts enabled" true)
            else Machine (lk_locked m) (Some c) (<[c := (x, Crit)]> (m_cpus m)))
  | Rel_locked h =>
      Some (if negb (lk_locked m =? 0) then set_cpu m c x (Rel_cpu h) else pop_to m c x h (Rel_test h false))
  | Rel_cpu h => Some (pop_to m c x h (Rel_test h (bool_decide (lk_cpu m = Some c))))
  | Rel_test h r =>
      Some (if r then Machine (lk_locked m) None (<[c := (x, Rel_clear)]> (m_cpus m))
            else set_cpu m c x (Stopped "release" h))
  | Rel_clear => Some (Machine 0 (lk_cpu m) (<[c := (x, Rel_pop)]> (m_cpus m)))
  | Rel_pop => Some (pop_to m c x false Out)
  | Stopped _ _ => None
  end.

(** [initlock]; each CPU starts outside. *)
Definition initlock (cpus : list cpu) : machine := Machine 0 None (map (fun x => (x, Out)) cpus).

Inductive reachable (cpus : list cpu) : machine -> Prop :=
  | reach_init : reachable cpus (initlock cpus)
  | reach_step m c b m' : reachable cpus m -> step m c b = Some m' -> reachable cpus m'.

(** ** The invariant *)

(** The CPU has exchanged the lock's word and not cleared it yet. *)
Definition region (p : pc) : bool :=
  match p with
  | Own | Crit | Rel_clear => true
  | Acq_locked h | Acq_cpu h | Acq_test h _ | Rel_locked h | Rel_cpu h | Rel_test h _ | Stopped _ h => h
  | _ => false
  end.

(** Of these, the program counters where [lk->cpu] is the CPU. *)
Definition named (p : pc) : bool := match p with Own | Rel_clear => false | _ => region p end.

(** [pushcli] calls not yet undone. *)
Definition depth (p : pc) : Z :=
  match p with
  | Out => 0
  | Acq_locked h | Acq_cpu h => 2 + Z.b2z h
  | Acq_test h _ => 1 + Z.b2z h
  | Rel_locked h | Rel_cpu h => 1 + Z.b2z h
  | Rel_test h _ => Z.b2z h
  | Stopped _ _ => 0
  | _ => 1
  end.

(** What the results of [holding] are, and why a CPU may have stopped. *)
Definition truthful (p : pc) : Prop :=
  match p with
  | Acq_test h r | Rel_test h r => r = h
  | Stopped msg h => msg = "acquire" /\ h = true \/ msg = "release" /\ h = false
  | _ => True
  end.

Definition cpu_ok (x : cpu) (p : pc) : Prop :=
  depth p <= c_ncli x /\ (0 < c_ncli x -> c_if x = false) /\ truthful p.

Record inv (m : machine) : Prop := Inv {
  inv_cpu : forall c x p, m_cpus m !! c = Some (x, p) -> cpu_ok x p;
  inv_region : forall c x p, m_cpus m !! c = Some (x, p) -> region p = true -> lk_locked m = 1 /\
     (forall c' x' p', m_cpus m !! c' = Some (x', p') -> region p' = true -> c' = c);
  inv_free : lk_locked m = 0 \/ exists c x p, m_cpus m !! c = Some (x, p) /\ region p = true;
  inv_named : forall c x p, m_cpus m !! c = Some (x, p) -> (named p = true <-> lk_cpu m = Some c) }.

Lemma popcli_ok x : 0 < c_ncli x -> c_if x = false ->
  exists x', popcli x = inl x' /\ c_ncli x' = c_ncli x - 1 /\ (0 < c_ncli x' -> c_if x' = false).
Proof.
  intros Hn Hi. unfold popcli. rewrite Hi. rewrite (proj2 (Z.ltb_ge (c_ncli x - 1) 0)) by lia.
  eexists. split; [done|]. cbn. split; [done|]. intros H. by rewrite (proj2 (Z.eqb_neq (c_ncli x - 1) 0)) by lia.
Qed.

Lemma lookup_cpu (cpus : list (cpu * pc)) c y c' z :
  <[c := y]> cpus !! c' = Some z -> (c' = c /\ z = y) \/ (c' <> c /\ cpus !! c' = Some z).
Proof.
  rewrite list_lookup_insert. case_decide as H; [destruct H as [-> _]; intros [= <-]; by left|].
  intros Hz. right. split; [|done]. intros ->. apply H. split; [done|]. by eapply lookup_lt_Some.
Qed.

(** A step that does not touch the lock and stays in its region. *)
Lemma inv_local m c x p x' p' :
  inv m -> m_cpus m !! c = Some (x, p) -> cpu_ok x' p' -> region p' = region p -> named p' = named p ->
  inv (set_cpu m c x' p').
Proof.
  intros [H1 H2 H3 H4] Hc Hok Hr Hn. pose proof (lookup_lt_Some _ _ _ Hc) as Hlt. constructor; cbn.
  - intros c' y q [[-> [= -> ->]]|[_ Hq]]%lookup_cpu; eauto.
  - intros c' y q [[-> [= -> ->]]|[Hne Hq]]%lookup_cpu Hreg.
    + rewrite Hr in Hreg. destruct (H2 _ _ _ Hc Hreg) as [HL Hu]. split; [done|].
      intros c2 y2 q2 [[-> _]|[_ Hq2]]%lookup_cpu; eauto.
    + destruct (H2 _ _ _ Hq Hreg) as [HL Hu]. split; [done|].
      intros c2 y2 q2 [[-> [= -> ->]]|[_ Hq2]]%lookup_cpu Hreg2; [|eauto]. rewrite Hr in Hreg2. eauto.
  - destruct H3 as [H3|(c2 & y & q & Hq & Hreg)]; [by left|]. right. destruct (decide (c2 = c)) as [->|Hne].
    + exists c, x', p'. rewrite list_lookup_insert_eq by done. split; [done|]. rewrite Hr. congruence.
    + exists c2, y, q. by rewrite list_lookup_insert_ne by done.
  - intros c' y q [[-> [= -> ->]]|[_ Hq]]%lookup_cpu; [rewrite Hn; eauto|eauto].
Qed.

Lemma inv_pop_to m c x p h p' :
  inv m -> m_cpus m !! c = Some (x, p) -> 0 < depth p -> depth p' <= depth p - 1 -> truthful p' ->
  region p' = region p -> named p' = named p -> inv (pop_to m c x h p').
Proof.
  intros Hi Hc Hd Hd' Ht Hr Hn. destruct (inv_cpu _ Hi _ _ _ Hc) as (Hdx & Hif & _). unfold pop_to.
  destruct (popcli_ok x ltac:(lia) (Hif ltac:(lia))) as (x' & -> & Hx1 & Hx2).
  apply (inv_local m c x p); try done. split; [lia|done].
Qed.

(** Nobody is in the region while the word is 0. *)
Lemma inv_no_region m : inv m -> lk_locked m = 0 -> forall c x p, m_cpus m !! c = Some (x, p) -> region p = false.
Proof. intros Hi H0 c x p Hc. destruct (region p) eqn:E; [|done]. destruct (inv_region _ Hi _ _ _ Hc E). lia. Qed.

Lemma inv_locked m : inv m -> lk_locked m = 0 \/ lk_locked m = 1.
Proof.
  intros Hi. destruct (inv_free _ Hi) as [H|(c & x & p & Hc & Hr)]; [by left|]. right. by eapply inv_region.
Qed.

Lemma named_region p : named p = true -> region p = true.
Proof. by destruct p. Qed.

(** The steps that change the lock. *)
Lemma inv_spin m c x : inv m -> m_cpus m !! c = Some (x, Spin) -> lk_locked m = 0 ->
  inv (Machine 1 (lk_cpu m) (<[c := (x, Own)]> (m_cpus m))).
Proof.
  intros Hi Hc H0. pose proof (inv_no_region m Hi H0) as Hno. pose proof (lookup_lt_Some _ _ _ Hc) as Hlt. constructor; cbn.
  - intros c' y q [[-> [= -> ->]]|[_ Hq]]%lookup_cpu; [exact (inv_cpu _ Hi _ _ _ Hc)|by eapply inv_cpu].
  - intros c' y q [[-> [= -> ->]]|[_ Hq]]%lookup_cpu Hr; [|by rewrite (Hno _ _ _ Hq) in Hr]. split; [done|].
    intros c2 y2 q2 [[-> _]|[_ Hq2]]%lookup_cpu Hr2; [done|]. by rewrite (Hno _ _ _ Hq2) in Hr2.
  - right. exists c, x, Own. by rewrite list_lookup_insert_eq.
  - intros c' y q [[-> [= -> ->]]|[_ Hq]]%lookup_cpu; [exact (inv_named _ Hi _ _ _ Hc)|by eapply inv_named].
Qed.

(** [lk->cpu] is written by the CPU in the region. *)
Lemma inv_set_cpu m c x p o p' :
  inv m -> m_cpus m !! c = Some (x, p) -> region p = true -> region p' = true -> cpu_ok x p' ->
  (named p' = true <-> o = Some c) -> (forall c', o = Some c' -> c' = c) ->
  inv (Machine (lk_locked m) o (<[c := (x, p')]> (m_cpus m))).
Proof.
  intros Hi Hc Hr Hr' Hok Hn Ho. destruct (inv_region _ Hi _ _ _ Hc Hr) as [HL Hu].
  pose proof (lookup_lt_Some _ _ _ Hc) as Hlt. constructor; cbn.
  - intros c' y q [[-> [= -> ->]]|[_ Hq]]%lookup_cpu; [done|by eapply inv_cpu].
  - intros c' y q Hq Hreg. split; [done|]. assert (c' = c) as ->.
    { apply lookup_cpu in Hq as [[-> _]|[_ Hq]]; [done|by eapply Hu]. }
    intros c2 y2 q2 [[-> _]|[_ Hq2]]%lookup_cpu Hr2; [done|by eapply Hu].
  - right. exists c, x, p'. by rewrite list_lookup_insert_eq.
  - intros c' y q [[-> [= -> ->]]|[Hne Hq]]%lookup_cpu; [done|]. split; [|intros E; by destruct (Hne (Ho _ E))].
    intros Hnq. destruct (Hne (Hu _ _ _ Hq (named_region _ Hnq))).
Qed.

Lemma inv_clear m c x : inv m -> m_cpus m !! c = Some (x, Rel_clear) ->
  inv (Machine 0 (lk_cpu m) (<[c := (x, Rel_pop)]> (m_cpus m))).
Proof.
  intros Hi Hc. destruct (inv_region _ Hi _ _ _ Hc eq_refl) as [HL Hu]. constructor; cbn.
  - intros c' y q [[-> [= -> ->]]|[_ Hq]]%lookup_cpu; [exact (inv_cpu _ Hi _ _ _ Hc)|by eapply inv_cpu].
  - intros c' y q [[-> [= -> ->]]|[Hne Hq]]%lookup_cpu Hr; [done|]. destruct (Hne (Hu _ _ _ Hq Hr)).
  - by left.
  - intros c' y q [[-> [= -> ->]]|[_ Hq]]%lookup_cpu; [exact (inv_named _ Hi _ _ _ Hc)|by eapply inv_named].
Qed.

(** [holding] tells the truth. *)
Lemma holding_named m c x p : inv m -> m_cpus m !! c = Some (x, p) -> named p = region p ->
  bool_decide (lk_cpu m = Some c) = region p.
Proof.
  intros Hi Hc E. pose proof (inv_named _ Hi _ _ _ Hc) as Hn. rewrite <- E.
  destruct (named p); [by apply bool_decide_eq_true, Hn|]. apply bool_decide_eq_false. intros H. by apply Hn in H.
Qed.

Lemma pushcli_ok x : 0 <= c_ncli x -> c_ncli (pushcli x) = c_ncli x + 1 /\ c_if (pushcli x) = false.
Proof. done. Qed.

Lemma inv_step m c b m' : inv m -> step m c b = Some m' -> inv m'.
Proof.
  intros Hi. unfold step. destruct (m_cpus m !! c) as [[x p]|] eqn:Hc; [|done]. cbn [mbind option_bind].
  pose proof (inv_cpu _ Hi _ _ _ Hc) as (Hd & Hif & Ht).
  destruct p as [|h|h|h r| | | |h|h|h r| | |msg h]; cbn [depth truthful] in *; intros [= <-].
  - destruct b; (apply (inv_local m c x Out); try done; split; [cbn; lia|done]).
  - destruct (lk_locked m =? 0) eqn:E; cbn [negb].
    + apply Z.eqb_eq in E. pose proof (inv_no_region m Hi E _ _ _ Hc) as Hr. cbn in Hr. subst h.
      apply (inv_pop_to m c x (Acq_locked false)); (done || cbn; lia).
    + apply (inv_local m c x (Acq_locked h)); done.
  - rewrite (holding_named m c x _ Hi Hc eq_refl). cbn [region].
    apply (inv_pop_to m c x (Acq_cpu h)); try done; cbn; destruct h; cbn; lia.
  - subst r. destruct h.
    + apply (inv_local m c x (Acq_test true true)); try done. split; [cbn in *; lia|]. split; [done|]. cbn. tauto.
    + apply (inv_local m c x (Acq_test false false)); try done.
  - destruct (lk_locked m =? 0) eqn:E.
    + apply Z.eqb_eq in E. by apply inv_spin.
    + apply Z.eqb_neq in E. destruct (inv_locked m Hi) as [|E1]; [done|]. rewrite <- E1 at 1.
      apply (inv_local m c x Spin); done.
  - rewrite Hif by lia. apply (inv_set_cpu m c x Own); try done. congruence.
  - destruct b; (apply (inv_local m c x Crit); try done; split; [cbn; lia|done]).
  - destruct (lk_locked m =? 0) eqn:E; cbn [negb].
    + apply Z.eqb_eq in E. pose proof (inv_no_region m Hi E _ _ _ Hc) as Hr. cbn in Hr. subst h.
      apply (inv_pop_to m c x (Rel_locked false)); (done || cbn; lia).
    + apply (inv_local m c x (Rel_locked h)); done.
  - rewrite (holding_named m c x _ Hi Hc eq_refl). cbn [region].
    apply (inv_pop_to m c x (Rel_cpu h)); try done; cbn; destruct h; cbn; lia.
  - subst r. destruct h.
    + apply (inv_set_cpu m c x (Rel_test true true)); done.
    + apply (inv_local m c x (Rel_test false false)); try done. split; [cbn in *; lia|]. split; [done|]. cbn. tauto.
  - by apply inv_clear.
  - apply (inv_pop_to m c x Rel_pop); (done || cbn; lia).
Qed.

Lemma inv_reachable cpus m :
  Forall (fun x => 0 <= c_ncli x /\ (0 < c_ncli x -> c_if x = false)) cpus -> reachable cpus m -> inv m.
Proof.
  intros Hcpus Hr. induction Hr as [|m c b m' _ IH Hs]; [|by eapply inv_step]. constructor; cbn.
  - intros c x p H. apply list_lookup_fmap_Some in H as (y & [= -> ->] & Hy). rewrite Forall_lookup in Hcpus.
    destruct (Hcpus c y Hy). by split.
  - intros c x p H. apply list_lookup_fmap_Some in H as (y & [= -> ->] & Hy). done.
  - by left.
  - intros c x p H. apply list_lookup_fmap_Some in H as (y & [= -> ->] & Hy). done.
Qed.

(** C22. Spin locks work: in every interleaving of the accesses of any number of
    CPUs to the lock, at most one CPU is in the critical section, its interrupts
    are off, and the only panics are those of a CPU that acquires a lock it already
    has or releases one it does not have; [holding] is never wrong although it
    reads the two words without the lock, and [popcli] never fails. *)
Theorem spinlock_exclusion cpus m :
  Forall (fun x => 0 <= c_ncli x /\ (0 < c_ncli x -> c_if x = false)) cpus -> reachable cpus m ->
  (forall c c' x x', m_cpus m !! c = Some (x, Crit) -> m_cpus m !! c' = Some (x', Crit) -> c = c') /\
  (forall c x, m_cpus m !! c = Some (x, Crit) -> c_if x = false /\ 1 <= c_ncli x) /\
  (forall c x msg h, m_cpus m !! c = Some (x, Stopped msg h) ->
     msg = "acquire" /\ h = true \/ msg = "release" /\ h = false).
Proof.
  intros Hcpus Hr. pose proof (inv_reachable _ _ Hcpus Hr) as Hi. split_and!.
  - intros c c' x x' H1 H2. by apply (inv_region _ Hi _ _ _ H2 eq_refl) in H1.
  - intros c x H. destruct (inv_cpu _ Hi _ _ _ H) as (Hd & Hif & _). cbn in Hd. split; [apply Hif; lia|lia].
  - intros c x msg h H. by destruct (inv_cpu _ Hi _ _ _ H) as (_ & _ & Ht).
Qed.

(** A schedule. *)
Fixpoint run (m : machine) (l : list (nat * bool)) : option machine :=
  match l with
  | [] => Some m
  | (c, b) :: l => m ← step m c b; run m l
  end.

Lemma run_reachable cpus l : forall m m', reachable cpus m -> run m l = Some m' -> reachable cpus m'.
Proof.
  induction l as [|[c b] l IH]; intros m m' Hm; cbn; [by intros [= <-]|].
  destruct (step m c b) as [m1|] eqn:E; [|done]. cbn. apply IH. by eapply reach_step.
Qed.

Definition demo_cpus : list cpu := [Cpu 0 false true; Cpu 0 false true].

(** CPU 0 takes the lock while CPU 1 is between its test and its first exchange. *)
Definition demo_schedule : list (nat * bool) :=
  [(0, true); (1, true); (0, true); (1, true); (0, true); (1, true); (0, true); (0, true); (1, true)]%nat.

Lemma spinlock_exclusion_witness : exists m, run (initlock demo_cpus) demo_schedule = Some m /\
  m_cpus m = [(Cpu 1 true false, Crit); (Cpu 1 true false, Spin)] /\
  (forall c c' x x', m_cpus m !! c = Some (x, Crit) -> m_cpus m !! c' = Some (x', Crit) -> c = c').
Proof.
  destruct (run (initlock demo_cpus) demo_schedule) as [m|] eqn:E; [|discriminate E]. exists m. split; [reflexivity|].
  split; [vm_compute in E; injection E as <-; reflexivity|].
  apply (spinlock_exclusion demo_cpus m).
  - repeat constructor; cbn; lia.
  - exact (run_reachable demo_cpus demo_schedule (initlock demo_cpus) m (reach_init demo_cpus) E).
Defined.
