(* ===== verification/Kernel.v ===== *)
(** The kernel's data and the monad its code is written in.

    Every global of the kernel is a field of [kstate]: the process table
    (proc.c), the physical page allocator (kalloc.c), the buffer cache (bio.c),
    the disk (memide.c), the log (log.c), the inode cache and super block
    (fs.c), the file table (file.c), the pipes (pipe.c) and the console
    (console.c).  A pointer into a static table is an index of that table, a
    null pointer is [None], and a page obtained from [kalloc] is its address.

    A kernel function is a computation [M A] on a [world]: the globals, the
    spin locks this CPU holds, the process it runs, and [w_env], what the other
    kernel threads do to the globals each time this thread gives up the CPU in
    [swtch].  A computation returns, panics, is left waiting for a thread that
    never runs again, hits C undefined behaviour ([Fault]), or runs out of the
    fuel of a bounded loop ([NoFuel]). *)

From S2P Require Import Prelude.

(** ** Constants (param.h, fs.h, buf.h, stat.h, fcntl.h) *)

Definition NPROC : nat := 64.
Definition KSTACKSIZE : Z := 4096.
Definition NOFILE : nat := 16.
Definition NFILE : nat := 100.
Definition NINODE : nat := 50.
Definition NDEV : Z := 10.
Definition ROOTDEV : Z := 1.
Definition MAXARG : Z := 32.
Definition MAXOPBLOCKS : Z := 10.
Definition LOGSIZE : Z := MAXOPBLOCKS * 3.
Definition NBUF : nat := 30.
Definition FSSIZE : Z := 1000.

Definition ROOTINO : Z := 1.
Definition BSIZE : Z := 512.
Definition NDIRECT : Z := 12.
Definition NINDIRECT : Z := BSIZE / 4.
Definition MAXFILE : Z := NDIRECT + NINDIRECT.
Definition DIRSIZ : nat := 14.

Definition B_VALID : Z := 2.
Definition B_DIRTY : Z := 4.

Definition T_DIR : Z := 1.
Definition T_FILE : Z := 2.
Definition T_DEV : Z := 3.

Definition CONSOLE : Z := 1.

(** ** Locks and sleep channels

    A spin lock or a sleep channel is named by the object whose address the
    code uses. *)

Inductive slid :=
| SLbuf (b : nat)
| SLinode (ip : nat).

Inductive lock :=
| Lptable | Lbcache | Licache | Lftable | Llog | Lkmem | Lcons | Ltickslock | Lidelock
| Lpipe (p : Z)
| Lsleep (s : slid).

Inductive chan :=
| Cproc (p : nat)
| Clog
| Csleep (s : slid)
| Cnread (p : Z)
| Cnwrite (p : Z)
| Cticks
| Cinput
| Cbuf (b : nat).

#[export] Instance slid_eqdec : EqDecision slid.
Proof. solve_decision. Defined.
#[export] Instance lock_eqdec : EqDecision lock.
Proof. solve_decision. Defined.
#[export] Instance chan_eqdec : EqDecision chan.
Proof. solve_decision. Defined.

(** ** Structures *)

(** [struct sleeplock] (sleeplock.h); its inner spin lock is [Lsleep]. *)
Record sleeplock := SL { sl_locked : bool; sl_pid : Z }.
#[export] Instance sleeplock_set : Settable sleeplock :=
  fun r => SL (sl_locked r) (sl_pid r).

(** [struct buf] (buf.h).  [b_prev] and [b_next] index the buffers, with
    [NBUF] standing for [bcache.head]. *)
Record buf := Buf {
  b_flags : Z; b_dev : Z; b_blockno : Z; b_lock : sleeplock; b_refcnt : Z;
  b_prev : nat; b_next : nat; b_data : list Z }.
#[export] Instance buf_set : Settable buf :=
  fun r => Buf (b_flags r) (b_dev r) (b_blockno r) (b_lock r) (b_refcnt r)
               (b_prev r) (b_next r) (b_data r).

(** [bcache] (bio.c): [NBUF] buffers followed by [head], the list sentinel. *)
Record bcache := Bcache { bc_buf : list buf }.
#[export] Instance bcache_set : Settable bcache := fun r => Bcache (bc_buf r).

(** [struct log] with its in-memory header (log.c). *)
Record logst := Log {
  lg_start : Z; lg_size : Z; lg_outstanding : Z; lg_committing : bool; lg_dev : Z;
  lh_n : Z; lh_block : list Z }.
#[export] Instance logst_set : Settable logst :=
  fun r => Log (lg_start r) (lg_size r) (lg_outstanding r) (lg_committing r) (lg_dev r)
               (lh_n r) (lh_block r).

(** [struct superblock] (fs.h). *)
Record superblock := SB {
  sb_size : Z; sb_nblocks : Z; sb_ninodes : Z; sb_nlog : Z; sb_logstart : Z;
  sb_inodestart : Z; sb_bmapstart : Z }.
#[export] Instance superblock_set : Settable superblock :=
  fun r => SB (sb_size r) (sb_nblocks r) (sb_ninodes r) (sb_nlog r) (sb_logstart r)
              (sb_inodestart r) (sb_bmapstart r).

(** [struct inode] (file.h). *)
Record inode := Inode {
  i_dev : Z; i_inum : Z; i_ref : Z; i_lock : sleeplock; i_valid : bool;
  i_type : Z; i_major : Z; i_minor : Z; i_nlink : Z; i_size : Z; i_addrs : list Z }.
#[export] Instance inode_set : Settable inode :=
  fun r => Inode (i_dev r) (i_inum r) (i_ref r) (i_lock r) (i_valid r)
                 (i_type r) (i_major r) (i_minor r) (i_nlink r) (i_size r) (i_addrs r).

(** [struct file] (file.h). *)
Inductive ftype := FD_NONE | FD_PIPE | FD_INODE.
#[export] Instance ftype_eqdec : EqDecision ftype.
Proof. solve_decision. Defined.

Record file := File {
  f_type : ftype; f_ref : Z; f_readable : bool; f_writable : bool;
  f_pipe : Z; f_ip : nat; f_off : Z }.
#[export] Instance file_set : Settable file :=
  fun r => File (f_type r) (f_ref r) (f_readable r) (f_writable r) (f_pipe r) (f_ip r) (f_off r).

(** [struct devsw] (file.h): the functions installed are the console's. *)
Inductive devfn := Consoleread | Consolewrite.
Record devsw := Devsw { dv_read : option devfn; dv_write : option devfn }.
#[export] Instance devsw_set : Settable devsw := fun r => Devsw (dv_read r) (dv_write r).

(** [struct pipe] (pipe.c). *)
Record pipe := Pipe {
  pi_data : list Z; pi_nread : Z; pi_nwrite : Z; pi_readopen : bool; pi_writeopen : bool }.
#[export] Instance pipe_set : Settable pipe :=
  fun r => Pipe (pi_data r) (pi_nread r) (pi_nwrite r) (pi_readopen r) (pi_writeopen r).

(** [struct trapframe] (x86.h), without its padding. *)
Record trapframe := TF {
  tf_edi : Z; tf_esi : Z; tf_ebp : Z; tf_oesp : Z; tf_ebx : Z; tf_edx : Z; tf_ecx : Z;
  tf_eax : Z; tf_gs : Z; tf_fs : Z; tf_es : Z; tf_ds : Z; tf_trapno : Z; tf_err : Z;
  tf_eip : Z; tf_cs : Z; tf_eflags : Z; tf_esp : Z; tf_ss : Z }.
#[export] Instance trapframe_set : Settable trapframe :=
  fun r => TF (tf_edi r) (tf_esi r) (tf_ebp r) (tf_oesp r) (tf_ebx r) (tf_edx r) (tf_ecx r)
              (tf_eax r) (tf_gs r) (tf_fs r) (tf_es r) (tf_ds r) (tf_trapno r) (tf_err r)
              (tf_eip r) (tf_cs r) (tf_eflags r) (tf_esp r) (tf_ss r).

Definition tf_zero : trapframe := TF 0 0 0 0 0 0 0 0 0 0 0 0 0 0 0 0 0 0 0.

(** [enum procstate] and [struct proc] (proc.h).  The address the saved
    context resumes at is [p_ctx]. *)
Inductive procstate := UNUSED | EMBRYO | SLEEPING | RUNNABLE | RUNNING | ZOMBIE.
#[export] Instance procstate_eqdec : EqDecision procstate.
Proof. solve_decision. Defined.

Inductive resume := Rnone | Rforkret | Rsaved.

Record proc := Proc {
  p_sz : Z; p_pgdir : Z; p_kstack : Z; p_state : procstate; p_pid : Z;
  p_parent : option nat; p_tf : trapframe; p_ctx : resume; p_chan : option chan;
  p_killed : bool; p_ofile : list (option nat); p_cwd : option nat; p_name : list Z }.
#[export] Instance proc_set : Settable proc :=
  fun r => Proc (p_sz r) (p_pgdir r) (p_kstack r) (p_state r) (p_pid r)
                (p_parent r) (p_tf r) (p_ctx r) (p_chan r) (p_killed r) (p_ofile r)
                (p_cwd r) (p_name r).

(** Physical memory: the bytes of each 4096-byte page, by kernel virtual
    address; [kmem] (kalloc.c) and the linker's symbols [end] and [data]. *)
Record kmem := Kmem {
  m_page : gmap Z (list Z); m_freelist : Z; m_use_lock : bool; m_end : Z; m_data : Z }.
#[export] Instance kmem_set : Settable kmem :=
  fun r => Kmem (m_page r) (m_freelist r) (m_use_lock r) (m_end r) (m_data r).

(** [input] (console.c). *)
Record input := Input { in_buf : list Z; in_r : Z; in_w : Z; in_e : Z }.
#[export] Instance input_set : Settable input :=
  fun r => Input (in_buf r) (in_r r) (in_w r) (in_e r).

(** The screen (console.c): the memory [crt] and the cursor, which the code
    keeps in the registers of the device. *)
Record cga := Cga { crt : list Z; crt_pos : Z }.

(** All the globals.  [k_disk] is [memdisk] by blocks, [k_writes] the history
    of the writes it received, [k_out] the bytes sent to the serial port,
    [k_locking] is [cons.locking] and [k_first] the static of [forkret]. *)
Record kstate := KS {
  k_ptable : list proc; k_nextpid : Z; k_initproc : option nat;
  k_mem : kmem;
  k_bc : bcache; k_disk : list (list Z); k_writes : list (Z * list Z);
  k_log : logst; k_sb : superblock; k_icache : list inode;
  k_ftable : list file; k_devsw : list devsw; k_pipes : gmap Z pipe;
  k_input : input; k_out : list Z; k_ticks : Z; k_trace : Z;
  k_locking : bool; k_first : bool; k_cga : cga }.
#[export] Instance kstate_set : Settable kstate :=
  fun r => KS (k_ptable r) (k_nextpid r) (k_initproc r) (k_mem r)
              (k_bc r) (k_disk r) (k_writes r) (k_log r) (k_sb r) (k_icache r)
              (k_ftable r) (k_devsw r) (k_pipes r) (k_input r) (k_out r) (k_ticks r) (k_trace r)
              (k_locking r) (k_first r) (k_cga r).

Record world := World {
  w_k : kstate; w_held : list lock; w_proc : option nat; w_env : list (kstate -> kstate) }.
#[export] Instance world_set : Settable world :=
  fun r => World (w_k r) (w_held r) (w_proc r) (w_env r).

(** The globals as the loader leaves them: zero, but for the initialised
    [nextpid] and [forkret]'s [first]. *)
Definition proc0 : proc :=
  Proc 0 0 0 UNUSED 0 None tf_zero Rnone None false (replicate NOFILE None) None (replicate 16 0).
Definition buf0 : buf := Buf 0 0 0 (SL false 0) 0 O O (replicate (Z.to_nat BSIZE) 0).
Definition inode0 : inode := Inode 0 0 0 (SL false 0) false 0 0 0 0 0 (replicate 13 0).
Definition file0 : file := File FD_NONE 0 false false 0 O 0.

Definition kstate0 : kstate :=
  KS (replicate NPROC proc0) 1 None (Kmem ∅ 0 false 0 0) (Bcache (replicate (S NBUF) buf0)) [] []
     (Log 0 0 0 false 0 0 (replicate (Z.to_nat LOGSIZE) 0)) (SB 0 0 0 0 0 0 0) (replicate NINODE inode0)
     (replicate NFILE file0) (replicate (Z.to_nat NDEV) (Devsw None None)) ∅
     (Input (replicate 128 0) 0 0 0) [] 0 0 false true (Cga (replicate (Z.to_nat (25 * 80)) 0) 0).

Definition world0 : world := World kstate0 [] None [].

(** ** The kernel monad *)

Inductive res (A : Type) :=
| Ok (a : A) (w : world)
| Panic (msg : string)
| Wait (w : world)
| Fault
| NoFuel.
Arguments Ok {A}.
Arguments Panic {A}.
Arguments Wait {A}.
Arguments Fault {A}.
Arguments NoFuel {A}.

Definition M (A : Type) : Type := world -> res A.

#[export] Instance M_ret : MRet M := fun A a w => Ok a w.
#[export] Instance M_bind : MBind M := fun A B k c w =>
  match c w with
  | Ok a w' => k a w'
  | Panic m => Panic m
  | Wait w' => Wait w'
  | Fault => Fault
  | NoFuel => NoFuel
  end.

Definition panic {A} (msg : string) : M A := fun _ => Panic msg.
Definition fault {A} : M A := fun _ => Fault.
Definition nofuel {A} : M A := fun _ => NoFuel.
Definition get {T} (f : kstate -> T) : M T := fun w => Ok (f (w_k w)) w.
Definition modify (f : kstate -> kstate) : M unit := fun w => Ok tt (w <| w_k ::= f |>).

(** Dereference: a null pointer or an index out of range is a fault. *)
Definition deref {A} (o : option A) : M A :=
  match o with Some a => mret a | None => fault end.

(** [if (c) body] *)
Definition when (c : bool) (body : M unit) : M unit := if c then body else mret tt.

(** A [for] loop over a table. *)
Fixpoint for_each {A} (l : list A) (body : A -> M unit) : M unit :=
  match l with
  | [] => mret tt
  | a :: l => body a ;; for_each l body
  end.

(** A [for] loop that may leave with [break], [return] or [goto]. *)
Fixpoint find_each {A R} (l : list A) (body : A -> M (option R)) : M (option R) :=
  match l with
  | [] => mret None
  | a :: l =>
      r ← body a;
      match r with Some x => mret (Some x) | None => find_each l body end
  end.

(** A general loop: the body continues with a new state or leaves with a
    result. *)
Fixpoint loop {S R} (fuel : nat) (body : S -> M (S + R)) (s : S) : M R :=
  match fuel with
  | O => nofuel
  | Datatypes.S fuel =>
      r ← body s;
      match r with inl s' => loop fuel body s' | inr x => mret x end
  end.

(** A loop every iteration of which that continues has slept: the schedule
    bounds the number of iterations. *)
Definition loop_sleep {S R} (body : S -> M (S + R)) (s : S) : M R :=
  fun w => loop (Datatypes.S (length (w_env w))) body s w.

(** ** Spin locks as this CPU sees them

    [acquire] panics on a lock already held and [release] on one that is not;
    Spinlock.v models spinlock.c itself and proves that it behaves so. *)

Definition holding (lk : lock) : M bool := fun w => Ok (bool_decide (lk ∈ w_held w)) w.

Definition acquire (lk : lock) : M unit := fun w =>
  if bool_decide (lk ∈ w_held w) then Panic "acquire"
  else Ok tt (w <| w_held ::= cons lk |>).

Fixpoint remove_lock (lk : lock) (l : list lock) : list lock :=
  match l with
  | [] => []
  | x :: l => if bool_decide (x = lk) then l else x :: remove_lock lk l
  end.

Definition release (lk : lock) : M unit := fun w =>
  if bool_decide (lk ∈ w_held w) then Ok tt (w <| w_held ::= remove_lock lk |>)
  else Panic "release".

(** ** The current process and the context switch *)

Definition myproc : M (option nat) := fun w => Ok (w_proc w) w.

(** [swtch]: the other threads run, then this one is resumed. *)
Definition swtch : M unit := fun w =>
  match w_env w with
  | [] => Wait w
  | f :: rest => Ok tt (w <| w_k ::= f |> <| w_env := rest |>)
  end.

(** ** Table accesses *)

Definition get_proc (p : nat) : M proc := ps ← get k_ptable; deref (ps !! p).
Definition upd_proc (p : nat) (f : proc -> proc) : M unit :=
  modify (fun k => k <| k_ptable ::= alter f p |>).
Definition get_buf (b : nat) : M buf := bc ← get k_bc; deref (bc_buf bc !! b).
Definition upd_buf (b : nat) (f : buf -> buf) : M unit :=
  modify (fun k => k <| k_bc ::= fun bc => bc <| bc_buf ::= alter f b |> |>).
Definition get_inode (ip : nat) : M inode := ics ← get k_icache; deref (ics !! ip).
Definition upd_inode (ip : nat) (f : inode -> inode) : M unit :=
  modify (fun k => k <| k_icache ::= alter f ip |>).
Definition get_file (f : nat) : M file := fs ← get k_ftable; deref (fs !! f).
Definition upd_file (f : nat) (g : file -> file) : M unit :=
  modify (fun k => k <| k_ftable ::= alter g f |>).
Definition get_pipe (p : Z) : M pipe := ps ← get k_pipes; deref (ps !! p).
Definition upd_pipe (p : Z) (f : pipe -> pipe) : M unit :=
  modify (fun k => k <| k_pipes ::= alter f p |>).
Definition upd_log (f : logst -> logst) : M unit := modify (fun k => k <| k_log ::= f |>).

(** [myproc()->field]. *)
Definition curproc : M nat := op ← myproc; deref op.
Definition my {T} (f : proc -> T) : M T := i ← curproc; p ← get_proc i; mret (f p).

(** ** Weakest preconditions

    [wp c w Q]: from [w], [c] returns, and does so in a state that satisfies
    [Q].  [wlp c w Q]: from [w], [c] does not panic or fault, and satisfies [Q]
    if it returns; it may be left asleep. *)

Definition wp {A} (c : M A) (w : world) (Q : A -> world -> Prop) : Prop :=
  match c w with Ok a w' => Q a w' | _ => False end.

Definition wlp {A} (c : M A) (w : world) (Q : A -> world -> Prop) : Prop :=
  match c w with Ok a w' => Q a w' | Wait _ => True | _ => False end.

Section WP.
Context {A B : Type}.
Implicit Types (c : M A) (k : A -> M B) (w : world).

Lemma wp_ret (a : A) w Q : Q a w -> wp (mret a) w Q.
Proof. done. Qed.

Lemma wp_bind c k w Q : wp c w (fun a w' => wp (k a) w' Q) -> wp (c ≫= k) w Q.
Proof. unfold wp, mbind, M_bind. destruct (c w); tauto. Qed.

Lemma wp_mono c w (P Q : A -> world -> Prop) :
  wp c w P -> (forall a w', P a w' -> Q a w') -> wp c w Q.
Proof. unfold wp. destruct (c w); auto. Qed.

Lemma wp_inv c w Q : wp c w Q -> exists a w', c w = Ok a w' /\ Q a w'.
Proof. unfold wp. destruct (c w); eauto; done. Qed.

Lemma wp_intro c w a w' (Q : A -> world -> Prop) : c w = Ok a w' -> Q a w' -> wp c w Q.
Proof. unfold wp. intros ->. done. Qed.

(** One step of a sequence whose first part is known to return. *)
Lemma bind_run c k w a w' : c w = Ok a w' -> (c ≫= k) w = k a w'.
Proof. unfold mbind, M_bind. by intros ->. Qed.

Lemma wlp_bind c k w Q : wlp c w (fun a w' => wlp (k a) w' Q) -> wlp (c ≫= k) w Q.
Proof. unfold wlp, mbind, M_bind. destruct (c w); tauto. Qed.

Lemma wp_wlp c w Q : wp c w Q -> wlp c w Q.
Proof. unfold wp, wlp. destruct (c w); done. Qed.

Lemma wlp_mono c w (P Q : A -> world -> Prop) :
  wlp c w P -> (forall a w', P a w' -> Q a w') -> wlp c w Q.
Proof. unfold wlp. destruct (c w); auto. Qed.

End WP.

Lemma seq_run {B} (c d : M unit) (k : M B) w w' : (c ;; d) w = Ok tt w' -> (c ;; d ;; k) w = k w'.
Proof.
  unfold mbind, M_bind. destruct (c w) as [[] w1| | | |]; try done. by intros ->.
Qed.

Lemma loop_exit {S R} n (body : S -> M (S + R)) s w x w' :
  body s w = Ok (inr x) w' -> loop (Datatypes.S n) body s w = Ok x w'.
Proof. intros H. cbn. by rewrite (bind_run _ _ _ _ _ H). Qed.

Lemma loop_next {S R} n (body : S -> M (S + R)) s w s' w' :
  body s w = Ok (inl s') w' -> loop (Datatypes.S n) body s w = loop n body s' w'.
Proof. intros H. cbn. by rewrite (bind_run _ _ _ _ _ H). Qed.

Lemma get_proc_run i w p : k_ptable (w_k w) !! i = Some p -> get_proc i w = Ok p w.
Proof. intros H. unfold get_proc, get, mbind, M_bind, deref. cbn. by rewrite H. Qed.

Lemma get_file_run f w x : k_ftable (w_k w) !! f = Some x -> get_file f w = Ok x w.
Proof. intros H. unfold get_file, get, mbind, M_bind, deref. cbn. by rewrite H. Qed.

Lemma get_pipe_run p w x : k_pipes (w_k w) !! p = Some x -> get_pipe p w = Ok x w.
Proof. intros H. unfold get_pipe, get, mbind, M_bind, deref. cbn. by rewrite H. Qed.

Lemma get_inode_run ip w x : k_icache (w_k w) !! ip = Some x -> get_inode ip w = Ok x w.
Proof. intros H. unfold get_inode, get, mbind, M_bind, deref. cbn. by rewrite H. Qed.

Lemma deref_run {T} (o : option T) x w : o = Some x -> deref o w = Ok x w.
Proof. by intros ->. Qed.

Lemma wp_modify f w (Q : unit -> world -> Prop) : Q tt (w <| w_k ::= f |>) -> wp (modify f) w Q.
Proof. done. Qed.

Lemma wp_get {T} (f : kstate -> T) w Q : Q (f (w_k w)) w -> wp (get f) w Q.
Proof. done. Qed.

Lemma wp_deref {T} (o : option T) x w Q : o = Some x -> Q x w -> wp (deref o) w Q.
Proof. intros ->. done. Qed.

Lemma wp_acquire lk w (Q : unit -> world -> Prop) :
  lk ∉ w_held w -> Q tt (w <| w_held ::= cons lk |>) -> wp (acquire lk) w Q.
Proof. intros H HQ. unfold wp, acquire. by rewrite bool_decide_eq_false_2. Qed.

Lemma wp_release lk w h (Q : unit -> world -> Prop) :
  w_held w = lk :: h -> Q tt (w <| w_held := h |>) -> wp (release lk) w Q.
Proof.
  intros H HQ. unfold wp, release. rewrite H.
  rewrite bool_decide_eq_true_2 by set_solver.
  unfold setter in *. rewrite H. cbn in *. by rewrite bool_decide_eq_true_2.
Qed.

(** The invariant rule for a [for] loop over a table: [I] is indexed by the
    elements already visited. *)
Lemma wp_for_each {A} (l : list A) (body : A -> M unit) (I : list A -> world -> Prop) w Q :
  I [] w ->
  (forall pre a post w', l = pre ++ a :: post -> I pre w' ->
     wp (body a) w' (fun _ w'' => I (pre ++ [a]) w'')) ->
  (forall w', I l w' -> Q tt w') ->
  wp (for_each l body) w Q.
Proof.
  intros H0 Hstep Hend.
  assert (forall post pre w', l = pre ++ post -> I pre w' -> wp (for_each post body) w' Q) as G.
  { induction post as [|a post IH]; intros pre w' El HI.
    - rewrite app_nil_r in El. subst. cbn. by apply wp_ret, Hend.
    - cbn. apply wp_bind. eapply wp_mono; [by eapply Hstep|].
      intros [] w'' HI''. eapply IH; [|done]. by rewrite <- app_assoc. }
  by eapply (G l []).
Qed.

(** The rule for a loop that searches: either no element stops it, or a first
    one does. *)
Lemma wp_find_each {A R} (l : list A) (body : A -> M (option R))
    (I : list A -> world -> Prop) w Q :
  I [] w ->
  (forall pre a post w', l = pre ++ a :: post -> I pre w' ->
     wp (body a) w' (fun r w'' =>
       match r with Some x => Q (Some x) w'' | None => I (pre ++ [a]) w'' end)) ->
  (forall w', I l w' -> Q None w') ->
  wp (find_each l body) w Q.
Proof.
  intros H0 Hstep Hend.
  assert (forall post pre w', l = pre ++ post -> I pre w' -> wp (find_each post body) w' Q) as G.
  { induction post as [|a post IH]; intros pre w' El HI.
    - rewrite app_nil_r in El. subst. cbn. by apply wp_ret, Hend.
    - cbn. apply wp_bind. eapply wp_mono; [by eapply Hstep|].
      intros [x|] w'' HI''; [done|]. eapply IH; [|done]. by rewrite <- app_assoc. }
  by eapply (G l []).
Qed.

(** Running a search whose body only reads: it finds the first element that
    the pure test accepts. *)
Fixpoint first_some {A R} (f : A -> option R) (l : list A) : option R :=
  match l with
  | [] => None
  | a :: l => match f a with Some x => Some x | None => first_some f l end
  end.

Lemma find_each_pure {A R} (l : list A) (body : A -> M (option R)) (f : A -> option R) w :
  (forall a, a ∈ l -> body a w = Ok (f a) w) ->
  find_each l body w = Ok (first_some f l) w.
Proof.
  induction l as [|a l IH]; intros H; [done|].
  cbn. unfold mbind, M_bind. rewrite H by set_solver.
  destruct (f a); [done|]. apply IH. set_solver.
Qed.

Lemma first_some_Some {A R} (f : A -> option R) l r :
  first_some f l = Some r ->
  exists pre a post, l = pre ++ a :: post /\ f a = Some r /\ Forall (fun b => f b = None) pre.
Proof.
  induction l as [|a l IH]; cbn; [done|].
  destruct (f a) as [x|] eqn:E; intros H.
  - simplify_eq. exists [], a, l. auto.
  - destruct (IH H) as (pre & b & post & -> & Hb & Hpre). exists (a :: pre), b, post. auto.
Qed.

Lemma first_some_None {A R} (f : A -> option R) l :
  first_some f l = None <-> Forall (fun b => f b = None) l.
Proof.
  induction l as [|a l IH]; cbn; [by split|].
  rewrite Forall_cons. destruct (f a); [split; [done | by intros [? _]]|].
  rewrite IH. tauto.
Qed.

(** [wp_step] performs the next statement; [wp_go] all those that need no
    choice. *)
Ltac wp_step :=
  cbv beta;
  lazymatch goal with
  | |- wp (mbind _ _) _ _ => apply wp_bind; cbv beta
  | |- wp (mret _) _ _ => apply wp_ret; cbv beta
  | |- wp (get _) _ _ => apply wp_get; cbv beta
  | |- wp (modify _) _ _ => apply wp_modify; cbv beta
  | |- wp (deref (Some _)) _ _ => eapply wp_deref; [reflexivity|]; cbv beta
  | |- wp (let _ := _ in _) _ _ => cbv zeta
  | |- wp (when true _) _ _ => cbn [when]
  | |- wp (when false _) _ _ => cbn [when]
  end.
Ltac wp_go := repeat wp_step.

(** A search that stops at [a], and one that stops nowhere. *)
Lemma find_each_hit {A R} (pre : list A) a post (body : A -> M (option R)) w r w' :
  (forall x, x ∈ pre -> body x w = Ok None w) -> body a w = Ok (Some r) w' ->
  find_each (pre ++ a :: post) body w = Ok (Some r) w'.
Proof.
  induction pre as [|x pre IH]; intros Hpre Ha; cbn; unfold mbind, M_bind.
  - by rewrite Ha.
  - rewrite Hpre by (by left). apply IH; [|done]. intros y Hy. apply Hpre. by right.
Qed.

Lemma find_each_miss {A R} (l : list A) (body : A -> M (option R)) w :
  (forall x, x ∈ l -> body x w = Ok None w) -> find_each l body w = Ok None w.
Proof.
  induction l as [|x l IH]; intros H; cbn; unfold mbind, M_bind; [done|].
  rewrite H by (by left). apply IH. intros y Hy. apply H. by right.
Qed.

(** Acquiring a lock not held and releasing it again. *)
Lemma acquire_run lk w :
  lk ∉ w_held w -> acquire lk w = Ok tt (w <| w_held ::= cons lk |>).
Proof. intros H. unfold acquire. by rewrite bool_decide_eq_false_2. Qed.

Lemma release_run lk w h :
  w_held w = lk :: h -> release lk w = Ok tt (w <| w_held := h |>).
Proof.
  intros H. unfold release, setter. rewrite H.
  rewrite bool_decide_eq_true_2 by (by left). cbn. by rewrite bool_decide_eq_true_2.
Qed.

(** The first element of a list with a decidable property. *)
Lemma first_split {A} (P : A -> Prop) `{forall x, Decision (P x)} (l : list A) :
  Exists P l -> exists pre a post, l = pre ++ a :: post /\ P a /\ Forall (fun x => ~ P x) pre.
Proof.
  induction l as [|x l IH]; intros Hex; [by inversion Hex|].
  destruct (decide (P x)) as [Hx|Hx].
  - exists [], x, l. auto.
  - apply Exists_cons in Hex as [?|Hex]; [done|].
    destruct (IH Hex) as (pre & a & post & -> & Ha & Hpre). exists (x :: pre), a, post. auto.
Qed.
