(* ===== verification/Sched.v ===== *)
(** Giving up the CPU, sleeping and waking: [sched], [yield], [sleep],
    [wakeup1], [wakeup], [kill] and [process_count] of proc.c, and the sleep
    locks of sleeplock.c that are built on them. *)

From S2P Require Import Prelude Kernel.

(** The loop [for(p = ptable.proc; p < &ptable.proc[NPROC]; p++)]. *)
Definition procs : list nat := seq 0 NPROC.

(** Depth of [pushcli] nesting: one level per lock held. *)
Definition ncli : M Z := fun w => Ok (Z.of_nat (length (w_held w))) w.

(** Interrupts are on exactly when nothing has disabled them. *)
Definition interruptible : M bool := n ← ncli; mret (n =? 0).

(** ** proc.c *)

Definition process_count : M Z :=
  acquire Lptable ;;
  ps ← get k_ptable;
  let count := foldl (fun c p => if bool_decide (p_state p = UNUSED) then c else c + 1) 0 ps in
  release Lptable ;;
  mret count.

Definition sched : M unit :=
  h ← holding Lptable;
  if negb h then panic "sched ptable.lock" else
  n ← ncli;
  if negb (n =? 1) then panic "sched locks" else
  i ← curproc;
  p ← get_proc i;
  if bool_decide (p_state p = RUNNING) then panic "sched running" else
  fl ← interruptible;
  if (fl : bool) then panic "sched interruptible" else
  upd_proc i (fun p => p <| p_ctx := Rsaved |>) ;;
  swtch.

Definition yield : M unit :=
  acquire Lptable ;;
  i ← curproc;
  upd_proc i (fun p => p <| p_state := RUNNABLE |>) ;;
  sched ;;
  release Lptable.

Definition sleep (ch : chan) (lk : option lock) : M unit :=
  op ← myproc;
  match op with
  | None => panic "sleep"
  | Some i =>
      match lk with
      | None => panic "sleep without lk"
      | Some lk =>
          when (negb (bool_decide (lk = Lptable))) (acquire Lptable ;; release lk) ;;
          upd_proc i (fun p => p <| p_chan := Some ch |>) ;;
          upd_proc i (fun p => p <| p_state := SLEEPING |>) ;;
          sched ;;
          upd_proc i (fun p => p <| p_chan := None |>) ;;
          when (negb (bool_decide (lk = Lptable))) (release Lptable ;; acquire lk)
      end
  end.

Definition wakeup1 (ch : option chan) : M unit :=
  for_each procs (fun i =>
    p ← get_proc i;
    when (bool_decide (p_state p = SLEEPING) && bool_decide (p_chan p = ch))
      (upd_proc i (fun p => p <| p_state := RUNNABLE |>))).

Definition wakeup (ch : chan) : M unit :=
  acquire Lptable ;;
  wakeup1 (Some ch) ;;
  release Lptable.

Definition kill (pid : Z) : M Z :=
  acquire Lptable ;;
  r ← find_each procs (fun i =>
    p ← get_proc i;
    if p_pid p =? pid then
      upd_proc i (fun p => p <| p_killed := true |>) ;;
      when (bool_decide (p_state p = SLEEPING))
        (upd_proc i (fun p => p <| p_state := RUNNABLE |>)) ;;
      release Lptable ;;
      mret (Some 0)
    else mret None);
  match r with
  | Some v => mret v
  | None => release Lptable ;; mret (-1)
  end.

(** ** sleeplock.c *)

Definition sl_get (s : slid) : M sleeplock :=
  match s with
  | SLbuf b => x ← get_buf b; mret (b_lock x)
  | SLinode ip => x ← get_inode ip; mret (i_lock x)
  end.

Definition sl_upd (s : slid) (f : sleeplock -> sleeplock) : M unit :=
  match s with
  | SLbuf b => upd_buf b (fun x => x <| b_lock ::= f |>)
  | SLinode ip => upd_inode ip (fun x => x <| i_lock ::= f |>)
  end.

Definition initsleeplock (s : slid) : M unit :=
  sl_upd s (fun _ => SL false 0).

Definition acquiresleep (s : slid) : M unit :=
  acquire (Lsleep s) ;;
  loop_sleep (fun _ : unit =>
    l ← sl_get s;
    if sl_locked l then sleep (Csleep s) (Some (Lsleep s)) ;; mret (inl tt)
    else mret (inr tt)) tt ;;
  sl_upd s (fun l => l <| sl_locked := true |>) ;;
  pid ← my p_pid;
  sl_upd s (fun l => l <| sl_pid := pid |>) ;;
  release (Lsleep s).

Definition releasesleep (s : slid) : M unit :=
  acquire (Lsleep s) ;;
  sl_upd s (fun l => l <| sl_locked := false |>) ;;
  sl_upd s (fun l => l <| sl_pid := 0 |>) ;;
  wakeup (Csleep s) ;;
  release (Lsleep s).

Definition holdingsleep (s : slid) : M bool :=
  acquire (Lsleep s) ;;
  l ← sl_get s;
  pid ← my p_pid;
  let r := sl_locked l && (sl_pid l =? pid) in
  release (Lsleep s) ;;
  mret r.

(** ** Waking *)

(** What [wakeup1 ch] does to one entry of the table. *)
Definition wake1 (ch : option chan) (p : proc) : proc :=
  if bool_decide (p_state p = SLEEPING) && bool_decide (p_chan p = ch)
  then p <| p_state := RUNNABLE |> else p.

(** A loop over the table whose body only rewrites its own entry is a map. *)
Lemma for_each_procs (body : nat -> M unit) (f : proc -> proc) w :
  (forall i p k, k_ptable k !! i = Some p ->
     body i (w <| w_k := k |>) = Ok tt (w <| w_k := k <| k_ptable ::= alter f i |> |>)) ->
  length (k_ptable (w_k w)) = NPROC ->
  for_each procs body w = Ok tt (w <| w_k ::= fun k => k <| k_ptable ::= map f |> |>).
Proof.
  intros Hb Hlen. unfold procs. rewrite <- Hlen. destruct w as [k h pr e]. cbn in *.
  assert (forall post pre,
    for_each (seq (length pre) (length post)) body
      (World (k <| k_ptable := map f pre ++ post |>) h pr e)
    = Ok tt (World (k <| k_ptable := map f (pre ++ post) |>) h pr e)) as G.
  { induction post as [|p post IH]; intros pre.
    - cbn. by rewrite !app_nil_r.
    - cbn [seq length for_each]. unfold mbind, M_bind.
      specialize (Hb (length pre) p (k <| k_ptable := map f pre ++ p :: post |>)).
      unfold setter in *. cbn in *. rewrite Hb.
      2:{ rewrite lookup_app_r; rewrite length_map; [by rewrite Nat.sub_diag | done]. }
      specialize (IH (pre ++ [p])). rewrite length_app in IH. cbn in IH.
      rewrite Nat.add_1_r, <- app_assoc, map_app, <- app_assoc in IH. cbn in IH.
      replace (alter f (length pre) (map f pre ++ p :: post))
        with (map f pre ++ f p :: post); [exact IH|].
      rewrite alter_app_r_alt by (rewrite length_map; lia).
      by rewrite length_map, Nat.sub_diag. }
  specialize (G (k_ptable k) []). cbn in G. unfold setter in *. cbn in *.
  destruct k; exact G.
Qed.

Lemma wakeup1_run ch w :
  length (k_ptable (w_k w)) = NPROC ->
  wakeup1 ch w = Ok tt (w <| w_k ::= fun k => k <| k_ptable ::= map (wake1 ch) |> |>).
Proof.
  intros Hlen. unfold wakeup1. apply for_each_procs; [|done].
  intros i p k Hp. unfold get_proc, upd_proc, get, modify, deref, mbind, M_bind.
  unfold setter. cbn. rewrite Hp. cbn. unfold when.
  destruct (bool_decide _ && bool_decide _) eqn:E; cbn.
  - erewrite (alter_ext_at _ (wake1 ch)); [done|done|]. unfold wake1. by rewrite E.
  - erewrite (alter_id_at (wake1 ch)); [by destruct k|done|]. unfold wake1. by rewrite E.
Qed.

Lemma wakeup_run ch w :
  length (k_ptable (w_k w)) = NPROC -> Lptable ∉ w_held w ->
  wakeup ch w = Ok tt (w <| w_k ::= fun k => k <| k_ptable ::= map (wake1 (Some ch)) |> |>).
Proof.
  intros Hlen Hh. unfold wakeup, acquire, release, mbind, M_bind.
  rewrite bool_decide_eq_false_2 by done. cbv iota. rewrite wakeup1_run by done.
  unfold setter. cbn. rewrite bool_decide_eq_true_2 by set_solver. cbn.
  by rewrite bool_decide_eq_true_2.
Qed.

(** Waking changes nothing of a process but its state. *)
Definition woken1 (p p' : proc) : Prop :=
  p' = p \/ p_state p = SLEEPING /\ p' = p <| p_state := RUNNABLE |>.
Definition woken (ps ps' : list proc) : Prop := Forall2 woken1 ps ps'.

Lemma wake1_woken ch p : woken1 p (wake1 ch p).
Proof.
  unfold wake1, woken1. destruct (bool_decide (p_state p = SLEEPING)) eqn:E; cbn; [|by left].
  apply bool_decide_eq_true in E. case_bool_decide; auto.
Qed.

Lemma map_wake1_woken ch ps : woken ps (map (wake1 ch) ps).
Proof. induction ps; constructor; auto using wake1_woken. Qed.

#[export] Instance woken_preorder : PreOrder woken.
Proof.
  split.
  - intros ps. apply Forall2_same_length_lookup_2; [done|].
    intros i x y Hx Hy. left. congruence.
  - intros a b c. unfold woken. intros Hab. revert c.
    induction Hab as [|x y a b Hxy Hab IH]; intros c Hbc; inversion Hbc; subst; constructor; [|auto].
    destruct Hxy as [->|[Hx ->]]; [done|].
    match goal with H : woken1 _ _ |- _ => destruct H as [->|[Hs _]] end; [by right|].
    cbn in Hs. congruence.
Qed.

Lemma woken_length ps ps' : woken ps ps' -> length ps' = length ps.
Proof. intros H. symmetry. by eapply Forall2_length. Qed.

Lemma woken_lookup ps ps' i p :
  woken ps ps' -> ps !! i = Some p -> exists p', ps' !! i = Some p' /\ woken1 p p'.
Proof. intros H Hp. eapply Forall2_lookup_l in H; eauto. Qed.

Lemma woken1_pid p p' : woken1 p p' -> p_pid p' = p_pid p.
Proof. by intros [->|[_ ->]]. Qed.

#[export] Hint Resolve map_wake1_woken wake1_woken : xv6.

(** ** Sleep locks *)

Definition sl_of (k : kstate) (s : slid) : option sleeplock :=
  match s with
  | SLbuf b => b_lock <$> bc_buf (k_bc k) !! b
  | SLinode ip => i_lock <$> k_icache k !! ip
  end.

Definition sl_put (s : slid) (l : sleeplock) (k : kstate) : kstate :=
  match s with
  | SLbuf b => k <| k_bc ::= fun bc => bc <| bc_buf ::= alter (fun x => x <| b_lock := l |>) b |> |>
  | SLinode ip => k <| k_icache ::= alter (fun x => x <| i_lock := l |>) ip |>
  end.

(** The process the CPU runs. *)
Definition running (w : world) (i : nat) (p : proc) : Prop :=
  w_proc w = Some i /\ k_ptable (w_k w) !! i = Some p.

Lemma curproc_run w i p : running w i p -> curproc w = Ok i w.
Proof. intros [H _]. unfold curproc, myproc, mbind, M_bind. rewrite H. done. Qed.

Lemma my_run {T} (f : proc -> T) w i p : running w i p -> my f w = Ok (f p) w.
Proof.
  intros H. unfold my, mbind, M_bind. erewrite curproc_run by done.
  destruct H as [_ H]. unfold get_proc, get, mbind, M_bind, deref. cbn. by rewrite H.
Qed.

Lemma sl_get_run s w l : sl_of (w_k w) s = Some l -> sl_get s w = Ok l w.
Proof.
  unfold sl_of, sl_get, get_buf, get_inode, get, mbind, M_bind.
  destruct s; cbn; [destruct (_ !! b) | destruct (_ !! ip)]; cbn; intros; simplify_eq; done.
Qed.

Lemma sl_upd_run s f w l :
  sl_of (w_k w) s = Some l -> sl_upd s f w = Ok tt (w <| w_k ::= sl_put s (f l) |>).
Proof.
  unfold sl_of, sl_upd, sl_put, upd_buf, upd_inode, modify. unfold setter. cbn.
  destruct s; cbn; [destruct (_ !! b) eqn:E | destruct (_ !! ip) eqn:E]; cbn; intros; simplify_eq.
  - by erewrite (alter_ext_at _ (fun x => x <| b_lock := f (b_lock b0) |>)).
  - by erewrite (alter_ext_at _ (fun x => x <| i_lock := f (i_lock i) |>)).
Qed.

Lemma sl_of_put s l k l0 : sl_of k s = Some l0 -> sl_of (sl_put s l k) s = Some l.
Proof.
  unfold sl_of, sl_put. destruct s; cbn; rewrite list_lookup_alter, decide_True by done.
  - by destruct (_ !! b).
  - by destruct (_ !! ip).
Qed.

Lemma sl_put_put s l1 l2 k : sl_put s l2 (sl_put s l1 k) = sl_put s l2 k.
Proof.
  unfold sl_put, setter. destruct s; cbn; by rewrite alter_alter.
Qed.

Lemma sl_put_ptable s l k : k_ptable (sl_put s l k) = k_ptable k.
Proof. by destruct s. Qed.

Lemma acquiresleep_run s w i p l :
  running w i p -> sl_of (w_k w) s = Some l -> sl_locked l = false -> Lsleep s ∉ w_held w ->
  acquiresleep s w = Ok tt (w <| w_k ::= sl_put s (SL true (p_pid p)) |>).
Proof.
  intros [Hw Hp] Hl Hf Hh. unfold acquiresleep, acquire, release, loop_sleep.
  unfold mbind, M_bind. rewrite bool_decide_eq_false_2 by done. unfold setter. cbv iota.
  cbn [loop]. unfold mbind, M_bind. erewrite sl_get_run by done. rewrite Hf. cbn.
  erewrite sl_upd_run by done. cbn.
  erewrite my_run; [|split; cbn; rewrite ?sl_put_ptable; done].
  erewrite sl_upd_run by (cbn; by eapply sl_of_put). unfold setter. cbn.
  rewrite bool_decide_eq_true_2 by set_solver. cbn. rewrite bool_decide_eq_true_2 by done.
  by rewrite sl_put_put.
Qed.

Lemma releasesleep_run s w l :
  sl_of (w_k w) s = Some l -> length (k_ptable (w_k w)) = NPROC ->
  Lsleep s ∉ w_held w -> Lptable ∉ w_held w ->
  releasesleep s w = Ok tt (w <| w_k ::= fun k =>
    sl_put s (SL false 0) k <| k_ptable ::= map (wake1 (Some (Csleep s))) |> |>).
Proof.
  intros Hl Hlen Hh Hh'. unfold releasesleep, acquire, release.
  unfold mbind, M_bind. rewrite bool_decide_eq_false_2 by done. unfold setter. cbv iota.
  erewrite sl_upd_run by done. cbn.
  erewrite sl_upd_run by (cbn; by eapply sl_of_put). unfold setter. cbn.
  rewrite wakeup_run; unfold setter; cbn; rewrite ?sl_put_ptable; [|done|].
  2:{ rewrite elem_of_cons. naive_solver. }
  rewrite bool_decide_eq_true_2 by (apply elem_of_cons; by left). cbn.
  rewrite bool_decide_eq_true_2 by done. rewrite sl_put_put. by destruct s.
Qed.

Lemma holdingsleep_run s w i p l :
  running w i p -> sl_of (w_k w) s = Some l -> Lsleep s ∉ w_held w ->
  holdingsleep s w = Ok (sl_locked l && (sl_pid l =? p_pid p)) w.
Proof.
  intros Hr Hl Hh. unfold holdingsleep, acquire, release.
  unfold mbind, M_bind. rewrite bool_decide_eq_false_2 by done. unfold setter. cbv iota.
  erewrite sl_get_run by done. erewrite my_run by (destruct Hr; split; done). cbn.
  rewrite bool_decide_eq_true_2 by set_solver. cbn. rewrite bool_decide_eq_true_2 by done.
  by destruct w.
Qed.
