(* ===== verification/Str.v ===== *)
(** The string routines of the kernel (string.c).

    Memory is a list of bytes.  A C string is the list from the pointer to the
    end of its object; [None] is an access outside the object. *)

From S2P Require Import Prelude.

Definition st (mem : list Z) (i : nat) (v : Z) : option (list Z) :=
  if (i <? length mem)%nat then Some (<[i := v]> mem) else None.

(** ** string.c *)

Module Kstring.

(** x86.h: [rep stosb] and [rep stosl]. *)
Fixpoint stosb (mem : list Z) (d : nat) (data : Z) (cnt : nat) : option (list Z) :=
  match cnt with
  | O => Some mem
  | S cnt => mem ← st mem d (u8 data); stosb mem (S d) data cnt
  end.

Fixpoint stosl (mem : list Z) (d : nat) (data : Z) (cnt : nat) : option (list Z) :=
  match cnt with
  | O => Some mem
  | S cnt =>
      mem ← st mem d (u8 data);
      mem ← st mem (d + 1) (u8 (Z.shiftr data 8));
      mem ← st mem (d + 2) (u8 (Z.shiftr data 16));
      mem ← st mem (d + 3) (u8 (Z.shiftr data 24));
      stosl mem (d + 4) data cnt
  end.

(** [base] is the address of [mem]. *)
Definition memset (base : Z) (mem : list Z) (dst : nat) (c : Z) (n : nat) : option (list Z) :=
  if (Z.rem (i32 (base + Z.of_nat dst)) 4 =? 0) && (Z.of_nat n mod 4 =? 0) then
    let c := Z.land c 255 in
    stosl mem dst (Z.lor (Z.lor (Z.lor (Z.shiftl c 24) (Z.shiftl c 16)) (Z.shiftl c 8)) c) (n / 4)
  else stosb mem dst c n.

Fixpoint memcmp (s1 s2 : list Z) (n : nat) {struct n} : option Z :=
  match n with
  | O => Some 0
  | S n =>
      match s1, s2 with
      | x :: s1, y :: s2 => if negb (x =? y) then Some (x - y) else memcmp s1 s2 n
      | _, _ => None
      end
  end.

Fixpoint copy_back (mem : list Z) (d s n : nat) : option (list Z) :=
  match n with
  | O => Some mem
  | S n =>
      x ← mem !! (s - 1)%nat;
      mem ← st mem (d - 1) x;
      copy_back mem (d - 1) (s - 1) n
  end.

Fixpoint copy_forth (mem : list Z) (d s n : nat) : option (list Z) :=
  match n with
  | O => Some mem
  | S n =>
      x ← mem !! s;
      mem ← st mem d x;
      copy_forth mem (S d) (S s) n
  end.

Definition memmove (mem : list Z) (dst src n : nat) : option (list Z) :=
  if (src <? dst)%nat && (dst <? src + n)%nat then copy_back mem (dst + n) (src + n) n
  else copy_forth mem dst src n.

Definition memcpy (mem : list Z) (dst src n : nat) : option (list Z) := memmove mem dst src n.

Fixpoint strncmp (p q : list Z) (n : nat) {struct n} : option Z :=
  match n with
  | O => Some 0
  | S n =>
      match p, q with
      | x :: p, y :: q => if negb (x =? 0) && (x =? y) then strncmp p q n else Some (x - y)
      | _, _ => None
      end
  end.

(** The second loop of [strncpy]. *)
Fixpoint zero_fill (s : list Z) (n : nat) {struct n} : option (list Z) :=
  match n with
  | O => Some s
  | S n => match s with [] => None | _ :: s => r ← zero_fill s n; Some (0 :: r) end
  end.

Fixpoint strncpy (s t : list Z) (n : nat) {struct n} : option (list Z) :=
  match n with
  | O => Some s
  | S n =>
      match s, t with
      | _ :: s, x :: t =>
          r ← (if negb (x =? 0) then strncpy s t n else zero_fill s n);
          Some (x :: r)
      | _, _ => None
      end
  end.

(** [*s = 0]. *)
Definition put0 (s : list Z) : option (list Z) :=
  match s with [] => None | _ :: s => Some (0 :: s) end.

(** The loop of [safestrcpy], with [k] the value of [n - 1]. *)
Fixpoint safecopy (s t : list Z) (k : nat) {struct k} : option (list Z) :=
  match k with
  | O => put0 s
  | S k =>
      match s, t with
      | _ :: s, x :: t =>
          r ← (if negb (x =? 0) then safecopy s t k else put0 s);
          Some (x :: r)
      | _, _ => None
      end
  end.

Definition safestrcpy (s t : list Z) (n : Z) : option (list Z) :=
  if n <=? 0 then Some s else safecopy s t (Z.to_nat (n - 1)).

Fixpoint strlen (s : list Z) : option nat :=
  match s with
  | [] => None
  | x :: s => if x =? 0 then Some O else n ← strlen s; Some (S n)
  end.

End Kstring.

(** ** Properties *)

Lemma st_Some mem i v : (i < length mem)%nat -> st mem i v = Some (<[i := v]> mem).
Proof. intros H. unfold st. by apply Nat.ltb_lt in H as ->. Qed.

Section Kstring_facts.
Import Kstring.

(** Copying upwards is right when the destination is not inside what is still
    to be read. *)
Lemma copy_forth_blit n mem d s :
  (d + n <= length mem)%nat -> (s + n <= length mem)%nat -> (d <= s \/ s + n <= d)%nat ->
  copy_forth mem d s n = Some (blit mem d (slice mem s n)).
Proof.
  revert mem d s. induction n as [|n IH]; intros mem d s Hd Hs Ho; cbn [copy_forth].
  - f_equal. unfold slice. rewrite take_0. unfold blit. cbn. by rewrite Nat.add_0_r, take_drop.
  - destruct (mem !! s) as [x|] eqn:Ex; [|apply lookup_ge_None in Ex; lia]. cbn.
    rewrite st_Some by lia. cbn. rewrite IH by (rewrite ?length_insert; lia). f_equal.
    apply list_eq. intros i.
    rewrite !lookup_blit by (rewrite ?length_slice, ?length_insert; rewrite ?length_insert; lia).
    rewrite !length_slice by (rewrite ?length_insert; lia). rewrite !lookup_slice.
    destruct (decide (i = d)) as [->|Hid].
    + rewrite decide_False by lia. rewrite decide_True by lia. rewrite decide_True by lia.
      rewrite list_lookup_insert_eq by lia. by rewrite Nat.sub_diag, Nat.add_0_r.
    + destruct (decide (S d <= i < S d + n)%nat).
      * rewrite decide_True by lia. rewrite (decide_True (P:=(d <= i < d + S n)%nat)) by lia.
        rewrite decide_True by lia. rewrite list_lookup_insert_ne by lia. f_equal. lia.
      * rewrite (decide_False (P:=(d <= i < d + S n)%nat)) by lia. by rewrite list_lookup_insert_ne.
Qed.

(** Copying downwards, from the ends of the regions. *)
Lemma copy_back_blit n mem d s :
  (d + n <= length mem)%nat -> (s + n <= length mem)%nat -> (s <= d)%nat ->
  copy_back mem (d + n) (s + n) n = Some (blit mem d (slice mem s n)).
Proof.
  revert mem. induction n as [|n IH]; intros mem Hd Hs Ho; cbn [copy_back].
  - f_equal. unfold slice. rewrite take_0. unfold blit. cbn. by rewrite Nat.add_0_r, take_drop.
  - replace (s + S n - 1)%nat with (s + n)%nat by lia. replace (d + S n - 1)%nat with (d + n)%nat by lia.
    destruct (mem !! (s + n)%nat) as [x|] eqn:Ex; [|apply lookup_ge_None in Ex; lia]. cbn.
    rewrite st_Some by lia. cbn. rewrite IH by (rewrite ?length_insert; lia). f_equal.
    apply list_eq. intros i.
    rewrite !lookup_blit by (rewrite ?length_slice, ?length_insert; rewrite ?length_insert; lia).
    rewrite !length_slice by (rewrite ?length_insert; lia). rewrite !lookup_slice.
    destruct (decide (i = d + n)%nat) as [->|Hid].
    + rewrite decide_False by lia. rewrite decide_True by lia. rewrite decide_True by lia.
      rewrite list_lookup_insert_eq by lia. rewrite <- Ex. f_equal. lia.
    + destruct (decide (d <= i < d + n)%nat).
      * rewrite decide_True by lia. rewrite (decide_True (P:=(d <= i < d + S n)%nat)) by lia.
        rewrite decide_True by lia. rewrite list_lookup_insert_ne by lia. done.
      * rewrite (decide_False (P:=(d <= i < d + S n)%nat)) by lia. rewrite list_lookup_insert_ne by lia. done.
Qed.

(** The kernel's [memmove] copies correctly whether or not the regions
    overlap: the destination receives what the source held before the call. *)
Theorem memmove_blit mem dst src n :
  (dst + n <= length mem)%nat -> (src + n <= length mem)%nat ->
  memmove mem dst src n = Some (blit mem dst (slice mem src n)).
Proof.
  intros Hd Hs. unfold memmove. destruct (Nat.ltb_spec src dst); cbn [andb].
  - destruct (Nat.ltb_spec dst (src + n)); [apply copy_back_blit | apply copy_forth_blit]; lia.
  - apply copy_forth_blit; lia.
Qed.

(** *** [memset] *)

Lemma blit_snoc_l (mem : list Z) d x l :
  (d + S (length l) <= length mem)%nat ->
  blit (<[d := x]> mem) (S d) l = blit mem d (x :: l).
Proof.
  intros Hd. apply list_eq. intros i.
  rewrite !lookup_blit by (rewrite ?length_insert; cbn; lia). cbn [length].
  destruct (decide (i = d)) as [->|].
  - rewrite decide_False by lia. rewrite decide_True by lia. rewrite list_lookup_insert_eq by lia.
    by rewrite Nat.sub_diag.
  - destruct (decide (S d <= i < S d + length l)%nat).
    + rewrite decide_True by lia. by replace (i - d)%nat with (S (i - S d)) by lia.
    + rewrite (decide_False (P:=(d <= i < _)%nat)) by lia. by rewrite list_lookup_insert_ne.
Qed.

Lemma blit_nil (mem : list Z) d : blit mem d [] = mem.
Proof. unfold blit. cbn. by rewrite Nat.add_0_r, take_drop. Qed.

Lemma stosb_blit n mem d c :
  (d + n <= length mem)%nat -> stosb mem d c n = Some (blit mem d (replicate n (u8 c))).
Proof.
  revert mem d. induction n as [|n IH]; intros mem d Hd; cbn [stosb replicate].
  - by rewrite blit_nil.
  - rewrite st_Some by lia. cbn. rewrite IH by (rewrite length_insert; lia).
    by rewrite blit_snoc_l by (rewrite length_replicate; lia).
Qed.

(** The four bytes of the word that [memset] stores. *)
Definition word4 (c : Z) : Z :=
  Z.lor (Z.lor (Z.lor (Z.shiftl c 24) (Z.shiftl c 16)) (Z.shiftl c 8)) c.

Lemma word_bytes c :
  0 <= c < 256 ->
  u8 (word4 c) = c /\ u8 (Z.shiftr (word4 c) 8) = c /\
  u8 (Z.shiftr (word4 c) 16) = c /\ u8 (Z.shiftr (word4 c) 24) = c.
Proof.
  intros Hc. assert (Forall (fun c => u8 (word4 c) = c /\ u8 (Z.shiftr (word4 c) 8) = c /\
    u8 (Z.shiftr (word4 c) 16) = c /\ u8 (Z.shiftr (word4 c) 24) = c) (seqZ 0 256)) as HF.
  { apply (bool_decide_unpack _). vm_compute. exact I. }
  rewrite Forall_forall in HF. apply HF, elem_of_seqZ. lia.
Qed.

Lemma stosl_blit n mem d w c :
  u8 w = c -> u8 (Z.shiftr w 8) = c -> u8 (Z.shiftr w 16) = c -> u8 (Z.shiftr w 24) = c ->
  (d + 4 * n <= length mem)%nat -> stosl mem d w n = Some (blit mem d (replicate (4 * n) c)).
Proof.
  intros E0 E1 E2 E3. revert mem d. induction n as [|n IH]; intros mem d Hd; cbn [stosl].
  - by rewrite blit_nil.
  - rewrite E0, E1, E2, E3. replace (4 * S n)%nat with (S (S (S (S (4 * n))))) by lia. cbn [replicate].
    do 4 (rewrite st_Some by (rewrite ?length_insert; lia); cbn [mbind option_bind]).
    rewrite IH by (rewrite ?length_insert; lia). f_equal.
    replace (d + 4)%nat with (S (d + 3)) by lia.
    rewrite blit_snoc_l by (rewrite ?length_insert, length_replicate; lia).
    replace (d + 3)%nat with (S (d + 2)) by lia.
    rewrite blit_snoc_l by (rewrite ?length_insert; cbn; rewrite length_replicate; lia).
    replace (d + 2)%nat with (S (d + 1)) by lia.
    rewrite blit_snoc_l by (rewrite ?length_insert; cbn; rewrite length_replicate; lia).
    replace (d + 1)%nat with (S d) by lia.
    by rewrite blit_snoc_l by (rewrite ?length_insert; cbn; rewrite length_replicate; lia).
Qed.

(** [memset] fills the region with the low byte of [c] on both of its
    paths, the word-at-a-time one included. *)
Theorem memset_blit base mem dst c n :
  (dst + n <= length mem)%nat ->
  memset base mem dst c n = Some (blit mem dst (replicate n (u8 c))).
Proof.
  intros Hd. unfold memset. destruct (_ && _) eqn:E; [|by apply stosb_blit].
  apply andb_true_iff in E as [_ E%Z.eqb_eq].
  assert (n = 4 * (n / 4))%nat as En.
  { apply Nat.Div0.div_exact. apply Nat2Z.inj. by rewrite Nat2Z.inj_mod. }
  assert (Z.land c 255 = u8 c) as -> by (change 255 with (Z.ones 8); by rewrite Z.land_ones).
  destruct (word_bytes (u8 c)) as (E0 & E1 & E2 & E3); [apply u8_range|].
  rewrite (stosl_blit _ _ _ _ (u8 c)) by (done || lia). by rewrite <- En.
Qed.

(** *** Bounded strings *)

(** The string that a field of [n] bytes holds. *)
Fixpoint cstr (l : list Z) (n : nat) {struct n} : list Z :=
  match n, l with
  | S n, x :: l => if x =? 0 then [] else x :: cstr l n
  | _, _ => []
  end.

Lemma cstr_app r x n : length r = n -> cstr (r ++ x) n = cstr r n.
Proof.
  revert r. induction n as [|n IH]; intros [|y r] Hr; cbn in *; try done.
  destruct (y =? 0); [done|]. by rewrite IH by lia.
Qed.

Lemma strncmp_total p q n :
  (n <= length p)%nat -> (n <= length q)%nat -> exists v, strncmp p q n = Some v.
Proof.
  revert p q. induction n as [|n IH]; intros p q Hp Hq; [by exists 0|].
  destruct p as [|x p], q as [|y q]; cbn [length] in *; try lia. cbn [strncmp].
  destruct (negb _ && _); [apply IH; lia|eauto].
Qed.

(** Two fields compare equal exactly when they hold the same string. *)
Lemma strncmp_cstr p q n :
  (n <= length p)%nat -> (n <= length q)%nat ->
  strncmp p q n = Some 0 <-> cstr p n = cstr q n.
Proof.
  revert p q. induction n as [|n IH]; intros p q Hp Hq; [done|].
  destruct p as [|x p], q as [|y q]; cbn in Hp, Hq; try lia. cbn [strncmp cstr].
  destruct (Z.eqb_spec x 0) as [->|Hx]; cbn [negb andb].
  - destruct (Z.eqb_spec y 0) as [->|Hy]; [done|]. split; [intros [=]; lia|done].
  - destruct (Z.eqb_spec x y) as [->|Hxy].
    + destruct (Z.eqb_spec y 0); [done|]. rewrite IH by lia. split; [congruence|by intros [=]].
    + split; [intros [=]; lia|]. destruct (Z.eqb_spec y 0); [done|]. by intros [=].
Qed.

Lemma zero_fill_total s n : (n <= length s)%nat -> zero_fill s n = Some (replicate n 0 ++ drop n s).
Proof.
  revert s. induction n as [|n IH]; intros s Hs; [done|]. destruct s as [|x s]; cbn in Hs; [lia|].
  cbn. by rewrite IH by lia.
Qed.

(** [strncpy] fills exactly [n] bytes, with the string and then zeroes. *)
Lemma strncpy_spec s t n :
  (n <= length s)%nat -> ((n <= length t)%nat \/ 0 ∈ t) ->
  exists r, strncpy s t n = Some (r ++ drop n s) /\ length r = n /\ cstr r n = cstr t n.
Proof.
  revert s t. induction n as [|n IH]; intros s t Hs Ht; [by exists []|].
  destruct s as [|y s]; cbn in Hs; [lia|]. destruct t as [|x t].
  { cbn in Ht. destruct Ht as [?|H0]; [lia|]. by apply not_elem_of_nil in H0. }
  cbn [strncpy cstr drop]. destruct (Z.eqb_spec x 0) as [->|Hx]; cbn [negb].
  - rewrite zero_fill_total by lia. exists (0 :: replicate n 0). cbn.
    by rewrite length_replicate.
  - destruct (IH s t) as (r & -> & Hr & Hc); [lia| |].
    { destruct Ht as [?|[?|?]%elem_of_cons]; [left; cbn in *; lia|congruence|by right]. }
    exists (x :: r). cbn. rewrite Hr, Hc. by destruct (Z.eqb_spec x 0).
Qed.

(** A name stored with [strncpy] in a fixed-size field is found again by
    [strncmp] with the same bound, even when it fills the field. *)
Theorem strncpy_strncmp s t n :
  (n <= length s)%nat -> (n <= length t)%nat ->
  exists r, strncpy s t n = Some r /\ length r = length s /\ strncmp t r n = Some 0.
Proof.
  intros Hs Ht. destruct (strncpy_spec s t n Hs) as (r & E & Hr & Hc); [by left|].
  exists (r ++ drop n s). split; [done|]. split; [rewrite length_app, length_drop; lia|].
  apply strncmp_cstr; [done|rewrite length_app; lia|]. by rewrite cstr_app.
Qed.

(** [safestrcpy] always terminates its result inside the [n] bytes. *)
Lemma safecopy_terminated s t k :
  (k < length s)%nat -> 0 ∈ t ->
  exists r, safecopy s t k = Some r /\ length r = length s /\ 0 ∈ take (S k) r.
Proof.
  revert s t. induction k as [|k IH]; intros s t Hs Ht; (destruct s as [|y s]; [cbn in Hs; lia|]).
  - exists (0 :: s). split; [done|]. split; [done|]. by left.
  - destruct t as [|x t]; [by apply not_elem_of_nil in Ht|]. cbn in Hs. cbn [safecopy].
    destruct (Z.eqb_spec x 0) as [->|Hx]; cbn [negb].
    + destruct s as [|z s]; [cbn in Hs; lia|]. exists (0 :: 0 :: s). split; [done|]. split; [done|]. by left.
    + destruct (IH s t) as (r & -> & Hl & H0); [lia|by apply elem_of_cons in Ht as [?|?]|].
      exists (x :: r). split; [done|]. split; [cbn; lia|]. by right.
Qed.

Lemma strlen_spec s : 0 ∈ s -> exists n, strlen s = Some n /\ s !! n = Some 0 /\ 0 ∉ take n s.
Proof.
  induction s as [|x s IH]; intros H0; [by apply not_elem_of_nil in H0|]. cbn.
  destruct (Z.eqb_spec x 0) as [->|Hx]; [exists O; split; [done|]; split; [done|apply not_elem_of_nil]|].
  apply elem_of_cons in H0 as [?|H0]; [congruence|]. destruct (IH H0) as (n & -> & Hn & Hno).
  exists (S n). split; [done|]. split; [done|]. cbn. rewrite not_elem_of_cons. naive_solver.
Qed.

End Kstring_facts.
