(* ===== verification/Ulib.v ===== *)
(** The string routines of the user library (ulib.c). *)

From S2P Require Import Prelude Str.

Fixpoint strcpy (s t : list Z) : option (list Z) :=
  match s, t with
  | _ :: s, x :: t => if x =? 0 then Some (x :: s) else r ← strcpy s t; Some (x :: r)
  | _, _ => None
  end.

Fixpoint strcmp (p q : list Z) : option Z :=
  match p, q with
  | x :: p, y :: q => if negb (x =? 0) && (x =? y) then strcmp p q else Some (x - y)
  | _, _ => None
  end.

Definition strlen (s : list Z) : option nat := Kstring.strlen s.

Definition memset (mem : list Z) (dst : nat) (c : Z) (n : nat) : option (list Z) :=
  Kstring.stosb mem dst c n.

(** The offset of the first [c], or [Some None] for a null result. *)
Fixpoint strchr_from (s : list Z) (c : Z) (i : nat) : option (option nat) :=
  match s with
  | [] => None
  | x :: s => if x =? 0 then Some None else if x =? c then Some (Some i) else strchr_from s c (S i)
  end.

Definition strchr (s : list Z) (c : Z) : option (option nat) := strchr_from s c 0.

(** The line read, with its terminator, and what is left of the input; an
    empty input is the end of file. *)
Fixpoint gets_loop (input : list Z) (room : nat) : list Z * list Z :=
  match room, input with
  | S room, c :: input =>
      if (c =? 10) || (c =? 13) then ([c], input)
      else let (l, rest) := gets_loop input room in (c :: l, rest)
  | _, _ => ([], input)
  end.

Definition gets (max : Z) (input : list Z) : list Z * list Z :=
  let (l, rest) := gets_loop input (Z.to_nat (max - 1)) in (l ++ [0], rest).

Fixpoint atoi_from (s : list Z) (n : Z) : option Z :=
  match s with
  | [] => None
  | x :: s =>
      if (48 <=? x) && (x <=? 57) then atoi_from s (i32 (n * 10 + x - 48)) else Some n
  end.

Definition atoi (s : list Z) : option Z := atoi_from s 0.

Definition memmove (mem : list Z) (dst src : nat) (n : Z) : option (list Z) :=
  Kstring.copy_forth mem dst src (Z.to_nat n).

(** The user library's [memmove] copies upwards only, so an overlapping copy to
    a higher address loses the source's tail. *)
Lemma ulib_memmove_overlap :
  memmove [1; 2; 3; 4] 1 0 3 = Some [1; 1; 1; 1] /\
  Kstring.memmove [1; 2; 3; 4] 1 0 3 = Some [1; 1; 2; 3].
Proof. split; reflexivity. Qed.
