(* ===== verification/Cons.v ===== *)
(** The console: console.c, kbd.c and uart.c, and [procdump] of proc.c.

    [k_out] is what the serial port has received ([uart_bytes] of each
    character) and [k_cga] the screen, which [cgaputc] updates.
    [consoleread] and [consolewrite], which lock inodes, are in Fs.v. *)

From S2P Require Import Prelude Ring Kernel Sched Ulib.

(** The characters of a string up to its terminator. *)
Fixpoint until0 (s : list Z) : list Z :=
  match s with
  | [] => []
  | c :: s => if c =? 0 then [] else c :: until0 s
  end.

(** ** The screen *)

Definition BACKSPACE : Z := 256.

(** [None] is the panic on a cursor out of the screen. *)
Definition cgaputc (c : Z) (g : cga) : option cga :=
  let pos := crt_pos g in
  let '(mem, pos) :=
    if c =? 10 then (crt g, pos + (80 - pos mod 80))
    else if c =? BACKSPACE then (crt g, if 0 <? pos then pos - 1 else pos)
    else (<[Z.to_nat pos := Z.lor (Z.land c 255) 1792]> (crt g), pos + 1) in
  if (pos <? 0) || (25 * 80 <? pos) then None else
  let '(mem, pos) :=
    if 24 <=? pos / 80 then
      let mem := blit mem 0 (slice mem 80 (23 * 80)) in
      let pos := pos - 80 in
      (blit mem (Z.to_nat pos) (replicate (Z.to_nat (24 * 80 - pos)) 0), pos)
    else (mem, pos) in
  Some (Cga (<[Z.to_nat pos := Z.lor 32 1792]> mem) pos).

(** ** The serial port *)

(** What [consputc] sends it for one character. *)
Definition uart_bytes (c : Z) : list Z :=
  if c =? BACKSPACE then [8; 32; 8] else [u8 c].

(** ** Output *)

(** After a panic nothing runs, so [panicked] is never seen set. *)
Definition consputc (c : Z) : M unit :=
  modify (fun k => k <| k_out ::= fun l => l ++ uart_bytes c |>) ;;
  g ← get k_cga;
  match cgaputc c g with
  | None => panic "pos under/overflow"
  | Some g => modify (fun k => k <| k_cga := g |>)
  end.

Definition digits : list Z := bytes_of "0123456789abcdef".

(** The digits of [x], least significant first; 32 iterations are enough for
    any base. *)
Fixpoint digits_of (fuel : nat) (x base : Z) : option (list Z) :=
  match fuel with
  | O => None
  | S fuel =>
      d ← digits !! Z.to_nat (x mod base);
      let x := x / base in
      if negb (x =? 0) then l ← digits_of fuel x base; Some (d :: l) else Some [d]
  end.

(** The buffer of [printint] when its last loop starts. *)
Definition int_buf (xx base : Z) (sign : bool) : option (list Z) :=
  let sign := sign && (xx <? 0) in
  let x := if sign then u32 (- xx) else u32 xx in
  l ← digits_of 32 x base;
  Some (if sign then l ++ [45] else l).

Definition printint (xx base : Z) (sign : bool) : M unit :=
  buf ← deref (int_buf xx base sign);
  for_each (rev buf) consputc.

(** A variadic argument. *)
Inductive carg := Aint (v : Z) | Astr (s : option (list Z)).

Fixpoint cprintf_loop (fmt : list Z) (args : list carg) : M unit :=
  match fmt with
  | [] => mret tt
  | c :: fmt =>
      if negb (c =? 37) then consputc c ;; cprintf_loop fmt args else
      match fmt with
      | [] => mret tt
      | c :: fmt =>
          if c =? 100 then
            match args with
            | Aint v :: args => printint (i32 v) 10 true ;; cprintf_loop fmt args
            | _ => fault
            end
          else if (c =? 120) || (c =? 112) then
            match args with
            | Aint v :: args => printint (i32 v) 16 false ;; cprintf_loop fmt args
            | _ => fault
            end
          else if c =? 115 then
            match args with
            | Astr s :: args =>
                for_each (until0 (default (bytes_of "(null)") s)) consputc ;; cprintf_loop fmt args
            | _ => fault
            end
          else if c =? 37 then consputc 37 ;; cprintf_loop fmt args
          else consputc 37 ;; consputc c ;; cprintf_loop fmt args
      end
  end.

Definition cprintf (fmt : string) (args : list carg) : M unit :=
  locking ← get k_locking;
  when locking (acquire Lcons) ;;
  cprintf_loop (bytes_of fmt) args ;;
  when locking (release Lcons).

(** ** proc.c: the process listing *)

Definition state_name (s : procstate) : list Z :=
  bytes_of match s with
  | UNUSED => "unused" | EMBRYO => "embryo" | SLEEPING => "sleep "
  | RUNNABLE => "runble" | RUNNING => "run   " | ZOMBIE => "zombie"
  end.

(** [pcs i] is what [getcallerpcs] finds on the kernel stack of process [i]. *)
Definition procdump (pcs : nat -> list Z) : M unit :=
  for_each procs (fun i =>
    p ← get_proc i;
    if bool_decide (p_state p = UNUSED) then mret tt else
    cprintf "%d %s %s" [Aint (p_pid p); Astr (Some (state_name (p_state p))); Astr (Some (p_name p))] ;;
    when (bool_decide (p_state p = SLEEPING))
      (find_each (take 10 (pcs i)) (fun pc =>
         if pc =? 0 then mret (Some tt) else cprintf " %p" [Aint pc] ;; mret None) ;;
       mret tt) ;;
    cprintf "
" []).

(** ** Input *)

Definition INPUT_BUF : Z := 128.
Definition ctl (c : Z) : Z := c - 64.

Definition get_input : M input := get k_input.
Definition upd_input (f : input -> input) : M unit := modify (fun k => k <| k_input ::= f |>).

(** Kill line. *)
Definition kill_line : M unit :=
  loop (S (Z.to_nat INPUT_BUF)) (fun _ : unit =>
    inp ← get_input;
    if in_e inp =? in_w inp then mret (inr tt) else
    c ← deref (in_buf inp !! Z.to_nat (u32 (in_e inp - 1) mod INPUT_BUF));
    if c =? 10 then mret (inr tt) else
    upd_input (fun i => i <| in_e ::= fun e => u32 (e - 1) |>) ;;
    consputc BACKSPACE ;;
    mret (inl tt)) tt.

(** One character; the result tells whether a listing was asked for. *)
Definition consoleintr1 (c : Z) : M bool :=
  if c =? ctl 80 then mret true
  else if c =? ctl 85 then kill_line ;; mret false
  else if (c =? ctl 72) || (c =? 127) then
    inp ← get_input;
    when (negb (in_e inp =? in_w inp))
      (upd_input (fun i => i <| in_e ::= fun e => u32 (e - 1) |>) ;;
       consputc BACKSPACE) ;;
    mret false
  else
    inp ← get_input;
    when (negb (c =? 0) && (u32 (in_e inp - in_r inp) <? INPUT_BUF))
      (let c := if c =? 13 then 10 else c in
       upd_input (fun i => i <| in_buf ::= <[Z.to_nat (in_e i mod INPUT_BUF) := u8 c]> |>
                             <| in_e ::= fun e => u32 (e + 1) |>) ;;
       consputc c ;;
       inp ← get_input;
       when ((c =? 10) || (c =? ctl 68) || (in_e inp =? u32 (in_r inp + INPUT_BUF)))
         (upd_input (fun i => i <| in_w := in_e i |>) ;;
          wakeup Cinput)) ;;
    mret false.

(** [cs] are the characters [getc] delivers before it returns -1. *)
Definition consoleintr (pcs : nat -> list Z) (cs : list Z) : M unit :=
  acquire Lcons ;;
  dumps ← (fix go (cs : list Z) : M bool :=
    match cs with
    | [] => mret false
    | c :: cs => d ← consoleintr1 c; d' ← go cs; mret (d || d')
    end) cs;
  release Lcons ;;
  when dumps (procdump pcs).

(** ** kbd.c *)

Definition KBS_DIB : Z := 1.
Definition SHIFT : Z := 1.
Definition CTL : Z := 2.
Definition ALT : Z := 4.
Definition CAPSLOCK : Z := 8.
Definition NUMLOCK : Z := 16.
Definition SCROLLLOCK : Z := 32.
Definition E0ESC : Z := 64.

(** kbd.h: a 256-entry table given by its designated initialisers. *)
Definition table256 (base : list Z) (l : list (Z * Z)) : list Z :=
  foldl (fun t kv => <[Z.to_nat kv.1 := kv.2]> t) (take 256 (base ++ replicate 256 0)) l.

Definition shiftcode : list Z :=
  table256 [] [(29, CTL); (42, SHIFT); (54, SHIFT); (56, ALT); (157, CTL); (184, ALT)].
Definition togglecode : list Z := table256 [] [(58, CAPSLOCK); (69, NUMLOCK); (70, SCROLLLOCK)].

(** The keypad and cursor keys, the same in the first two maps. *)
Definition keypad (enter div : Z) : list (Z * Z) :=
  [(156, enter); (181, div); (200, 226); (208, 227); (201, 230); (209, 231); (203, 228); (205, 229);
   (151, 224); (207, 225); (210, 232); (211, 233)].

Definition normalmap : list Z :=
  table256
    ([0; 27] ++ bytes_of "1234567890-=" ++ [8; 9] ++ bytes_of "qwertyuiop[]" ++ [10; 0] ++
     bytes_of "asdfghjkl;'`" ++ [0; 92] ++ bytes_of "zxcvbnm,./" ++ [0; 42; 0; 32] ++
     replicate 13 0 ++ bytes_of "789-456+1230.") (keypad 10 47).

Definition shiftmap : list Z :=
  table256
    ([0; 27] ++ bytes_of "!@#$%^&*()_+" ++ [8; 9] ++ bytes_of "QWERTYUIOP{}" ++ [10; 0] ++
     bytes_of "ASDFGHJKL:" ++ [34; 126; 0; 124] ++ bytes_of "ZXCVBNM<>?" ++ [0; 42; 0; 32] ++
     replicate 13 0 ++ bytes_of "789-456+1230.") (keypad 10 47).

Definition ctlmap : list Z :=
  table256
    (replicate 16 0 ++ map ctl (bytes_of "QWERTYUIOP") ++ [0; 0; 13; 0] ++
     map ctl (bytes_of "ASDFGHJKL") ++ [0; 0; 0; 0; ctl 92] ++ map ctl (bytes_of "ZXCVBNM") ++
     [0; 0; ctl 47; 0; 0]) (keypad 13 (ctl 47)).

(** The status and data ports deliver [st] and [data]; the result is the
    character and the new [shift]. *)
Definition kbdgetc (st data shift : Z) : option (Z * Z) :=
  if Z.land st KBS_DIB =? 0 then Some (-1, shift) else
  if data =? 224 then Some (0, Z.lor shift E0ESC) else
  if negb (Z.land data 128 =? 0) then
    let data := if negb (Z.land shift E0ESC =? 0) then data else Z.land data 127 in
    sc ← shiftcode !! Z.to_nat data;
    Some (0, Z.ldiff shift (Z.lor sc E0ESC))
  else
    let '(data, shift) :=
      if negb (Z.land shift E0ESC =? 0) then (Z.lor data 128, Z.ldiff shift E0ESC) else (data, shift) in
    sc ← shiftcode !! Z.to_nat data;
    let shift := Z.lor shift sc in
    tg ← togglecode !! Z.to_nat data;
    let shift := Z.lxor shift tg in
    map ← [normalmap; shiftmap; ctlmap; ctlmap] !! Z.to_nat (Z.land shift (Z.lor CTL SHIFT));
    c ← map !! Z.to_nat data;
    let c :=
      if negb (Z.land shift CAPSLOCK =? 0) then
        if (97 <=? c) && (c <=? 122) then c - 32
        else if (65 <=? c) && (c <=? 90) then c + 32
        else c
      else c in
    Some (c, shift).

(** ** The screen stays in range *)

(** The cursor is on one of the first 24 lines; the last one is kept blank. *)
Definition cga_ok (g : cga) : Prop :=
  Z.of_nat (length (crt g)) = 25 * 80 /\ 0 <= crt_pos g < 24 * 80.

Lemma cgaputc_ok c g : cga_ok g -> exists g', cgaputc c g = Some g' /\ cga_ok g'.
Proof.
  destruct g as [mem pos]. intros [Hl Hp]. cbn in Hl, Hp. unfold cgaputc. cbn [crt crt_pos].
  assert (exists mem' pos',
    (if c =? 10 then (mem, pos + (80 - pos mod 80))
     else if c =? BACKSPACE then (mem, if 0 <? pos then pos - 1 else pos)
     else (<[Z.to_nat pos := Z.lor (Z.land c 255) 1792]> mem, pos + 1)) = (mem', pos')
    /\ length mem' = length mem /\ 0 <= pos' <= 24 * 80) as (mem' & pos' & -> & Hl' & Hp').
  { destruct (c =? 10); [|destruct (c =? BACKSPACE); [|]]; do 2 eexists; (split; [done|]).
    - split; [done|]. lia.
    - split; [done|]. destruct (Z.ltb_spec 0 pos); lia.
    - rewrite length_insert. split; [done|]. lia. }
  assert ((pos' <? 0) || (25 * 80 <? pos') = false) as -> by (apply orb_false_iff; split; apply Z.ltb_ge; lia).
  destruct (Z.leb_spec 24 (pos' / 80)) as [Hsc|Hsc]; cbn zeta.
  - assert (length (slice mem' 80 (23 * 80)%nat) = (23 * 80)%nat) as Hs
      by (apply length_slice; lia).
    assert (length (blit mem' 0 (slice mem' 80 (23 * 80)%nat)) = length mem') as Hb
      by (apply length_blit; lia).
    eexists. split; [done|]. split; cbn [crt crt_pos]; [|lia].
    rewrite length_insert, length_blit; [lia|]. rewrite length_replicate. lia.
  - eexists. split; [done|]. split; cbn [crt crt_pos]; [|lia]. rewrite length_insert. lia.
Qed.

(** [w] with [out] sent to the serial port and [g] on the screen. *)
Definition screen (out : list Z) (g : cga) (w : world) : world :=
  w <| w_k ::= fun k => k <| k_out := out |> <| k_cga := g |> |>.

(** The computation prints the bytes [l], and does nothing else. *)
Definition prints (c : M unit) (l : list Z) : Prop :=
  forall w, cga_ok (k_cga (w_k w)) ->
    exists g, cga_ok g /\ c w = Ok tt (screen (k_out (w_k w) ++ l) g w).

Lemma prints_consputc c : prints (consputc c) (uart_bytes c).
Proof.
  intros w Hw. unfold consputc, modify, get, mbind, M_bind. unfold setter. cbn.
  destruct (cgaputc_ok c _ Hw) as (g & Hg & Ho). rewrite Hg. cbn. exists g. by split.
Qed.

Lemma prints_nil : prints (mret tt) [].
Proof.
  intros w Hw. exists (k_cga (w_k w)). split; [done|]. unfold screen, setter. rewrite app_nil_r.
  destruct w as [k]. by destruct k.
Qed.

Lemma prints_seq c d l m : prints c l -> prints d m -> prints (c ;; d) (l ++ m).
Proof.
  intros Hc Hd w Hw. destruct (Hc w Hw) as (g & Hg & Ec).
  destruct (Hd (screen (k_out (w_k w) ++ l) g w) Hg) as (g' & Hg' & Ed).
  exists g'. split; [done|]. unfold mbind, M_bind. rewrite Ec, Ed. unfold screen, setter. cbn.
  by rewrite app_assoc.
Qed.

Lemma prints_for_each cs : prints (for_each cs consputc) (concat (map uart_bytes cs)).
Proof.
  induction cs as [|c cs IH]; cbn [for_each map concat].
  - apply prints_nil.
  - apply (prints_seq (consputc c)); [apply prints_consputc | apply IH].
Qed.

Lemma uart_bytes_ascii cs : Forall (fun c => 0 <= c < 256) cs -> concat (map uart_bytes cs) = cs.
Proof.
  induction 1 as [|c cs Hc _ IH]; [done|]. cbn [map concat]. rewrite IH. unfold uart_bytes.
  destruct (Z.eqb_spec c BACKSPACE) as [->|_]; [unfold BACKSPACE in Hc; lia|].
  by rewrite u8_id.
Qed.

(** ** Numbers *)

(** The character of a digit, and the number some digits denote, the least
    significant first. *)
Definition digit (d : Z) : Z := if d <? 10 then 48 + d else 87 + d.
Definition num (base : Z) (ds : list Z) : Z := foldr (fun d v => v * base + d) 0 ds.

Lemma digits_lookup d : 0 <= d < 16 -> digits !! Z.to_nat d = Some (digit d).
Proof.
  intros H.
  assert (d = 0 \/ d = 1 \/ d = 2 \/ d = 3 \/ d = 4 \/ d = 5 \/ d = 6 \/ d = 7 \/ d = 8 \/ d = 9
          \/ d = 10 \/ d = 11 \/ d = 12 \/ d = 13 \/ d = 14 \/ d = 15) as Hd by lia.
  by repeat destruct Hd as [->|Hd]; [..|subst].
Qed.

Lemma digits_one base x :
  0 <= x < base ->
  exists ds, Some [digit x] = Some (map digit ds) /\
    Forall (fun d => 0 <= d < base) ds /\ num base ds = x /\
    (1 <= length ds)%nat /\ (0 < x -> base ^ (Z.of_nat (length ds) - 1) <= x) /\
    (x = 0 -> length ds = 1%nat).
Proof.
  intros Hx. exists [x]. split; [done|]. split; [by repeat constructor; lia|].
  cbn. repeat split; lia.
Qed.

Lemma digits_of_S base fuel x :
  2 <= base <= 16 ->
  digits_of (S fuel) x base =
    if negb (x / base =? 0) then l ← digits_of fuel (x / base) base; Some (digit (x mod base) :: l)
    else Some [digit (x mod base)].
Proof.
  intros Hb. cbn [digits_of]. rewrite digits_lookup by (pose proof (Z.mod_pos_bound x base); lia). done.
Qed.

Lemma digits_of_spec base fuel x :
  2 <= base <= 16 -> 0 <= x < base ^ Z.of_nat (S fuel) ->
  exists ds, digits_of (S fuel) x base = Some (map digit ds) /\
    Forall (fun d => 0 <= d < base) ds /\ num base ds = x /\
    (1 <= length ds)%nat /\ (0 < x -> base ^ (Z.of_nat (length ds) - 1) <= x) /\
    (x = 0 -> length ds = 1%nat).
Proof.
  intros Hb. revert x. induction fuel as [|fuel IH]; intros x Hx; rewrite digits_of_S by done;
    pose proof (Z.mod_pos_bound x base ltac:(lia)) as Hm.
  - assert (x < base) by (cbn in Hx; lia). rewrite Z.div_small by lia. cbn.
    rewrite Z.mod_small by lia. apply digits_one; lia.
  - assert (x / base < base ^ Z.of_nat (S fuel)) as Hq.
    { apply Z.div_lt_upper_bound; [lia|]. rewrite <- Z.pow_succ_r by lia. rewrite Nat2Z.inj_succ in Hx. apply Hx. }
    assert (0 <= x / base) as Hq0 by (apply Z.div_pos; lia).
    destruct (Z.eqb_spec (x / base) 0) as [E|E]; cbn [negb].
    + assert (x < base) by (apply Z.div_small_iff in E; lia).
      rewrite Z.mod_small by lia. apply digits_one; lia.
    + destruct (IH (x / base)) as (ds & Eds & Hds & Hn & Hl1 & Hl2 & _); [lia|].
      rewrite Eds. cbn [mbind option_bind].
      exists (x mod base :: ds). split; [done|]. split; [by constructor|]. split.
      { cbn. fold (num base ds). rewrite Hn. pose proof (Z.div_mod x base ltac:(lia)). lia. }
      split; [cbn; lia|]. split; [|intros ->; by rewrite Z.div_0_l in E by lia].
      intros _. cbn [length]. replace (Z.of_nat (S (length ds)) - 1) with (Z.succ (Z.of_nat (length ds) - 1)) by lia.
      rewrite Z.pow_succ_r by lia. specialize (Hl2 ltac:(lia)).
      pose proof (Z.mul_div_le x base ltac:(lia)). nia.
Qed.

Lemma digit_decimal d : 0 <= d < 10 -> digit d = 48 + d.
Proof. intros. unfold digit. by destruct (Z.ltb_spec d 10); [|lia]. Qed.

Lemma num_nonneg ds : Forall (fun d => 0 <= d < 10) ds -> 0 <= num 10 ds.
Proof. induction 1; cbn; [done|]. unfold num in *. lia. Qed.

(** Reading digits back, the most significant first. *)
Lemma atoi_from_digits es n :
  Forall (fun d => 0 <= d < 10) es -> 0 <= n ->
  foldl (fun v d => v * 10 + d) n es < 2147483648 ->
  atoi_from (map digit es ++ [0]) n = Some (foldl (fun v d => v * 10 + d) n es).
Proof.
  intros H. revert n. induction H as [|d es Hd Hes IH]; intros n Hn Hlt; [done|].
  assert (forall v, 0 <= v -> v <= foldl (fun v d => v * 10 + d) v es) as Hmono.
  { clear -Hes. induction Hes as [|d es Hd Hes IH]; intros v Hv; cbn; [done|].
    etransitivity; [|apply IH; lia]. lia. }
  cbn [map app atoi_from foldl] in *. rewrite digit_decimal by done.
  destruct (Z.leb_spec 48 (48 + d)); [|lia]. destruct (Z.leb_spec (48 + d) 57); [|lia]. cbn [andb].
  pose proof (Hmono (n * 10 + d)) as Hm.
  rewrite i32_id by (unfold is_i32; lia). replace (n * 10 + (48 + d) - 48) with (n * 10 + d) by lia.
  apply IH; lia.
Qed.

Lemma digits_ascii ds base : base <= 16 -> Forall (fun d => 0 <= d < base) ds -> Forall (fun c => 0 <= c < 256) (map digit ds).
Proof.
  intros Hb H. apply Forall_map. eapply Forall_impl; [exact H|]. intros d Hd. cbn in Hd |- *. unfold digit.
  destruct (d <? 10); lia.
Qed.

(** [printint] in base 10 sends the decimal representation of its argument
    to the console: a minus sign when it is negative, then digits that the
    user library's [atoi] reads back as the magnitude.  It fits the 16 bytes
    of the buffer the digits are built in. *)
Theorem printint_decimal xx :
  -2147483648 < xx < 2147483648 ->
  exists ds, prints (printint xx 10 true) ((if xx <? 0 then [45] else []) ++ ds) /\
    atoi (ds ++ [0]) = Some (Z.abs xx) /\
    Z.of_nat (length ((if xx <? 0 then [45] else []) ++ ds)) <= 16.
Proof.
  intros Hx. set (m := Z.abs xx).
  assert ((if true && (xx <? 0) then u32 (- xx) else u32 xx) = m) as Em.
  { subst m. cbn [andb]. destruct (Z.ltb_spec xx 0); rewrite u32_id; unfold is_u32; lia. }
  destruct (digits_of_spec 10 31 m) as (ds & Eds & Hds & Hn & _ & Hl & H0); [lia|subst m; cbn; lia|].
  assert (Z.of_nat (length ds) - 1 < 10) as Hlen.
  { destruct (decide (m = 0)) as [E|E]; [rewrite (H0 E); lia|].
    apply (Z.pow_lt_mono_r_iff 10); [lia..|]. specialize (Hl ltac:(lia)). change (10 ^ 10) with 10000000000. lia. }
  exists (map digit (rev ds)). split; [|split].
  - intros w Hw. unfold printint, int_buf. rewrite Em, Eds. cbn [mbind option_bind deref].
    destruct (prints_for_each (rev (if true && (xx <? 0) then map digit ds ++ [45] else map digit ds)) w Hw)
      as (g & Hg & E). exists g. split; [done|].
    unfold mbind, M_bind, mret, M_ret. rewrite E. do 3 f_equal. clear E.
    assert (rev (if true && (xx <? 0) then map digit ds ++ [45] else map digit ds)
            = (if xx <? 0 then [45] else []) ++ map digit (rev ds)) as ->.
    { cbn [andb]. rewrite map_rev. destruct (xx <? 0); [by rewrite rev_app_distr|done]. }
    apply uart_bytes_ascii. apply Forall_app. split; [by destruct (xx <? 0); repeat constructor; lia|].
    eapply digits_ascii; [|by apply Forall_rev]. lia.
  - unfold atoi.
    assert (foldl (fun v d => v * 10 + d) 0 (rev ds) = m) as Ef.
    { rewrite <- Hn. clear. induction ds as [|d ds IH]; [done|]. cbn [rev]. rewrite foldl_app, IH. done. }
    rewrite atoi_from_digits; rewrite ?Ef; [done|by apply Forall_rev|lia|lia].
  - rewrite length_app, length_map, length_rev. destruct (xx <? 0); cbn; lia.
Qed.

Lemma printint_decimal_witness :
  exists ds, prints (printint (-42) 10 true) ([45] ++ ds) /\ atoi (ds ++ [0]) = Some 42 /\
    Z.of_nat (length ([45] ++ ds)) <= 16.
Proof. apply (printint_decimal (-42)). lia. Defined.
