(* ===== verification/Line.v ===== *)
(** Console input as line editing: [consoleintr] (console.c) refines an editor
    with a queue of finished input and the line being typed. *)

From S2P Require Import Prelude Ring Kernel Sched Cons.

(** ** Printing never fails *)

Lemma printint_prints xx base sign : 2 <= base <= 16 -> exists l, prints (printint xx base sign) l.
Proof.
  intros Hb. unfold printint, int_buf. set (x := if sign && (xx <? 0) then u32 (- xx) else u32 xx).
  assert (is_u32 x) as Hx by (subst x; destruct (sign && _); apply u32_range).
  destruct (digits_of_spec base 31 x Hb) as (ds & E & _).
  { split; [apply Hx|]. unfold is_u32 in Hx. apply Z.lt_le_trans with (2 ^ 32); [apply Hx|].
    apply Z.pow_le_mono_l. lia. }
  rewrite E. eexists. intros w Hw. cbn [mbind option_bind deref].
  destruct (prints_for_each (rev (if sign && (xx <? 0) then map digit ds ++ [45] else map digit ds)) w Hw)
    as (g & Hg & Eg). exists g. split; [done|]. exact Eg.
Qed.

(** The arguments match the conversions of the format. *)
Fixpoint fmt_ok (fmt : list Z) (args : list carg) : bool :=
  match fmt with
  | [] => true
  | c :: fmt =>
      if negb (c =? 37) then fmt_ok fmt args else
      match fmt with
      | [] => true
      | c :: fmt =>
          if (c =? 100) || ((c =? 120) || (c =? 112)) then
            match args with Aint _ :: args => fmt_ok fmt args | _ => false end
          else if c =? 115 then
            match args with Astr _ :: args => fmt_ok fmt args | _ => false end
          else fmt_ok fmt args
      end
  end.

Definition prints_some (c : M unit) : Prop := exists l, prints c l.

Lemma prints_some_seq c d : prints_some c -> prints_some d -> prints_some (c ;; d).
Proof. intros [l Hl] [m Hm]. exists (l ++ m). by apply prints_seq. Qed.

Lemma prints_some_putc c : prints_some (consputc c).
Proof. eexists. apply prints_consputc. Qed.

Lemma prints_some_puts l : prints_some (for_each l consputc).
Proof. eexists. apply prints_for_each. Qed.

#[local] Hint Resolve prints_some_seq prints_some_putc prints_some_puts : xv6.

Lemma cprintf_loop_prints fmt args : fmt_ok fmt args = true -> prints_some (cprintf_loop fmt args).
Proof.
  assert (forall n fmt args, (length fmt < n)%nat -> fmt_ok fmt args = true -> prints_some (cprintf_loop fmt args)) as G;
    [|apply (G (S (length fmt))); lia].
  clear fmt args. induction n as [|n IH]; intros fmt args Hn Hok; [lia|].
  destruct fmt as [|c fmt]; [exists []; apply prints_nil|]. cbn [cprintf_loop fmt_ok length] in *.
  destruct (negb (c =? 37)); [apply prints_some_seq; [apply prints_some_putc|apply IH; [lia|done]]|].
  destruct fmt as [|d fmt]; [exists []; apply prints_nil|]. cbn [length] in *.
  destruct (d =? 100); cbn [orb] in *.
  { destruct args as [|[v|s] args]; try done.
    apply prints_some_seq; [apply printint_prints; lia|apply IH; [lia|done]]. }
  destruct ((d =? 120) || (d =? 112)); cbn [orb] in *.
  { destruct args as [|[v|s] args]; try done.
    apply prints_some_seq; [apply printint_prints; lia|apply IH; [lia|done]]. }
  destruct (d =? 115).
  { destruct args as [|[v|s] args]; try done.
    apply prints_some_seq; [apply prints_some_puts|apply IH; [lia|done]]. }
  destruct (d =? 37).
  - apply prints_some_seq; [apply prints_some_putc|apply IH; [lia|done]].
  - apply (prints_some_seq (consputc 37)); [apply prints_some_putc|].
    apply prints_some_seq; [apply prints_some_putc|apply IH; [lia|done]].
Qed.

(** From [w] the computation returns and changes only what is displayed. *)
Definition displays (c : M unit) (w : world) : Prop :=
  exists out g, cga_ok g /\ c w = Ok tt (screen out g w).

Lemma displays_seq (c d : M unit) w :
  displays c w -> (forall out g, cga_ok g -> displays d (screen out g w)) -> displays (c ;; d) w.
Proof.
  intros (out & g & Hg & Ec) Hd. destruct (Hd out g Hg) as (out' & g' & Hg' & Ed).
  exists out', g'. split; [done|]. unfold mbind, M_bind. by rewrite Ec, Ed.
Qed.

Lemma cprintf_displays fmt args w :
  fmt_ok (bytes_of fmt) args = true -> cga_ok (k_cga (w_k w)) -> (k_locking (w_k w) = true -> Lcons ∉ w_held w) ->
  displays (cprintf fmt args) w.
Proof.
  intros Hf Hw Hh. destruct (cprintf_loop_prints _ _ Hf) as [l Hl].
  unfold displays, cprintf, get, when, acquire, release, mbind, M_bind. destruct (k_locking (w_k w)).
  - specialize (Hh eq_refl). rewrite bool_decide_eq_false_2 by done. cbv iota.
    match goal with |- context [cprintf_loop _ _ ?w'] => destruct (Hl w' Hw) as (g & Hg & E) end.
    rewrite E.
    unfold screen, setter. cbn. rewrite bool_decide_eq_true_2 by set_solver. cbn.
    rewrite bool_decide_eq_true_2 by done. eexists _, g. split; [done|]. reflexivity.
  - cbn [mret M_ret]. destruct (Hl w Hw) as (g & Hg & E). unfold mret, M_ret. rewrite E. eexists _, g. by split.
Qed.

(** C28. A well-typed [cprintf] does not go wrong: when every directive of the
    format has an argument of its type, it sends some bytes to the serial port,
    leaves the screen with its 25 lines and its cursor in range, and changes
    nothing else; with locking, when the caller does not hold the console lock. *)
Theorem cprintf_typed fmt args : fmt_ok (bytes_of fmt) args = true ->
  exists l, forall w, Lcons ∉ w_held w -> cga_ok (k_cga (w_k w)) ->
    exists g, cga_ok g /\ cprintf fmt args w = Ok tt (screen (k_out (w_k w) ++ l) g w).
Proof.
  intros Hok. destruct (cprintf_loop_prints _ _ Hok) as [l Hl]. exists l. intros w Hk Hw.
  unfold cprintf. erewrite bind_run by done. cbv beta. destruct (k_locking (w_k w)); cbn [when].
  - erewrite bind_run by by apply acquire_run. cbv beta.
    match goal with |- context [(cprintf_loop _ _ ≫= _) ?w1] => destruct (Hl w1 Hw) as (g & Hg & E) end. exists g. split; [done|].
    erewrite bind_run by exact E. cbv beta. rewrite (release_run _ _ (w_held w)) by done. by destruct w as [[] ? ? ?].
  - destruct (Hl w Hw) as (g & Hg & E). exists g. split; [done|]. erewrite bind_run by done. cbv beta.
    erewrite bind_run by exact E. done.
Qed.

Lemma cprintf_typed_witness : fmt_ok (bytes_of "cpu%d: %s at %p, %d%%") [Aint 0; Astr None; Aint 4096; Aint 50] = true /\
  exists l, forall w, Lcons ∉ w_held w -> cga_ok (k_cga (w_k w)) ->
    exists g, cga_ok g /\ cprintf "cpu%d: %s at %p, %d%%" [Aint 0; Astr None; Aint 4096; Aint 50] w = Ok tt (screen (k_out (w_k w) ++ l) g w).
Proof. split; [reflexivity|]. apply cprintf_typed. reflexivity. Defined.

Lemma screen_screen out g out' g' w : screen out' g' (screen out g w) = screen out' g' w.
Proof. done. Qed.

Lemma displays_trans (c : M unit) w out g : displays c (screen out g w) -> exists out' g', cga_ok g' /\ c (screen out g w) = Ok tt (screen out' g' w).
Proof. intros (out' & g' & Hg & E). exists out', g'. by rewrite E, screen_screen. Qed.

Lemma displays_ret w : cga_ok (k_cga (w_k w)) -> displays (mret tt) w.
Proof.
  intros H. exists (k_out (w_k w)), (k_cga (w_k w)). split; [done|].
  unfold screen, setter. destruct w as [k]. by destruct k.
Qed.

(** A loop whose body displays something. *)
Lemma displays_for_each {A} (l : list A) (body : A -> M unit) w :
  cga_ok (k_cga (w_k w)) ->
  (forall a out g, a ∈ l -> cga_ok g -> displays (body a) (screen out g w)) ->
  displays (for_each l body) w.
Proof.
  intros Hw Hb.
  assert (forall out g, cga_ok g -> exists out' g', cga_ok g' /\ for_each l body (screen out g w) = Ok tt (screen out' g' w)) as G.
  { induction l as [|a l IH]; intros out g Hg; [by exists out, g|].
    destruct (displays_trans _ _ _ _ (Hb a out g ltac:(set_solver) Hg)) as (o1 & g1 & Hg1 & E1).
    destruct (IH ltac:(set_solver) o1 g1 Hg1) as (o2 & g2 & Hg2 & E2).
    exists o2, g2. split; [done|]. cbn [for_each]. unfold mbind, M_bind. by rewrite E1, E2. }
  destruct (G (k_out (w_k w)) (k_cga (w_k w)) Hw) as (o & g & Hg & E). exists o, g. split; [done|].
  rewrite <- E. f_equal. unfold screen, setter. destruct w as [k]. by destruct k.
Qed.

(** The stack trace of a sleeping process. *)
Lemma displays_pcs pcs w :
  cga_ok (k_cga (w_k w)) -> Lcons ∉ w_held w ->
  displays (find_each pcs (fun pc =>
    if pc =? 0 then mret (Some tt) else cprintf " %p" [Aint pc] ;; mret None) ;; mret tt) w.
Proof.
  intros Hw Hh.
  assert (forall out g, cga_ok g -> exists r out' g', cga_ok g' /\
    find_each pcs (fun pc => if pc =? 0 then mret (Some tt) else cprintf " %p" [Aint pc] ;; mret None)
      (screen out g w) = Ok r (screen out' g' w)) as G.
  { induction pcs as [|pc pcs IH]; intros out g Hg; cbn [find_each]; [by eexists _, out, g|].
    unfold mbind, M_bind. destruct (pc =? 0); [by eexists _, out, g|].
    destruct (displays_trans (cprintf " %p" [Aint pc]) w out g) as (o1 & g1 & Hg1 & E1);
      [by apply cprintf_displays|].
    rewrite E1. apply (IH o1 g1 Hg1). }
  destruct (G (k_out (w_k w)) (k_cga (w_k w)) Hw) as (r & o & g & Hg & E). exists o, g. split; [done|].
  assert (screen (k_out (w_k w)) (k_cga (w_k w)) w = w) as Es
    by (unfold screen, setter; destruct w as [k]; by destruct k).
  rewrite Es in E. by rewrite (bind_run _ _ _ _ _ E).
Qed.

Lemma procdump_displays pcs w :
  cga_ok (k_cga (w_k w)) -> Lcons ∉ w_held w -> length (k_ptable (w_k w)) = NPROC ->
  displays (procdump pcs) w.
Proof.
  intros Hw Hh Hl. apply displays_for_each; [done|]. intros i out g Hi Hg.
  assert (i < length (k_ptable (w_k w)))%nat as Hlt by (apply elem_of_seq in Hi; lia).
  apply lookup_lt_is_Some_2 in Hlt as [p Hp].
  unfold displays. erewrite bind_run by (by apply get_proc_run).
  case_bool_decide; [by apply displays_ret|]. apply displays_seq; [by apply cprintf_displays|].
  intros o1 g1 Hg1. apply displays_seq; [|intros o2 g2 Hg2; by apply cprintf_displays].
  unfold when. case_bool_decide; [by apply displays_pcs | by apply displays_ret].
Qed.

(** ** The editor *)

(** Finished input [q], which [consoleread] takes from, and the line [ed]
    still being typed. *)
Definition editor : Type := list Z * list Z.

(** ^U erases back to the previous newline. *)
Fixpoint kill_rev (l : list Z) : list Z :=
  match l with
  | [] => []
  | x :: l' => if x =? 10 then l else kill_rev l'
  end.

Definition edit1 (s : editor) (c : Z) : editor :=
  let (q, ed) := s in
  if c =? ctl 80 then (q, ed)
  else if c =? ctl 85 then (q, rev (kill_rev (rev ed)))
  else if (c =? ctl 72) || (c =? 127) then (q, removelast ed)
  else if (c =? 0) || (INPUT_BUF <=? Z.of_nat (length (q ++ ed))) then (q, ed)
  else
    let c := if c =? 13 then 10 else c in
    let ed := ed ++ [u8 c] in
    if (c =? 10) || (c =? ctl 68) || (Z.of_nat (length (q ++ ed)) =? INPUT_BUF) then (q ++ ed, [])
    else (q, ed).

(** [input] holds [q] between [r] and [w], and [ed] between [w] and [e]. *)
Definition in_rep (i : input) (s : editor) : Prop :=
  ring INPUT_BUF (in_buf i) (in_r i) (s.1 ++ s.2) /\
  in_w i = u32 (in_r i + Z.of_nat (length s.1)) /\
  in_e i = u32 (in_r i + Z.of_nat (length (s.1 ++ s.2))).

Lemma u32_near r a b : 0 <= a < 4294967296 -> 0 <= b < 4294967296 -> u32 (r + a) = u32 (r + b) -> a = b.
Proof.
  intros Ha Hb E. assert (u32 (u32 (r + a) - r) = u32 (u32 (r + b) - r)) as E' by (by rewrite E).
  rewrite !u32_sub_l in E'.
  replace (r + a - r) with a in E' by lia. replace (r + b - r) with b in E' by lia.
  by rewrite !u32_id in E'.
Qed.

Lemma in_rep_len i s : in_rep i s -> 0 <= Z.of_nat (length s.1) /\ Z.of_nat (length s.1) + Z.of_nat (length s.2) <= 128.
Proof. intros (H & _). apply ring_length in H. rewrite length_app in H. unfold INPUT_BUF in H. lia. Qed.

Lemma in_rep_empty i q ed : in_rep i (q, ed) -> (in_e i =? in_w i) = bool_decide (ed = []).
Proof.
  intros H. pose proof (in_rep_len _ _ H) as Hl. destruct H as (_ & Hw & He). cbn in *.
  rewrite Hw, He, length_app. destruct ed as [|x ed].
  - cbn. rewrite Nat.add_0_r. apply Z.eqb_refl.
  - rewrite bool_decide_eq_false_2 by done. apply Z.eqb_neq. intros E. apply u32_near in E; cbn in *; lia.
Qed.

(** Erasing the last character typed. *)
Lemma in_rep_erase i q ed x :
  in_rep i (q, ed ++ [x]) ->
  in_buf i !! Z.to_nat (u32 (in_e i - 1) mod INPUT_BUF) = Some x /\
  in_rep (i <| in_e ::= fun e => u32 (e - 1) |>) (q, ed).
Proof.
  intros (Hr & Hw & He). cbn in *. rewrite app_assoc in Hr, He.
  rewrite length_app in He. cbn in He. split.
  - rewrite He, u32_sub_l, ring_mod by (destruct Hr as (? & ? & _); done).
    apply ring_last in Hr. rewrite <- Hr. do 3 f_equal. lia.
  - split; [by apply ring_unpush in Hr|]. split; [done|]. cbn. rewrite He, u32_sub_l. f_equal. lia.
Qed.

(** Typing a character. *)
Lemma in_rep_type i q ed x :
  in_rep i (q, ed) -> Z.of_nat (length (q ++ ed)) < INPUT_BUF ->
  in_rep (i <| in_buf ::= <[Z.to_nat (in_e i mod INPUT_BUF) := x]> |> <| in_e ::= fun e => u32 (e + 1) |>)
         (q, ed ++ [x]).
Proof.
  intros (Hr & Hw & He) Hl. cbn in *. split; [|split]; cbn.
  - rewrite app_assoc, He, ring_mod by (destruct Hr as (? & ? & _); done). by apply ring_push.
  - done.
  - rewrite He, u32_add_l, app_assoc, (length_app (q ++ ed)). cbn. f_equal. lia.
Qed.

(** Making the line available. *)
Lemma in_rep_commit i q ed : in_rep i (q, ed) -> in_rep (i <| in_w := in_e i |>) (q ++ ed, []).
Proof. intros (Hr & Hw & He). cbn in *. split; [by rewrite app_nil_r|]. cbn. by rewrite app_nil_r. Qed.

(** What the interrupt handler may change. *)
Definition typed (w : world) (s : editor) (w' : world) : Prop :=
  exists i ps out g,
    w' = w <| w_k ::= fun k => k <| k_ptable := ps |> <| k_input := i |> <| k_out := out |> <| k_cga := g |> |> /\
    in_rep i s /\ cga_ok g /\ woken (k_ptable (w_k w)) ps.

Lemma typed_same w :
  w <| w_k ::= fun k => k <| k_ptable := k_ptable (w_k w) |> <| k_input := k_input (w_k w) |>
                          <| k_out := k_out (w_k w) |> <| k_cga := k_cga (w_k w) |> |> = w.
Proof. destruct w as [k h p e]. destruct k. reflexivity. Qed.

Lemma typed_refl w s : in_rep (k_input (w_k w)) s -> cga_ok (k_cga (w_k w)) -> typed w s w.
Proof.
  intros Hi Hg. exists (k_input (w_k w)), (k_ptable (w_k w)), (k_out (w_k w)), (k_cga (w_k w)).
  rewrite typed_same. split; [done|]. split; [exact Hi|]. by split.
Qed.

Lemma typed_trans w s w1 s1 w2 : typed w s w1 -> typed w1 s1 w2 -> typed w s1 w2.
Proof.
  intros (i & ps & out & g & -> & Hi & Hg & Hp) (i2 & ps2 & out2 & g2 & -> & Hi2 & Hg2 & Hp2).
  exists i2, ps2, out2, g2. split; [done|]. split; [done|]. split; [done|]. cbn in Hp2. by transitivity ps.
Qed.

Lemma typed_inv w s w' :
  typed w s w' -> in_rep (k_input (w_k w')) s /\ cga_ok (k_cga (w_k w')) /\
  w_held w' = w_held w /\ length (k_ptable (w_k w')) = length (k_ptable (w_k w)).
Proof. intros (i & ps & out & g & -> & Hi & Hg & Hp). split; [exact Hi|]. split; [exact Hg|].
  split; [done|]. by apply woken_length.
Qed.

(** [input.e--; consputc(BACKSPACE)] *)
Lemma erase_typed w q ed x :
  in_rep (k_input (w_k w)) (q, ed ++ [x]) -> cga_ok (k_cga (w_k w)) ->
  exists w', (upd_input (fun i => i <| in_e ::= fun e => u32 (e - 1) |>) ;; consputc BACKSPACE) w = Ok tt w' /\
    typed w (q, ed) w'.
Proof.
  intros Hi Hg. apply in_rep_erase in Hi as [_ Hi].
  unfold upd_input, modify. erewrite bind_run by done.
  match goal with |- context [consputc ?c ?w'] => destruct (prints_consputc c w' Hg) as (g & Hg' & E) end.
  rewrite E. eexists. split; [reflexivity|].
  eexists _, (k_ptable (w_k w)), _, g. split; [reflexivity|]. split; [exact Hi|]. by split.
Qed.

Lemma kill_line_typed w q ed :
  in_rep (k_input (w_k w)) (q, ed) -> cga_ok (k_cga (w_k w)) ->
  exists w', kill_line w = Ok tt w' /\ typed w (q, rev (kill_rev (rev ed))) w'.
Proof.
  intros Hi Hg. unfold kill_line.
  assert (length ed < S (Z.to_nat INPUT_BUF))%nat as Hn
    by (pose proof (in_rep_len _ _ Hi) as Hl; unfold INPUT_BUF; cbn [fst snd] in Hl; lia).
  revert Hn w Hi Hg. generalize (S (Z.to_nat INPUT_BUF)) as n.
  induction ed as [|x ed IH] using rev_ind; intros n Hn w Hi Hg; (destruct n as [|n]; [lia|]).
  - exists w. split; [|by apply typed_refl]. apply loop_exit. unfold get_input.
    erewrite bind_run by reflexivity. by rewrite (in_rep_empty _ _ _ Hi).
  - pose proof (in_rep_erase _ _ _ _ Hi) as [Hx _]. rewrite rev_app_distr. cbn [rev app kill_rev].
    destruct (x =? 10) eqn:E10.
    + exists w. split; [|cbn [rev]; rewrite rev_involutive; by apply typed_refl].
      apply loop_exit. unfold get_input. erewrite bind_run by reflexivity.
      rewrite (in_rep_empty _ _ _ Hi), bool_decide_eq_false_2 by (by destruct ed).
      erewrite bind_run by (by apply deref_run). by rewrite E10.
    + destruct (erase_typed _ _ _ _ Hi Hg) as (w1 & E1 & Ht1).
      pose proof (typed_inv _ _ _ Ht1) as (Hi1 & Hg1 & _).
      rewrite length_app in Hn. cbn in Hn.
      destruct (IH n ltac:(lia) w1 Hi1 Hg1) as (w2 & E2 & Ht2).
      exists w2. split; [|by eapply typed_trans].
      rewrite <- E2. apply loop_next. unfold get_input. erewrite bind_run by reflexivity.
      rewrite (in_rep_empty _ _ _ Hi), bool_decide_eq_false_2 by (by destruct ed).
      erewrite bind_run by (by apply deref_run). rewrite E10. by erewrite seq_run.
Qed.

(** The branch of [consoleintr] that stores a character. *)
Definition store_char (c : Z) : M unit :=
  upd_input (fun i => i <| in_buf ::= <[Z.to_nat (in_e i mod INPUT_BUF) := u8 c]> |>
                        <| in_e ::= fun e => u32 (e + 1) |>) ;;
  consputc c ;;
  inp ← get_input;
  when ((c =? 10) || (c =? ctl 68) || (in_e inp =? u32 (in_r inp + INPUT_BUF)))
    (upd_input (fun i => i <| in_w := in_e i |>) ;;
     wakeup Cinput).

Lemma type_typed c w q ed :
  in_rep (k_input (w_k w)) (q, ed) -> cga_ok (k_cga (w_k w)) ->
  Z.of_nat (length (q ++ ed)) < INPUT_BUF ->
  exists w', (upd_input (fun i => i <| in_buf ::= <[Z.to_nat (in_e i mod INPUT_BUF) := u8 c]> |>
                                  <| in_e ::= fun e => u32 (e + 1) |>) ;; consputc c) w = Ok tt w' /\
    typed w (q, ed ++ [u8 c]) w'.
Proof.
  intros Hi Hg Hl. apply (in_rep_type _ _ _ (u8 c)) in Hi; [|done].
  unfold upd_input, modify. erewrite bind_run by done.
  match goal with |- context [consputc ?c ?w'] => destruct (prints_consputc c w' Hg) as (g & Hg' & E) end.
  rewrite E. eexists. split; [reflexivity|].
  eexists _, (k_ptable (w_k w)), _, g. split; [reflexivity|]. split; [exact Hi|]. by split.
Qed.

(** [input.w = input.e; wakeup(&input.r)] *)
Lemma commit_typed w q ed :
  in_rep (k_input (w_k w)) (q, ed) -> cga_ok (k_cga (w_k w)) ->
  length (k_ptable (w_k w)) = NPROC -> Lptable ∉ w_held w ->
  exists w', (upd_input (fun i => i <| in_w := in_e i |>) ;; wakeup Cinput) w = Ok tt w' /\
    typed w (q ++ ed, []) w'.
Proof.
  intros Hi Hg Hn Hh. apply in_rep_commit in Hi. unfold upd_input, modify.
  erewrite bind_run by reflexivity. rewrite wakeup_run by done. eexists. split; [reflexivity|].
  exists ((k_input (w_k w)) <| in_w := in_e (k_input (w_k w)) |>), (map (wake1 (Some Cinput)) (k_ptable (w_k w))),
    (k_out (w_k w)), (k_cga (w_k w)). split; [destruct w as [k]; by destruct k|]. split; [exact Hi|].
  split; [done|]. apply map_wake1_woken.
Qed.

Lemma in_rep_full i q ed :
  in_rep i (q, ed) -> (in_e i =? u32 (in_r i + INPUT_BUF)) = (Z.of_nat (length (q ++ ed)) =? INPUT_BUF).
Proof.
  intros H. pose proof (in_rep_len _ _ H) as Hlen. destruct H as (_ & _ & He). cbn [fst snd] in *.
  rewrite He. apply eq_iff_eq_true. rewrite !Z.eqb_eq. split; [|by intros ->].
  rewrite length_app. intros E. apply u32_near in E; unfold INPUT_BUF in *; lia.
Qed.

Lemma store_char_typed c w q ed :
  in_rep (k_input (w_k w)) (q, ed) -> cga_ok (k_cga (w_k w)) ->
  length (k_ptable (w_k w)) = NPROC -> Lptable ∉ w_held w ->
  Z.of_nat (length (q ++ ed)) < INPUT_BUF ->
  exists w', store_char c w = Ok tt w' /\
    typed w (if (c =? 10) || (c =? ctl 68) || (Z.of_nat (length (q ++ ed ++ [u8 c])) =? INPUT_BUF)
             then (q ++ ed ++ [u8 c], []) else (q, ed ++ [u8 c])) w'.
Proof.
  intros Hi Hg Hn Hh Hl. destruct (type_typed c w q ed Hi Hg Hl) as (w1 & E1 & Ht1).
  pose proof (typed_inv _ _ _ Ht1) as (Hi1 & Hg1 & Hh1 & Hn1).
  unfold store_char. erewrite seq_run by exact E1. unfold get_input. erewrite bind_run by reflexivity.
  rewrite (in_rep_full _ _ _ Hi1). destruct (_ || _); cbn [when].
  - destruct (commit_typed w1 _ _ Hi1 Hg1) as (w2 & E2 & Ht2); [congruence..|].
    exists w2. split; [done|]. by eapply typed_trans.
  - by exists w1.
Qed.

Lemma consoleintr1_typed c w q ed :
  in_rep (k_input (w_k w)) (q, ed) -> cga_ok (k_cga (w_k w)) ->
  length (k_ptable (w_k w)) = NPROC -> Lptable ∉ w_held w ->
  exists w', consoleintr1 c w = Ok (c =? ctl 80) w' /\ typed w (edit1 (q, ed) c) w'.
Proof.
  intros Hi Hg Hn Hh. unfold consoleintr1, edit1.
  destruct (c =? ctl 80) eqn:EP; [exists w; split; [done|by apply typed_refl]|].
  destruct (c =? ctl 85).
  { destruct (kill_line_typed w q ed Hi Hg) as (w' & E & Ht). exists w'.
    split; [by erewrite bind_run|done]. }
  destruct ((c =? ctl 72) || (c =? 127)).
  { unfold get_input. erewrite bind_run by reflexivity. rewrite (in_rep_empty _ _ _ Hi).
    destruct ed as [|x ed _] using rev_ind.
    - exists w. split; [done|by apply typed_refl].
    - rewrite bool_decide_eq_false_2 by (by destruct ed). cbn [when negb].
      destruct (erase_typed _ _ _ _ Hi Hg) as (w' & E & Ht). exists w'.
      split; [by erewrite bind_run|by rewrite removelast_last]. }
  unfold get_input. erewrite bind_run by reflexivity.
  pose proof (in_rep_len _ _ Hi) as Hlen.
  assert (u32 (in_e (k_input (w_k w)) - in_r (k_input (w_k w))) = Z.of_nat (length (q ++ ed))) as ->.
  { destruct Hi as (_ & _ & ->). cbn [fst snd] in *. rewrite u32_sub_l.
    rewrite u32_id; [lia|]. rewrite length_app. unfold is_u32. lia. }
  rewrite Z.leb_antisym. destruct (c =? 0); cbn [negb andb orb when].
  { exists w. split; [done|by apply typed_refl]. }
  destruct (Z.ltb_spec (Z.of_nat (length (q ++ ed))) INPUT_BUF); cbn [negb].
  - destruct (store_char_typed (if c =? 13 then 10 else c) w q ed Hi Hg Hn Hh) as (w' & E & Ht); [done|].
    exists w'. split; [by erewrite bind_run by exact E|done].
  - exists w. split; [done|by apply typed_refl].
Qed.

(** C3. [consoleintr] refines the line editor: the characters of an interrupt
    are applied one after the other to the finished input and the line being
    typed, whatever the values of the ring's counters (they wrap around at
    2^32).  The handler returns, never overruns the ring or the screen, and
    changes nothing but the input, the display and processes it wakes up. *)
Theorem consoleintr_refines pcs cs w s :
  in_rep (k_input (w_k w)) s -> cga_ok (k_cga (w_k w)) ->
  length (k_ptable (w_k w)) = NPROC -> Lptable ∉ w_held w -> Lcons ∉ w_held w ->
  exists w', consoleintr pcs cs w = Ok tt w' /\ typed w (foldl edit1 s cs) w'.
Proof.
  intros Hi Hg Hn Hh Hc. unfold consoleintr. erewrite bind_run by (by apply acquire_run).
  set (w0 := w <| w_held ::= cons Lcons |>).
  assert (forall w1 s, typed w0 s w1 -> exists r w2,
    (fix go (cs : list Z) : M bool :=
      match cs with
      | [] => mret false
      | c :: cs => d ← consoleintr1 c; d' ← go cs; mret (d || d')
      end) cs w1 = Ok r w2 /\ typed w0 (foldl edit1 s cs) w2) as G.
  { induction cs as [|c cs IH]; intros w1 s1 Ht1; [by exists false, w1|].
    pose proof (typed_inv _ _ _ Ht1) as (Hi1 & Hg1 & Hh1 & Hn1). destruct s1 as [q ed].
    destruct (consoleintr1_typed c w1 q ed Hi1 Hg1) as (w2 & E2 & Ht2); [by rewrite Hn1| |].
    { rewrite Hh1. subst w0. cbn. rewrite elem_of_cons. naive_solver. }
    erewrite bind_run by exact E2. cbn [foldl].
    destruct (IH w2 (edit1 (q, ed) c)) as (r & w3 & E3 & Ht3); [by eapply typed_trans|].
    erewrite bind_run by exact E3. by eexists _, w3. }
  destruct (G w0 s) as (r & w1 & E1 & Ht1); [by apply typed_refl|]. clear G.
  erewrite bind_run by exact E1.
  pose proof (typed_inv _ _ _ Ht1) as (Hi1 & Hg1 & Hh1 & Hn1).
  erewrite bind_run by (by apply (release_run _ _ (w_held w))).
  set (w2 := w1 <| w_held := w_held w |>).
  assert (typed w (foldl edit1 s cs) w2) as Ht2.
  { destruct Ht1 as (i & ps & out & g & -> & H). exists i, ps, out, g. split; [by destruct w|exact H]. }
  clearbody w2. clear -Ht2 Hc Hn.
  pose proof (typed_inv _ _ _ Ht2) as (Hi & Hg & Hh & Hl). destruct r; cbn [when]; [|by exists w2].
  destruct (procdump_displays pcs w2) as (out & g & Hg' & E); [done|by rewrite Hh|congruence|].
  rewrite E. eexists. split; [done|]. eapply typed_trans; [exact Ht2|].
  exists (k_input (w_k w2)), (k_ptable (w_k w2)), out, g. split; [destruct w2 as [k]; by destruct k|].
  split; [exact Hi|]. by split.
Qed.

(** Typing [a], [b], backspace and return leaves the line [a]. *)
Lemma consoleintr_refines_witness :
  exists w', consoleintr (fun _ => []) [97; 98; 8; 13] world0 = Ok tt w' /\ typed world0 ([97; 10], []) w'.
Proof.
  apply (consoleintr_refines (fun _ => []) [97; 98; 8; 13] world0 ([], [])).
  - split; [by apply ring_nil|]. by split.
  - split; [reflexivity|]. by split.
  - reflexivity.
  - apply not_elem_of_nil.
  - apply not_elem_of_nil.
Defined.
