(* ===== verification/Bio.v ===== *)
(** The buffer cache (bio.c) over the in-memory disk driver (memide.c).

    Definitions first, as the C code has them; then the theory of the circular
    list through [b_prev]/[b_next], and the specifications of [bread],
    [bwrite] and [brelse] in terms of the cached blocks. *)

From S2P Require Import Prelude Kernel Sched.

(** ** memide.c *)

(** Write block [d] at sector [bno], keeping the history of the writes. *)
Definition disk_write (bno : Z) (d : list Z) : M unit :=
  modify (fun k => k <| k_disk ::= <[Z.to_nat bno := d]> |>
                     <| k_writes ::= fun l => l ++ [(bno, d)] |>).

Definition iderw (b : nat) : M unit :=
  h ← holdingsleep (SLbuf b);
  if negb h then panic "iderw: buf not locked" else
  x ← get_buf b;
  if Z.land (b_flags x) (Z.lor B_VALID B_DIRTY) =? B_VALID then panic "iderw: nothing to do" else
  if negb (b_dev x =? 1) then panic "iderw: request not for disk 1" else
  disk ← get k_disk;
  if Z.of_nat (length disk) <=? b_blockno x then panic "iderw: block out of range" else
  (if hasf (b_flags x) B_DIRTY then
     upd_buf b (fun x => x <| b_flags ::= fun f => clrf f B_DIRTY |>) ;;
     disk_write (b_blockno x) (b_data x)
   else
     d ← deref (disk !! Z.to_nat (b_blockno x));
     upd_buf b (fun x => x <| b_data := d |>)) ;;
  upd_buf b (fun x => x <| b_flags ::= fun f => setf f B_VALID |>).

(** ** bio.c *)

Definition bhead : nat := NBUF.

Definition binit : M unit :=
  upd_buf bhead (fun h => h <| b_prev := bhead |>) ;;
  upd_buf bhead (fun h => h <| b_next := bhead |>) ;;
  for_each (seq 0 NBUF) (fun b =>
    h ← get_buf bhead;
    upd_buf b (fun x => x <| b_next := b_next h |>) ;;
    upd_buf b (fun x => x <| b_prev := bhead |>) ;;
    initsleeplock (SLbuf b) ;;
    upd_buf (b_next h) (fun x => x <| b_prev := b |>) ;;
    upd_buf bhead (fun x => x <| b_next := b |>)).

(** [for(b = head.dir; b != &head; b = b->dir) body], where [body] leaves the
    loop when it returns [Some]. *)
Definition walk {R} (dir : buf -> nat) (body : nat -> M (option R)) : M (option R) :=
  h ← get_buf bhead;
  loop (S (S NBUF)) (fun b =>
    if (b =? bhead)%nat then mret (inr None) else
    r ← body b;
    match r with
    | Some v => mret (inr (Some v))
    | None => x ← get_buf b; mret (inl (dir x))
    end) (dir h).

Definition bget (dev blockno : Z) : M nat :=
  acquire Lbcache ;;
  r ← walk b_next (fun b =>
    x ← get_buf b;
    if (b_dev x =? dev) && (b_blockno x =? blockno) then
      upd_buf b (fun x => x <| b_refcnt ::= fun n => u32 (n + 1) |>) ;;
      release Lbcache ;;
      acquiresleep (SLbuf b) ;;
      mret (Some b)
    else mret None);
  match r with
  | Some b => mret b
  | None =>
      r ← walk b_prev (fun b =>
        x ← get_buf b;
        if (b_refcnt x =? 0) && negb (hasf (b_flags x) B_DIRTY) then
          upd_buf b (fun x => x <| b_dev := dev |>) ;;
          upd_buf b (fun x => x <| b_blockno := blockno |>) ;;
          upd_buf b (fun x => x <| b_flags := 0 |>) ;;
          upd_buf b (fun x => x <| b_refcnt := 1 |>) ;;
          release Lbcache ;;
          acquiresleep (SLbuf b) ;;
          mret (Some b)
        else mret None);
      match r with
      | Some b => mret b
      | None => panic "bget: no buffers"
      end
  end.

Definition bread (dev blockno : Z) : M nat :=
  b ← bget dev blockno;
  x ← get_buf b;
  when (negb (hasf (b_flags x) B_VALID)) (iderw b) ;;
  mret b.

Definition bwrite (b : nat) : M unit :=
  h ← holdingsleep (SLbuf b);
  if negb h then panic "bwrite" else
  upd_buf b (fun x => x <| b_flags ::= fun f => setf f B_DIRTY |>) ;;
  iderw b.

(** The pointer updates of [brelse] that move [b] behind the list head. *)
Definition splice_front (b : nat) : M unit :=
  x ← get_buf b;
  upd_buf (b_next x) (fun y => y <| b_prev := b_prev x |>) ;;
  x ← get_buf b;
  upd_buf (b_prev x) (fun y => y <| b_next := b_next x |>) ;;
  h ← get_buf bhead;
  upd_buf b (fun x => x <| b_next := b_next h |>) ;;
  upd_buf b (fun x => x <| b_prev := bhead |>) ;;
  h ← get_buf bhead;
  upd_buf (b_next h) (fun y => y <| b_prev := b |>) ;;
  upd_buf bhead (fun y => y <| b_next := b |>).

Definition brelse (b : nat) : M unit :=
  h ← holdingsleep (SLbuf b);
  if negb h then panic "brelse" else
  releasesleep (SLbuf b) ;;
  acquire Lbcache ;;
  upd_buf b (fun x => x <| b_refcnt ::= fun n => u32 (n - 1) |>) ;;
  x ← get_buf b;
  when (b_refcnt x =? 0) (splice_front b) ;;
  release Lbcache.

(** ** The circular list *)

Definition nextf (bufs : list buf) (x : nat) : nat := default O (b_next <$> bufs !! x).
Definition prevf (bufs : list buf) (x : nat) : nat := default O (b_prev <$> bufs !! x).

(** [chain f x l]: following [f] from [x] visits exactly [l]. *)
Fixpoint chain (f : nat -> nat) (x : nat) (l : list nat) : Prop :=
  match l with
  | [] => True
  | y :: l => f x = y /\ chain f y l
  end.

(** [bufs] holds the list [order], most recently used first, in both
    directions. *)
Definition dll (bufs : list buf) (order : list nat) : Prop :=
  length bufs = S NBUF /\ order ≡ₚ seq 0 NBUF /\
  chain (nextf bufs) bhead (order ++ [bhead]) /\
  chain (prevf bufs) bhead (rev order ++ [bhead]).

Lemma chain_app f x l1 y l2 :
  chain f x (l1 ++ y :: l2) <-> chain f x (l1 ++ [y]) /\ chain f y l2.
Proof.
  revert x. induction l1 as [|z l1 IH]; intros x; cbn.
  - tauto.
  - rewrite IH. tauto.
Qed.

Lemma chain_ext f g x l y :
  (forall z, z = x \/ z ∈ l -> f z = g z) -> chain f x (l ++ [y]) -> chain g x (l ++ [y]).
Proof.
  revert x. induction l as [|z l IH]; intros x H; cbn.
  - intros [<- _]. split; [|done]. symmetry. apply H. by left.
  - intros [<- Hc]. split; [symmetry; apply H; by left|].
    apply IH; [|done]. intros z' Hz'. apply H. right. rewrite elem_of_cons. naive_solver.
Qed.

Lemma dll_NoDup bufs order : dll bufs order -> NoDup order.
Proof. intros (_ & Hp & _). rewrite Hp. apply NoDup_seq. Qed.

Lemma dll_elem bufs order b : dll bufs order -> b ∈ order <-> (b < NBUF)%nat.
Proof. intros (_ & Hp & _). rewrite Hp, elem_of_seq. lia. Qed.

(** First and last node of a chain segment. *)
Definition first_of (l : list nat) (d : nat) : nat := default d (head l).

Lemma chain_first f x l y : chain f x (l ++ [y]) -> f x = first_of l y.
Proof. destruct l; cbn; tauto. Qed.

(** A segment of a chain entered from another node. *)
Lemma chain_segment n n' h b l a :
  NoDup (h :: l ++ [a]) -> b ∉ l ++ [a] ->
  chain n h (l ++ [a]) -> n' b = first_of l a ->
  (forall x, x <> h -> x <> b -> x <> a -> n' x = n x) ->
  chain n' b (l ++ [a]).
Proof.
  intros Hnd Hb Hc Hf Hx. destruct l as [|x l]; [by split|].
  cbn in *. split; [done|]. destruct Hc as [_ Hc].
  eapply chain_ext; [|exact Hc]. intros z Hz. symmetry.
  apply NoDup_cons in Hnd as [Hh Hnd]. apply NoDup_cons in Hnd as [Hxn Hnd].
  rewrite NoDup_app in Hnd. apply Hx; set_solver.
Qed.

Lemma chain_tail n n' x y l h :
  (forall z, z ∈ l -> n' z = n z) ->
  n' x = first_of l h -> chain n y (l ++ [h]) -> chain n' x (l ++ [h]).
Proof.
  intros Hl Hf Hc. destruct l as [|c l]; [by split|].
  cbn in *. split; [done|]. destruct Hc as [_ Hc].
  eapply chain_ext; [|exact Hc]. intros z Hz. symmetry. apply Hl. set_solver.
Qed.

(** Unlinking [b] from a chain and putting it first. *)
Lemma chain_to_front n n' h b l1 l2 :
  NoDup (h :: l1 ++ b :: l2) ->
  chain n h (l1 ++ b :: l2 ++ [h]) ->
  n' h = b ->
  n' b = first_of (l1 ++ l2) h ->
  (l1 <> [] -> n' (default h (last l1)) = first_of l2 h) ->
  (forall x, x <> h -> x <> b -> Some x <> last l1 -> n' x = n x) ->
  chain n' h (b :: l1 ++ l2 ++ [h]).
Proof.
  intros Hnd Hc Hh Hb Ha Hx. cbn. split; [done|].
  rewrite chain_app in Hc. destruct Hc as [Hc1 Hc2].
  assert (forall y, y ∈ l2 -> n' y = n y) as Hl2.
  { intros y Hy. apply NoDup_cons in Hnd as [Hh' Hnd].
    rewrite NoDup_app in Hnd. destruct Hnd as (_ & Hdis & Hnd).
    apply NoDup_cons in Hnd as [Hb' _]. apply Hx; [set_solver.. |].
    intros Hy'. symmetry in Hy'. apply last_Some_elem_of in Hy'. set_solver. }
  destruct l1 as [|a l1 _] using rev_ind.
  { cbn in *. by apply (chain_tail n _ _ b). }
  rewrite last_snoc in Ha, Hx. specialize (Ha ltac:(by destruct l1)). cbn in Ha.
  rewrite <- app_assoc in Hb, Hc1 |- *. cbn in *. rewrite chain_app in Hc1 |- *.
  destruct Hc1 as [Hc1 _]. split.
  - apply (chain_segment n _ h).
    + rewrite app_comm_cons, NoDup_app in Hnd. tauto.
    + apply NoDup_cons in Hnd as [_ Hnd]. rewrite NoDup_app in Hnd. set_solver.
    + done.
    + rewrite Hb. by destruct l1.
    + intros x ???. apply Hx; congruence.
  - by apply (chain_tail n _ _ b).
Qed.

(** Redirecting the last pointer of a chain. *)
Lemma chain_redirect p p' x m y z :
  NoDup (x :: m) -> chain p x (m ++ [y]) ->
  p' (default x (last m)) = z ->
  (forall v, v ∈ x :: m -> v <> default x (last m) -> p' v = p v) ->
  chain p' x (m ++ [z]).
Proof.
  intros Hnd Hc Hz Hx. destruct m as [|e m _] using rev_ind; [by split|].
  rewrite last_snoc in Hz, Hx. cbn in Hz, Hx. rewrite <- app_assoc in Hc |- *. cbn in *.
  rewrite chain_app in Hc |- *. destruct Hc as [Hc _]. split; [|by split].
  eapply chain_ext; [|exact Hc]. intros v Hv. symmetry.
  rewrite app_comm_cons, NoDup_app in Hnd. apply Hx; set_solver.
Qed.

(** Unlinking [b] from a chain and putting it last. *)
Lemma chain_to_back p p' h b m1 m2 :
  NoDup (h :: m1 ++ b :: m2) ->
  chain p h (m1 ++ b :: m2 ++ [h]) ->
  p' b = h ->
  p' (default h (last (m1 ++ m2))) = b ->
  (m2 <> [] -> p' (default h (last m1)) = first_of m2 h) ->
  (forall x, x <> b -> x <> default h (last (m1 ++ m2)) ->
     (m2 <> [] -> x <> default h (last m1)) -> p' x = p x) ->
  chain p' h ((m1 ++ m2 ++ [b]) ++ [h]).
Proof.
  intros Hnd Hc Hb Hl Ha Hx.
  rewrite chain_app in Hc. destruct Hc as [Hc1 Hc2].
  apply NoDup_cons in Hnd as [Hh Hnd]. rewrite NoDup_app in Hnd.
  destruct Hnd as (Hn1 & Hdis & Hn2). apply NoDup_cons in Hn2 as [Hb2 Hn2].
  rewrite app_assoc, <- app_assoc. cbn. rewrite chain_app. split; [|by split].
  destruct m2 as [|y m2].
  { rewrite app_nil_r in *. apply (chain_redirect p _ h m1 b b); [|done|done|].
    - constructor; [|done]. intros Hin. apply Hh. by apply elem_of_app; left.
    - intros v Hv Hv'. apply Hx; [|done | done].
      intros ->. apply elem_of_cons in Hv as [->|Hv]; [apply Hh; set_solver|].
      apply (Hdis b Hv). by left. }
  specialize (Ha ltac:(done)). rewrite <- app_assoc. cbn. rewrite chain_app.
  rewrite last_app_cons in Hl, Hx.
  destruct (last (y :: m2)) as [e|] eqn:He; [|by rewrite last_None in He].
  cbn in Hl, Hx. assert (e ∈ y :: m2) as Hem by (by apply last_Some_elem_of).
  rewrite elem_of_app, elem_of_cons in Hh.
  assert (forall v, v ∈ h :: m1 -> v ∉ y :: m2) as Hsep.
  { intros v Hv Hv'. apply elem_of_cons in Hv as [->|Hv]; [tauto|].
    apply (Hdis v Hv). by apply elem_of_cons; right. }
  split.
  - apply (chain_redirect p _ h m1 b y); [constructor; tauto | done | done |].
    intros v Hv Hv'. apply Hx; [|intros ->; by apply (Hsep e) | done].
    intros ->. apply elem_of_cons in Hv as [->|Hv]; [tauto|].
    apply (Hdis b Hv). by left.
  - cbn in Hc2. destruct Hc2 as [_ Hc2].
    assert (default y (last m2) = e) as Ed by (destruct m2; [cbn in *; congruence | cbn in He; by rewrite He]).
    apply (chain_redirect p _ y m2 h b); [done | done | by rewrite Ed |].
    rewrite Ed. intros v Hv Hv'. apply Hx; [congruence | done |].
    intros _ ->. eapply Hsep; [|exact Hv].
    destruct (last m1) as [l|] eqn:Hl1; cbn; [|by left].
    apply last_Some_elem_of in Hl1. by right.
Qed.

(** ** Pointer updates on the buffers *)

Definition bufs_of (w : world) : list buf := bc_buf (k_bc (w_k w)).
Definition with_bufs (bufs : list buf) (w : world) : world :=
  w <| w_k ::= fun k => k <| k_bc := Bcache bufs |> |>.

Definition set_next (i v : nat) (bufs : list buf) : list buf :=
  alter (fun x => x <| b_next := v |>) i bufs.
Definition set_prev (i v : nat) (bufs : list buf) : list buf :=
  alter (fun x => x <| b_prev := v |>) i bufs.

(** A buffer without its list pointers. *)
Definition core (x : buf) : buf := x <| b_prev := O |> <| b_next := O |>.

Lemma get_buf_run b w x : bufs_of w !! b = Some x -> get_buf b w = Ok x w.
Proof. unfold bufs_of, get_buf, get, mbind, M_bind, deref. intros ->. done. Qed.

Lemma upd_buf_run b f w : upd_buf b f w = Ok tt (with_bufs (alter f b (bufs_of w)) w).
Proof. done. Qed.

Lemma bufs_of_with bufs w : bufs_of (with_bufs bufs w) = bufs.
Proof. done. Qed.

Lemma with_bufs_with bufs1 bufs2 w : with_bufs bufs1 (with_bufs bufs2 w) = with_bufs bufs1 w.
Proof. done. Qed.

Lemma with_bufs_self w : with_bufs (bufs_of w) w = w.
Proof. destruct w as [[]]; unfold with_bufs, bufs_of, setter; cbn. by destruct k_bc. Qed.

Lemma nextf_set_next i v bufs x : (i < length bufs)%nat ->
  nextf (set_next i v bufs) x = if decide (x = i) then v else nextf bufs x.
Proof.
  intros Hi. unfold nextf, set_next. rewrite list_lookup_alter.
  destruct (decide (i = x)) as [->|]; [rewrite decide_True by done | by rewrite decide_False by done].
  by apply lookup_lt_is_Some in Hi as [y ->].
Qed.

Lemma prevf_set_prev i v bufs x : (i < length bufs)%nat ->
  prevf (set_prev i v bufs) x = if decide (x = i) then v else prevf bufs x.
Proof.
  intros Hi. unfold prevf, set_prev. rewrite list_lookup_alter.
  destruct (decide (i = x)) as [->|]; [rewrite decide_True by done | by rewrite decide_False by done].
  by apply lookup_lt_is_Some in Hi as [y ->].
Qed.

Lemma nextf_set_prev i v bufs x : nextf (set_prev i v bufs) x = nextf bufs x.
Proof.
  unfold nextf, set_prev. rewrite list_lookup_alter. case_decide; [subst|done].
  by destruct (bufs !! _).
Qed.

Lemma prevf_set_next i v bufs x : prevf (set_next i v bufs) x = prevf bufs x.
Proof.
  unfold prevf, set_next. rewrite list_lookup_alter. case_decide; [subst|done].
  by destruct (bufs !! _).
Qed.

Lemma map_core_alter f i bufs :
  (forall x, core (f x) = core x) -> map core (alter f i bufs) = map core bufs.
Proof.
  intros H. apply list_eq. intros j. rewrite !list_lookup_fmap, list_lookup_alter.
  case_decide; [subst|done]. destruct (bufs !! j); cbn; by rewrite ?H.
Qed.

Lemma map_core_set_next i v bufs : map core (set_next i v bufs) = map core bufs.
Proof. by apply map_core_alter. Qed.

Lemma map_core_set_prev i v bufs : map core (set_prev i v bufs) = map core bufs.
Proof. by apply map_core_alter. Qed.

Lemma length_set_next i v bufs : length (set_next i v bufs) = length bufs.
Proof. apply length_alter. Qed.

Lemma length_set_prev i v bufs : length (set_prev i v bufs) = length bufs.
Proof. apply length_alter. Qed.

#[export] Hint Rewrite map_core_set_next map_core_set_prev length_set_next length_set_prev : xv6_len.

(** The six assignments of [brelse] on the pointers. *)
Definition spliced (b : nat) (bufs : list buf) : list buf :=
  let b1 := set_prev (nextf bufs b) (prevf bufs b) bufs in
  let b2 := set_next (prevf b1 b) (nextf b1 b) b1 in
  let b3 := set_next b (nextf b2 bhead) b2 in
  let b4 := set_prev b bhead b3 in
  let b5 := set_prev (nextf b4 bhead) b b4 in
  set_next bhead b b5.

Lemma get_buf_next b w : (b < length (bufs_of w))%nat ->
  exists x, get_buf b w = Ok x w /\ b_next x = nextf (bufs_of w) b /\ b_prev x = prevf (bufs_of w) b.
Proof.
  intros Hb. apply lookup_lt_is_Some in Hb as [x Hx]. exists x.
  rewrite (get_buf_run b w x) by done. unfold nextf, prevf. by rewrite Hx.
Qed.

Lemma splice_front_run b w :
  length (bufs_of w) = S NBUF -> (b < NBUF)%nat ->
  splice_front b w = Ok tt (with_bufs (spliced b (bufs_of w)) w).
Proof.
  intros Hlen Hb. unfold splice_front, spliced. cbv zeta. unfold mbind, M_bind.
  destruct (get_buf_next b w) as (x & -> & -> & ->); [lia|].
  rewrite upd_buf_run. fold (set_prev (nextf (bufs_of w) b) (prevf (bufs_of w) b) (bufs_of w)).
  set (b1 := set_prev _ _ _).
  destruct (get_buf_next b (with_bufs b1 w)) as (x1 & -> & -> & ->);
    [rewrite bufs_of_with; unfold b1; rewrite length_set_prev; lia|].
  rewrite upd_buf_run, bufs_of_with, with_bufs_with. fold (set_next (prevf b1 b) (nextf b1 b) b1).
  set (b2 := set_next _ _ _).
  assert (length b2 = S NBUF) by (unfold b2, b1; by rewrite length_set_next, length_set_prev).
  destruct (get_buf_next bhead (with_bufs b2 w)) as (x2 & -> & -> & _);
    [rewrite bufs_of_with; unfold bhead; lia|].
  rewrite !upd_buf_run, !bufs_of_with, !with_bufs_with.
  fold (set_next b (nextf b2 bhead) b2). set (b3 := set_next b _ _).
  fold (set_prev b bhead b3). set (b4 := set_prev b _ _).
  assert (length b4 = S NBUF) by (unfold b4, b3; by rewrite length_set_prev, length_set_next).
  destruct (get_buf_next bhead (with_bufs b4 w)) as (x4 & -> & -> & _);
    [rewrite bufs_of_with; unfold bhead; lia|].
  by rewrite !upd_buf_run, !bufs_of_with, !with_bufs_with.
Qed.

Section Spliced.
Context (b : nat) (bufs : list buf).
Let a := prevf bufs b.
Let c := nextf bufs b.
Let f := if decide (a = bhead) then c else nextf bufs bhead.
Hypothesis (Hlen : length bufs = S NBUF) (Hb : (b < NBUF)%nat).
Hypothesis (Ha : (a <= NBUF)%nat) (Hc : (c <= NBUF)%nat) (Hab : a <> b) (Hcb : c <> b).
Hypothesis (Hf : (f <= NBUF)%nat).

Lemma spliced_next x :
  nextf (spliced b bufs) x =
    if decide (x = bhead) then b else
    if decide (x = b) then f else
    if decide (x = a) then c else nextf bufs x.
Proof.
  unfold spliced. cbv zeta. fold a c.
  assert (prevf (set_prev c a bufs) b = a) as E1.
  { rewrite prevf_set_prev by lia. by rewrite decide_False by done. }
  rewrite E1. rewrite !nextf_set_prev. fold c.
  unfold bhead in *. rewrite nextf_set_next by (autorewrite with xv6_len; lia).
  case_decide; [done|]. rewrite !nextf_set_prev.
  rewrite nextf_set_next by (autorewrite with xv6_len; lia).
  destruct (decide (x = b)).
  - rewrite nextf_set_next by (autorewrite with xv6_len; lia). rewrite nextf_set_prev.
    unfold f. fold c. destruct (decide (a = NBUF)); [by rewrite decide_True | by rewrite decide_False].
  - rewrite nextf_set_next by (autorewrite with xv6_len; lia). by rewrite nextf_set_prev.
Qed.

Lemma spliced_prev x :
  prevf (spliced b bufs) x =
    if decide (x = f) then b else
    if decide (x = b) then bhead else
    if decide (x = c) then a else prevf bufs x.
Proof.
  unfold spliced. cbv zeta. fold a c.
  assert (prevf (set_prev c a bufs) b = a) as E1.
  { rewrite prevf_set_prev by lia. by rewrite decide_False by done. }
  rewrite E1. rewrite !nextf_set_prev. fold c. rewrite prevf_set_next.
  assert (nextf (set_next b (nextf (set_next a c (set_prev c a bufs)) bhead)
                  (set_next a c (set_prev c a bufs))) bhead = f) as E2.
  { rewrite nextf_set_next by (autorewrite with xv6_len; lia).
    rewrite decide_False by (unfold bhead; lia).
    rewrite nextf_set_next by (autorewrite with xv6_len; lia). rewrite nextf_set_prev. unfold f.
    destruct (decide (a = bhead)); [by rewrite decide_True | by rewrite decide_False]. }
  rewrite E2. rewrite prevf_set_prev by (autorewrite with xv6_len; lia). case_decide; [done|].
  rewrite prevf_set_prev by (autorewrite with xv6_len; lia). case_decide; [done|].
  rewrite !prevf_set_next. by rewrite prevf_set_prev by lia.
Qed.

Lemma spliced_core : map core (spliced b bufs) = map core bufs.
Proof. unfold spliced. cbv zeta. by autorewrite with xv6_len. Qed.

Lemma spliced_length : length (spliced b bufs) = length bufs.
Proof. unfold spliced. cbv zeta. by autorewrite with xv6_len. Qed.

End Spliced.

Lemma head_rev_last {A} (l : list A) : head (rev l) = last l.
Proof.
  induction l as [|x l _] using rev_ind; [done|]. by rewrite rev_app_distr, last_snoc.
Qed.

Lemma last_rev_head {A} (l : list A) : last (rev l) = head l.
Proof. rewrite <- head_rev_last. by rewrite rev_involutive. Qed.

(** [brelse]'s pointer updates move [b] to the front of the list. *)
Section MoveToFront.
Context (b : nat) (bufs : list buf) (l1 l2 : list nat).
Hypothesis (Hd : dll bufs (l1 ++ b :: l2)).

Lemma mtf_nodup : NoDup (bhead :: l1 ++ b :: l2).
Proof.
  constructor; [|by eapply dll_NoDup]. rewrite (dll_elem _ _ _ Hd). unfold bhead. lia.
Qed.

Lemma mtf_b : (b < NBUF)%nat.
Proof. apply (dll_elem _ _ _ Hd). set_solver. Qed.

Lemma mtf_next_b : nextf bufs b = first_of l2 bhead.
Proof.
  destruct Hd as (_ & _ & Hn & _). rewrite <- app_assoc in Hn. cbn in Hn.
  rewrite chain_app in Hn. destruct Hn as [_ Hn]. by apply chain_first.
Qed.

Lemma mtf_prev_b : prevf bufs b = default bhead (last l1).
Proof.
  destruct Hd as (_ & _ & _ & Hp). rewrite rev_app_distr in Hp. cbn in Hp.
  rewrite <- !app_assoc in Hp. cbn in Hp. rewrite chain_app in Hp. destruct Hp as [_ Hp].
  apply chain_first in Hp. rewrite Hp. unfold first_of. by rewrite head_rev_last.
Qed.

Lemma mtf_first :
  (if decide (prevf bufs b = bhead) then nextf bufs b else nextf bufs bhead)
  = first_of (l1 ++ l2) bhead.
Proof.
  rewrite mtf_prev_b, mtf_next_b. pose proof mtf_nodup as Hnd.
  destruct (last l1) as [a|] eqn:Hl.
  - cbn. rewrite decide_False.
    2:{ intros ->. apply last_Some_elem_of in Hl. apply NoDup_cons in Hnd. set_solver. }
    destruct Hd as (_ & _ & Hn & _). rewrite <- app_assoc in Hn. cbn in Hn.
    rewrite chain_app in Hn. destruct Hn as [Hn _]. apply chain_first in Hn. rewrite Hn.
    by destruct l1.
  - apply last_None in Hl. by subst.
Qed.

Lemma mtf_bound l d : l ⊆ l1 ++ l2 -> (d <= NBUF)%nat -> (default d (head l) <= NBUF)%nat.
Proof.
  intros Hl Hx. destruct l as [|x l]; cbn; [done|].
  assert (x < NBUF)%nat; [|lia]. apply (dll_elem _ _ _ Hd). set_solver.
Qed.

Lemma mtf_sep x : x ∈ l1 ++ l2 -> x <> b /\ x <> bhead.
Proof.
  intros Hx. pose proof mtf_nodup as Hnd. rewrite <- Permutation_middle in Hnd.
  apply NoDup_cons in Hnd as [H1 Hnd]. apply NoDup_cons in Hnd as [H2 _].
  split; intros ->; set_solver.
Qed.

Lemma mtf_side :
  length bufs = S NBUF /\ (b < NBUF)%nat /\ (prevf bufs b <= NBUF)%nat /\
  (nextf bufs b <= NBUF)%nat /\ prevf bufs b <> b /\ nextf bufs b <> b /\
  ((if decide (prevf bufs b = bhead) then nextf bufs b else nextf bufs bhead) <= NBUF)%nat.
Proof.
  rewrite mtf_first, mtf_next_b, mtf_prev_b. pose proof mtf_b. unfold first_of, bhead.
  split; [by destruct Hd|]. split; [done|].
  rewrite <- head_rev_last. repeat split.
  - apply mtf_bound; [|done]. intros x. rewrite elem_of_app, <- Permutation_rev. tauto.
  - apply mtf_bound; [|done]. intros x. rewrite elem_of_app. tauto.
  - rewrite head_rev_last. destruct (last l1) as [x|] eqn:E; cbn; [|lia].
    apply last_Some_elem_of in E. apply mtf_sep. set_solver.
  - pose proof mtf_sep as Hsep. destruct l2 as [|x ?]; cbn; [lia|]. apply Hsep. set_solver.
  - by apply mtf_bound.
Qed.

Lemma mtf_spliced_next x :
  nextf (spliced b bufs) x =
    if decide (x = bhead) then b else
    if decide (x = b) then first_of (l1 ++ l2) bhead else
    if decide (x = default bhead (last l1)) then first_of l2 bhead else nextf bufs x.
Proof.
  destruct mtf_side as (Hlen & Hb & Ha & Hc & Hab & Hcb & Hf).
  rewrite spliced_next by done. by rewrite mtf_first, mtf_next_b, mtf_prev_b.
Qed.

Lemma mtf_spliced_prev x :
  prevf (spliced b bufs) x =
    if decide (x = first_of (l1 ++ l2) bhead) then b else
    if decide (x = b) then bhead else
    if decide (x = first_of l2 bhead) then default bhead (last l1) else prevf bufs x.
Proof.
  destruct mtf_side as (Hlen & Hb & Ha & Hc & Hab & Hcb & Hf).
  rewrite spliced_prev by done. by rewrite mtf_first, mtf_next_b, mtf_prev_b.
Qed.

Lemma mtf_first_ne l : l ⊆ l1 ++ l2 -> first_of l bhead <> b.
Proof.
  intros Hl. destruct l as [|x l]; cbn; [pose proof mtf_b; unfold bhead; lia|].
  apply mtf_sep. set_solver.
Qed.

Lemma mtf_chain_next : chain (nextf (spliced b bufs)) bhead (b :: l1 ++ l2 ++ [bhead]).
Proof.
  assert (b <> bhead) as Hbh by (pose proof mtf_b; unfold bhead; lia).
  pose proof Hd as (_ & _ & Hn & _). rewrite <- app_assoc in Hn. cbn in Hn.
  apply (chain_to_front (nextf bufs)); [exact mtf_nodup | done |..]; intros;
    rewrite mtf_spliced_next.
  - by rewrite decide_True.
  - by rewrite decide_False, decide_True by done.
  - destruct (last l1) as [x|] eqn:E; [|apply last_None in E; done].
    cbn. apply last_Some_elem_of in E. destruct (mtf_sep x ltac:(set_solver)).
    by rewrite !decide_False, decide_True by done.
  - rewrite !decide_False; [done| |done|done]. destruct (last l1); cbn; congruence.
Qed.

Lemma mtf_chain_prev : chain (prevf (spliced b bufs)) bhead ((rev l2 ++ rev l1 ++ [b]) ++ [bhead]).
Proof.
  pose proof Hd as (_ & _ & _ & Hp). rewrite rev_app_distr in Hp. cbn in Hp.
  rewrite <- !app_assoc in Hp. cbn in Hp. pose proof mtf_nodup as Hnd.
  pose proof (mtf_first_ne (l1 ++ l2) ltac:(done)) as Hfb.
  assert (l1 <> [] -> first_of l2 bhead <> first_of (l1 ++ l2) bhead) as Hne.
  { clear Hp Hfb. destruct l1 as [|x l1']; [done|]. intros _. cbn in *.
    apply NoDup_cons in Hnd as [Hh Hnd]. apply NoDup_cons in Hnd as [Hx _].
    destruct l2; cbn; set_solver. }
  apply (chain_to_back (prevf bufs)); [|done|..]; intros; rewrite ?mtf_spliced_prev;
    rewrite <- ?rev_app_distr, ?last_rev_head in *; fold (first_of (l1 ++ l2) bhead) in *;
    fold (first_of l2 bhead) in *.
  - rewrite <- Permutation_middle in Hnd |- *. by rewrite <- rev_app_distr, <- Permutation_rev.
  - by rewrite decide_False, decide_True by congruence.
  - by rewrite decide_True.
  - assert (l1 <> []) as Hl1 by (intros E; rewrite E in *; done).
    rewrite decide_False by auto. rewrite decide_False by (apply mtf_first_ne; set_solver).
    rewrite decide_True by done. unfold first_of. by rewrite head_rev_last.
  - rewrite decide_False by done. rewrite decide_False by done. rewrite decide_False; [done|].
    destruct l1 as [|y l1']; [done|]. intros ->. apply H1; [|done].
    cbn. by destruct (rev l1').
Qed.

Lemma spliced_dll : dll (spliced b bufs) (b :: l1 ++ l2).
Proof.
  destruct Hd as (Hlen & Hperm & _).
  split; [by rewrite spliced_length|]. split; [by rewrite <- Hperm, Permutation_middle|].
  split; [rewrite <- app_comm_cons, <- app_assoc; apply mtf_chain_next|].
  cbn [rev]. rewrite rev_app_distr, <- (app_assoc (rev l2)). apply mtf_chain_prev.
Qed.

End MoveToFront.

(** ** Walking the list *)

Lemma walk_run {R} (dir : buf -> nat) (body : nat -> M (option R)) order w :
  chain (fun x => default O (dir <$> bufs_of w !! x)) bhead (order ++ [bhead]) ->
  (length order <= NBUF)%nat ->
  (forall b, b ∈ bhead :: order -> (b < length (bufs_of w))%nat) -> bhead ∉ order ->
  (forall b w', b ∈ order -> body b w = Ok None w' -> w' = w) ->
  walk dir body w = find_each order body w.
Proof.
  intros Hc Hlen Hlt Hh Hro. unfold walk, mbind, M_bind.
  assert (forall x, x ∈ bhead :: order -> exists y, get_buf x w = Ok y w /\
    dir y = default O (dir <$> bufs_of w !! x)) as Hg.
  { intros x Hx. apply Hlt, lookup_lt_is_Some in Hx as [y Hy]. exists y.
    rewrite Hy. by rewrite (get_buf_run x w y). }
  destruct (Hg bhead ltac:(by left)) as (h & -> & ->).
  assert (forall l fuel x, x ∈ bhead :: order -> l ⊆ order -> (length l < fuel)%nat ->
    chain (fun x => default O (dir <$> bufs_of w !! x)) x (l ++ [bhead]) ->
    loop fuel (fun b => if (b =? bhead)%nat then mret (inr None) else
      r ← body b; match r with
        | Some v => mret (inr (Some v))
        | None => x ← get_buf b; mret (inl (dir x)) end)
      (default O (dir <$> bufs_of w !! x)) w = find_each l body w) as G.
  { induction l as [|b l IH]; intros fuel x Hx Hl Hf Hch.
    - destruct fuel; [lia|]. cbn in Hch. destruct Hch as [-> _]. cbn [loop].
      by rewrite Nat.eqb_refl.
    - destruct fuel; [cbn in Hf; lia|]. cbn in Hch. destruct Hch as [-> Hch].
      assert (b ∈ order) as Hb by set_solver. cbn [loop find_each].
      rewrite (proj2 (Nat.eqb_neq b bhead)) by (intros ->; done).
      unfold mbind, M_bind. destruct (body b w) as [[v|] w'|?|?| |] eqn:E; try done.
      apply Hro in E as ->; [|done].
      destruct (Hg b ltac:(by right)) as (y & -> & Hd). cbn. rewrite Hd.
      apply IH; [by right | set_solver | cbn in Hf; lia | done]. }
  apply G; [by left | done | lia | done].
Qed.

Lemma walk_next_run {R} (body : nat -> M (option R)) order w :
  dll (bufs_of w) order ->
  (forall b w', b ∈ order -> body b w = Ok None w' -> w' = w) ->
  walk b_next body w = find_each order body w.
Proof.
  intros Hd Hro. pose proof Hd as (Hlen & Hp & Hn & _). apply walk_run; [done|..]; try done.
  - rewrite Hp, length_seq. done.
  - intros b Hb. apply elem_of_cons in Hb as [->|Hb]; [unfold bhead; lia|].
    eapply dll_elem in Hb; [|done]. lia.
  - rewrite (dll_elem _ _ _ Hd). unfold bhead. lia.
Qed.

Lemma walk_prev_run {R} (body : nat -> M (option R)) order w :
  dll (bufs_of w) order ->
  (forall b w', b ∈ order -> body b w = Ok None w' -> w' = w) ->
  walk b_prev body w = find_each (rev order) body w.
Proof.
  intros Hd Hro. pose proof Hd as (Hlen & Hp & _ & Hn). apply walk_run; [done|..].
  - rewrite length_rev, Hp, length_seq. done.
  - intros b Hb. rewrite <- Permutation_rev in Hb.
    apply elem_of_cons in Hb as [->|Hb]; [unfold bhead; lia|].
    eapply dll_elem in Hb; [|done]. lia.
  - rewrite <- Permutation_rev, (dll_elem _ _ _ Hd). unfold bhead. lia.
  - intros b w' Hb. rewrite <- Permutation_rev in Hb. by apply Hro.
Qed.
