(* ===== verification/BioSpec.v ===== *)
(** What the buffer cache promises to its clients (log.c and fs.c).

    [fss] is the file system's state with the two things its code never
    depends on abstracted away: the order of the LRU list and which processes
    the unlocking of a buffer wakes.  [fwp c s Q] is total correctness of [c]
    from [s]: it returns, without panicking and without sleeping, in a state
    that satisfies [Q]. *)

From S2P Require Import Prelude Kernel Sched Bio.

Record fss := FSS {
  s_buf : list buf;            (** the [NBUF] buffers, without list pointers *)
  s_disk : list (list Z);
  s_writes : list (Z * list Z);
  s_log : logst;
  s_ic : list inode }.
#[export] Instance fss_set : Settable fss :=
  fun r => FSS (s_buf r) (s_disk r) (s_writes r) (s_log r) (s_ic r).

(** The world with the file system's state replaced. *)
Definition put (w : world) (s : fss) (ps : list proc) (bufs : list buf) : world :=
  World (KS ps (k_nextpid (w_k w)) (k_initproc (w_k w)) (k_mem (w_k w))
            (Bcache bufs) (s_disk s) (s_writes s) (s_log s) (k_sb (w_k w)) (s_ic s)
            (k_ftable (w_k w)) (k_devsw (w_k w)) (k_pipes (w_k w)) (k_input (w_k w))
            (k_out (w_k w)) (k_ticks (w_k w)) (k_trace (w_k w))
            (k_locking (w_k w)) (k_first (w_k w)) (k_cga (w_k w)))
        (w_held w) (w_proc w) (w_env w).

(** The pointers of [bufs] form the LRU list, and the rest of it is [cs]. *)
Definition rep (bufs cs : list buf) : Prop :=
  (exists order, dll bufs order) /\ take NBUF (map core bufs) = cs.

(** The caller: it holds no spin lock and runs process [me], whose pid is
    [pid]. *)
Class fs_ctx (w : world) (me : nat) (pid : Z) : Prop := {
  ctx_held : w_held w = [];
  ctx_proc : w_proc w = Some me }.

Definition ctx_ps (me : nat) (pid : Z) (ps : list proc) : Prop :=
  length ps = NPROC /\ exists p, ps !! me = Some p /\ p_pid p = pid.

Lemma ctx_ps_woken me pid ps ps' : ctx_ps me pid ps -> woken ps ps' -> ctx_ps me pid ps'.
Proof.
  intros [Hl (p & Hp & Hpid)] Hw. split; [by rewrite (woken_length _ _ Hw)|].
  destruct (woken_lookup _ _ _ _ Hw Hp) as (p' & Hp' & H1). exists p'.
  split; [done|]. by rewrite (woken1_pid _ _ H1).
Qed.

Section Fwp.
Context (w : world) (me : nat) (pid : Z).

Definition fwp {A} (c : M A) (s : fss) (Q : A -> fss -> Prop) : Prop :=
  forall ps bufs, ctx_ps me pid ps -> rep bufs (s_buf s) ->
    match c (put w s ps bufs) with
    | Ok a w' => exists s' ps' bufs', w' = put w s' ps' bufs' /\ woken ps ps' /\
                   rep bufs' (s_buf s') /\ Q a s'
    | _ => False
    end.

Lemma fwp_ret {A} (a : A) s Q : Q a s -> fwp (mret a) s Q.
Proof. intros HQ ps bufs _ Hr. exists s, ps, bufs. done. Qed.

Lemma fwp_bind {A B} (c : M A) (k : A -> M B) s Q :
  fwp c s (fun a s' => fwp (k a) s' Q) -> fwp (c ≫= k) s Q.
Proof.
  intros Hc ps bufs Hps Hr. specialize (Hc ps bufs Hps Hr). unfold mbind, M_bind.
  destruct (c _) as [a w'|?|?| |]; try done.
  destruct Hc as (s' & ps' & bufs' & -> & Hw & Hr' & Hk).
  specialize (Hk ps' bufs' (ctx_ps_woken _ _ _ _ Hps Hw) Hr').
  destruct (k a _) as [b w'|?|?| |]; try done.
  destruct Hk as (s2 & ps2 & bufs2 & -> & Hw2 & Hr2 & HQ).
  exists s2, ps2, bufs2. split; [done|]. split; [by transitivity ps' | done].
Qed.

Lemma fwp_mono {A} (c : M A) s (P Q : A -> fss -> Prop) :
  fwp c s P -> (forall a s', P a s' -> Q a s') -> fwp c s Q.
Proof.
  intros Hc HPQ ps bufs Hps Hr. specialize (Hc ps bufs Hps Hr).
  destruct (c _); try done. destruct Hc as (s' & ps' & bufs' & ? & ? & ? & ?).
  exists s', ps', bufs'. auto.
Qed.

(** A statement that leaves the process table and the buffers alone. *)
Lemma fwp_run {A} (c : M A) s a s' (Q : A -> fss -> Prop) :
  s_buf s' = s_buf s ->
  (forall ps bufs, c (put w s ps bufs) = Ok a (put w s' ps bufs)) -> Q a s' -> fwp c s Q.
Proof. intros Hb Hc HQ ps bufs _ Hr. rewrite Hc. exists s', ps, bufs. by rewrite Hb. Qed.

Lemma fwp_get {T} (f : kstate -> T) v s Q :
  (forall ps bufs, f (w_k (put w s ps bufs)) = v) -> Q v s -> fwp (get f) s Q.
Proof. intros E HQ. eapply fwp_run; [done| |done]. intros. unfold get. by rewrite E. Qed.

Lemma fwp_deref {T} (o : option T) v s Q : o = Some v -> Q v s -> fwp (deref o) s Q.
Proof. intros -> HQ. by apply fwp_ret. Qed.

Lemma fwp_when (c : bool) body s (Q : unit -> fss -> Prop) :
  (c = true -> fwp body s Q) -> (c = false -> Q tt s) -> fwp (when c body) s Q.
Proof. destruct c; intros H1 H2; [by apply H1 | by apply fwp_ret, H2]. Qed.

Lemma fwp_for_each {A} (l : list A) (body : A -> M unit) (I : list A -> fss -> Prop) s Q :
  I [] s ->
  (forall pre a post s', l = pre ++ a :: post -> I pre s' ->
     fwp (body a) s' (fun _ s'' => I (pre ++ [a]) s'')) ->
  (forall s', I l s' -> Q tt s') ->
  fwp (for_each l body) s Q.
Proof.
  intros H0 Hstep Hend.
  assert (forall post pre s', l = pre ++ post -> I pre s' -> fwp (for_each post body) s' Q) as G.
  { induction post as [|a post IH]; intros pre s' El HI.
    - rewrite app_nil_r in El. subst. cbn. by apply fwp_ret, Hend.
    - cbn. apply fwp_bind. eapply fwp_mono; [by eapply Hstep|].
      intros [] s'' HI''. eapply IH; [|done]. by rewrite <- app_assoc. }
  by eapply (G l []).
Qed.

Lemma fwp_find_each {A R} (l : list A) (body : A -> M (option R))
    (I : list A -> fss -> Prop) s Q :
  I [] s ->
  (forall pre a post s', l = pre ++ a :: post -> I pre s' ->
     fwp (body a) s' (fun r s'' =>
       match r with Some x => Q (Some x) s'' | None => I (pre ++ [a]) s'' end)) ->
  (forall s', I l s' -> Q None s') ->
  fwp (find_each l body) s Q.
Proof.
  intros H0 Hstep Hend.
  assert (forall post pre s', l = pre ++ post -> I pre s' -> fwp (find_each post body) s' Q) as G.
  { induction post as [|a post IH]; intros pre s' El HI.
    - rewrite app_nil_r in El. subst. cbn. by apply fwp_ret, Hend.
    - cbn. apply fwp_bind. eapply fwp_mono; [by eapply Hstep|].
      intros [x|] s'' HI''; [by apply fwp_ret|]. eapply IH; [|done]. by rewrite <- app_assoc. }
  by eapply (G l []).
Qed.

End Fwp.

(** ** Statements on one buffer *)

(** An update that neither reads nor writes the list pointers. *)
Definition core_ok (f : buf -> buf) : Prop :=
  forall x, core (f x) = f (core x) /\ b_next (f x) = b_next x /\ b_prev (f x) = b_prev x.

Lemma chain_ext_all f g x l : (forall z, f z = g z) -> chain f x l -> chain g x l.
Proof. intros H. revert x. induction l; intros x; cbn; rewrite <- ?H; naive_solver. Qed.

Lemma dll_alter f b bufs order :
  core_ok f -> dll bufs order -> dll (alter f b bufs) order.
Proof.
  intros Hf (Hl & Hp & Hn & Hv). unfold dll. rewrite length_alter. repeat split; try done.
  - eapply chain_ext_all; [|exact Hn]. intros z. unfold nextf. rewrite list_lookup_alter.
    case_decide; [subst|done]. destruct (bufs !! z) as [x|]; [|done]. cbn. symmetry. apply Hf.
  - eapply chain_ext_all; [|exact Hv]. intros z. unfold prevf. rewrite list_lookup_alter.
    case_decide; [subst|done]. destruct (bufs !! z) as [x|]; [|done]. cbn. symmetry. apply Hf.
Qed.

Lemma rep_lookup bufs cs b x :
  rep bufs cs -> cs !! b = Some x -> exists y, bufs !! b = Some y /\ core y = x /\ (b < NBUF)%nat.
Proof.
  intros [_ <-] H. apply lookup_take_Some in H as [H Hb].
  rewrite list_lookup_fmap in H. destruct (bufs !! b); cbn in H; simplify_eq. eauto.
Qed.

Lemma rep_alter f b bufs cs x :
  core_ok f -> rep bufs cs -> cs !! b = Some x -> rep (alter f b bufs) (<[b := f x]> cs).
Proof.
  intros Hf Hr Hx. destruct (rep_lookup _ _ _ _ Hr Hx) as (y & Hy & <- & Hb).
  destruct Hr as [[order Hd] <-]. split; [exists order; by apply dll_alter|].
  apply list_eq. intros i. rewrite list_lookup_insert.
  destruct (decide (i < NBUF)%nat).
  - rewrite lookup_take_lt by done. rewrite list_lookup_fmap, list_lookup_alter.
    destruct (decide (b = i)) as [->|].
    + rewrite decide_True.
      2:{ split; [done|]. by apply lookup_lt_Some in Hx. }
      rewrite Hy. cbn. f_equal. apply Hf.
    + rewrite decide_False by tauto. by rewrite lookup_take_lt, list_lookup_fmap.
  - rewrite decide_False by lia. by rewrite !lookup_take_ge by lia.
Qed.

Lemma rep_with_bufs bufs bufs' w0 s ps : with_bufs bufs' (put w0 s ps bufs) = put w0 s ps bufs'.
Proof. done. Qed.

Section BufOps.
Context (w : world) (me : nat) (pid : Z) `{!fs_ctx w me pid}.
Implicit Types (s : fss) (b : nat) (x : buf).

Lemma fwp_get_buf b x s Q :
  s_buf s !! b = Some x -> (forall y, core y = x -> Q y s) -> fwp w me pid (get_buf b) s Q.
Proof.
  intros Hx HQ ps bufs Hps Hr. destruct (rep_lookup _ _ _ _ Hr Hx) as (y & Hy & Hc & _).
  rewrite (get_buf_run b _ y) by done. exists s, ps, bufs. by split_and!; try apply HQ.
Qed.

Lemma fwp_upd_buf b f x s (Q : unit -> fss -> Prop) :
  core_ok f -> s_buf s !! b = Some x ->
  Q tt (s <| s_buf ::= <[b := f x]> |>) -> fwp w me pid (upd_buf b f) s Q.
Proof.
  intros Hf Hx HQ ps bufs Hps Hr. rewrite upd_buf_run, rep_with_bufs.
  eexists (s <| s_buf ::= _ |>), ps, _. split; [done|]. split; [done|]. split; [|exact HQ].
  by apply rep_alter.
Qed.

Lemma put_running s ps bufs p : ps !! me = Some p -> running (put w s ps bufs) me p.
Proof. intros Hp. split; [apply (ctx_proc (w:=w) (pid:=pid)) | done]. Qed.

Lemma put_held s ps bufs : w_held (put w s ps bufs) = [].
Proof. apply (ctx_held (w:=w) (me:=me) (pid:=pid)). Qed.

Lemma fwp_acquiresleep_buf b x s (Q : unit -> fss -> Prop) :
  s_buf s !! b = Some x -> sl_locked (b_lock x) = false ->
  Q tt (s <| s_buf ::= <[b := x <| b_lock := SL true pid |>]> |>) ->
  fwp w me pid (acquiresleep (SLbuf b)) s Q.
Proof.
  intros Hx Hf HQ ps bufs Hps Hr. pose proof Hps as [Hl (p & Hp & Hpid)].
  destruct (rep_lookup _ _ _ _ Hr Hx) as (y & Hy & <- & Hb).
  erewrite acquiresleep_run; [|by apply put_running|cbn; by rewrite Hy|done|rewrite put_held; set_solver].
  rewrite Hpid. eexists (s <| s_buf ::= _ |>), ps, _. split; [done|]. split; [done|].
  split; [|exact HQ]. cbn. by apply (rep_alter (fun x => x <| b_lock := SL true pid |>)).
Qed.

Lemma fwp_releasesleep_buf b x s (Q : unit -> fss -> Prop) :
  s_buf s !! b = Some x ->
  Q tt (s <| s_buf ::= <[b := x <| b_lock := SL false 0 |>]> |>) ->
  fwp w me pid (releasesleep (SLbuf b)) s Q.
Proof.
  intros Hx HQ ps bufs Hps Hr. pose proof Hps as [Hl (p & Hp & Hpid)].
  destruct (rep_lookup _ _ _ _ Hr Hx) as (y & Hy & <- & Hb).
  erewrite releasesleep_run; [|cbn; by rewrite Hy|done|rewrite put_held; set_solver..].
  eexists (s <| s_buf ::= _ |>), _, _. split; [done|]. split; [apply map_wake1_woken|].
  split; [|exact HQ]. cbn. by apply (rep_alter (fun x => x <| b_lock := SL false 0 |>)).
Qed.

Lemma fwp_holdingsleep_buf b x s (Q : bool -> fss -> Prop) :
  s_buf s !! b = Some x ->
  Q (sl_locked (b_lock x) && (sl_pid (b_lock x) =? pid)) s ->
  fwp w me pid (holdingsleep (SLbuf b)) s Q.
Proof.
  intros Hx HQ ps bufs Hps Hr. pose proof Hps as [Hl (p & Hp & Hpid)].
  destruct (rep_lookup _ _ _ _ Hr Hx) as (y & Hy & <- & Hb).
  erewrite holdingsleep_run; [|by apply put_running|cbn; by rewrite Hy|rewrite put_held; set_solver].
  rewrite Hpid. by exists s, ps, bufs.
Qed.

End BufOps.

(** ** The cache invariant *)

Definition valid (x : buf) : bool := hasf (b_flags x) B_VALID.
Definition dirty (x : buf) : bool := hasf (b_flags x) B_DIRTY.

(** A buffer that has never been used. *)
Definition virgin (x : buf) : Prop :=
  b_dev x = 0 /\ b_flags x = 0 /\ b_refcnt x = 0 /\ sl_locked (b_lock x) = false.

(** A buffer that caches a block.  While its reference count is zero it is
    unlocked and, unless the log has pinned it, equal to the disk. *)
Definition bound (disk : list (list Z)) (pid : Z) (x : buf) : Prop :=
  b_dev x = 1 /\ valid x = true /\ length (b_data x) = Z.to_nat BSIZE /\
  0 <= b_blockno x < Z.of_nat (length disk) /\
  (b_refcnt x = 0 /\ sl_locked (b_lock x) = false /\
     (dirty x = true \/ disk !! Z.to_nat (b_blockno x) = Some (b_data x)) \/
   b_refcnt x = 1 /\ b_lock x = SL true pid).

Record binv (pid : Z) (s : fss) : Prop := {
  bi_len : length (s_buf s) = NBUF;
  bi_disk : Forall (fun d => length d = Z.to_nat BSIZE) (s_disk s);
  bi_buf : Forall (fun x => virgin x \/ bound (s_disk s) pid x) (s_buf s);
  bi_uniq : forall i j x y, s_buf s !! i = Some x -> s_buf s !! j = Some y ->
    b_dev x = 1 -> b_dev y = 1 -> b_blockno x = b_blockno y -> i = j }.

(** The buffer that caches a block, and the block's contents as the file
    system sees it: the cached copy if there is one, else the disk's. *)
Definition caches (bno : Z) (x : buf) : Prop := b_dev x = 1 /\ b_blockno x = bno.
#[export] Instance caches_dec bno x : Decision (caches bno x).
Proof. unfold caches. apply _. Defined.

Definition cached (s : fss) (bno : Z) : option (nat * buf) := list_find (caches bno) (s_buf s).

Definition blk (s : fss) (bno : Z) : list Z :=
  match cached s bno with
  | Some (_, x) => b_data x
  | None => default [] (s_disk s !! Z.to_nat bno)
  end.

(** Buffers that [bget] may recycle. *)
Definition idle (x : buf) : Prop := b_refcnt x = 0 /\ dirty x = false.
#[export] Instance idle_dec x : Decision (idle x).
Proof. unfold idle. apply _. Defined.

Definition room (s : fss) : nat := length (filter idle (s_buf s)).

Lemma cached_Some pid s bno b x :
  binv pid s -> cached s bno = Some (b, x) <-> s_buf s !! b = Some x /\ caches bno x.
Proof.
  intros Hi. unfold cached. rewrite list_find_Some. split; [naive_solver|].
  intros [Hx Hc]. split_and!; [done|done|]. intros j y Hy Hj Hcy.
  destruct Hc, Hcy. pose proof (bi_uniq _ _ Hi j b y x). naive_solver lia.
Qed.

Lemma cached_None s bno b x : cached s bno = None -> s_buf s !! b = Some x -> ~ caches bno x.
Proof.
  unfold cached. rewrite list_find_None, Forall_lookup. eauto.
Qed.

Lemma binv_buf pid s b x :
  binv pid s -> s_buf s !! b = Some x -> virgin x \/ bound (s_disk s) pid x.
Proof. intros Hi Hx. pose proof (bi_buf _ _ Hi) as H. rewrite Forall_lookup in H. eauto. Qed.

Lemma idle_unlocked pid s b x :
  binv pid s -> s_buf s !! b = Some x -> b_refcnt x = 0 -> sl_locked (b_lock x) = false.
Proof.
  intros Hi Hx H0. destruct (binv_buf _ _ _ _ Hi Hx) as [(_ & _ & _ & ?)|Hb]; [done|].
  destruct Hb as (_ & _ & _ & _ & [(_ & ? & _)|[? _]]); [done|lia].
Qed.

Lemma s_buf_twice s b x y :
  s <| s_buf ::= <[b := x]> |> <| s_buf ::= <[b := y]> |> = s <| s_buf ::= <[b := y]> |>.
Proof. unfold setter. cbn. by rewrite list_insert_insert_eq. Qed.

(** ** [bget] *)

Section Bget.
Context (w : world) (me : nat) (pid : Z) `{!fs_ctx w me pid}.
Implicit Types (s : fss) (b : nat) (x : buf).

Definition in_bcache : world := w <| w_held ::= cons Lbcache |>.

Lemma put_acquire_bcache s ps bufs :
  acquire Lbcache (put w s ps bufs) = Ok tt (put in_bcache s ps bufs).
Proof. rewrite acquire_run; [done|]. rewrite (put_held w me pid). set_solver. Qed.

Lemma put_release_bcache s ps bufs :
  release Lbcache (put in_bcache s ps bufs) = Ok tt (put w s ps bufs).
Proof. by rewrite (release_run _ _ (w_held w)). Qed.

Lemma with_bufs_put v s ps bufs bufs' : with_bufs bufs' (put v s ps bufs) = put v s ps bufs'.
Proof. done. Qed.

(** The last step of both loops: locking the buffer found. *)
Lemma bget_lock b s x ps bufs :
  ctx_ps me pid ps -> s_buf s !! b = Some x -> sl_locked (b_lock x) = false -> rep bufs (s_buf s) ->
  exists w', (acquiresleep (SLbuf b) ;; mret (Some b)) (put w s ps bufs) = Ok (Some b) w' /\
    exists s' ps' bufs', w' = put w s' ps' bufs' /\ woken ps ps' /\ rep bufs' (s_buf s') /\
      s' = s <| s_buf ::= <[b := x <| b_lock := SL true pid |>]> |>.
Proof.
  intros Hps Hx Hf Hr.
  pose proof (fwp_acquiresleep_buf w me pid b x s
    (fun _ s' => s' = s <| s_buf ::= <[b := x <| b_lock := SL true pid |>]> |>) Hx Hf eq_refl
    ps bufs Hps Hr) as H.
  unfold mbind, M_bind. destruct (acquiresleep _ _) as [[] w'|?|?| |]; try done. eauto.
Qed.

(** A hit takes a reference to the buffer and locks it. *)
Lemma bget_hit dev bno b x s Q :
  s_buf s !! b = Some x -> b_dev x = dev -> b_blockno x = bno ->
  (forall j y, s_buf s !! j = Some y -> b_dev y = dev -> b_blockno y = bno -> j = b) ->
  sl_locked (b_lock x) = false ->
  Q b (s <| s_buf ::= <[b := x <| b_refcnt := u32 (b_refcnt x + 1) |>
                               <| b_lock := SL true pid |>]> |>) ->
  fwp w me pid (bget dev bno) s Q.
Proof.
  intros Hx Hdev Hbno Huniq Hfree HQ ps bufs Hps Hr. unfold bget.
  pose proof Hr as [[order Hd] Hcs]. destruct (rep_lookup _ _ _ _ Hr Hx) as (y & Hy & Hcy & Hb).
  unfold mbind at 1, M_bind at 1. rewrite put_acquire_bcache.
  pose proof (dll_NoDup _ _ Hd) as Hnd.
  assert (b ∈ order) as Hin by (by apply (dll_elem _ _ _ Hd)).
  apply list_elem_of_split in Hin as (l1 & l2 & ->).
  match goal with |- context [walk b_next ?bd] => set (body := bd) end.
  assert (forall j, j ∈ l1 ++ b :: l2 -> j <> b ->
    body j (put in_bcache s ps bufs) = Ok None (put in_bcache s ps bufs)) as Hmiss.
  { intros j Hj Hjb. apply (dll_elem _ _ _ Hd) in Hj as Hlt.
    assert (j < length bufs)%nat as [z Hz]%lookup_lt_is_Some by (destruct Hd as [-> _]; lia).
    unfold body, mbind, M_bind. rewrite (get_buf_run j _ z) by done.
    destruct (_ && _) eqn:E; [|done]. exfalso. apply Hjb.
    apply andb_true_iff in E as [E1 E2]. apply Z.eqb_eq in E1, E2.
    apply (Huniq j (core z)); [|done|done].
    rewrite <- Hcs, lookup_take_lt, list_lookup_fmap, Hz by done. done. }
  set (f := fun x : buf => x <| b_refcnt ::= fun n => u32 (n + 1) |>).
  assert (body b (put in_bcache s ps bufs) =
    (acquiresleep (SLbuf b) ;; mret (Some b)) (put w s ps (alter f b bufs))) as Hhit.
  { unfold body, mbind, M_bind. rewrite (get_buf_run b _ y) by done.
    assert (b_dev y = dev /\ b_blockno y = bno) as [-> ->] by (by subst x).
    rewrite !Z.eqb_refl. cbn [andb]. rewrite upd_buf_run, with_bufs_put. fold f.
    by rewrite put_release_bcache. }
  destruct (bget_lock b (s <| s_buf ::= <[b := f x]> |>) (f x) ps (alter f b bufs))
    as (w' & Hacq & s' & ps' & bufs' & -> & Hrest); [done| |done| |].
  { cbn. rewrite list_lookup_insert_eq; [done|]. by eapply lookup_lt_Some. }
  { by apply rep_alter. }
  pose proof (eq_trans Hhit Hacq) as Hhit'. clear Hhit Hacq. unfold mbind, M_bind.
  rewrite (walk_next_run _ (l1 ++ b :: l2)); [|done|].
  2:{ intros j w' Hj. destruct (decide (j = b)) as [->|Hne]; [by rewrite Hhit'|].
      rewrite Hmiss by done. by intros [= <-]. }
  erewrite (find_each_hit l1 b l2 body); [| |exact Hhit'].
  2:{ intros j Hj. apply Hmiss; [set_solver|]. intros ->. rewrite NoDup_app in Hnd. set_solver. }
  exists s', ps', bufs'. destruct Hrest as (Hw & Hr' & ->). split_and!; try done.
  unfold setter. cbn. rewrite list_insert_insert_eq. exact HQ.
Qed.

(** A miss rebinds a buffer that nobody uses and the log has not pinned. *)
Lemma bget_miss dev bno s (Q : nat -> fss -> Prop) :
  (forall j y, s_buf s !! j = Some y -> ~ (b_dev y = dev /\ b_blockno y = bno)) ->
  (forall j y, s_buf s !! j = Some y -> b_refcnt y = 0 -> sl_locked (b_lock y) = false) ->
  length (s_buf s) = NBUF -> (0 < room s)%nat ->
  (forall b x, s_buf s !! b = Some x -> idle x ->
     Q b (s <| s_buf ::= <[b := x <| b_dev := dev |> <| b_blockno := bno |> <| b_flags := 0 |>
                                  <| b_refcnt := 1 |> <| b_lock := SL true pid |>]> |>)) ->
  fwp w me pid (bget dev bno) s Q.
Proof.
  intros Hno Hunl Hlen Hroom HQ ps bufs Hps Hr. unfold bget.
  pose proof Hr as [[order Hd] Hcs]. unfold mbind at 1, M_bind at 1. rewrite put_acquire_bcache.
  assert (forall j, j ∈ order -> exists z, bufs !! j = Some z /\ s_buf s !! j = Some (core z)) as Hbuf.
  { intros j Hj. apply (dll_elem _ _ _ Hd) in Hj as Hlt.
    assert (j < length bufs)%nat as [z Hz]%lookup_lt_is_Some by (destruct Hd as [-> _]; lia).
    exists z. split; [done|]. by rewrite <- Hcs, lookup_take_lt, list_lookup_fmap, Hz by done. }
  unfold mbind at 1, M_bind at 1.
  match goal with |- context [walk b_next ?bd] => set (body1 := bd) end.
  assert (forall j, j ∈ order -> body1 j (put in_bcache s ps bufs) = Ok None (put in_bcache s ps bufs)) as H1.
  { intros j Hj. destruct (Hbuf j Hj) as (z & Hz & Hcz). unfold body1, mbind, M_bind.
    rewrite (get_buf_run j _ z) by done. destruct (_ && _) eqn:E; [|done]. exfalso.
    apply andb_true_iff in E as [E1 E2]. apply Z.eqb_eq in E1, E2. by apply (Hno _ _ Hcz). }
  rewrite (walk_next_run _ order); [|done|by intros j w' Hj; rewrite H1 by done; intros [= <-]].
  rewrite find_each_miss by done. unfold mbind at 1, M_bind at 1.
  match goal with |- context [walk b_prev ?bd] => set (body2 := bd) end.
  assert (Exists (fun j => exists z, bufs !! j = Some z /\ idle z) (rev order)) as Hex.
  { apply Exists_exists. unfold room in Hroom.
    destruct (filter idle (s_buf s)) as [|x l] eqn:Ef; [cbn in Hroom; lia|].
    assert (x ∈ filter idle (s_buf s)) as Hin by (rewrite Ef; by left).
    apply list_elem_of_filter in Hin as [Hid [j Hj]%list_elem_of_lookup]. exists j.
    destruct (rep_lookup _ _ _ _ Hr Hj) as (z & Hz & <- & Hlt).
    split; [|by exists z]. rewrite <- Permutation_rev. by apply (dll_elem _ _ _ Hd). }
  apply first_split in Hex as (l1 & b & l2 & Hrev & (z & Hz & Hidz) & Hpre).
  2:{ intros j. destruct (bufs !! j) as [z|] eqn:E; [|right; naive_solver].
      destruct (decide (idle z)); [left; eauto | right; naive_solver]. }
  assert (forall j, j ∈ order <-> j ∈ l1 ++ b :: l2) as Hmem by (intros j; by rewrite <- Hrev, <- Permutation_rev).
  assert (forall j, j ∈ l1 -> body2 j (put in_bcache s ps bufs) = Ok None (put in_bcache s ps bufs)) as H2.
  { intros j Hj. destruct (Hbuf j) as (y & Hy & Hcy); [apply Hmem; set_solver|].
    unfold body2, mbind, M_bind. rewrite (get_buf_run j _ y) by done.
    destruct (_ && _) eqn:E; [|done]. exfalso. rewrite Forall_forall in Hpre.
    apply (Hpre j Hj). exists y. split; [done|]. apply andb_true_iff in E as [E1 E2].
    split; [by apply Z.eqb_eq in E1 | by apply negb_true_iff in E2]. }
  destruct (Hbuf b) as (z' & Hz' & Hcz); [apply Hmem; set_solver|]. simplify_eq.
  set (f := fun x : buf => x <| b_dev := dev |> <| b_blockno := bno |> <| b_flags := 0 |> <| b_refcnt := 1 |>).
  assert (body2 b (put in_bcache s ps bufs) =
    (acquiresleep (SLbuf b) ;; mret (Some b)) (put w s ps (alter f b bufs))) as Hhit.
  { unfold body2, mbind, M_bind. rewrite (get_buf_run b _ z) by done. destruct Hidz as [E1 E2].
    unfold dirty in E2. rewrite E1, E2. cbn [andb negb Z.eqb].
    rewrite !upd_buf_run, !bufs_of_with, !with_bufs_with, with_bufs_put.
    rewrite !alter_alter. by rewrite put_release_bcache. }
  destruct (bget_lock b (s <| s_buf ::= <[b := f (core z)]> |>) (f (core z)) ps (alter f b bufs))
    as (w' & Hacq & s' & ps' & bufs' & -> & Hrest); [done| | | |].
  { cbn. rewrite list_lookup_insert_eq; [done|]. by eapply lookup_lt_Some. }
  { apply (Hunl _ _ Hcz). apply Hidz. }
  { by apply rep_alter. }
  pose proof (eq_trans Hhit Hacq) as Hhit'. clear Hhit Hacq. unfold mbind, M_bind.
  rewrite (walk_prev_run _ order); [|done|].
  2:{ intros j w' Hj. destruct (Hbuf j Hj) as (y & Hy & _). unfold body2, mbind, M_bind.
      rewrite (get_buf_run j _ y) by done. destruct (_ && _); [|by intros [= <-]].
      rewrite !upd_buf_run. destruct (release _ _); try done. by destruct (acquiresleep _ _). }
  rewrite Hrev. erewrite (find_each_hit l1 b l2 body2); [|done|exact Hhit'].
  exists s', ps', bufs'. destruct Hrest as (Hw & Hr' & ->). split_and!; try done.
  unfold setter. cbn. rewrite list_insert_insert_eq. by apply (HQ b (core z)).
Qed.
End Bget.

(** ** Replacing one buffer *)

Lemma binv_insert pid s b x :
  binv pid s -> (virgin x \/ bound (s_disk s) pid x) ->
  (forall j y, j <> b -> s_buf s !! j = Some y -> b_dev y = 1 -> b_dev x = 1 ->
     b_blockno y <> b_blockno x) ->
  binv pid (s <| s_buf ::= <[b := x]> |>).
Proof.
  intros Hi Hx Hne. constructor; cbn.
  - rewrite length_insert. apply (bi_len _ _ Hi).
  - apply (bi_disk _ _ Hi).
  - apply Forall_insert; [apply (bi_buf _ _ Hi) | done].
  - intros i j y z Hy Hz Hdy Hdz E.
    rewrite list_lookup_insert in Hy, Hz.
    destruct (decide (i = j)) as [|Hij]; [done|]. exfalso.
    repeat case_decide; destruct_and?; simplify_eq.
    + by eapply (Hne i y).
    + by eapply (Hne j z).
    + by apply Hij; eapply (bi_uniq _ _ Hi).
Qed.

Section BlkInsert.
Context (pid : Z) (s : fss) (b : nat) (x0 x : buf).
Hypothesis (Hi : binv pid s) (Hx0 : s_buf s !! b = Some x0).
Let s' := s <| s_buf ::= <[b := x]> |>.
Hypothesis (Hi' : binv pid s').

Lemma blk_cached j y : s_buf s !! j = Some y -> b_dev y = 1 -> blk s (b_blockno y) = b_data y.
Proof.
  intros Hy Hd. unfold blk. rewrite (proj2 (cached_Some pid s _ j y Hi)); [done|]. by split.
Qed.

Lemma blk_insert_same n :
  caches (b_blockno x) x0 -> b_dev x = 1 ->
  blk s' n = if decide (n = b_blockno x) then b_data x else blk s n.
Proof.
  intros Hc Hd. assert (s_buf s' !! b = Some x) as Hb.
  { cbn. rewrite list_lookup_insert_eq; [done|]. by eapply lookup_lt_Some. }
  case_decide as Hn.
  - subst n. unfold blk. by rewrite (proj2 (cached_Some pid s' _ b x Hi')).
  - unfold blk. destruct (cached s n) as [[j y]|] eqn:E.
    + apply (cached_Some pid) in E as [Hy Hcy]; [|done].
      assert (j <> b) as Hjb by (intros ->; destruct Hc, Hcy; simplify_eq).
      rewrite (proj2 (cached_Some pid s' n j y Hi')); [done|]. split; [|done].
      cbn. by rewrite list_lookup_insert_ne.
    + destruct (cached s' n) as [[j y]|] eqn:E'; [|done]. exfalso.
      apply (cached_Some pid) in E' as [Hy Hcy]; [|done]. cbn in Hy.
      rewrite list_lookup_insert in Hy. case_decide; simplify_eq.
      * by destruct Hcy.
      * by eapply cached_None.
Qed.

(** Rebinding a buffer whose old block is also on the disk. *)
Lemma blk_insert_new n :
  (virgin x0 \/ s_disk s !! Z.to_nat (b_blockno x0) = Some (b_data x0)) ->
  cached s (b_blockno x) = None -> b_dev x = 1 ->
  blk s' n = if decide (n = b_blockno x) then b_data x else blk s n.
Proof.
  intros Hc Hnc Hd. assert (s_buf s' !! b = Some x) as Hb.
  { cbn. rewrite list_lookup_insert_eq; [done|]. by eapply lookup_lt_Some. }
  case_decide as Hn.
  - subst n. unfold blk. by rewrite (proj2 (cached_Some pid s' _ b x Hi')).
  - unfold blk. destruct (cached s n) as [[j y]|] eqn:E.
    + apply (cached_Some pid) in E as [Hy Hcy]; [|done].
      destruct (decide (j = b)) as [->|Hjb].
      * rewrite Hx0 in Hy. injection Hy as <-. destruct Hcy as [Hy1 <-].
        destruct Hc as [(Hv & _)|Hc]; [congruence|].
        destruct (cached s' (b_blockno x0)) as [[j z]|] eqn:E'; [|by change (s_disk s') with (s_disk s); rewrite Hc].
        exfalso. apply (cached_Some pid) in E' as [Hz Hcz]; [|done]. cbn in Hz.
        rewrite list_lookup_insert in Hz. destruct Hcz as [Hz1 Hz2].
        case_decide as Hd'; [by simplify_eq|]. apply Hd'.
        assert (j = b) as -> by (by eapply (bi_uniq _ _ Hi)). split; [done|]. by eapply lookup_lt_Some.
      * rewrite (proj2 (cached_Some pid s' n j y Hi')); [done|]. split; [|done].
        cbn. by rewrite list_lookup_insert_ne.
    + destruct (cached s' n) as [[j y]|] eqn:E'; [|done]. exfalso.
      apply (cached_Some pid) in E' as [Hy Hcy]; [|done]. cbn in Hy.
      rewrite list_lookup_insert in Hy. case_decide; simplify_eq.
      * by destruct Hcy.
      * by eapply cached_None.
Qed.

End BlkInsert.

(** How replacing a buffer changes the number of recyclable ones. *)
Lemma room_insert s b x0 x :
  s_buf s !! b = Some x0 ->
  (room (s <| s_buf ::= <[b := x]> |>) + (if decide (idle x0) then 1 else 0) =
   room s + (if decide (idle x) then 1 else 0))%nat.
Proof.
  intros Hx. unfold room. cbn.
  apply list_elem_of_split_length in Hx as (l1 & l2 & E & Hl). rewrite E.
  rewrite insert_app_r_alt by lia. rewrite Hl, Nat.sub_diag. cbn.
  rewrite !filter_app, !length_app, !filter_cons. repeat case_decide; cbn; lia.
Qed.

(** ** The cache as its clients see it

    [ast] is the abstract state of the disk below log.c and fs.c: the contents
    of every block as the file system sees it, which blocks are held (with the
    buffer that holds each) and which the log has pinned in memory. *)

Record ast := AST {
  a_blk : Z -> list Z;
  a_disk : list (list Z);
  a_writes : list (Z * list Z);
  a_held : gmap Z nat;
  a_pin : gset Z;
  a_log : logst;
  a_ic : list inode }.
#[export] Instance ast_set : Settable ast :=
  fun r => AST (a_blk r) (a_disk r) (a_writes r) (a_held r) (a_pin r) (a_log r) (a_ic r).

Definition in_disk (a : ast) (n : Z) : Prop := 0 <= n < Z.of_nat (length (a_disk a)).

(** Blocks that occupy a buffer that cannot be recycled. *)
Definition busy (a : ast) : gset Z := dom (a_held a) ∪ a_pin a.

Record repr (pid : Z) (s : fss) (a : ast) : Prop := {
  rp_inv : binv pid s;
  rp_disk : s_disk s = a_disk a;
  rp_writes : s_writes s = a_writes a;
  rp_log : s_log s = a_log a;
  rp_ic : s_ic s = a_ic a;
  rp_blk : forall n, 0 <= n -> blk s n = a_blk a n;
  rp_held : forall n b, a_held a !! n = Some b <->
    exists x, s_buf s !! b = Some x /\ caches n x /\ b_refcnt x <> 0;
  rp_pin : forall n, n ∈ a_pin a <->
    exists b x, s_buf s !! b = Some x /\ caches n x /\ dirty x = true }.

(** Total correctness on abstract states. *)
Definition gwp (w : world) (me : nat) (pid : Z) {A} (c : M A) (a : ast)
    (Q : A -> ast -> Prop) : Prop :=
  forall s, repr pid s a -> fwp w me pid c s (fun v s' => exists a', repr pid s' a' /\ Q v a').

Section Gwp.
Context (w : world) (me : nat) (pid : Z).

Lemma gwp_ret {A} (v : A) a Q : Q v a -> gwp w me pid (mret v) a Q.
Proof. intros HQ s Hs. apply fwp_ret. eauto. Qed.

Lemma gwp_bind {A B} (c : M A) (k : A -> M B) a Q :
  gwp w me pid c a (fun v a' => gwp w me pid (k v) a' Q) -> gwp w me pid (c ≫= k) a Q.
Proof.
  intros Hc s Hs. apply fwp_bind. eapply fwp_mono; [by apply Hc|].
  intros v s' (a' & Hs' & Hk). by apply Hk.
Qed.

Lemma gwp_mono {A} (c : M A) a (P Q : A -> ast -> Prop) :
  gwp w me pid c a P -> (forall v a', P v a' -> Q v a') -> gwp w me pid c a Q.
Proof.
  intros Hc HPQ s Hs. eapply fwp_mono; [by apply Hc|]. intros v s' (a' & ? & ?). eauto.
Qed.

Lemma gwp_when (c : bool) body a (Q : unit -> ast -> Prop) :
  (c = true -> gwp w me pid body a Q) -> (c = false -> Q tt a) -> gwp w me pid (when c body) a Q.
Proof. destruct c; intros H1 H2; [by apply H1 | by apply gwp_ret, H2]. Qed.

Lemma gwp_deref {T} (o : option T) v a Q : o = Some v -> Q v a -> gwp w me pid (deref o) a Q.
Proof. intros -> HQ. by apply gwp_ret. Qed.

Lemma gwp_for_each {A} (l : list A) (body : A -> M unit) (I : list A -> ast -> Prop) a Q :
  I [] a ->
  (forall pre x post a', l = pre ++ x :: post -> I pre a' ->
     gwp w me pid (body x) a' (fun _ a'' => I (pre ++ [x]) a'')) ->
  (forall a', I l a' -> Q tt a') ->
  gwp w me pid (for_each l body) a Q.
Proof.
  intros H0 Hstep Hend s Hs.
  apply (fwp_for_each _ _ _ _ _ (fun pre s' => exists a', repr pid s' a' /\ I pre a')); [eauto| |].
  - intros pre x post s' E (a' & Hs' & HI). by eapply Hstep.
  - intros s' (a' & Hs' & HI). eauto.
Qed.

Lemma gwp_find_each {A R} (l : list A) (body : A -> M (option R))
    (I : list A -> ast -> Prop) a Q :
  I [] a ->
  (forall pre x post a', l = pre ++ x :: post -> I pre a' ->
     gwp w me pid (body x) a' (fun r a'' =>
       match r with Some v => Q (Some v) a'' | None => I (pre ++ [x]) a'' end)) ->
  (forall a', I l a' -> Q None a') ->
  gwp w me pid (find_each l body) a Q.
Proof.
  intros H0 Hstep Hend s Hs.
  apply (fwp_find_each _ _ _ _ _ (fun pre s' => exists a', repr pid s' a' /\ I pre a')); [eauto| |].
  - intros pre x post s' E (a' & Hs' & HI). eapply fwp_mono; [by eapply Hstep|].
    intros [v|] s'' (a'' & ? & ?); eauto.
  - intros s' (a' & Hs' & HI). eauto.
Qed.

(** Reading a global other than the process table and the buffers. *)
Lemma gwp_get {T} (f : kstate -> T) v a Q :
  (forall s ps bufs, repr pid s a -> f (w_k (put w s ps bufs)) = v) -> Q v a ->
  gwp w me pid (get f) a Q.
Proof. intros E HQ s Hs. eapply fwp_get; [intros; by apply E|]. eauto. Qed.

Lemma gwp_upd_log f a (Q : unit -> ast -> Prop) :
  Q tt (a <| a_log ::= f |>) -> gwp w me pid (upd_log f) a Q.
Proof.
  intros HQ s Hs. apply (fwp_run _ _ _ _ _ tt (s <| s_log ::= f |>)); [done|done|].
  eexists. split; [|exact HQ]. destruct Hs as [[] ? ? Hl]. constructor; try done.
  unfold setter; cbn. by rewrite Hl.
Qed.

End Gwp.

(** Abstract states are compared up to the blocks' contents. *)
#[export] Instance ast_equiv : Equiv ast := fun a a' =>
  (forall n, a_blk a n = a_blk a' n) /\ a' = a <| a_blk := a_blk a' |>.

#[export] Instance ast_equivalence : Equivalence (≡@{ast}).
Proof.
  split.
  - intros []. done.
  - intros [] [] [H E]. unfold setter in E. cbn in *. simplify_eq. done.
  - intros [] [] [] [H E] [H' E']. unfold setter in *. cbn in *. simplify_eq.
    split; [|done]. cbn in *. intros. by rewrite H, H'.
Qed.

#[export] Instance repr_proper pid s : Proper ((≡@{ast}) ==> iff) (repr pid s).
Proof.
  assert (forall a a', a ≡ a' -> repr pid s a -> repr pid s a') as G; [|by split; apply G].
  intros [] [] [H E]. unfold setter in E. cbn in *. simplify_eq.
  intros []. constructor; cbn in *; try done. intros. by rewrite <- H, rp_blk0.
Qed.

Lemma gwp_pre w me pid {A} (c : M A) a a' Q :
  a ≡ a' -> gwp w me pid c a Q -> gwp w me pid c a' Q.
Proof. intros E H s Hs. apply H. by rewrite E. Qed.

Lemma gwp_post w me pid {A} (c : M A) a Q :
  gwp w me pid c a (fun v a' => exists a'', a' ≡ a'' /\ Q v a'') -> gwp w me pid c a Q.
Proof.
  intros H s Hs. eapply fwp_mono; [by apply H|]. intros v s' (a' & Hs' & a'' & E & HQ).
  exists a''. split; [by rewrite <- E | done].
Qed.

(** *** Changing one buffer *)

Section Repr.
Context (pid : Z) (s : fss) (a : ast).
Hypothesis (Hr : repr pid s a).

Lemma repr_buf b x : s_buf s !! b = Some x -> virgin x \/ bound (a_disk a) pid x.
Proof. intros Hx. rewrite <- (rp_disk _ _ _ Hr). eapply binv_buf; [apply Hr | done]. Qed.

Lemma repr_uniq i j x y n :
  s_buf s !! i = Some x -> s_buf s !! j = Some y -> caches n x -> caches n y -> i = j.
Proof. intros Hx Hy [? ?] [? ?]. eapply (bi_uniq _ _ (rp_inv _ _ _ Hr)); eauto. congruence. Qed.

(** A block that is held: its buffer is locked by the caller. *)
Lemma repr_held n b :
  a_held a !! n = Some b ->
  exists x, s_buf s !! b = Some x /\ caches n x /\ bound (a_disk a) pid x /\
    b_refcnt x = 1 /\ b_lock x = SL true pid /\ b_data x = a_blk a n /\ in_disk a n.
Proof.
  intros Hh. apply (rp_held _ _ _ Hr) in Hh as (x & Hx & Hc & Hn). exists x.
  destruct (repr_buf _ _ Hx) as [(_ & _ & ? & _)|Hb]; [done|].
  pose proof Hb as (Hd & _ & _ & Hrange & [(? & _)|[Href Hl]]); [done|].
  pose proof Hc as [_ <-]. split_and!; try done; try apply Hrange.
  rewrite <- (rp_blk _ _ _ Hr) by lia. symmetry. eapply blk_cached; eauto. apply Hr.
Qed.

(** A block that is neither held nor pinned is the same on the disk. *)
Lemma repr_clean n : in_disk a n -> n ∉ busy a -> a_disk a !! Z.to_nat n = Some (a_blk a n).
Proof.
  intros Hin Hn. unfold busy in Hn. rewrite not_elem_of_union, not_elem_of_dom in Hn.
  destruct Hn as [Hnh Hnp]. unfold in_disk in Hin. rewrite <- (rp_blk _ _ _ Hr) by lia.
  unfold blk. destruct (cached s n) as [[b x]|] eqn:E.
  - apply (cached_Some pid) in E as [Hx Hc]; [|apply Hr].
    destruct (repr_buf b x Hx) as [[Hd _]|(_ & _ & _ & _ & Hb)]; [destruct Hc; congruence|].
    pose proof Hc as [_ <-]. destruct Hb as [(_ & _ & [Hd|Hd])|[Href _]]; [|done|].
    + exfalso. apply Hnp, (rp_pin _ _ _ Hr). by exists b, x.
    + exfalso. assert (a_held a !! b_blockno x = Some b); [|congruence].
      apply (rp_held _ _ _ Hr). exists x. split_and!; [done|done|lia].
  - rewrite (rp_disk _ _ _ Hr). destruct (a_disk a !! Z.to_nat n) eqn:E'; [done|].
    apply lookup_ge_None in E'. lia.
Qed.

(** Blocks have the disk's block size. *)
Lemma repr_blk_len n : in_disk a n -> length (a_blk a n) = Z.to_nat BSIZE.
Proof.
  intros Hin. unfold in_disk in Hin. rewrite <- (rp_blk _ _ _ Hr) by lia. unfold blk.
  pose proof (rp_inv _ _ _ Hr) as Hi.
  destruct (cached s n) as [[b x]|] eqn:E.
  - apply (cached_Some pid) in E as [Hx [Hd _]]; [|done].
    destruct (repr_buf b x Hx) as [[? _]|(_ & _ & Hl & _)]; [congruence|done].
  - pose proof (bi_disk _ _ Hi) as HF. rewrite Forall_lookup, (rp_disk _ _ _ Hr) in HF.
    rewrite (rp_disk _ _ _ Hr). destruct (a_disk a !! Z.to_nat n) as [d|] eqn:E'; [by apply (HF _ _ E')|].
    apply lookup_ge_None in E'. lia.
Qed.

(** Replacing buffer [b], bound to the same block before or recycled. *)
Lemma repr_insert b x0 x a' :
  s_buf s !! b = Some x0 -> bound (a_disk a) pid x ->
  (caches (b_blockno x) x0 \/ idle x0 /\ cached s (b_blockno x) = None) ->
  a_disk a' = a_disk a -> a_writes a' = a_writes a -> a_log a' = a_log a -> a_ic a' = a_ic a ->
  (forall m, 0 <= m -> a_blk a' m = if decide (m = b_blockno x) then b_data x else a_blk a m) ->
  (forall m, a_held a' !! m =
     if decide (m = b_blockno x) then (if b_refcnt x =? 0 then None else Some b)
     else a_held a !! m) ->
  (forall m, m ∈ a_pin a' <->
     if decide (m = b_blockno x) then dirty x = true else m ∈ a_pin a) ->
  repr pid (s <| s_buf ::= <[b := x]> |>) a'.
Proof.
  intros Hx0 Hb Hold Hdisk Hwr Hlog Hic Hblk Hheld Hpin.
  pose proof (rp_inv _ _ _ Hr) as Hi.
  assert (s_buf (s <| s_buf ::= <[b := x]> |>) !! b = Some x) as Hxb.
  { cbn. rewrite list_lookup_insert_eq; [done|]. by eapply lookup_lt_Some. }
  assert (forall j y, j <> b -> s_buf s !! j = Some y -> b_dev y = 1 -> b_blockno y <> b_blockno x) as Hne.
  { intros j y Hjb Hy Hdy E. destruct Hold as [Hc|[_ Hnone]].
    - apply Hjb. by eapply (repr_uniq j b y x0).
    - eapply cached_None; [exact Hnone|exact Hy|]. by split. }
  assert (binv pid (s <| s_buf ::= <[b := x]> |>)) as Hi'.
  { apply binv_insert; [done| |eauto]. right. by rewrite (rp_disk _ _ _ Hr). }
  assert (forall m j y, m <> b_blockno x -> caches m y -> (b_refcnt y <> 0 \/ dirty y = true) ->
    s_buf s !! j = Some y <-> s_buf (s <| s_buf ::= <[b := x]> |>) !! j = Some y) as Hoth.
  { intros m j y Hm Hcy Hbusy. cbn. rewrite list_lookup_insert. destruct Hcy as [Hd <-].
    destruct (decide (b = j)) as [->|]; [|by rewrite decide_False by tauto].
    rewrite decide_True by (split; [done|by eapply lookup_lt_Some]).
    split; intros E; [exfalso|by simplify_eq]. rewrite E in Hx0. injection Hx0 as ->.
    destruct Hold as [[_ ?]|[[? Hdt] _]]; [done|]. destruct Hbusy; [done|congruence]. }
  constructor; unfold setter; cbn; rewrite ?Hdisk, ?Hwr, ?Hlog, ?Hic; try apply Hr; [done|..].
  - intros n Hn. rewrite Hblk, <- (rp_blk _ _ _ Hr) by done. destruct Hold as [Hc|[Hid Hnone]].
    + by apply (blk_insert_same pid s b x0 x Hi Hx0 Hi'); [|apply Hb].
    + apply (blk_insert_new pid s b x0 x Hi Hx0 Hi'); [|done|apply Hb].
      destruct Hid as [Href Hdt]. destruct (binv_buf _ _ _ _ Hi Hx0) as [?|Hb0]; [by left|right].
      destruct Hb0 as (_ & _ & _ & _ & [(_ & _ & [?|?])|[? _]]); [congruence|done|lia].
  - intros n j. rewrite Hheld. case_decide as Hn.
    + subst n. destruct (Z.eqb_spec (b_refcnt x) 0); (split; [intros E|intros (y & Hy & Hcy & Hry)]).
      * done.
      * exfalso. assert (j = b) as ->; [|pose proof (eq_trans (eq_sym Hy) Hxb); naive_solver].
        destruct Hb as (? & _). by apply (bi_uniq _ _ Hi' j b y x Hy Hxb); destruct Hcy.
      * injection E as <-. exists x. split; [done|]. split; [|done]. split; [apply Hb|done].
      * f_equal. destruct Hb as (? & _). by apply (bi_uniq _ _ Hi' b j x y Hxb Hy); destruct Hcy.
    + rewrite (rp_held _ _ _ Hr). by split; intros (y & Hy & Hcy & Hry); exists y;
        (split; [eapply (Hoth n j y); eauto|done]).
  - intros n. rewrite Hpin. case_decide as Hn.
    + subst n. split; [intros Hd; exists b, x; by destruct Hb|].
      intros (j & y & Hy & Hcy & Hdy). assert (j = b) as ->; [|pose proof (eq_trans (eq_sym Hy) Hxb); naive_solver].
      destruct Hb as (? & _). by apply (bi_uniq _ _ Hi' j b y x Hy Hxb); destruct Hcy.
    + rewrite (rp_pin _ _ _ Hr). by split; intros (j & y & Hy & Hcy & Hdy); exists j, y;
        (split; [eapply (Hoth n j y); eauto|done]).
Qed.

End Repr.

(** What may be assumed of the state a computation starts in. *)
Lemma gwp_facts w me pid {A} (c : M A) a Q :
  ((forall n, in_disk a n -> n ∉ busy a -> a_disk a !! Z.to_nat n = Some (a_blk a n)) ->
   (forall n, in_disk a n -> length (a_blk a n) = Z.to_nat BSIZE) ->
   gwp w me pid c a Q) -> gwp w me pid c a Q.
Proof.
  intros H s Hs. apply H; [intros; by eapply repr_clean|intros; by eapply repr_blk_len|done].
Qed.

(** *** The operations *)

Lemma valid_setf x : valid (x <| b_flags ::= fun f => setf f B_VALID |>) = true.
Proof. unfold valid. cbn. by rewrite (hasf_setf _ 1 1). Qed.

Lemma hasf_valid_setf f : hasf (setf f B_VALID) B_DIRTY = hasf f B_DIRTY.
Proof. by rewrite (hasf_setf _ 1 2). Qed.

Lemma hasf_dirty_setf f : hasf (setf f B_DIRTY) B_VALID = hasf f B_VALID.
Proof. by rewrite (hasf_setf _ 2 1). Qed.

Lemma hasf_dirty_clrf f : hasf (clrf f B_DIRTY) B_VALID = hasf f B_VALID.
Proof. by rewrite (hasf_clrf _ 2 1). Qed.

(** The guard of [iderw] against requests with nothing to do. *)
Lemma something_to_do f :
  hasf f B_DIRTY = true \/ hasf f B_VALID = false ->
  (Z.land f (Z.lor B_VALID B_DIRTY) =? B_VALID) = false.
Proof.
  intros H. apply Z.eqb_neq. intros E.
  assert (Z.testbit (Z.land f (Z.lor B_VALID B_DIRTY)) 1 = true) as E1 by (by rewrite E).
  assert (Z.testbit (Z.land f (Z.lor B_VALID B_DIRTY)) 2 = false) as E2 by (by rewrite E).
  rewrite Z.land_spec in E1, E2. change (Z.testbit (Z.lor B_VALID B_DIRTY) _) with true in E1, E2.
  rewrite andb_true_r in E1, E2. pose proof (hasf_bit f 2) as H2. pose proof (hasf_bit f 1) as H1.
  change (2 ^ 2) with B_DIRTY in H2. change (2 ^ 1) with B_VALID in H1.
  rewrite H2, H1 in H by done. destruct H; congruence.
Qed.

Section Ops.
Context (w : world) (me : nat) (pid : Z) `{!fs_ctx w me pid}.
Implicit Types (a : ast) (s : fss) (b : nat) (x : buf) (n : Z).

Lemma gwp_get_buf n b a Q :
  a_held a !! n = Some b ->
  (forall x, b_data x = a_blk a n -> b_blockno x = n -> b_dev x = 1 -> Q x a) ->
  gwp w me pid (get_buf b) a Q.
Proof.
  intros Hh HQ s Hs. destruct (repr_held _ _ _ Hs _ _ Hh) as (x & Hx & [Hd Hn] & _ & _ & _ & Hdata & _).
  eapply fwp_get_buf; [done|]. intros y <-. exists a. split; [done|]. by apply HQ.
Qed.

(** Updates of a held buffer that keep it held. *)
Lemma gwp_upd_held n b f a a' (Q : unit -> ast -> Prop) :
  core_ok f -> a_held a !! n = Some b ->
  (forall x, length (b_data x) = Z.to_nat BSIZE -> b_data x = a_blk a n -> valid x = true ->
     dirty x = bool_decide (n ∈ a_pin a) ->
     b_dev (f x) = b_dev x /\ b_blockno (f x) = b_blockno x /\ b_refcnt (f x) = b_refcnt x /\
     b_lock (f x) = b_lock x /\ length (b_data (f x)) = Z.to_nat BSIZE /\ valid (f x) = true /\
     b_data (f x) = a_blk a' n /\ dirty (f x) = bool_decide (n ∈ a_pin a')) ->
  a' = a <| a_blk := a_blk a' |> <| a_pin := a_pin a' |> ->
  (forall m, m <> n -> a_blk a' m = a_blk a m) ->
  (forall m, m <> n -> m ∈ a_pin a' <-> m ∈ a_pin a) ->
  Q tt a' -> gwp w me pid (upd_buf b f) a Q.
Proof.
  intros Hf Hh Hfx Ha' Hblk Hpin HQ s Hs.
  destruct (repr_held _ _ _ Hs _ _ Hh) as (x & Hx & [Hd Hn] & Hb & Href & Hl & Hdata & Hr).
  pose proof Hb as (_ & Hv & Hlen & Hrange & _).
  destruct (Hfx x) as (E1 & E2 & E3 & E4 & E5 & E6 & E7 & E8); [done|done|done| |].
  { destruct (dirty x) eqn:E; symmetry; [apply bool_decide_eq_true_2 | apply bool_decide_eq_false_2];
      rewrite (rp_pin _ _ _ Hs); [by exists b, x|].
    intros (j & y & Hy & Hcy & Hdy). assert (j = b) as -> by (by eapply (repr_uniq _ _ _ Hs j b y x)).
    congruence. }
  eapply fwp_upd_buf; [done|done|]. exists a'. split; [|done].
  rewrite Ha' in HQ |- *. unfold setter in *.
  eapply repr_insert; try done.
  - unfold bound. rewrite E1, E2, E3, E4. split_and!; try done; try apply Hrange. by right.
  - left. split; [done|congruence].
  - intros m Hm. cbn. rewrite E2, Hn.
    destruct (decide (m = n)) as [->|]; [done | by apply Hblk].
  - intros m. cbn. rewrite E2, E3, Href, Hn. by destruct (decide (m = n)) as [->|].
  - intros m. cbn. rewrite E2, Hn. destruct (decide (m = n)) as [->|]; [|by apply Hpin].
    by rewrite E8, bool_decide_eq_true.
Qed.

Lemma gwp_upd_data n b f a (Q : unit -> ast -> Prop) :
  a_held a !! n = Some b ->
  (length (a_blk a n) = Z.to_nat BSIZE -> length (f (a_blk a n)) = Z.to_nat BSIZE) ->
  Q tt (a <| a_blk ::= <[n := f (a_blk a n)]> |>) ->
  gwp w me pid (upd_buf b (fun x => x <| b_data ::= f |>)) a Q.
Proof.
  intros Hh Hlen HQ. eapply gwp_upd_held; [| exact Hh | | | | |exact HQ]; try done.
  - intros x Hl Hx Hv Hd. unfold setter; cbn. rewrite fn_lookup_insert.
    split_and!; try done; [|congruence]. rewrite Hx in *. auto.
  - intros m Hm. cbn. by rewrite fn_lookup_insert_ne.
Qed.

Lemma gwp_pin n b a (Q : unit -> ast -> Prop) :
  a_held a !! n = Some b ->
  Q tt (a <| a_pin ::= union {[n]} |>) ->
  gwp w me pid (upd_buf b (fun x => x <| b_flags ::= fun f => setf f B_DIRTY |>)) a Q.
Proof.
  clear fs_ctx0.
  intros Hh HQ. eapply gwp_upd_held; [| exact Hh | | | | |exact HQ]; try done.
  - intros x Hl Hx Hv Hd. unfold valid, dirty, setter in *; cbn.
    rewrite hasf_dirty_setf, (hasf_setf _ 2 2) by done. split_and!; try done.
    by rewrite bool_decide_eq_true_2 by set_solver.
  - intros m Hm. cbn. set_solver.
Qed.

(** A held block that goes to the disk. *)
Lemma gwp_disk_write n b a d (Q : unit -> ast -> Prop) :
  a_held a !! n = Some b -> length d = Z.to_nat BSIZE ->
  Q tt (a <| a_disk ::= <[Z.to_nat n := d]> |> <| a_writes ::= fun l => l ++ [(n, d)] |>) ->
  gwp w me pid (disk_write n d) a Q.
Proof.
  intros Hh Hd HQ s Hs. destruct (repr_held _ _ _ Hs _ _ Hh) as (x & Hx & Hc & Hb & Href & Hl & Hdata & Hr).
  eapply (fwp_run _ _ _ _ _ tt (s <| s_disk ::= <[Z.to_nat n := d]> |> <| s_writes ::= fun l => l ++ [(n, d)] |>));
    [done|done|]. eexists. split; [|exact HQ]. pose proof (rp_inv _ _ _ Hs) as Hi.
  assert (forall m, 0 <= m -> cached s m = None -> m <> n) as Hnc.
  { intros m Hm Hnone ->. eapply cached_None; [exact Hnone|exact Hx|done]. }
  constructor; unfold setter; cbn; try apply Hs.
  - constructor; cbn; [apply Hi| |  | apply Hi].
    + apply Forall_insert; [apply Hi|done].
    + apply Forall_lookup. intros j y Hy. destruct (binv_buf _ _ _ _ Hi Hy) as [|Hby]; [by left|right].
      destruct Hby as (H1 & H2 & H3 & H4 & H5). unfold bound. rewrite length_insert.
      split_and!; try done; try apply H4. destruct H5 as [(H6 & H7 & H8)|?]; [left|by right].
      split_and!; try done. destruct H8 as [?|H8]; [by left|right].
      rewrite list_lookup_insert_ne; [done|]. intros E. destruct Hc as [Hdx <-].
      assert (b_blockno x = b_blockno y) as Ey by (destruct Hb as (_ & _ & _ & ? & _); lia).
      assert (b = j) as -> by (by eapply (bi_uniq _ _ Hi)). rewrite Hy in Hx. naive_solver lia.
  - by rewrite (rp_disk _ _ _ Hs).
  - by rewrite (rp_writes _ _ _ Hs).
  - intros m Hm. rewrite <- (rp_blk _ _ _ Hs) by done. unfold blk. cbn.
    change (list_find (caches m) (s_buf s)) with (cached s m).
    destruct (cached s m) as [[j y]|] eqn:E; [done|].
    rewrite list_lookup_insert_ne; [done|]. destruct Hr as [? _]. pose proof (Hnc m Hm E). lia.
Qed.

(** The block is the caller's, so the lock check passes. *)
Lemma gwp_holdingsleep n b a (Q : bool -> ast -> Prop) :
  a_held a !! n = Some b -> Q true a -> gwp w me pid (holdingsleep (SLbuf b)) a Q.
Proof.
  intros Hh HQ s Hs. destruct (repr_held _ _ _ Hs _ _ Hh) as (x & Hx & _ & _ & _ & Hl & _).
  eapply fwp_holdingsleep_buf; [apply _|done|]. rewrite Hl. cbn. rewrite Z.eqb_refl. eauto.
Qed.

Lemma gwp_get_disk a Q : Q (a_disk a) a -> gwp w me pid (get k_disk) a Q.
Proof. intros HQ. eapply gwp_get; [|done]. intros s ps bufs Hs. apply Hs. Qed.

(** [bwrite]: the held block goes to the disk and is no longer pinned. *)
Lemma gwp_bwrite n b a (Q : unit -> ast -> Prop) :
  a_held a !! n = Some b ->
  (length (a_blk a n) = Z.to_nat BSIZE -> in_disk a n ->
   Q tt (a <| a_disk ::= <[Z.to_nat n := a_blk a n]> |>
           <| a_writes ::= fun l => l ++ [(n, a_blk a n)] |>
           <| a_pin ::= fun p => p ∖ {[n]} |>)) ->
  gwp w me pid (bwrite b) a Q.
Proof.
  intros Hh HQ s0 Hs0. revert s0 Hs0.
  enough (length (a_blk a n) = Z.to_nat BSIZE -> in_disk a n -> gwp w me pid (bwrite b) a Q) as G.
  { intros s Hs. destruct (repr_held _ _ _ Hs _ _ Hh) as (x & _ & _ & Hb & _ & _ & Hdata & Hr).
    apply G; [|done|done]. rewrite <- Hdata. apply Hb. }
  intros Hlen Hin. unfold bwrite.
  apply gwp_bind. eapply gwp_holdingsleep; [done|]. cbn [negb].
  apply gwp_bind. eapply gwp_pin; [done|]. set (a1 := a <| a_pin ::= _ |>).
  unfold iderw. apply gwp_bind. eapply gwp_holdingsleep; [done|]. cbn [negb].
  apply gwp_bind. intros s1 Hs1.
  destruct (repr_held _ _ _ Hs1 n b Hh) as (x & Hx & [Hd Hn] & Hb & _ & _ & Hdata & Hr).
  assert (dirty x = true) as Hdirty.
  { destruct (proj1 (rp_pin _ _ _ Hs1 n)) as (j & y & Hy & Hcy & Hdy); [unfold a1; cbn; set_solver|].
    assert (j = b) as -> by (by eapply (repr_uniq _ _ _ Hs1 j b y x)). congruence. }
  eapply fwp_get_buf; [done|]. intros y Hy. exists a1. split; [done|].
  assert (b_flags y = b_flags x) as Ef by (by subst x).
  assert (b_dev y = 1 /\ b_blockno y = n /\ b_data y = a_blk a n) as (E1 & E2 & E3)
    by (by subst x).
  rewrite something_to_do by (left; rewrite Ef; exact Hdirty). rewrite E1, E2, E3, Ef.
  cbn [Z.eqb negb Pos.eqb]. apply gwp_bind, gwp_get_disk.
  destruct (Z.leb_spec (Z.of_nat (length (a_disk a1))) n); [exfalso; unfold in_disk, a1 in *; cbn in *; lia|].
  unfold dirty in Hdirty. rewrite Hdirty. apply gwp_bind, gwp_bind. set (a2 := a <| a_pin ::= fun p => p ∖ {[n]} |>).
  eapply (gwp_upd_held n b _ a1 a2); [done|done| |done|done| |].
  { intros z Hl Hz Hv _. unfold valid, dirty, setter in *; cbn.
    rewrite hasf_dirty_clrf, (hasf_clrf _ 2 2) by done. split_and!; try done.
    by rewrite bool_decide_eq_false_2 by set_solver. }
  { intros m Hm. unfold a2, a1. cbn. set_solver. }
  eapply gwp_disk_write; [done|done|]. 
  eapply gwp_upd_held; [|exact Hh| | | | |exact (HQ Hlen Hin)]; [done| |done..].
  intros z Hl Hz Hv Hdz. unfold setter; cbn. split_and!; try done.
  + unfold valid. cbn. by rewrite (hasf_setf _ 1 1).
  + unfold dirty in *. cbn. by rewrite hasf_valid_setf.
Qed.

(** The second half of [brelse], under [bcache.lock]. *)
Lemma rep_spliced b bufs cs : rep bufs cs -> (b < NBUF)%nat -> rep (spliced b bufs) cs.
Proof.
  intros [[order Hd] Hc] Hb. split; [|by rewrite spliced_core].
  assert (b ∈ order) as Hin by (by apply (dll_elem _ _ _ Hd)).
  apply list_elem_of_split in Hin as (l1 & l2 & ->). eexists. by apply spliced_dll.
Qed.

Lemma fwp_unref b x s (Q : unit -> fss -> Prop) :
  s_buf s !! b = Some x -> b_refcnt x = 1 ->
  Q tt (s <| s_buf ::= <[b := x <| b_refcnt := 0 |>]> |>) ->
  fwp w me pid
    (acquire Lbcache ;;
     upd_buf b (fun x => x <| b_refcnt ::= fun n => u32 (n - 1) |>) ;;
     x ← get_buf b;
     when (b_refcnt x =? 0) (splice_front b) ;;
     release Lbcache) s Q.
Proof.
  intros Hx Href HQ ps bufs Hps Hr. destruct (rep_lookup _ _ _ _ Hr Hx) as (y & Hy & Hcy & Hb).
  unfold mbind, M_bind. rewrite (put_acquire_bcache w me pid), upd_buf_run, with_bufs_put.
  set (f := fun x : buf => x <| b_refcnt ::= fun n => u32 (n - 1) |>).
  change (alter _ b (bufs_of _)) with (alter f b bufs).
  assert (alter f b bufs !! b = Some (f y)) as Hfy by (by rewrite list_lookup_alter, decide_True, Hy).
  rewrite (get_buf_run b _ (f y)) by exact Hfy.
  assert (b_refcnt y = 1) as Hy1 by (by rewrite <- Href, <- Hcy).
  assert (b_refcnt (f y) = 0) as -> by (unfold f, setter; cbn; by rewrite Hy1).
  assert (rep (alter f b bufs) (<[b := f x]> (s_buf s))) as Hr' by (by apply rep_alter).
  cbn [Z.eqb when]. rewrite splice_front_run; [|destruct Hr' as [[? [Hl _]] _]; exact Hl|done].
  change (bufs_of _) with (alter f b bufs). rewrite with_bufs_put, put_release_bcache.
  assert (f x = x <| b_refcnt := 0 |>) as Efx by (unfold f, setter; cbn; by rewrite Href).
  exists (s <| s_buf ::= <[b := x <| b_refcnt := 0 |>]> |>), ps, (spliced b (alter f b bufs)).
  split_and!; [done|done| |done]. cbn. rewrite <- Efx. by apply rep_spliced.
Qed.

(** [brelse]: a block may be let go of when it is pinned or equal to its copy
    on the disk. *)
Lemma gwp_brelse n b a (Q : unit -> ast -> Prop) :
  a_held a !! n = Some b ->
  (n ∈ a_pin a \/ a_disk a !! Z.to_nat n = Some (a_blk a n)) ->
  Q tt (a <| a_held ::= delete n |>) ->
  gwp w me pid (brelse b) a Q.
Proof.
  intros Hh Hpin HQ. unfold brelse. apply gwp_bind. eapply gwp_holdingsleep; [done|]. cbn [negb].
  intros s Hs. destruct (repr_held _ _ _ Hs _ _ Hh) as (x & Hx & [Hd Hn] & Hb & Href & Hl & Hdata & Hr).
  apply fwp_bind. eapply fwp_releasesleep_buf; [apply _|done|].
  set (x1 := x <| b_lock := SL false 0 |>).
  eapply (fwp_unref b x1); [|done|].
  { cbn. rewrite list_lookup_insert_eq; [done|]. by eapply lookup_lt_Some. }
  eexists. split; [|exact HQ].
  rewrite s_buf_twice.
  pose proof Hb as (_ & Hv & Hlen & Hrange & _).
  eapply repr_insert; try done; unfold setter; cbn; rewrite ?Hn.
  - unfold bound. cbn. rewrite Hn in *. split_and!; try done; try apply Hrange. left.
    split_and!; [done..|]. destruct Hpin as [Hpin|Hpin]; [left|right; by rewrite Hdata].
    apply (rp_pin _ _ _ Hs) in Hpin as (j & y & Hy & Hcy & Hdy).
    assert (j = b) as -> by (by eapply (repr_uniq _ _ _ Hs j b y x)). by simplify_eq.
  - by left.
  - intros m Hm. by destruct (decide (m = n)) as [->|].
  - intros m. destruct (decide (m = n)) as [->|]; [by rewrite lookup_delete_eq | by rewrite lookup_delete_ne].
  - intros m. destruct (decide (m = n)) as [->|]; [|done]. rewrite (rp_pin _ _ _ Hs). split; [|by exists b, x].
    intros (j & y & Hy & Hcy & Hdy). assert (j = b) as -> by (by eapply (repr_uniq _ _ _ Hs j b y x)).
    by simplify_eq.
Qed.

(** Some buffer can be recycled when fewer than [NBUF] blocks are in use. *)
Lemma repr_room s a : repr pid s a -> (size (busy a) < NBUF)%nat -> (0 < room s)%nat.
Proof.
  intros Hs Hsz. destruct (decide (0 < room s)%nat) as [|Hno]; [done|exfalso].
  pose proof (rp_inv _ _ _ Hs) as Hi.
  assert (forall i x, s_buf s !! i = Some x -> b_dev x = 1 /\ b_blockno x ∈ busy a) as Hbusy.
  { intros i x Hx. assert (~ idle x) as Hid.
    { intros Hid. apply Hno. unfold room. assert (x ∈ filter idle (s_buf s)) as Hin
        by (apply list_elem_of_filter; split; [done|by eapply list_elem_of_lookup_2]).
      destruct (filter idle (s_buf s)); [by apply not_elem_of_nil in Hin | cbn; lia]. }
    destruct (repr_buf _ _ _ Hs _ _ Hx) as [(_ & Hf & ? & _)|Hb].
    { exfalso. apply Hid. split; [done|]. unfold dirty. by rewrite Hf. }
    destruct Hb as (Hd & _). split; [done|]. unfold busy. apply elem_of_union.
    destruct (decide (b_refcnt x = 0)).
    - right. apply (rp_pin _ _ _ Hs). exists i, x. split_and!; [done|done|].
      apply not_false_iff_true. intros E. by apply Hid.
    - left. apply elem_of_dom. exists i. apply (rp_held _ _ _ Hs). by exists x. }
  assert (NoDup (b_blockno <$> s_buf s)) as Hnd.
  { apply NoDup_alt. intros i j n Hx Hy. rewrite list_lookup_fmap in Hx, Hy.
    destruct (s_buf s !! i) as [x|] eqn:Ex; [|done]. destruct (s_buf s !! j) as [y|] eqn:Ey; [|done].
    cbn in *. simplify_eq. apply (bi_uniq _ _ Hi i j x y); try done; [by eapply Hbusy..]. }
  assert (list_to_set (b_blockno <$> s_buf s) ⊆ busy a) as Hsub%subseteq_size.
  { intros n Hn. apply elem_of_list_to_set, list_elem_of_fmap in Hn as (x & -> & [i Hi']%list_elem_of_lookup).
    by eapply Hbusy. }
  rewrite size_list_to_set in Hsub by done. rewrite length_fmap, (bi_len _ _ Hi) in Hsub. lia.
Qed.

(** [iderw] on a buffer just recycled: it is filled from the disk. *)
Lemma fwp_iderw_read b x d s (Q : unit -> fss -> Prop) :
  s_buf s !! b = Some x -> b_lock x = SL true pid -> b_flags x = 0 -> b_dev x = 1 ->
  0 <= b_blockno x -> s_disk s !! Z.to_nat (b_blockno x) = Some d ->
  Q tt (s <| s_buf ::= <[b := x <| b_data := d |> <| b_flags := B_VALID |>]> |>) ->
  fwp w me pid (iderw b) s Q.
Proof.
  intros Hx Hl Hf Hd Hn Hdisk HQ. unfold iderw. pose proof (lookup_lt_Some _ _ _ Hdisk) as Hlt.
  assert (b < length (s_buf s))%nat as Hb by (by eapply lookup_lt_Some).
  apply fwp_bind. eapply fwp_holdingsleep_buf; [apply _|done|]. rewrite Hl. cbn. rewrite Z.eqb_refl.
  cbn [negb]. apply fwp_bind. eapply fwp_get_buf; [done|]. intros y Hy.
  assert (b_flags y = 0 /\ b_dev y = 1 /\ b_blockno y = b_blockno x) as (-> & -> & ->) by (by subst x).
  cbn. apply fwp_bind. apply (fwp_get _ _ _ k_disk (s_disk s)); [done|]. cbn.
  destruct (Z.leb_spec (Z.of_nat (length (s_disk s))) (b_blockno x)); [lia|].
  apply fwp_bind, fwp_bind. eapply fwp_deref; [done|]. eapply fwp_upd_buf; [done|done|].
  eapply fwp_upd_buf; [done| |].
  { cbn. by rewrite list_lookup_insert_eq. }
  unfold setter in *; cbn in *. by rewrite list_insert_insert_eq, Hf.
Qed.

(** Taking hold of a block. *)
Lemma repr_take s a n b x0 x :
  repr pid s a -> s_buf s !! b = Some x0 -> (caches n x0 \/ idle x0 /\ cached s n = None) ->
  bound (a_disk a) pid x -> b_blockno x = n -> b_refcnt x = 1 -> b_data x = a_blk a n ->
  (dirty x = true <-> n ∈ a_pin a) ->
  repr pid (s <| s_buf ::= <[b := x]> |>) (a <| a_held ::= <[n := b]> |>).
Proof.
  intros Hs Hx0 Hold Hb E1 E2 E3 Hdp. eapply repr_insert; try done; rewrite ?E1; [done|..].
  - intros m Hm. cbn. by destruct (decide (m = n)) as [->|].
  - intros m. cbn. rewrite E2. cbn.
    destruct (decide (m = n)) as [->|]; [by rewrite lookup_insert_eq | by rewrite lookup_insert_ne].
  - intros m. cbn. by destruct (decide (m = n)) as [->|].
Qed.

Lemma bread_hit n a b x s (Q : nat -> ast -> Prop) :
  repr pid s a -> a_held a !! n = None -> cached s n = Some (b, x) ->
  (forall b, Q b (a <| a_held ::= <[n := b]> |>)) ->
  fwp w me pid (bread ROOTDEV n) s (fun v s' => exists a', repr pid s' a' /\ Q v a').
Proof.
  intros Hs Hnh Ec HQ. pose proof (rp_inv _ _ _ Hs) as Hi. unfold bread. apply fwp_bind.
  apply (cached_Some pid) in Ec as [Hx [Hd Hn]]; [|done].
  assert (b_refcnt x = 0) as H0.
  { destruct (decide (b_refcnt x = 0)) as [|Hr]; [done|exfalso].
    assert (a_held a !! n = Some b) by (apply (rp_held _ _ _ Hs); by exists x). congruence. }
  eapply bget_hit; [apply _|done|done|done| |by eapply idle_unlocked|].
  { intros j y Hy E1 E2. by eapply (bi_uniq _ _ Hi); eauto; congruence. }
  set (x1 := x <| b_refcnt := _ |> <| b_lock := _ |>).
  destruct (repr_buf _ _ _ Hs _ _ Hx) as [[? _]|Hb]; [congruence|].
  pose proof Hb as (_ & Hv & Hlen & Hrange & _).
  apply fwp_bind. eapply (fwp_get_buf _ _ _ b x1).
  { cbn. rewrite list_lookup_insert_eq; [done|]. by eapply lookup_lt_Some. }
  intros y Hy. assert (b_flags y = b_flags x) as -> by exact (f_equal b_flags Hy).
  unfold valid in Hv. rewrite Hv.
  cbn [negb when]. apply fwp_bind, fwp_ret, fwp_ret. eexists. split; [|apply HQ].
  apply (repr_take s a n b x); try done; [by left| |by unfold x1; cbn; rewrite H0| |].
  - unfold bound, x1. cbn. rewrite H0. split_and!; try done; try apply Hrange. by right.
  - cbn. rewrite <- (rp_blk _ _ _ Hs) by (rewrite <- Hn; lia). rewrite <- Hn. symmetry.
    by eapply blk_cached.
  - change (dirty x1) with (dirty x). rewrite (rp_pin _ _ _ Hs). split; [by exists b, x|].
    intros (j & y' & Hy' & Hcy & Hdy). assert (j = b) as -> by (by eapply (repr_uniq _ _ _ Hs j b y' x)).
    by simplify_eq.
Qed.

Lemma bread_miss n a s (Q : nat -> ast -> Prop) :
  repr pid s a -> in_disk a n -> cached s n = None -> (size (busy a) < NBUF)%nat ->
  (forall b, Q b (a <| a_held ::= <[n := b]> |>)) ->
  fwp w me pid (bread ROOTDEV n) s (fun v s' => exists a', repr pid s' a' /\ Q v a').
Proof.
  intros Hs [Hn0 Hn1] Ec Hroom HQ. pose proof (rp_inv _ _ _ Hs) as Hi. unfold bread. apply fwp_bind.
  assert (n ∉ a_pin a) as Hnp.
  { intros (b & x & Hx & Hc & _)%(rp_pin _ _ _ Hs). by eapply cached_None. }
  eapply bget_miss; [apply _| |intros; by eapply idle_unlocked|apply Hi|by eapply repr_room|].
  { intros j y Hy [E1 E2]. eapply cached_None; [exact Ec|exact Hy|]. by split. }
  intros b x0 Hx0 Hid.
  assert (exists d, a_disk a !! Z.to_nat n = Some d) as [d Hd] by (apply lookup_lt_is_Some; lia).
  assert (length d = Z.to_nat BSIZE) as Hlen.
  { pose proof (bi_disk _ _ Hi) as HF. rewrite (rp_disk _ _ _ Hs), Forall_lookup in HF. eauto. }
  apply fwp_bind. eapply fwp_get_buf.
  { cbn. rewrite list_lookup_insert_eq; [done|]. by eapply lookup_lt_Some. }
  intros y Hy. assert (b_flags y = 0) as -> by exact (f_equal b_flags Hy).
  apply fwp_bind. cbn [when negb hasf Z.land Z.eqb]. eapply (fwp_iderw_read b _ d).
  { cbn. rewrite list_lookup_insert_eq; [done|]. by eapply lookup_lt_Some. }
  all: try done.
  { cbn. by rewrite (rp_disk _ _ _ Hs). }
  apply fwp_ret. eexists. split; [|apply HQ].
  rewrite s_buf_twice.
  eapply (repr_take s a n b x0); try done; [by right| | ].
  - unfold bound. cbn. split_and!; try done. by right.
  - cbn. rewrite <- (rp_blk _ _ _ Hs) by done. unfold blk. rewrite Ec, (rp_disk _ _ _ Hs). by rewrite Hd.
Qed.

(** [bread]: the caller holds the block, with its current contents. *)
Lemma gwp_bread n a (Q : nat -> ast -> Prop) :
  in_disk a n -> a_held a !! n = None ->
  (n ∈ a_pin a \/ (size (busy a) < NBUF)%nat) ->
  (forall b, Q b (a <| a_held ::= <[n := b]> |>)) ->
  gwp w me pid (bread ROOTDEV n) a Q.
Proof.
  intros Hin Hnh Hroom HQ s Hs. destruct (cached s n) as [[b x]|] eqn:Ec; [by eapply bread_hit|].
  destruct Hroom as [(b & x & Hx & Hc & _)%(rp_pin _ _ _ Hs)|Hroom]; [|by eapply bread_miss].
  exfalso. by eapply cached_None.
Qed.

End Ops.

(** ** Critical sections *)

Section Locked.
Context (w : world) (me : nat) (pid : Z) `{!fs_ctx w me pid}.

(** The body of a critical section runs with the lock held. *)
Lemma gwp_locked {A} lk (body : M A) a (Q : unit -> ast -> Prop) :
  gwp (w <| w_held ::= cons lk |>) me pid body a (fun _ a' => Q tt a') ->
  gwp w me pid (acquire lk ;; body ≫= fun _ => release lk) a Q.
Proof.
  intros Hb s Hs ps bufs Hps Hr. specialize (Hb s Hs ps bufs Hps Hr).
  unfold mbind, M_bind. rewrite acquire_run by (rewrite (put_held w me pid); apply not_elem_of_nil).
  change ((put w s ps bufs) <| w_held ::= cons lk |>) with (put (w <| w_held ::= cons lk |>) s ps bufs).
  destruct (body _) as [v w'|?|?| |]; try done.
  destruct Hb as (s' & ps' & bufs' & -> & Hw & Hr' & HQ).
  rewrite (release_run lk _ (w_held w)) by done. exists s', ps', bufs'.
  split; [by destruct w|]. done.
Qed.

End Locked.
