(* ===== verification/LogCrash.v ===== *)
(** Crash safety of the log: what recovery makes of the disk after a crash at
    any point of a commit, or of a recovery.

    A crash loses everything but the disk, and the disk has received a prefix
    of the writes that were issued; [k_writes] is the history of those writes.
    [recovered] is a one-line specification of recovery on a disk; the theorems
    relate it to running [commit] and [initlog]. *)

From S2P Require Import Prelude Kernel Sched Bio BioSpec Log.

(** ** Worlds that represent an abstract state *)

Definition fs_world (w : world) (me : nat) (pid : Z) (a : ast) : Prop :=
  fs_ctx w me pid /\ ctx_ps me pid (k_ptable (w_k w)) /\
  exists s, rep (bufs_of w) (s_buf s) /\ repr pid s a /\
    w = put w s (k_ptable (w_k w)) (bufs_of w).

Lemma gwp_run_sb w me pid {A} (c : M A) a Q :
  fs_world w me pid a -> (fs_ctx w me pid -> gwp w me pid c a Q) ->
  exists v w' a', c w = Ok v w' /\ fs_world w' me pid a' /\ Q v a' /\ k_sb (w_k w') = k_sb (w_k w).
Proof.
  intros (Hctx & Hps & s & Hr & Hs & Hw) Hc. specialize (Hc Hctx s Hs _ _ Hps Hr). rewrite <- Hw in Hc.
  destruct (c w) as [v w'|?|?| |]; try done.
  destruct Hc as (s' & ps' & bufs' & -> & Hwk & Hr' & a' & Hs' & HQ).
  eexists v, _, a'. split; [done|]. split; [|done]. destruct Hctx as [H1 H2]. split; [by split|].
  split; [by eapply ctx_ps_woken|]. by exists s'.
Qed.

Lemma gwp_run w me pid {A} (c : M A) a Q :
  fs_world w me pid a -> (fs_ctx w me pid -> gwp w me pid c a Q) ->
  exists v w' a', c w = Ok v w' /\ fs_world w' me pid a' /\ Q v a'.
Proof. intros H1 H2. destruct (gwp_run_sb w me pid c a Q H1 H2) as (v & w' & a' & ? & ? & ? & _). by exists v, w', a'. Qed.

Lemma fs_world_disk w me pid a : fs_world w me pid a -> k_disk (w_k w) = a_disk a.
Proof. intros (_ & _ & s & _ & Hs & ->). cbn. apply Hs. Qed.

Lemma fs_world_writes w me pid a : fs_world w me pid a -> k_writes (w_k w) = a_writes a.
Proof. intros (_ & _ & s & _ & Hs & ->). cbn. apply Hs. Qed.

Lemma fs_world_facts w me pid a n :
  fs_world w me pid a -> in_disk a n ->
  length (a_blk a n) = Z.to_nat BSIZE /\
  (n ∉ busy a -> a_disk a !! Z.to_nat n = Some (a_blk a n)).
Proof.
  intros (_ & _ & s & _ & Hs & _) Hn. split; [by eapply repr_blk_len | intros; by eapply repr_clean].
Qed.

(** A machine that has just booted on disk [D]: the cache is empty and the
    in-memory log header is the zeroed [struct log]. *)
Definition booted (w : world) (me : nat) (pid : Z) (D : list (list Z)) : Prop :=
  fs_ctx w me pid /\ ctx_ps me pid (k_ptable (w_k w)) /\
  (exists cs, rep (bufs_of w) cs /\ length cs = NBUF /\ Forall virgin cs) /\
  k_disk (w_k w) = D /\ Forall (fun d => length d = Z.to_nat BSIZE) D /\
  length (lh_block (k_log (w_k w))) = Z.to_nat LOGSIZE.

Definition blk_at (D : list (list Z)) (n : Z) : list Z := default [] (D !! Z.to_nat n).

Definition boot_ast (w : world) : ast :=
  AST (blk_at (k_disk (w_k w))) (k_disk (w_k w)) (k_writes (w_k w)) ∅ ∅ (k_log (w_k w)) (k_icache (w_k w)).

Lemma repr_boot pid s :
  length (s_buf s) = NBUF -> Forall virgin (s_buf s) ->
  Forall (fun d => length d = Z.to_nat BSIZE) (s_disk s) ->
  repr pid s (AST (blk_at (s_disk s)) (s_disk s) (s_writes s) ∅ ∅ (s_log s) (s_ic s)).
Proof.
  intros Hl Hv Hd. assert (forall b x n, s_buf s !! b = Some x -> ~ caches n x) as Hno.
  { intros b x n Hx [Hc _]. rewrite Forall_lookup in Hv. destruct (Hv _ _ Hx) as [? _]. congruence. }
  constructor; cbn; try done.
  - constructor; try done; [eapply Forall_impl; [done|]; auto|].
    intros i j x y Hx _ Hdx _ _. exfalso. by apply (Hno _ _ (b_blockno x) Hx).
  - intros n Hn. unfold blk. destruct (cached s n) as [[b x]|] eqn:E; [|done].
    apply list_find_Some in E as (Hx & Hc & _). exfalso. by eapply Hno.
  - intros n b. split; [done|]. intros (x & Hx & Hc & _). exfalso. by eapply Hno.
  - intros n. split; [set_solver|]. intros (b & x & Hx & Hc & _). exfalso. by eapply Hno.
Qed.

Lemma booted_world w me pid D : booted w me pid D -> fs_world w me pid (boot_ast w).
Proof.
  intros (Hctx & Hps & (cs & Hr & Hl & Hv) & HD & HF & _). split; [done|]. split; [done|].
  exists (FSS cs (k_disk (w_k w)) (k_writes (w_k w)) (k_log (w_k w)) (k_icache (w_k w))).
  split; [done|]. split.
  - apply repr_boot; cbn; [done|done|]. by subst D.
  - destruct w as [[]]. unfold put, bufs_of. cbn. by destruct k_bc.
Qed.

(** ** Recovery on disks *)

Definition home_eq (l : logst) (D D' : list (list Z)) : Prop :=
  forall n, 0 <= n -> ~ in_log l n -> D !! Z.to_nat n = D' !! Z.to_nat n.

(** Installing what the header of the log lists. *)
Definition recovered (l : logst) (D : list (list Z)) : list (list Z) :=
  apply_disk (install_writes (lg_start l) (head_list (blk_at D (lg_start l))) (blk_at D)) D.

#[export] Instance home_eq_equiv l : Equivalence (home_eq l).
Proof.
  split.
  - intros D n _ _. done.
  - intros D D' H n Hn Hl. symmetry. by apply H.
  - intros D1 D2 D3 H12 H23 n Hn Hl. rewrite H12, H23; done.
Qed.

Definition on_disk (D : list (list Z)) (W : list (Z * list Z)) : Prop :=
  Forall (fun m => 0 <= m < Z.of_nat (length D)) W.*1.

Lemma apply_disk_nil D : apply_disk [] D = D.
Proof. done. Qed.

Lemma blk_at_apply W D n :
  on_disk D W -> 0 <= n -> blk_at (apply_disk W D) n = apply_blk W (blk_at D) n.
Proof.
  intros HF Hn. revert D HF. induction W as [|[m d] W IH]; intros D HF; [done|].
  unfold on_disk in HF. cbn in HF. apply Forall_cons in HF as [Hm HF].
  rewrite apply_disk_cons, apply_blk_cons, IH by (unfold on_disk; by rewrite length_insert).
  assert (forall k, 0 <= k -> blk_at (<[Z.to_nat m:=d]> D) k = (<[m:=d]> (blk_at D) : Z -> list Z) k) as E.
  { intros k Hk. unfold blk_at at 1. destruct (decide (k = m)) as [->|Hne].
    - rewrite list_lookup_insert_eq by lia. by rewrite fn_lookup_insert.
    - rewrite list_lookup_insert_ne by lia. by rewrite fn_lookup_insert_ne. }
  clear -E Hn HF. revert E. generalize (blk_at (<[Z.to_nat m:=d]> D)) (<[m:=d]> (blk_at D) : Z -> list Z).
  induction W as [|[k e] W IH]; intros f g E; [by apply E|]. cbn in HF. apply Forall_cons in HF as [_ HF].
  rewrite !apply_blk_cons. apply IH; [done|]. intros j Hj. destruct (decide (j = k)) as [->|].
  - by rewrite !fn_lookup_insert.
  - rewrite !fn_lookup_insert_ne by done. by apply E.
Qed.

(** A block that is written does not depend on the disk written to. *)
Lemma apply_disk_base W D D' n :
  length D = length D' -> on_disk D W -> n ∈ W.*1 ->
  apply_disk W D !! Z.to_nat n = apply_disk W D' !! Z.to_nat n.
Proof.
  revert D D'. induction W as [|[m d] W IH]; intros D D' Hl HF Hn; [by apply not_elem_of_nil in Hn|].
  unfold on_disk in HF. cbn in HF, Hn. apply Forall_cons in HF as [Hm HF]. rewrite !apply_disk_cons.
  destruct (decide (n ∈ W.*1)) as [Hin|Hnin].
  - apply IH; [by rewrite !length_insert| |done]. unfold on_disk. by rewrite length_insert.
  - apply elem_of_cons in Hn as [->|]; [|done].
    assert (Forall (fun k => 0 <= k) W.*1) by (eapply Forall_impl; [done|cbn; lia]).
    rewrite !apply_disk_ne by (done || lia). rewrite !list_lookup_insert_eq by lia. done.
Qed.

Lemma apply_disk_untouched W D n :
  0 <= n -> on_disk D W -> n ∉ W.*1 -> apply_disk W D !! Z.to_nat n = D !! Z.to_nat n.
Proof. intros Hn HF Hnin. apply apply_disk_ne; [done| |done]. eapply Forall_impl; [done|cbn; lia]. Qed.

Lemma on_disk_app D W1 W2 : on_disk D (W1 ++ W2) <-> on_disk D W1 /\ on_disk D W2.
Proof. unfold on_disk. by rewrite fmap_app, Forall_app. Qed.

Lemma on_disk_apply D W W' : on_disk (apply_disk W D) W' <-> on_disk D W'.
Proof. unfold on_disk. by rewrite length_apply_disk. Qed.

Lemma prefix_app_cases {A} (P L X : list A) :
  P `prefix_of` L ++ X -> P `prefix_of` L \/ exists P', P = L ++ P' /\ P' `prefix_of` X.
Proof.
  revert P. induction L as [|x L IH]; intros P HP; [right; by exists P|].
  destruct P as [|y P]; [left; apply prefix_nil|]. cbn in HP.
  pose proof (prefix_cons_inv_1 _ _ _ _ HP) as ->.
  destruct (IH P (prefix_cons_inv_2 _ _ _ _ HP)) as [?|(P' & -> & ?)].
  - left. by apply prefix_cons.
  - right. by exists P'.
Qed.

Lemma prefix_fst {A B} (P L : list (A * B)) n : P `prefix_of` L -> n ∈ P.*1 -> n ∈ L.*1.
Proof. intros [k ->]. rewrite fmap_app, elem_of_app. auto. Qed.

Lemma on_disk_prefix D P W : P `prefix_of` W -> on_disk D W -> on_disk D P.
Proof. intros [k ->]. rewrite on_disk_app. tauto. Qed.

(** A clear header: nothing to install. *)
Lemma recovered_clear l D : head_n (blk_at D (lg_start l)) = 0 -> recovered l D = D.
Proof. intros H. unfold recovered, head_list. by rewrite H. Qed.

(** ** A crash in the middle of a commit *)

Section CommitCrash.
Context (l : logst) (D : list (list Z)) (bs : list Z) (f : Z -> list Z).
Hypothesis (Hl : log_ok l (Z.of_nat (length D)) bs).
Hypothesis (Hclear : head_n (blk_at D (lg_start l)) = 0).
Hypothesis (Hlen : length (f (lg_start l)) = Z.to_nat BSIZE).

Let h := lg_start l.
Let hd := commit_head l (f h).
Let L := log_writes h bs f.
Let I := map (fun n => (n, f n)) bs.

Lemma I_fst : I.*1 = bs.
Proof. unfold I. rewrite <- list_fmap_compose. apply list_fmap_id. Qed.

Lemma L_on_disk : on_disk D L.
Proof.
  apply Forall_forall. intros n Hn. eapply log_ok_in; [exact Hl|]. by eapply log_writes_in_log.
Qed.

Lemma I_on_disk : on_disk D I.
Proof. unfold on_disk. rewrite I_fst. eapply Forall_impl; [apply Hl|]. cbn. tauto. Qed.

Lemma h_in_log : in_log l h.
Proof. pose proof (lo_len _ _ _ Hl). unfold in_log, h. lia. Qed.

Lemma head_on_disk d : on_disk D [(h, d)].
Proof. constructor; [|done]. apply (log_ok_in _ _ _ Hl), h_in_log. Qed.

Lemma commit_on_disk : on_disk D (commit_writes l bs f).
Proof.
  unfold commit_writes. cbv zeta. rewrite !on_disk_app.
  auto using L_on_disk, I_on_disk, head_on_disk.
Qed.

Lemma h_notin_L : h ∉ L.*1.
Proof.
  intros ([m d] & E & [j Hj]%list_elem_of_lookup)%list_elem_of_fmap. cbn in E. subst m.
  unfold L, log_writes in Hj. rewrite list_lookup_imap in Hj. destruct (bs !! j); [|done].
  cbn in Hj. injection Hj as E _. lia.
Qed.

Lemma log_notin_I n : in_log l n -> n ∉ I.*1.
Proof.
  rewrite I_fst. intros Hn Hin. pose proof (lo_home _ _ _ Hl) as HF. rewrite Forall_forall in HF.
  by apply (HF _ Hin).
Qed.

Lemma length_hd : length hd = Z.to_nat BSIZE.
Proof.
  pose proof (lo_n _ _ _ Hl). pose proof (lo_len _ _ _ Hl) as Hs. change LOGSIZE with 30 in Hs.
  unfold hd, commit_head, head_of. apply length_head_fill; [|lia].
  rewrite length_put32; [exact Hlen|]. fold h in Hlen. rewrite Hlen. unfold BSIZE. lia.
Qed.

Lemma hd_list : head_list hd = bs /\ head_n hd = Z.of_nat (length bs).
Proof.
  pose proof (lo_len _ _ _ Hl) as Hs. change LOGSIZE with 30 in Hs. pose proof (lo_sz _ _ _ Hl).
  unfold hd, commit_head. rewrite (lo_n _ _ _ Hl). split.
  - apply head_of_list; [exact Hlen|lia|apply Hl|]. eapply Forall_impl; [apply Hl|]. cbn. lia.
  - apply head_of_n; [exact Hlen|lia].
Qed.

Lemma hd_cleared : head_n (put32 hd 0 0) = 0.
Proof.
  unfold head_n. rewrite get32_put32_eq; [done|]. rewrite length_hd. unfold BSIZE. lia.
Qed.

(** Before the header write: the log is still clear. *)
Lemma crash_early P : P `prefix_of` L ->
  head_n (blk_at (apply_disk P D) h) = 0 /\ home_eq l (apply_disk P D) D.
Proof.
  intros HP. pose proof (on_disk_prefix _ _ _ HP L_on_disk) as Ho. split.
  - rewrite blk_at_apply; [|done|apply (log_ok_in _ _ _ Hl), h_in_log].
    rewrite apply_blk_ne; [exact Hclear|]. intros Hin. by eapply h_notin_L, prefix_fst.
  - intros n Hn Hnl. apply apply_disk_untouched; [done|done|]. intros Hin. apply Hnl.
    eapply log_writes_in_log; [exact Hl|]. by eapply prefix_fst.
Qed.

(** After the header write: the log lists [bs] and holds their contents. *)
Lemma crash_late P : P `prefix_of` I ->
  let D1 := apply_disk (L ++ (h, hd) :: P) D in
  blk_at D1 h = hd /\ (forall i n, bs !! i = Some n -> blk_at D1 (h + Z.of_nat i + 1) = f n).
Proof.
  intros HP. pose proof (on_disk_prefix _ _ _ HP I_on_disk) as Ho.
  assert (on_disk D (L ++ (h, hd) :: P)) as HW.
  { rewrite (app_assoc L [(h, hd)] P : L ++ (h, hd) :: P = _), !on_disk_app.
    auto using L_on_disk, head_on_disk. }
  cbv zeta. pose proof (lo_region _ _ _ Hl). split; [|intros i n Hn]; rewrite blk_at_apply; try done.
  - rewrite apply_blk_app, apply_blk_cons, apply_blk_ne; [apply fn_lookup_insert|].
    intros Hin. eapply log_notin_I; [apply h_in_log|]. by eapply prefix_fst.
  - apply (log_ok_in _ _ _ Hl), h_in_log.
  - rewrite apply_blk_app, apply_blk_cons, apply_blk_ne.
    + rewrite fn_lookup_insert_ne by lia. by eapply apply_log_writes.
    + intros Hin. eapply log_notin_I; [by eapply log_ok_tail|]. by eapply prefix_fst.
  - unfold h. lia.
Qed.

Lemma recovered_late P : P `prefix_of` I ->
  recovered l (apply_disk (L ++ (h, hd) :: P) D) = apply_disk I (apply_disk (L ++ (h, hd) :: P) D).
Proof.
  intros HP. destruct (crash_late P HP) as [Eh Ei]. unfold recovered. fold h. rewrite Eh.
  destruct hd_list as [-> _]. f_equal. apply list_eq. intros i. unfold install_writes, I.
  rewrite list_lookup_imap, list_lookup_fmap. destruct (bs !! i) eqn:E; [|done]. cbn. by rewrite (Ei _ _ E).
Qed.

(** Whatever was installed before the crash, installing everything again gives
    the committed state. *)
Lemma reinstall_home P : P `prefix_of` I ->
  home_eq l (apply_disk I (apply_disk (L ++ (h, hd) :: P) D)) (apply_disk (commit_writes l bs f) D).
Proof.
  intros HP n Hn Hnl. unfold commit_writes. cbv zeta. fold h hd L I.
  rewrite (app_assoc L), (app_assoc (L ++ _)), (apply_disk_app (_ ++ I)), (apply_disk_app (L ++ _) I).
  pose proof (on_disk_prefix _ _ _ HP I_on_disk) as Ho.
  rewrite (apply_disk_untouched [(h, _)]); [|done| |].
  2:{ rewrite !on_disk_apply. apply head_on_disk. }
  2:{ cbn. intros ->%list_elem_of_singleton. by apply Hnl, h_in_log. }
  destruct (decide (n ∈ I.*1)) as [Hin|Hnin].
  - apply apply_disk_base; [by rewrite !length_apply_disk| |done]. rewrite on_disk_apply. apply I_on_disk.
  - rewrite !(apply_disk_untouched I); try done; [|rewrite on_disk_apply; apply I_on_disk..].
    rewrite (app_assoc L [(h, hd)] P : L ++ (h, hd) :: P = _), (apply_disk_app (L ++ _) P).
    apply apply_disk_untouched; [done|by rewrite on_disk_apply|].
    intros Hin. by eapply Hnin, prefix_fst.
Qed.

(** A crash at any point of the commit leaves a header that can be recovered
    from, and recovery gives the disk before or after the transaction. *)
Lemma commit_crash P : P `prefix_of` commit_writes l bs f ->
  let D1 := apply_disk P D in
  header_ok l (Z.of_nat (length D)) (blk_at D1 h) /\
  (home_eq l (recovered l D1) D \/ home_eq l (recovered l D1) (apply_disk (commit_writes l bs f) D)).
Proof.
  pose proof (lo_len _ _ _ Hl) as Hs.
  assert (forall d, head_n d = 0 -> header_ok l (Z.of_nat (length D)) d) as Hok0.
  { intros d Hd. split; [lia|]. unfold head_list. by rewrite Hd. }
  intros HP. cbv zeta. apply prefix_app_cases in HP as [HP|(P1 & -> & HP)].
  { destruct (crash_early P HP) as [Eh Hhome]. split; [by apply Hok0|]. left. by rewrite recovered_clear. }
  fold h hd L I in HP |- *. destruct P1 as [|x P1].
  { rewrite app_nil_r. destruct (crash_early L (reflexivity _)) as [Eh Hhome]. split; [by apply Hok0|].
    left. by rewrite recovered_clear. }
  pose proof (prefix_cons_inv_1 _ _ _ _ HP) as ->. apply prefix_cons_inv_2 in HP.
  apply prefix_app_cases in HP as [HP|(P2 & -> & HP)].
  { destruct (crash_late P1 HP) as [Eh _]. cbv zeta in Eh. rewrite Eh. destruct hd_list as [E1 E2]. split.
    - split; [lia|]. rewrite E1. apply Hl.
    - right. rewrite recovered_late by done. by apply reinstall_home. }
  destruct P2 as [|x P2].
  { rewrite app_nil_r. destruct (crash_late I (reflexivity _)) as [Eh _]. cbv zeta in Eh. rewrite Eh.
    destruct hd_list as [E1 E2]. split; [split; [lia|]; rewrite E1; apply Hl|].
    right. rewrite recovered_late by done. by apply reinstall_home. }
  pose proof (prefix_cons_inv_1 _ _ _ _ HP) as ->. apply prefix_cons_inv_2 in HP.
  apply prefix_nil_inv in HP as ->.
  assert (head_n (blk_at (apply_disk (L ++ (h, hd) :: I ++ [(h, put32 hd 0 0)]) D) h) = 0) as E0.
  { rewrite blk_at_apply; [|apply commit_on_disk|apply (log_ok_in _ _ _ Hl), h_in_log].
    rewrite (app_assoc L [(h, hd)] _ : L ++ (h, hd) :: I ++ _ = _), (app_assoc _ I), apply_blk_app.
    rewrite apply_blk_cons, apply_blk_nil, fn_lookup_insert. apply hd_cleared. }
  split; [by apply Hok0|]. right. by rewrite recovered_clear.
Qed.

End CommitCrash.

(** ** A crash in the middle of a recovery *)

Section RecoveryCrash.
Context (l : logst) (D : list (list Z)).
Let h := lg_start l.
Let d := blk_at D h.
Let bs := head_list d.
Let I := install_writes h bs (blk_at D).
Hypothesis (Hp : log_placed l (Z.of_nat (length D))).
Hypothesis (Hd : header_ok l (Z.of_nat (length D)) d).
Hypothesis (Hlen : length d = Z.to_nat BSIZE).

Lemma recover_placed : log_ok (head_loaded d l) (Z.of_nat (length D)) bs.
Proof. by apply head_loaded_ok. Qed.

Lemma recover_I_fst : I.*1 = bs.
Proof. apply (install_writes_fst (head_loaded d l)). Qed.

Lemma recover_I_on_disk : on_disk D I.
Proof. unfold on_disk. rewrite recover_I_fst. eapply Forall_impl; [apply Hd|]. cbn. tauto. Qed.

Lemma recover_log_notin n : in_log l n -> n ∉ I.*1.
Proof.
  rewrite recover_I_fst. intros Hn Hin. destruct Hd as [_ HF]. rewrite Forall_forall in HF.
  by apply (HF _ Hin).
Qed.

Lemma recover_h_in_log : in_log l h.
Proof. pose proof (lp_len _ _ Hp). unfold in_log, h. lia. Qed.

Lemma recover_h_on_disk e : on_disk D [(h, e)].
Proof. constructor; [|done]. pose proof (lp_region _ _ Hp). pose proof (lp_len _ _ Hp). cbn. unfold h. lia. Qed.

(** Reinstalling after a partial install. *)
Lemma recovered_partial P : P `prefix_of` I ->
  blk_at (apply_disk P D) h = d /\ home_eq l (recovered l (apply_disk P D)) (recovered l D).
Proof.
  intros HP. pose proof (on_disk_prefix _ _ _ HP recover_I_on_disk) as Ho.
  assert (forall n, in_log l n -> blk_at (apply_disk P D) n = blk_at D n) as Elog.
  { intros n Hn. pose proof (lp_region _ _ Hp). rewrite blk_at_apply; [|done|unfold in_log in Hn; lia].
    apply apply_blk_ne. intros Hin. eapply recover_log_notin; [exact Hn|]. by eapply prefix_fst. }
  split; [apply Elog, recover_h_in_log|]. unfold recovered. fold h. rewrite Elog by apply recover_h_in_log.
  fold d bs I. assert (install_writes h bs (blk_at (apply_disk P D)) = I) as ->.
  { apply list_eq. intros i. unfold I, install_writes. rewrite !list_lookup_imap.
    destruct (bs !! i) eqn:E; [|done]. cbn. rewrite Elog; [done|].
    apply (log_ok_tail _ _ _ recover_placed _ _ E). }
  intros n Hn Hnl. destruct (decide (n ∈ I.*1)).
  - apply apply_disk_base; [by rewrite length_apply_disk|rewrite on_disk_apply; apply recover_I_on_disk|done].
  - rewrite !(apply_disk_untouched I); try done; [|apply recover_I_on_disk|rewrite on_disk_apply; apply recover_I_on_disk].
    apply apply_disk_untouched; [done|done|]. intros Hin. by eapply n0, prefix_fst.
Qed.

(** The whole recovery: the installed disk, with a clear header. *)
Lemma recovered_full :
  let D1 := apply_disk (recover_writes l (blk_at D)) D in
  head_n (blk_at D1 h) = 0 /\ home_eq l D1 (recovered l D).
Proof.
  cbv zeta. unfold recover_writes. fold h d bs I. split.
  - rewrite blk_at_apply.
    + rewrite apply_blk_app, apply_blk_cons, apply_blk_nil, fn_lookup_insert. unfold head_n.
      rewrite get32_put32_eq; [done|]. rewrite Hlen. unfold BSIZE. lia.
    + rewrite on_disk_app. auto using recover_I_on_disk, recover_h_on_disk.
    + pose proof (lp_region _ _ Hp). unfold h. lia.
  - intros n Hn Hnl. change (recovered l D) with (apply_disk I D). rewrite apply_disk_app.
    apply apply_disk_untouched; [done| |].
    + rewrite on_disk_apply. apply recover_h_on_disk.
    + cbn. intros ->%list_elem_of_singleton. apply Hnl, recover_h_in_log.
Qed.

Lemma recovery_crash P : P `prefix_of` recover_writes l (blk_at D) ->
  header_ok l (Z.of_nat (length D)) (blk_at (apply_disk P D) h) /\
  home_eq l (recovered l (apply_disk P D)) (recovered l D).
Proof.
  intros HP. unfold recover_writes in HP. fold h d bs I in HP.
  apply prefix_app_cases in HP as [HP|(P1 & -> & HP)].
  { destruct (recovered_partial P HP) as [-> ?]. done. }
  destruct P1 as [|x P1].
  { rewrite app_nil_r. destruct (recovered_partial I (reflexivity _)) as [-> ?]. done. }
  pose proof (prefix_cons_inv_1 _ _ _ _ HP) as ->. apply prefix_cons_inv_2, prefix_nil_inv in HP as ->.
  destruct recovered_full as [E0 Hhome]. cbv zeta in *. unfold recover_writes in E0, Hhome.
  fold h d bs I in E0, Hhome. pose proof (lp_len _ _ Hp). split.
  - split; [lia|]. unfold head_list. by rewrite E0.
  - by rewrite recovered_clear.
Qed.

End RecoveryCrash.

(** ** The theorems on the code *)

(** [initlog] on a machine that has booted. *)
Lemma initlog_run w me pid D :
  let l := log_placed_at (sb_decode (blk_at D 1)) ROOTDEV (k_log (w_k w)) in
  booted w me pid D -> (1 < length D)%nat -> log_placed l (Z.of_nat (length D)) ->
  header_ok l (Z.of_nat (length D)) (blk_at D (lg_start l)) ->
  exists w1, initlog ROOTDEV w = Ok tt w1 /\
    k_disk (w_k w1) = apply_disk (recover_writes l (blk_at D)) D /\
    k_writes (w_k w1) = k_writes (w_k w) ++ recover_writes l (blk_at D).
Proof.
  intros l Hb H1 Hp Hd. pose proof (booted_world _ _ _ _ Hb) as Hw.
  assert (k_disk (w_k w) = D) as ED by apply Hb.
  destruct (gwp_run w me pid (initlog ROOTDEV) (boot_ast w)
    (fun _ a' => a_disk a' = apply_disk (recover_writes l (blk_at D)) D /\
                 a_writes a' = k_writes (w_k w) ++ recover_writes l (blk_at D)) Hw) as ([] & w1 & a' & E & Hw1 & EA & EB).
  { intros Hctx. subst D. apply gwp_initlog; cbn; try done. unfold in_disk. cbn. lia. }
  exists w1. rewrite (fs_world_disk _ _ _ _ Hw1), (fs_world_writes _ _ _ _ Hw1). done.
Qed.

(** [commit] on a transaction of blocks [bs]. *)
Lemma commit_run w me pid a bs :
  fs_world w me pid a -> log_ok (a_log a) (Z.of_nat (length (a_disk a))) bs ->
  a_held a = ∅ -> a_pin a = list_to_set bs ->
  exists w', commit w = Ok tt w' /\
    let W := if decide (bs = []) then [] else commit_writes (a_log a) bs (a_blk a) in
    k_disk (w_k w') = apply_disk W (k_disk (w_k w)) /\ k_writes (w_k w') = k_writes (w_k w) ++ W.
Proof.
  intros Hw Hl Hheld Hpin.
  destruct (gwp_run w me pid commit a (fun _ a' =>
    let W := if decide (bs = []) then [] else commit_writes (a_log a) bs (a_blk a) in
    a_disk a' = apply_disk W (a_disk a) /\ a_writes a' = a_writes a ++ W) Hw) as ([] & w' & a' & E & Hw' & EA & EB).
  { intros Hctx. case_decide as Hne.
    - apply gwp_commit_empty; [rewrite (lo_n _ _ _ Hl); by subst|]. cbv zeta. by rewrite app_nil_r.
    - by apply (gwp_commit w me pid a bs). }
  exists w'. rewrite (fs_world_disk _ _ _ _ Hw'), (fs_world_writes _ _ _ _ Hw'),
    (fs_world_disk _ _ _ _ Hw), (fs_world_writes _ _ _ _ Hw). done.
Qed.

Lemma home_eq_ext l l' D D' :
  lg_start l = lg_start l' -> lg_size l = lg_size l' -> home_eq l D D' -> home_eq l' D D'.
Proof. intros E1 E2 H n Hn Hl. apply H; [done|]. unfold in_log in *. by rewrite E1, E2. Qed.

(** [initlog] on a crashed disk whose super block places the log as [l] has it. *)
Lemma initlog_recovered w me pid D l :
  booted w me pid D -> (1 < length D)%nat -> log_placed l (Z.of_nat (length D)) ->
  log_placed_at (sb_decode (blk_at D 1)) ROOTDEV l = l ->
  header_ok l (Z.of_nat (length D)) (blk_at D (lg_start l)) ->
  exists w1, initlog ROOTDEV w = Ok tt w1 /\ home_eq l (k_disk (w_k w1)) (recovered l D) /\
    k_disk (w_k w1) = apply_disk (recover_writes l (blk_at D)) D /\
    k_writes (w_k w1) = k_writes (w_k w) ++ recover_writes l (blk_at D).
Proof.
  intros Hb H1 Hp Hsb Hok. set (l0 := log_placed_at (sb_decode (blk_at D 1)) ROOTDEV (k_log (w_k w))).
  assert (lg_start l0 = lg_start l /\ lg_size l0 = lg_size l) as [Es Ez] by (unfold l0; by rewrite <- Hsb).
  destruct (initlog_run w me pid D Hb H1) as (w1 & Ei & ED & EW).
  - fold l0. destruct Hp. constructor; rewrite ?Es, ?Ez; try done. apply Hb.
  - fold l0. rewrite Es. destruct Hok as [Hok1 Hok2]. split; [lia|].
    eapply Forall_impl; [exact Hok2|]. intros n. unfold in_log. by rewrite Es, Ez.
  - fold l0 in ED, EW. unfold recover_writes in ED, EW. rewrite Es in ED, EW.
    exists w1. split; [done|]. split; [|done]. unfold recovered. rewrite ED, apply_disk_app. intros n Hn Hnl.
    pose proof (lp_region _ _ Hp). pose proof (lp_len _ _ Hp). apply apply_disk_untouched; [done| |].
    + rewrite on_disk_apply. constructor; [|done]. cbn. lia.
    + cbn. intros ->%list_elem_of_singleton. apply Hnl. unfold in_log. lia.
Qed.

(** The disk of a state between transactions. *)
Section Quiet.
Context (w : world) (me : nat) (pid : Z) (a : ast) (bs : list Z).
Hypothesis (Hw : fs_world w me pid a).
Hypothesis (Hl : log_ok (a_log a) (Z.of_nat (length (a_disk a))) bs).
Hypothesis (Hheld : a_held a = ∅) (Hpin : a_pin a = list_to_set bs).

Lemma quiet_clean n : in_disk a n -> n ∉ bs -> blk_at (a_disk a) n = a_blk a n.
Proof.
  intros Hn Hb. unfold blk_at. destruct (fs_world_facts _ _ _ _ _ Hw Hn) as [_ Hc]. rewrite Hc; [done|].
  unfold busy. rewrite Hheld, Hpin, dom_empty_L, union_empty_l_L. by rewrite elem_of_list_to_set.
Qed.

Lemma quiet_head : in_disk a (lg_start (a_log a)) /\ lg_start (a_log a) ∉ bs.
Proof.
  pose proof (lo_region _ _ _ Hl). pose proof (lo_len _ _ _ Hl). split; [unfold in_disk; lia|].
  intros Hin. pose proof (lo_home _ _ _ Hl) as HF. rewrite Forall_forall in HF. apply (HF _ Hin). unfold in_log. lia.
Qed.

(** Every prefix of the commit's writes, on the disk. *)
Lemma quiet_crash P :
  head_n (a_blk a (lg_start (a_log a))) = 0 -> 1 < lg_start (a_log a) -> 1 ∉ bs ->
  let W := if decide (bs = []) then [] else commit_writes (a_log a) bs (a_blk a) in
  let D := a_disk a in
  P `prefix_of` W ->
  blk_at (apply_disk P D) 1 = a_blk a 1 /\
  header_ok (a_log a) (Z.of_nat (length D)) (blk_at (apply_disk P D) (lg_start (a_log a))) /\
  (home_eq (a_log a) (recovered (a_log a) (apply_disk P D)) D \/
   home_eq (a_log a) (recovered (a_log a) (apply_disk P D)) (apply_disk W D)).
Proof.
  intros Hclear Hst H1 W D HP. destruct quiet_head as [Hh1 Hh2]. set (l := a_log a) in *.
  pose proof (lo_len _ _ _ Hl) as Hlen. pose proof (lo_region _ _ _ Hl) as Hreg. fold l in Hlen, Hreg.
  assert (head_n (blk_at D (lg_start l)) = 0) as Hc0 by (unfold D; by rewrite quiet_clean).
  assert (in_disk a 1) as Hin1 by (unfold in_disk; lia).
  unfold W in *. case_decide as Hbs.
  - apply prefix_nil_inv in HP as ->. rewrite !apply_disk_nil, recovered_clear by done.
    split; [by apply quiet_clean|]. split; [|by left]. split; [lia|]. unfold head_list. by rewrite Hc0.
  - destruct (fs_world_facts _ _ _ _ _ Hw Hh1) as [Hd2 _]. split; [|by apply commit_crash].
    rewrite blk_at_apply; [|by eapply on_disk_prefix, commit_on_disk|done].
    rewrite apply_blk_ne; [by apply quiet_clean|]. intros Hin. apply (prefix_fst _ _ _ HP) in Hin. revert Hin.
    unfold commit_writes. cbv zeta. rewrite !fmap_app, !elem_of_app. cbn. rewrite !list_elem_of_singleton.
    rewrite (I_fst bs). intros [Hin|[?|[?|?]]]; [|lia|done|lia].
    pose proof (log_writes_in_log _ _ _ _ Hl _ Hin) as Hil. unfold in_log in Hil. fold l in Hil. lia.
Qed.

End Quiet.

(** C1. A crash at any point of a commit is atomic: [commit] returns, and if
    the machine stops after any prefix of the disk writes it issued and boots
    again, [initlog] returns and leaves outside the log either the disk before
    the transaction or the disk after it. *)
Theorem commit_crash_atomic w me pid a bs :
  fs_world w me pid a -> log_ok (a_log a) (Z.of_nat (length (a_disk a))) bs ->
  a_held a = ∅ -> a_pin a = list_to_set bs ->
  head_n (a_blk a (lg_start (a_log a))) = 0 ->
  log_placed_at (sb_decode (a_blk a 1)) ROOTDEV (a_log a) = a_log a ->
  1 < lg_start (a_log a) -> 1 ∉ bs ->
  exists w' W, commit w = Ok tt w' /\
    k_disk (w_k w') = apply_disk W (k_disk (w_k w)) /\ k_writes (w_k w') = k_writes (w_k w) ++ W /\
    forall P w0 me0 pid0, P `prefix_of` W ->
      booted w0 me0 pid0 (apply_disk P (k_disk (w_k w))) ->
      exists w1, initlog ROOTDEV w0 = Ok tt w1 /\
        (home_eq (a_log a) (k_disk (w_k w1)) (k_disk (w_k w)) \/
         home_eq (a_log a) (k_disk (w_k w1)) (k_disk (w_k w'))).
Proof.
  intros Hw Hl Hheld Hpin Hclear Hsb Hst H1.
  destruct (commit_run _ _ _ _ _ Hw Hl Hheld Hpin) as (w' & Ec & ED & EW).
  eexists w', _. split; [done|]. split; [exact ED|]. split; [exact EW|]. intros P w0 me0 pid0 HP Hboot.
  pose proof (fs_world_disk _ _ _ _ Hw) as EDa. rewrite ED. rewrite EDa in *.
  destruct (quiet_crash _ _ _ _ _ Hw Hl Hheld Hpin P Hclear Hst H1 HP) as (E1 & Hok & Hrec).
  assert (length (apply_disk P (a_disk a)) = length (a_disk a)) as ElD by apply length_apply_disk.
  pose proof (lo_region _ _ _ Hl). pose proof (lo_len _ _ _ Hl).
  destruct (initlog_recovered w0 me0 pid0 _ (a_log a) Hboot) as (w1 & Ei & Hh & _).
  - lia.
  - rewrite ElD. by eapply log_ok_placed.
  - by rewrite E1.
  - by rewrite ElD.
  - exists w1. split; [done|]. destruct Hrec as [Hr|Hr]; [left|right]; by rewrite Hh.
Qed.

(** C4. Recovery survives crashes of its own: on a machine that boots on a disk
    with a well-formed log header, [initlog] returns with the logged blocks
    installed and the header cleared; and after a crash at any point of it the
    header is still well formed and the next recovery gives the same files. *)
Theorem initlog_crash_idempotent w me pid D l :
  booted w me pid D -> log_placed l (Z.of_nat (length D)) ->
  log_placed_at (sb_decode (blk_at D 1)) ROOTDEV l = l -> 1 < lg_start l ->
  header_ok l (Z.of_nat (length D)) (blk_at D (lg_start l)) ->
  exists w1 R, initlog ROOTDEV w = Ok tt w1 /\
    k_disk (w_k w1) = apply_disk R D /\ k_writes (w_k w1) = k_writes (w_k w) ++ R /\
    home_eq l (k_disk (w_k w1)) (recovered l D) /\
    head_n (blk_at (k_disk (w_k w1)) (lg_start l)) = 0 /\
    forall P, P `prefix_of` R ->
      header_ok l (Z.of_nat (length D)) (blk_at (apply_disk P D) (lg_start l)) /\
      home_eq l (recovered l (apply_disk P D)) (recovered l D).
Proof.
  intros Hb Hp Hsb H1 Hok. pose proof (lp_region _ _ Hp) as Hreg. pose proof (lp_len _ _ Hp).
  destruct (initlog_recovered w me pid D l Hb) as (w1 & Ei & Hh & ED & EW); [lia|done..|].
  assert (length (blk_at D (lg_start l)) = Z.to_nat BSIZE) as Hlen.
  { unfold blk_at. destruct Hb as (_ & _ & _ & _ & HF & _). rewrite Forall_lookup in HF.
    destruct (D !! Z.to_nat (lg_start l)) as [d|] eqn:E; [by apply (HF _ _ E)|].
    apply lookup_ge_None in E. lia. }
  exists w1, (recover_writes l (blk_at D)). split; [done|]. split; [done|]. split; [done|]. split; [done|].
  split; [rewrite ED; by apply recovered_full|]. intros P HP. by apply recovery_crash.
Qed.

(** ** A machine to evaluate the theorems on

    Twelve blocks: the super block in block 1 and a log of five blocks from
    block 2. *)

Definition demo_proc : proc :=
  Proc 0 0 0 UNUSED 0 None tf_zero Rnone None false (replicate NOFILE None) None [].

Definition demo_ptable : list proc :=
  demo_proc <| p_pid := 1 |> <| p_state := RUNNING |> :: replicate (NPROC - 1) demo_proc.

(** The list of a fresh cache, in the order of the array. *)
Definition demo_buf (i : nat) : buf :=
  Buf 0 0 0 (SL false 0) 0 (if (i =? 0)%nat then bhead else (i - 1)%nat)
      (if (i =? bhead)%nat then O else S i) (replicate (Z.to_nat BSIZE) 0).
Definition demo_bufs : list buf := map demo_buf (seq 0 (S NBUF)).

Definition demo_sb : list Z :=
  concat (map (le_bytes 4) [12; 5; 8; 5; 2; 7; 8]) ++ replicate (Z.to_nat BSIZE - 28) 0.
Definition demo_disk : list (list Z) :=
  let z := replicate (Z.to_nat BSIZE) 0 in z :: demo_sb :: replicate 10 z.

Definition demo_log : logst := Log 2 5 1 false ROOTDEV 0 (replicate (Z.to_nat LOGSIZE) 0).

Definition demo_kstate (l : logst) (D : list (list Z)) : kstate :=
  KS demo_ptable 2 (Some O) (Kmem ∅ 0 false 0 0) (Bcache demo_bufs) D []
     l (sb_decode demo_sb) [] [] [] ∅ (Input [] 0 0 0) [] 0 0 true false (Cga (replicate 2000 0) 0).

Definition demo_world (l : logst) (D : list (list Z)) : world := World (demo_kstate l D) [] (Some O) [].

Lemma demo_rep : rep demo_bufs (take NBUF (map core demo_bufs)).
Proof.
  split; [|done]. exists (seq 0 NBUF). split; [done|]. split; [done|].
  split; vm_compute; repeat split; reflexivity.
Qed.

Lemma demo_booted l D :
  length (lh_block l) = Z.to_nat LOGSIZE -> Forall (fun d => length d = Z.to_nat BSIZE) D ->
  booted (demo_world l D) O 1 D.
Proof.
  intros Hl HD. split; [by split|]. split; [split; [done|]; by eexists|]. split; [|done].
  exists (take NBUF (map core demo_bufs)). split; [apply demo_rep|]. split; [done|].
  apply (bool_decide_unpack _). vm_compute. exact I.
Qed.

(** A transaction that changes block 8. *)
Definition demo_txn : M unit :=
  b ← bread ROOTDEV 8;
  upd_buf b (fun x => x <| b_data ::= <[O := 77]> |>) ;;
  log_write b ;;
  brelse b.

Lemma demo_blocks : Forall (fun d => length d = Z.to_nat BSIZE) demo_disk.
Proof. apply (bool_decide_unpack _). vm_compute. exact I. Qed.

Lemma demo_placed : log_placed demo_log (Z.of_nat (length demo_disk)).
Proof. by constructor. Qed.

Lemma demo_txn_run :
  exists w a, fs_world w O 1 a /\ log_ok (a_log a) (Z.of_nat (length (a_disk a))) [8] /\
    a_held a = ∅ /\ a_pin a = list_to_set [8] /\
    head_n (a_blk a 2) = 0 /\ a_blk a 1 = demo_sb /\ lg_start (a_log a) = 2 /\ lg_size (a_log a) = 5 /\
    a_disk a = demo_disk.
Proof.
  destruct (gwp_run (demo_world demo_log demo_disk) O 1 demo_txn (boot_ast (demo_world demo_log demo_disk))
    (fun _ a => log_ok (a_log a) (Z.of_nat (length (a_disk a))) [8] /\
      a_held a = ∅ /\ a_pin a = list_to_set [8] /\ head_n (a_blk a 2) = 0 /\ a_blk a 1 = demo_sb /\
      lg_start (a_log a) = 2 /\ lg_size (a_log a) = 5 /\ a_disk a = demo_disk)) as (v & w & a & _ & Hw & HQ).
  - apply (booted_world _ _ _ demo_disk). apply (demo_booted demo_log demo_disk); [done|apply demo_blocks].
  - intros Hctx. pose proof demo_placed as Hp.
    apply gwp_bind, (gwp_bread (demo_world demo_log demo_disk) O 1); [by split|done|right; vm_compute; lia|]. intros b.
    apply gwp_bind. eapply (gwp_upd_data (demo_world demo_log demo_disk) O 1 8); [apply lookup_insert_eq|by rewrite length_insert|].
    apply gwp_bind. eapply (gwp_log_write (demo_world demo_log demo_disk) O 1 _ [] 8).
    + by destruct Hp; constructor.
    + apply lookup_insert_eq.
    + by split.
    + unfold in_log. cbn. lia.
    + cbn. lia.
    + done.
    + eapply (gwp_brelse (demo_world demo_log demo_disk) O 1 8); [apply lookup_insert_eq|left; cbn; set_solver|].
      cbn. split_and!; [|by apply delete_insert_id|set_solver|by vm_compute|done..].
      apply (log_added_ok demo_log 12 [] 8); [by destruct Hp; constructor|lia|unfold in_log; cbn; lia|right; cbn; lia].
  - eauto 10.
Qed.

Lemma commit_crash_atomic_witness :
  exists w a w' W, fs_world w O 1 a /\ a_pin a = {[8]} /\ commit w = Ok tt w' /\
    k_disk (w_k w') = apply_disk W (k_disk (w_k w)) /\
    forall P w0, P `prefix_of` W -> booted w0 O 1 (apply_disk P (k_disk (w_k w))) ->
      exists w1, initlog ROOTDEV w0 = Ok tt w1.
Proof.
  destruct demo_txn_run as (w & a & Hw & Hl & Hh & Hp & Hc & Hsb & Hs & Hz & HD).
  destruct (commit_crash_atomic w O 1 a [8] Hw Hl Hh Hp) as (w' & W & Ec & ED & _ & Hcr).
  - by rewrite Hs.
  - rewrite Hsb. destruct Hl. destruct (a_log a). unfold log_placed_at, setter. cbn in *. by subst.
  - by rewrite Hs.
  - set_solver.
  - exists w, a, w', W. split; [done|]. split; [by rewrite Hp; set_solver|]. split; [done|]. split; [done|].
    intros P w0 HP Hb. destruct (Hcr P w0 O 1 HP Hb) as (w1 & E & _). by exists w1.
Defined.

Lemma demo_header : header_ok demo_log (Z.of_nat (length demo_disk)) (blk_at demo_disk (lg_start demo_log)).
Proof. split; [by vm_compute|]. vm_compute. constructor. Qed.

Lemma demo_log_sb : log_placed_at (sb_decode (blk_at demo_disk 1)) ROOTDEV demo_log = demo_log.
Proof. vm_compute. reflexivity. Qed.

Lemma initlog_crash_idempotent_witness :
  exists w1, initlog ROOTDEV (demo_world demo_log demo_disk) = Ok tt w1 /\
    head_n (blk_at (k_disk (w_k w1)) 2) = 0.
Proof.
  destruct (initlog_crash_idempotent (demo_world demo_log demo_disk) O 1 demo_disk demo_log
    (demo_booted demo_log demo_disk eq_refl demo_blocks) demo_placed demo_log_sb eq_refl demo_header)
    as (w1 & R & E & _ & _ & _ & H0 & _).
  exists w1. split; [exact E | exact H0].
Defined.
