(* ===== verification/Inode.v ===== *)
(** Blocks and inodes: the first half of fs.c, from the block allocator to
    [stati].  File contents, directories and paths are in Fs.v. *)

From S2P Require Import Prelude Kernel Sched Cons Bio Log.

(** ** Layout (fs.h) *)

Definition SIZEOF_DINODE : Z := 64.
Definition IPB : Z := BSIZE / SIZEOF_DINODE.
Definition IBLOCK (i : Z) (sb : superblock) : Z := u32 (i / IPB + sb_inodestart sb).
Definition BPB : Z := BSIZE * 8.
Definition BBLOCK (b : Z) (sb : superblock) : Z := u32 (b / BPB + sb_bmapstart sb).

(** The [struct dinode] at offset [off] of a block. *)
Record dinode := Dinode {
  di_type : Z; di_major : Z; di_minor : Z; di_nlink : Z; di_size : Z; di_addrs : list Z }.

Definition dip (inum : Z) : nat := Z.to_nat (inum mod IPB * SIZEOF_DINODE).

Definition read_dinode (d : list Z) (off : nat) : dinode :=
  Dinode (i16 (get16 d off)) (i16 (get16 d (off + 2))) (i16 (get16 d (off + 4)))
    (i16 (get16 d (off + 6))) (get32 d (off + 8))
    (map (fun i => get32 d (off + 12 + 4 * i)) (seq 0 13)).

Fixpoint put_addrs (d : list Z) (off : nat) (addrs : list Z) : list Z :=
  match addrs with
  | [] => d
  | a :: addrs => put_addrs (put32 d off a) (off + 4) addrs
  end.

Definition write_dinode (di : dinode) (off : nat) (d : list Z) : list Z :=
  let d := put16 d off (di_type di) in
  let d := put16 d (off + 2) (di_major di) in
  let d := put16 d (off + 4) (di_minor di) in
  let d := put16 d (off + 6) (di_nlink di) in
  let d := put32 d (off + 8) (di_size di) in
  put_addrs d (off + 12) (di_addrs di).

(** An assignment to [bp->data]. *)
Definition set_data (bp : nat) (f : list Z -> list Z) : M unit :=
  upd_buf bp (fun x => x <| b_data ::= f |>).
Definition get_data (bp : nat) : M (list Z) := x ← get_buf bp; mret (b_data x).

(** ** Blocks *)

Definition bzero (dev bno : Z) : M unit :=
  bp ← bread dev (u32 bno);
  set_data bp (fun _ => replicate (Z.to_nat BSIZE) 0) ;;
  log_write bp ;;
  brelse bp.

(** [for(b = 0; b < sb.size; b += BPB)] and [for(bi = 0; bi < BPB && b + bi < sb.size; bi++)]. *)
Definition bitmap_starts (sb : superblock) : list Z :=
  map (fun i => Z.of_nat i * BPB) (seq 0 (Z.to_nat ((sb_size sb + BPB - 1) / BPB))).
Definition bitmap_bits (sb : superblock) (b : Z) : list Z :=
  map Z.of_nat (seq 0 (Z.to_nat (Z.min BPB (sb_size sb - b)))).

Definition bit_mask (bi : Z) : Z := Z.shiftl 1 (bi mod 8).

Definition balloc (dev : Z) : M Z :=
  sb ← get k_sb;
  r ← find_each (bitmap_starts sb) (fun b =>
    bp ← bread dev (BBLOCK b sb);
    r ← find_each (bitmap_bits sb b) (fun bi =>
      d ← get_data bp;
      x ← deref (d !! Z.to_nat (bi / 8));
      if Z.land x (bit_mask bi) =? 0 then
        set_data bp (<[Z.to_nat (bi / 8) := Z.lor x (bit_mask bi)]>) ;;
        log_write bp ;;
        brelse bp ;;
        bzero dev (b + bi) ;;
        mret (Some (b + bi))
      else mret None);
    match r with
    | Some v => mret (Some v)
    | None => brelse bp ;; mret None
    end);
  match r with
  | Some v => mret v
  | None => panic "balloc: out of blocks"
  end.

Definition bfree (dev b : Z) : M unit :=
  sb ← get k_sb;
  bp ← bread dev (BBLOCK b sb);
  let bi := b mod BPB in
  d ← get_data bp;
  x ← deref (d !! Z.to_nat (bi / 8));
  if Z.land x (bit_mask bi) =? 0 then panic "freeing free block" else
  set_data bp (<[Z.to_nat (bi / 8) := Z.ldiff x (bit_mask bi)]>) ;;
  log_write bp ;;
  brelse bp.

(** ** Inodes *)

Definition inodes : list nat := seq 0 NINODE.

Definition iinit (dev : Z) : M unit :=
  for_each inodes (fun i => initsleeplock (SLinode i)) ;;
  sb ← readsb dev;
  modify (fun k => k <| k_sb := sb |>) ;;
  cprintf "sb: size %d nblocks %d ninodes %d nlog %d logstart %d inodestart %d bmap start %d
" [Aint (sb_size sb); Aint (sb_nblocks sb); Aint (sb_ninodes sb); Aint (sb_nlog sb);
   Aint (sb_logstart sb); Aint (sb_inodestart sb); Aint (sb_bmapstart sb)].

(** The scan of [iget]: the entry found, or the first empty slot. *)
Fixpoint iget_scan (dev inum : Z) (l : list nat) (empty : option nat) : M (nat + option nat) :=
  match l with
  | [] => mret (inr empty)
  | ip :: l =>
      x ← get_inode ip;
      if (0 <? i_ref x) && (i_dev x =? dev) && (i_inum x =? inum) then mret (inl ip)
      else iget_scan dev inum l
             (match empty with
              | None => if i_ref x =? 0 then Some ip else None
              | Some e => Some e
              end)
  end.

Definition iget (dev inum : Z) : M nat :=
  acquire Licache ;;
  r ← iget_scan dev inum inodes None;
  match r with
  | inl ip =>
      upd_inode ip (fun x => x <| i_ref ::= fun n => i32 (n + 1) |>) ;;
      release Licache ;;
      mret ip
  | inr None => panic "iget: no inodes"
  | inr (Some ip) =>
      upd_inode ip (fun x => x <| i_dev := dev |> <| i_inum := inum |> <| i_ref := 1 |>
                               <| i_valid := false |>) ;;
      release Licache ;;
      mret ip
  end.

Definition ialloc (dev type : Z) : M nat :=
  sb ← get k_sb;
  r ← find_each (map Z.of_nat (seq 1 (Z.to_nat (sb_ninodes sb - 1)))) (fun inum =>
    bp ← bread dev (IBLOCK inum sb);
    d ← get_data bp;
    if i16 (get16 d (dip inum)) =? 0 then
      set_data bp (fun d => blit d (dip inum) (replicate (Z.to_nat SIZEOF_DINODE) 0)) ;;
      set_data bp (fun d => put16 d (dip inum) type) ;;
      log_write bp ;;
      brelse bp ;;
      ip ← iget dev inum;
      mret (Some ip)
    else brelse bp ;; mret None);
  match r with
  | Some ip => mret ip
  | None => panic "ialloc: no inodes"
  end.

Definition inode_disk (x : inode) : dinode :=
  Dinode (i_type x) (i_major x) (i_minor x) (i_nlink x) (i_size x) (i_addrs x).

Definition iupdate (ip : nat) : M unit :=
  sb ← get k_sb;
  x ← get_inode ip;
  bp ← bread (i_dev x) (IBLOCK (i_inum x) sb);
  set_data bp (write_dinode (inode_disk x) (dip (i_inum x))) ;;
  log_write bp ;;
  brelse bp.

Definition idup (ip : nat) : M nat :=
  acquire Licache ;;
  upd_inode ip (fun x => x <| i_ref ::= fun n => i32 (n + 1) |>) ;;
  release Licache ;;
  mret ip.

(** The fields [ilock] copies from the disk. *)
Definition load_dinode (di : dinode) (x : inode) : inode :=
  x <| i_type := di_type di |> <| i_major := di_major di |> <| i_minor := di_minor di |>
    <| i_nlink := di_nlink di |> <| i_size := di_size di |> <| i_addrs := di_addrs di |>.

Definition ilock (oip : option nat) : M unit :=
  match oip with
  | None => panic "ilock"
  | Some ip =>
      x ← get_inode ip;
      if i_ref x <? 1 then panic "ilock" else
      acquiresleep (SLinode ip) ;;
      x ← get_inode ip;
      when (negb (i_valid x))
        (sb ← get k_sb;
         bp ← bread (i_dev x) (IBLOCK (i_inum x) sb);
         d ← get_data bp;
         upd_inode ip (load_dinode (read_dinode d (dip (i_inum x)))) ;;
         brelse bp ;;
         upd_inode ip (fun x => x <| i_valid := true |>) ;;
         x ← get_inode ip;
         when (i_type x =? 0) (panic "ilock: no type"))
  end.

Definition iunlock (oip : option nat) : M unit :=
  match oip with
  | None => panic "iunlock"
  | Some ip =>
      h ← holdingsleep (SLinode ip);
      if negb h then panic "iunlock" else
      x ← get_inode ip;
      if i_ref x <? 1 then panic "iunlock" else
      releasesleep (SLinode ip)
  end.

Definition itrunc (ip : nat) : M unit :=
  for_each (seq 0 (Z.to_nat NDIRECT)) (fun i =>
    x ← get_inode ip;
    a ← deref (i_addrs x !! i);
    when (negb (a =? 0))
      (bfree (i_dev x) a ;;
       upd_inode ip (fun x => x <| i_addrs ::= <[i := 0]> |>))) ;;
  x ← get_inode ip;
  a ← deref (i_addrs x !! Z.to_nat NDIRECT);
  when (negb (a =? 0))
    (bp ← bread (i_dev x) a;
     for_each (seq 0 (Z.to_nat NINDIRECT)) (fun j =>
       d ← get_data bp;
       let aj := get32 d (4 * j) in
       when (negb (aj =? 0)) (bfree (i_dev x) aj)) ;;
     brelse bp ;;
     bfree (i_dev x) a ;;
     upd_inode ip (fun x => x <| i_addrs ::= <[Z.to_nat NDIRECT := 0]> |>)) ;;
  upd_inode ip (fun x => x <| i_size := 0 |>) ;;
  iupdate ip.

Definition iput (ip : nat) : M unit :=
  acquiresleep (SLinode ip) ;;
  x ← get_inode ip;
  when (i_valid x && (i_nlink x =? 0))
    (acquire Licache ;;
     x ← get_inode ip;
     let r := i_ref x in
     release Licache ;;
     when (r =? 1)
       (itrunc ip ;;
        upd_inode ip (fun x => x <| i_type := 0 |>) ;;
        iupdate ip ;;
        upd_inode ip (fun x => x <| i_valid := false |>))) ;;
  releasesleep (SLinode ip) ;;
  acquire Licache ;;
  upd_inode ip (fun x => x <| i_ref ::= fun n => i32 (n - 1) |>) ;;
  release Licache.

Definition iunlockput (ip : nat) : M unit :=
  iunlock (Some ip) ;;
  iput ip.

(** ** Inode content *)

Definition bmap (ip : nat) (bn : Z) : M Z :=
  if bn <? NDIRECT then
    x ← get_inode ip;
    addr ← deref (i_addrs x !! Z.to_nat bn);
    if addr =? 0 then
      addr ← balloc (i_dev x);
      upd_inode ip (fun x => x <| i_addrs ::= <[Z.to_nat bn := addr]> |>) ;;
      mret addr
    else mret addr
  else
  let bn := bn - NDIRECT in
  if bn <? NINDIRECT then
    x ← get_inode ip;
    addr ← deref (i_addrs x !! Z.to_nat NDIRECT);
    addr ← (if addr =? 0 then
              addr ← balloc (i_dev x);
              upd_inode ip (fun x => x <| i_addrs ::= <[Z.to_nat NDIRECT := addr]> |>) ;;
              mret addr
            else mret addr);
    bp ← bread (i_dev x) addr;
    d ← get_data bp;
    let addr := get32 d (Z.to_nat (4 * bn)) in
    addr ← (if addr =? 0 then
              addr ← balloc (i_dev x);
              set_data bp (fun d => put32 d (Z.to_nat (4 * bn)) addr) ;;
              log_write bp ;;
              mret addr
            else mret addr);
    brelse bp ;;
    mret addr
  else panic "bmap: out of range".

(** [struct stat] (stat.h). *)
Record stat := Stat { st_type : Z; st_dev : Z; st_ino : Z; st_nlink : Z; st_size : Z }.

Definition stati (ip : nat) : M stat :=
  x ← get_inode ip;
  mret (Stat (i_type x) (i32 (i_dev x)) (i_inum x) (i_nlink x) (i_size x)).
