(* ===== verification/Fs.v ===== *)
(** File contents, directories and paths: the second half of fs.c, with the
    console's device functions that [readi] and [writei] dispatch to.

    A function that fills the caller's buffer returns the bytes it stored, from
    the start of the buffer, next to its result. *)

From S2P Require Import Prelude Kernel Sched Cons Str Bio Log Inode.

(** ** console.c *)

(** The characters taken so far, with [n] still wanted. *)
Definition consoleread (ip : nat) (n : Z) : M (Z * list Z) :=
  iunlock (Some ip) ;;
  let target := u32 n in
  acquire Lcons ;;
  r ← loop (S (Z.to_nat n)) (fun st : Z * list Z =>
    let '(n, got) := st in
    if n <=? 0 then mret (inr (n, got, false)) else
    k ← loop_sleep (fun _ : unit =>
      inp ← get_input;
      if in_r inp =? in_w inp then
        killed ← my p_killed;
        if (killed : bool) then
          release Lcons ;; ilock (Some ip) ;; mret (inr false)
        else sleep Cinput (Some Lcons) ;; mret (inl tt)
      else mret (inr true)) tt;
    if negb k then mret (inr (n, got, true)) else
    inp ← get_input;
    c ← deref (in_buf inp !! Z.to_nat (in_r inp mod INPUT_BUF));
    upd_input (fun i => i <| in_r ::= fun r => u32 (r + 1) |>) ;;
    if c =? ctl 68 then
      when (n <? target) (upd_input (fun i => i <| in_r ::= fun r => u32 (r - 1) |>)) ;;
      mret (inr (n, got, false))
    else
      let got := got ++ [c] in
      let n := n - 1 in
      mret (if c =? 10 then inr (n, got, false) else inl (n, got))) (n, []);
  let '(n, got, killed) := r in
  if (killed : bool) then mret (-1, got) else
  release Lcons ;;
  ilock (Some ip) ;;
  mret (i32 (target - n), got).

Definition consolewrite (ip : nat) (buf : list Z) (n : Z) : M Z :=
  iunlock (Some ip) ;;
  acquire Lcons ;;
  for_each (seq 0 (Z.to_nat n)) (fun i => c ← deref (buf !! i); consputc (Z.land c 255)) ;;
  release Lcons ;;
  ilock (Some ip) ;;
  mret n.

(** [devsw[major].read] and [devsw[major].write]. *)
Definition dev_read (major : Z) : M (option devfn) :=
  if (major <? 0) || (NDEV <=? major) then mret None else
  t ← get k_devsw;
  d ← deref (t !! Z.to_nat major);
  mret (dv_read d).

Definition dev_write (major : Z) : M (option devfn) :=
  if (major <? 0) || (NDEV <=? major) then mret None else
  t ← get k_devsw;
  d ← deref (t !! Z.to_nat major);
  mret (dv_write d).

(** The functions are installed in the slots of their kind ([consoleinit]). *)
Definition call_read (f : devfn) (ip : nat) (n : Z) : M (Z * list Z) :=
  match f with Consoleread => consoleread ip n | Consolewrite => fault end.
Definition call_write (f : devfn) (ip : nat) (buf : list Z) (n : Z) : M Z :=
  match f with Consolewrite => consolewrite ip buf n | Consoleread => fault end.

Definition consoleinit : M unit :=
  modify (fun k => k <| k_devsw ::= alter (fun d => d <| dv_write := Some Consolewrite |>) (Z.to_nat CONSOLE) |>) ;;
  modify (fun k => k <| k_devsw ::= alter (fun d => d <| dv_read := Some Consoleread |>) (Z.to_nat CONSOLE) |>) ;;
  modify (fun k => k <| k_locking := true |>).

(** ** Reading and writing files *)

(** Iterations of the loops of [readi] and [writei], at most. *)
Definition io_fuel (n : Z) : nat := S (S (Z.to_nat (n / BSIZE))).

Definition readi (ip : nat) (off n : Z) : M (Z * list Z) :=
  x ← get_inode ip;
  if i_type x =? T_DEV then
    f ← dev_read (i_major x);
    match f with
    | None => mret (-1, [])
    | Some f => call_read f ip (i32 n)
    end
  else
  if (i_size x <? off) || (u32 (off + n) <? off) then mret (-1, []) else
  let n := if i_size x <? u32 (off + n) then i_size x - off else n in
  got ← loop (S (io_fuel n)) (fun st : Z * Z * list Z =>
    let '(tot, off, got) := st in
    if n <=? tot then mret (inr got) else
    bno ← bmap ip (off / BSIZE);
    bp ← bread (i_dev x) bno;
    let m := Z.min (n - tot) (BSIZE - off mod BSIZE) in
    d ← get_data bp;
    let got := got ++ slice d (Z.to_nat (off mod BSIZE)) (Z.to_nat m) in
    brelse bp ;;
    mret (inl (tot + m, off + m, got))) (0, off, []);
  mret (i32 n, got).

(** [src] holds the caller's bytes. *)
Definition writei (ip : nat) (src : list Z) (off n : Z) : M Z :=
  x ← get_inode ip;
  if i_type x =? T_DEV then
    f ← dev_write (i_major x);
    match f with
    | None => mret (-1)
    | Some f => call_write f ip src (i32 n)
    end
  else
  if (i_size x <? off) || (u32 (off + n) <? off) then mret (-1) else
  if MAXFILE * BSIZE <? u32 (off + n) then mret (-1) else
  off ← loop (S (io_fuel n)) (fun st : Z * Z =>
    let '(tot, off) := st in
    if n <=? tot then mret (inr off) else
    bno ← bmap ip (off / BSIZE);
    bp ← bread (i_dev x) bno;
    let m := Z.min (n - tot) (BSIZE - off mod BSIZE) in
    let chunk := slice src (Z.to_nat tot) (Z.to_nat m) in
    if negb (Z.of_nat (length chunk) =? m) then fault else
    set_data bp (fun d => blit d (Z.to_nat (off mod BSIZE)) chunk) ;;
    log_write bp ;;
    brelse bp ;;
    mret (inl (tot + m, off + m))) (0, off);
  x ← get_inode ip;
  when ((0 <? n) && (i_size x <? off))
    (upd_inode ip (fun x => x <| i_size := off |>) ;;
     iupdate ip) ;;
  mret (i32 n).

(** ** Directories *)

Definition SIZEOF_DIRENT : Z := 16.

Definition de_inum (de : list Z) : Z := get16 de 0.
Definition de_name (de : list Z) : list Z := slice de 2 DIRSIZ.

Definition namecmp (s t : list Z) : M Z := deref (Kstring.strncmp s t DIRSIZ).

(** [for(off = 0; off < dp->size; off += sizeof(de))] *)
Definition dir_offs (size : Z) : list Z :=
  map (fun i => Z.of_nat i * SIZEOF_DIRENT) (seq 0 (Z.to_nat ((size + SIZEOF_DIRENT - 1) / SIZEOF_DIRENT))).

(** One entry; [msg] is the caller's panic. *)
Definition read_dirent (dp : nat) (off : Z) (msg : string) : M (list Z) :=
  r ← readi dp off SIZEOF_DIRENT;
  if negb (fst r =? SIZEOF_DIRENT) then panic msg else mret (snd r).

Definition dirlookup (dp : nat) (name : list Z) : M (option (nat * Z)) :=
  x ← get_inode dp;
  if negb (i_type x =? T_DIR) then panic "dirlookup not DIR" else
  find_each (dir_offs (i_size x)) (fun off =>
    de ← read_dirent dp off "dirlookup read";
    if de_inum de =? 0 then mret None else
    c ← namecmp name (de_name de);
    if c =? 0 then
      ip ← iget (i_dev x) (de_inum de);
      mret (Some (ip, off))
    else mret None).

Definition dirlink (dp : nat) (name : list Z) (inum : Z) : M Z :=
  r ← dirlookup dp name;
  match r with
  | Some (ip, _) => iput ip ;; mret (-1)
  | None =>
      x ← get_inode dp;
      e ← find_each (dir_offs (i_size x)) (fun off =>
        de ← read_dirent dp off "dirlink read";
        mret (if de_inum de =? 0 then Some off else None));
      let off := default (Z.of_nat (length (dir_offs (i_size x))) * SIZEOF_DIRENT) e in
      nm ← deref (Kstring.strncpy (replicate DIRSIZ 0) name DIRSIZ);
      let de := le_bytes 2 inum ++ nm in
      r ← writei dp de off SIZEOF_DIRENT;
      if negb (r =? SIZEOF_DIRENT) then panic "dirlink" else mret 0
  end.

(** ** Paths

    A C string is the list of its characters, without the terminator. *)

Definition slash : Z := 47.

Fixpoint skip_slashes (path : list Z) : list Z :=
  match path with
  | c :: path' => if c =? slash then skip_slashes path' else path
  | [] => []
  end.

(** The element and what follows it. *)
Fixpoint span_elem (path : list Z) : list Z * list Z :=
  match path with
  | [] => ([], [])
  | c :: path' =>
      if c =? slash then ([], path)
      else let (e, rest) := span_elem path' in (c :: e, rest)
  end.

(** [name] is the caller's buffer of [DIRSIZ] bytes. *)
Definition skipelem (path name : list Z) : option (list Z * list Z) :=
  let path := skip_slashes path in
  match path with
  | [] => None
  | _ =>
      let (s, path) := span_elem path in
      let len := length s in
      let name := if (DIRSIZ <=? len)%nat then blit name 0 (take DIRSIZ s)
                  else <[len := 0]> (blit name 0 s) in
      Some (skip_slashes path, name)
  end.

(** The result, and the caller's [name] buffer. *)
Definition namex (path : list Z) (nameiparent : bool) (name : list Z) : M (option nat * list Z) :=
  ip ← (match path with
        | c :: _ => if c =? slash then iget ROOTDEV ROOTINO
                    else ocwd ← my p_cwd; cwd ← deref ocwd; idup cwd
        | [] => ocwd ← my p_cwd; cwd ← deref ocwd; idup cwd
        end);
  loop (S (length path)) (fun st : list Z * list Z * nat =>
    let '(path, name, ip) := st in
    match skipelem path name with
    | None =>
        if nameiparent then iput ip ;; mret (inr (None, name))
        else mret (inr (Some ip, name))
    | Some (path, name) =>
        ilock (Some ip) ;;
        x ← get_inode ip;
        if negb (i_type x =? T_DIR) then
          iunlockput ip ;; mret (inr (None, name))
        else if nameiparent && bool_decide (path = []) then
          iunlock (Some ip) ;; mret (inr (Some ip, name))
        else
          next ← dirlookup ip name;
          match next with
          | None => iunlockput ip ;; mret (inr (None, name))
          | Some (next, _) => iunlockput ip ;; mret (inl (path, name, next))
          end
    end) (path, name, ip).

Definition namei (path : list Z) : M (option nat) :=
  r ← namex path false (replicate DIRSIZ 0);
  mret (fst r).

Definition nameiparent (path name : list Z) : M (option nat * list Z) := namex path true name.
