(* ===== verification/FsSpec.v ===== *)
(** The file system's on-disk structures and names: [struct dinode] and its
    in-memory copy, and the elements of a path (fs.c). *)

From S2P Require Import Prelude Kernel Sched Str Bio Log Inode Fs.

(** ** Adjacent writes *)

Lemma blit_app {A} (d : list A) off b1 b2 :
  (off + length (b1 ++ b2) <= length d)%nat ->
  blit (blit d off b1) (off + length b1) b2 = blit d off (b1 ++ b2).
Proof.
  rewrite length_app. intros H. apply list_eq. intros i.
  rewrite !lookup_blit; rewrite ?length_blit, ?length_app by lia; try lia.
  repeat case_decide; try lia; try done.
  - rewrite lookup_app_r by lia. f_equal. lia.
  - rewrite lookup_app_l by lia. done.
Qed.

Lemma blit_next {A} (d : list A) off n b1 b2 :
  n = (off + length b1)%nat -> (off + length (b1 ++ b2) <= length d)%nat ->
  blit (blit d off b1) n b2 = blit d off (b1 ++ b2).
Proof. intros ->. apply blit_app. Qed.

Lemma slice_blit_in {A} (d : list A) off new i n :
  (off + length new <= length d)%nat -> (i + n <= length new)%nat ->
  slice (blit d off new) (off + i) n = slice new i n.
Proof.
  intros H Hi. apply list_eq. intros j. rewrite !lookup_slice. case_decide; [|done].
  rewrite lookup_blit by done. rewrite decide_True by lia. f_equal. lia.
Qed.

(** ** Inodes on the disk *)

(** The 64 bytes of a [struct dinode]. *)
Definition dinode_bytes (di : dinode) : list Z :=
  le_bytes 2 (di_type di) ++ le_bytes 2 (di_major di) ++ le_bytes 2 (di_minor di) ++
  le_bytes 2 (di_nlink di) ++ le_bytes 4 (di_size di) ++ concat (map (le_bytes 4) (di_addrs di)).

(** The values the C types can hold. *)
Record dinode_ok (di : dinode) : Prop := Dinode_ok {
  do_type : is_i16 (di_type di);
  do_major : is_i16 (di_major di);
  do_minor : is_i16 (di_minor di);
  do_nlink : is_i16 (di_nlink di);
  do_size : is_u32 (di_size di);
  do_addrs : Forall is_u32 (di_addrs di);
  do_len : length (di_addrs di) = 13%nat }.

Lemma put_addrs_blit addrs : forall d off,
  (off + 4 * length addrs <= length d)%nat ->
  put_addrs d off addrs = blit d off (concat (map (le_bytes 4) addrs)).
Proof.
  induction addrs as [|a addrs IH]; intros d off H; cbn [put_addrs map concat length] in *.
  - unfold blit. cbn. rewrite Nat.add_0_r. by rewrite take_drop.
  - assert (length (concat (map (le_bytes 4) addrs)) = 4 * length addrs)%nat as Hc.
    { clear. induction addrs; cbn [map concat length]; [done|]. rewrite length_app, length_le_bytes. lia. }
    rewrite IH by (rewrite length_put32 by lia; lia). unfold put32.
    change 4%nat with (length (le_bytes 4 a)) at 2. apply blit_app.
    rewrite length_app, length_le_bytes. lia.
Qed.

Lemma length_dinode_bytes di : length (di_addrs di) = 13%nat -> length (dinode_bytes di) = 64%nat.
Proof.
  intros H. unfold dinode_bytes. rewrite !length_app, !length_le_bytes.
  destruct di as [? ? ? ? ? addrs]. cbn [di_addrs] in *.
  assert (length (concat (map (le_bytes 4) addrs)) = 4 * length addrs)%nat as ->; [|lia].
  clear. induction addrs; cbn [map concat length]; [done|]. rewrite length_app, length_le_bytes. lia.
Qed.

Lemma write_dinode_blit di off d :
  length (di_addrs di) = 13%nat -> (off + 64 <= length d)%nat ->
  write_dinode di off d = blit d off (dinode_bytes di).
Proof.
  intros Hl Hd. unfold write_dinode, put16, put32, dinode_bytes.
  assert (length (concat (map (le_bytes 4) (di_addrs di))) = 52)%nat as Hc.
  { pose proof (length_dinode_bytes di Hl) as H. unfold dinode_bytes in H.
    rewrite !length_app, !length_le_bytes in H. lia. }
  set (rest := concat _) in *.
  rewrite (blit_next d off (off + 2)), (blit_next d off (off + 4)), (blit_next d off (off + 6)), (blit_next d off (off + 8));
    rewrite ?length_app, ?length_le_bytes; try lia.
  rewrite put_addrs_blit by (rewrite length_blit; rewrite ?length_app, ?length_le_bytes; lia). fold rest.
  rewrite blit_next; rewrite ?length_app, ?length_le_bytes; try lia. by rewrite <- !app_assoc.
Qed.

Lemma i16_u16 v : is_i16 v -> i16 (u16 v) = v.
Proof. unfold is_i16, i16, u16. intros. lia. Qed.

Lemma get_le_bytes n v pre post :
  le_val (slice (pre ++ le_bytes n v ++ post) (length pre) n) = v mod 256 ^ Z.of_nat n.
Proof.
  assert (slice (pre ++ le_bytes n v ++ post) (length pre) n = le_bytes n v) as ->; [|apply le_val_le_bytes].
  unfold slice. rewrite drop_app_length. rewrite <- (length_le_bytes n v) at 1. apply take_app_length.
Qed.

(** Reading back one field of the 64 bytes. *)
Lemma read_field n v i pre post bs :
  i = length pre -> bs = pre ++ le_bytes n v ++ post -> le_val (slice bs i n) = v mod 256 ^ Z.of_nat n.
Proof. intros -> ->. apply get_le_bytes. Qed.

Lemma read_addrs addrs : forall pre bs,
  Forall is_u32 addrs -> bs = pre ++ concat (map (le_bytes 4) addrs) ->
  map (fun i => get32 bs (length pre + 4 * i)) (seq 0 (length addrs)) = addrs.
Proof.
  induction addrs as [|a addrs IH]; intros pre bs Hu E; [done|]. inversion Hu as [|? ? Ha Hu']; subst.
  cbn [length seq map]. f_equal.
  - rewrite Nat.add_0_r. unfold get32. cbn [map concat]. rewrite get_le_bytes. apply (u32_id a Ha).
  - rewrite <- seq_shift, map_map. rewrite <- (IH (pre ++ le_bytes 4 a) (pre ++ concat (map (le_bytes 4) (a :: addrs))) Hu') at 2.
    2:{ cbn [map concat]. by rewrite <- app_assoc. }
    apply map_ext. intros i. f_equal. rewrite length_app, length_le_bytes. lia.
Qed.

(** What [iupdate] writes into the inode's block, [ilock] reads back, for
    every value the fields of a [struct inode] can have; the rest of the block,
    which holds other inodes, is unchanged. *)
Lemma dinode_roundtrip di off d :
  dinode_ok di -> (off + 64 <= length d)%nat ->
  read_dinode (write_dinode di off d) off = di /\
  (forall i, (i < off \/ off + 64 <= i)%nat -> write_dinode di off d !! i = d !! i).
Proof.
  intros [Ht Hmj Hmn Hnl Hsz Had Hlen] Hd. rewrite write_dinode_blit by done.
  pose proof (length_dinode_bytes di Hlen) as Hb. split.
  2:{ intros i Hi. rewrite lookup_blit by lia. by rewrite decide_False by lia. }
  destruct di as [ty mj mn nl sz addrs]. cbn [di_type di_major di_minor di_nlink di_size di_addrs] in *.
  set (bs := dinode_bytes _) in *. unfold read_dinode.
  assert (forall i n, (i + n <= 64)%nat -> slice (blit d off bs) (off + i) n = slice bs i n) as Hs
    by (intros i n Hi; apply slice_blit_in; lia).
  pose proof (Hs 0 2 ltac:(lia))%nat as H0. rewrite Nat.add_0_r in H0.
  unfold get16, get32. rewrite H0, !Hs by lia. f_equal.
  - rewrite (read_field 2 ty 0 [] _ bs eq_refl eq_refl). by apply i16_u16.
  - rewrite (read_field 2 mj 2 (le_bytes 2 ty) _ bs eq_refl eq_refl). by apply i16_u16.
  - rewrite (read_field 2 mn 4 (le_bytes 2 ty ++ le_bytes 2 mj) _ bs eq_refl eq_refl). by apply i16_u16.
  - rewrite (read_field 2 nl 6 (le_bytes 2 ty ++ le_bytes 2 mj ++ le_bytes 2 mn) _ bs eq_refl eq_refl). by apply i16_u16.
  - rewrite (read_field 4 sz 8 (le_bytes 2 ty ++ le_bytes 2 mj ++ le_bytes 2 mn ++ le_bytes 2 nl) _ bs eq_refl eq_refl). by apply (u32_id sz).
  - etransitivity; [|apply (read_addrs addrs (le_bytes 2 ty ++ le_bytes 2 mj ++ le_bytes 2 mn ++ le_bytes 2 nl ++ le_bytes 4 sz) bs Had)].
    2:{ unfold bs, dinode_bytes. cbn [di_type di_major di_minor di_nlink di_size di_addrs]. by rewrite <- !app_assoc. }
    rewrite Hlen. apply map_ext_in. intros i Hi%in_seq. unfold get32.
    rewrite <- Nat.add_assoc, Hs by lia. done.
Qed.

(** ** Paths *)

(** The elements of a path: what the slashes separate, empty strings dropped. *)
Fixpoint split_on (c : Z) (l : list Z) : list (list Z) :=
  match l with
  | [] => [[]]
  | x :: l => if x =? c then [] :: split_on c l
              else match split_on c l with e :: es => (x :: e) :: es | [] => [[x]] end
  end.
Definition elements (path : list Z) : list (list Z) := filter (fun e => e <> []) (split_on slash path).

(** The string in a buffer of [DIRSIZ] bytes, as [namecmp] sees it. *)
Fixpoint upto_zero (l : list Z) : list Z :=
  match l with [] => [] | c :: l => if c =? 0 then [] else c :: upto_zero l end.

Lemma elements_slash path : elements (slash :: path) = elements path.
Proof. reflexivity. Qed.

Lemma elements_skip path : elements (skip_slashes path) = elements path.
Proof.
  induction path as [|c path IH]; [done|]. cbn [skip_slashes].
  destruct (Z.eqb_spec c slash) as [->|]; [|done]. by rewrite IH, elements_slash.
Qed.

Lemma skip_slashes_head path : match skip_slashes path with [] => True | c :: _ => c <> slash end.
Proof. induction path as [|c path IH]; [done|]. cbn. by destruct (Z.eqb_spec c slash). Qed.

Lemma skip_slashes_suffix path : skip_slashes path `suffix_of` path.
Proof. induction path as [|c path IH]; [done|]. cbn. destruct (c =? slash); [by apply suffix_cons_r|done]. Qed.

Lemma span_elem_spec path s rest : span_elem path = (s, rest) ->
  path = s ++ rest /\ slash ∉ s /\ (rest = [] \/ exists r, rest = slash :: r).
Proof.
  revert s. induction path as [|c path IH]; intros s; cbn.
  { intros [= <- <-]. split; [done|]. split; [apply not_elem_of_nil|by left]. }
  destruct (Z.eqb_spec c slash) as [->|Hc].
  { intros [= <- <-]. split; [done|]. split; [apply not_elem_of_nil|right; by eexists]. }
  destruct (span_elem path) as [e r] eqn:E. intros [= <- <-]. destruct (IH e eq_refl) as (-> & Hs & Hr).
  split; [done|]. split; [|done]. rewrite not_elem_of_cons. done.
Qed.

Lemma split_on_span c s rest :
  c ∉ s -> (rest = [] \/ exists r, rest = c :: r) -> exists es,
  split_on c (s ++ rest) = s :: es /\ split_on c rest = [] :: es.
Proof.
  intros Hs Hr. induction s as [|x s IH].
  - destruct Hr as [->|[r ->]]; cbn; [by exists []|]. rewrite Z.eqb_refl. by eexists.
  - rewrite not_elem_of_cons in Hs. destruct Hs as [Hx Hs]. destruct (IH Hs) as (es & E1 & E2).
    exists es. cbn. rewrite (proj2 (Z.eqb_neq x c)) by done. by rewrite E1.
Qed.

Lemma elements_span s rest :
  s <> [] -> slash ∉ s -> (rest = [] \/ exists r, rest = slash :: r) ->
  elements (s ++ rest) = s :: elements rest.
Proof.
  intros Hne Hs Hr. unfold elements. destruct (split_on_span slash s rest Hs Hr) as (es & -> & ->).
  rewrite filter_cons_True by done. by rewrite filter_cons_False by naive_solver.
Qed.

Lemma span_elem_head c p s rest : c <> slash -> span_elem (c :: p) = (s, rest) -> s <> [].
Proof.
  intros Hc. cbn. rewrite (proj2 (Z.eqb_neq c slash)) by done. destruct (span_elem p). by intros [= <- _].
Qed.

(** Leading slashes skipped, a path with no elements is empty. *)
Lemma elements_nil path : elements (skip_slashes path) = [] -> skip_slashes path = [].
Proof.
  pose proof (skip_slashes_head path) as Hh. destruct (skip_slashes path) as [|c p] eqn:E; [done|].
  destruct (span_elem (c :: p)) as [s rest] eqn:Es. pose proof (span_elem_head _ _ _ _ Hh Es) as Hne.
  apply span_elem_spec in Es as (-> & Hs & Hr). by rewrite elements_span.
Qed.

Lemma upto_zero_app s r : Forall (fun c => c <> 0) s -> upto_zero (s ++ 0 :: r) = s.
Proof.
  induction 1 as [|c s Hc _ IH]; [done|]. cbn. by rewrite (proj2 (Z.eqb_neq c 0)), IH.
Qed.

Lemma upto_zero_id s : Forall (fun c => c <> 0) s -> upto_zero s = s.
Proof. induction 1 as [|c s Hc _ IH]; [done|]. cbn. by rewrite (proj2 (Z.eqb_neq c 0)), IH. Qed.

(** The element as [skipelem] leaves it in the buffer. *)
Lemma skipelem_name s name : length name = DIRSIZ -> Forall (fun c => c <> 0) s ->
  let name' := if (DIRSIZ <=? length s)%nat then blit name 0 (take DIRSIZ s)
               else <[length s := 0]> (blit name 0 s) in
  length name' = DIRSIZ /\ upto_zero name' = take DIRSIZ s.
Proof.
  intros Hn Hs. cbv zeta. unfold blit. cbn [take app Nat.add].
  destruct (Nat.leb_spec DIRSIZ (length s)) as [H|H].
  - assert (length (take DIRSIZ s) = DIRSIZ) as Hl by (rewrite length_take; lia).
    rewrite Hl, drop_ge, app_nil_r by lia. split; [done|]. apply upto_zero_id. by apply Forall_take.
  - rewrite take_0, app_nil_l, insert_app_r_alt, Nat.sub_diag by lia.
    destruct (drop (length s) name) as [|x r] eqn:E.
    { apply (f_equal length) in E. rewrite length_drop in E. cbn in E. lia. }
    cbn [list_insert insert]. split.
    + apply (f_equal length) in E. rewrite length_drop in E. rewrite length_app. cbn in *. lia.
    + rewrite take_ge by lia. by apply upto_zero_app.
Qed.

(** [skipelem] takes the first element off a path.  It returns 0 exactly when
    the path has no element; otherwise the buffer holds the first element, cut to
    [DIRSIZ] bytes, what it returns has the remaining elements and is shorter, and
    it is the empty string exactly when that element was the last, which is how
    [namex] recognises the parent. *)
Theorem skipelem_elements path name :
  length name = DIRSIZ -> Forall (fun c => c <> 0) path ->
  match skipelem path name with
  | None => elements path = []
  | Some (rest, name') => exists e,
      elements path = e :: elements rest /\ upto_zero name' = take DIRSIZ e /\
      length name' = DIRSIZ /\ (length rest < length path)%nat /\ (rest = [] <-> elements rest = [])
  end.
Proof.
  intros Hn Hp. rewrite <- elements_skip. unfold skipelem.
  pose proof (skip_slashes_head path) as Hh. pose proof (skip_slashes_suffix path) as Hsuf.
  destruct (skip_slashes path) as [|c p] eqn:E; [done|].
  destruct (span_elem (c :: p)) as [s rest] eqn:Es.
  pose proof (span_elem_head _ _ _ _ Hh Es) as Hne.
  apply span_elem_spec in Es as (Ep & Hs & Hr). rewrite Ep in *.
  assert (Forall (fun c => c <> 0) s) as Hs0.
  { destruct Hsuf as [k ->]. rewrite !Forall_app in Hp. tauto. }
  destruct (skipelem_name s name Hn Hs0) as [Hl Hu].
  exists s. rewrite elements_skip, elements_span by done.
  repeat split; try done.
  - apply suffix_length in Hsuf. rewrite length_app in Hsuf.
    pose proof (suffix_length _ _ (skip_slashes_suffix rest)). destruct s; [done|]. cbn in *. lia.
  - intros E0. rewrite <- elements_skip, E0. done.
  - intros E0. apply elements_nil. by rewrite elements_skip.
Qed.

(** ["///a//bb"] *)
Lemma skipelem_elements_witness :
  skipelem (map Z.of_nat [47; 47; 47; 97; 47; 47; 98; 98]%nat) (replicate DIRSIZ 7) =
    Some ([98; 98], [97; 0] ++ replicate 12 7) /\
  elements (map Z.of_nat [47; 47; 47; 97; 47; 47; 98; 98]%nat) = [[97]; [98; 98]].
Proof.
  pose proof (skipelem_elements (map Z.of_nat [47; 47; 47; 97; 47; 47; 98; 98]%nat) (replicate DIRSIZ 7)
    ltac:(reflexivity) ltac:(repeat constructor; discriminate)) as H.
  split; [reflexivity|]. destruct H as (e & He & _). rewrite He.
  vm_compute in He. injection He as <-. reflexivity.
Defined.
