(* ===== verification/FsRead.v ===== *)
(** Reading file contents (fs.c): [bmap] and [readi] on a file whose blocks are
    allocated; transactions, and one block written in them. *)

From S2P Require Import Prelude Kernel Sched Str Bio BioSpec Log LogCrash Inode Fs.

(** ** The contents of a file *)

(** The block that holds block [bn] of the file. *)
Definition file_block (a : ast) (x : inode) (bn : Z) : Z :=
  if bn <? NDIRECT then default 0 (i_addrs x !! Z.to_nat bn)
  else get32 (a_blk a (default 0 (i_addrs x !! Z.to_nat NDIRECT))) (Z.to_nat (4 * (bn - NDIRECT))).

Definition file_byte (a : ast) (x : inode) (i : Z) : Z :=
  default 0 (a_blk a (file_block a x (i / BSIZE)) !! Z.to_nat (i mod BSIZE)).

Definition file_bytes (a : ast) (x : inode) (off : Z) (n : nat) : list Z :=
  map (fun i => file_byte a x (off + Z.of_nat i)) (seq 0 n).

(** A file, not a device, all of whose blocks are allocated. *)
Record file_ok (a : ast) (x : inode) : Prop := File_ok {
  fk_type : i_type x <> T_DEV;
  fk_dev : i_dev x = ROOTDEV;
  fk_addrs : length (i_addrs x) = 13%nat;
  fk_size : 0 <= i_size x <= MAXFILE * BSIZE;
  fk_block : forall bn, 0 <= bn -> bn * BSIZE < i_size x ->
    file_block a x bn <> 0 /\ in_disk a (file_block a x bn);
  fk_indirect : NDIRECT * BSIZE < i_size x ->
    default 0 (i_addrs x !! Z.to_nat NDIRECT) <> 0 /\ in_disk a (default 0 (i_addrs x !! Z.to_nat NDIRECT)) }.

(** No buffer is held, and the log leaves two free. *)
Definition at_rest (a : ast) : Prop := a_held a = ∅ /\ (size (a_pin a) + 1 < NBUF)%nat.

(** The part of a block that the loop of [readi] copies. *)
Lemma file_chunk a x off m :
  length (a_blk a (file_block a x (off / BSIZE))) = Z.to_nat BSIZE -> 0 <= off ->
  off mod BSIZE + Z.of_nat m <= BSIZE ->
  slice (a_blk a (file_block a x (off / BSIZE))) (Z.to_nat (off mod BSIZE)) m = file_bytes a x off m.
Proof.
  intros Hlen Hoff Hm. apply list_eq. intros i. rewrite lookup_slice. unfold file_bytes. rewrite list_lookup_fmap.
  case_decide as Hi; [|rewrite lookup_seq_ge by lia; done]. rewrite lookup_seq_lt by done. cbn.
  unfold file_byte. unfold BSIZE in *.
  replace ((off + Z.of_nat i) / 512) with (off / 512) by lia.
  replace (Z.to_nat ((off + Z.of_nat i) mod 512)) with (Z.to_nat (off mod 512) + i)%nat by lia.
  destruct (a_blk a (file_block a x (off / 512)) !! (Z.to_nat (off mod 512) + i)%nat) as [v|] eqn:E; [done|].
  apply lookup_ge_None in E. lia.
Qed.

Lemma file_bytes_app a x off m n :
  file_bytes a x off m ++ file_bytes a x (off + Z.of_nat m) n = file_bytes a x off (m + n).
Proof.
  unfold file_bytes. rewrite seq_app, map_app. f_equal. cbn.
  replace (seq m n) with (map (Nat.add m) (seq 0 n)) by (etransitivity; [apply (fmap_add_seq m 0 n)|by rewrite Nat.add_0_r]).
  rewrite map_map. apply map_ext. intros i. f_equal. lia.
Qed.

(** Blocks the transfer still touches. *)
Definition blocks_left (off tot n : Z) : Z :=
  if tot <? n then (off + n - 1) / BSIZE - (off + tot) / BSIZE + 1 else 0.

(** ** Transactions *)

(** A transaction in progress with the blocks [bs] in the log, all of them pinned. *)
Record in_txn (a : ast) (bs : list Z) : Prop := In_txn {
  it_log : log_ok (a_log a) (Z.of_nat (length (a_disk a))) bs;
  it_out : 1 <= lg_outstanding (a_log a);
  it_held : a_held a = ∅;
  it_pin : a_pin a = list_to_set bs }.

(** One block written. *)
Definition put_block (a : ast) (bs : list Z) (b : Z) (d : list Z) : ast :=
  a <| a_blk ::= <[b := d]> |> <| a_pin ::= union {[b]} |> <| a_log ::= log_added b bs |>.

Lemma log_added_start b bs l : lg_start (log_added b bs l) = lg_start l /\ lg_size (log_added b bs l) = lg_size l /\
  lg_outstanding (log_added b bs l) = lg_outstanding l.
Proof. unfold log_added. by case_decide. Qed.

Lemma logged_length b bs : (length (logged b bs) <= S (length bs))%nat.
Proof. unfold logged. case_decide; [lia|]. rewrite length_app. cbn. lia. Qed.

Lemma in_txn_rest a bs : in_txn a bs -> Z.of_nat (length bs) + 1 < lg_size (a_log a) -> at_rest a.
Proof.
  intros [Hl _ Hh Hp] Hsp. split; [done|]. rewrite Hp. pose proof (size_list_to_set_le bs).
  pose proof (lo_len _ _ _ Hl). change LOGSIZE with 30 in *. unfold NBUF. lia.
Qed.

Lemma put_block_txn a bs b d : in_txn a bs -> in_disk a b -> ~ in_log (a_log a) b ->
  Z.of_nat (length bs) + 1 < lg_size (a_log a) -> in_txn (put_block a bs b d) (logged b bs).
Proof.
  intros [Hl Ho Hh Hp] Hb Hnl Hsp. constructor; cbn.
  - apply log_added_ok; [done|done|done|by right].
  - by rewrite (proj2 (proj2 (log_added_start b bs (a_log a)))).
  - done.
  - rewrite Hp. unfold logged. case_decide; set_solver.
Qed.

(** The byte at [i] after a chunk of [src] was stored in its block. *)
Lemma chunk_byte a x src off tot m i :
  let bn := (off + tot) / BSIZE in
  length (a_blk a (file_block a x bn)) = Z.to_nat BSIZE -> 0 <= off -> 0 <= tot -> 0 <= i ->
  (off + tot) mod BSIZE + m <= BSIZE -> 0 <= m /\ (Z.to_nat tot + Z.to_nat m <= length src)%nat ->
  (if i / BSIZE =? bn then
     default 0 (blit (a_blk a (file_block a x bn)) (Z.to_nat ((off + tot) mod BSIZE)) (slice src (Z.to_nat tot) (Z.to_nat m))
       !! Z.to_nat (i mod BSIZE))
   else file_byte a x i) =
  if (off + tot <=? i) && (i <? off + tot + m) then default 0 (src !! Z.to_nat (i - off)) else file_byte a x i.
Proof.
  cbv zeta. intros Hlen Hoff Htot Hi Hm [Hm0 Hsrc]. destruct (Z.eqb_spec (i / BSIZE) ((off + tot) / BSIZE)) as [E|E].
  - rewrite lookup_blit by (rewrite length_slice by done; rewrite Hlen; unfold BSIZE in *; lia).
    rewrite length_slice by done. case_decide as Hd.
    + rewrite lookup_slice, decide_True by lia.
      rewrite (proj2 (Z.leb_le (off + tot) i)), (proj2 (Z.ltb_lt i (off + tot + m))) by (unfold BSIZE in *; lia). cbn [andb].
      do 2 f_equal. unfold BSIZE in *. lia.
    + unfold file_byte. rewrite E. destruct (Z.leb_spec (off + tot) i), (Z.ltb_spec i (off + tot + m)); cbn [andb]; try done.
      exfalso. unfold BSIZE in *. lia.
  - destruct (Z.leb_spec (off + tot) i), (Z.ltb_spec i (off + tot + m)); cbn [andb]; try done.
    exfalso. unfold BSIZE in *. lia.
Qed.

Section Read.
Context (w : world) (me : nat) (pid : Z) `{!fs_ctx w me pid}.
Abbreviation gwp := (gwp w me pid).

Lemma gwp_get_inode ip x a Q : a_ic a !! ip = Some x -> Q x a -> gwp (get_inode ip) a Q.
Proof.
  intros Hx HQ. apply gwp_bind. eapply gwp_get; [intros s ps bufs Hs; apply (rp_ic _ _ _ Hs)|]. by eapply gwp_deref.
Qed.

(** Reading a block and releasing it changes nothing. *)
Lemma gwp_read_block {B} n a (k : list Z -> nat -> M B) Q :
  in_disk a n -> at_rest a ->
  (forall b, length (a_blk a n) = Z.to_nat BSIZE ->
     gwp (k (a_blk a n) b) (a <| a_held := {[n := b]} |>) Q) ->
  gwp (b ← bread ROOTDEV n; d ← get_data b; k d b) a Q.
Proof.
  intros Hn [Hh Hp] Hk. apply gwp_facts. intros _ Hlen. apply gwp_bind. apply (gwp_bread w me pid); [done|by rewrite Hh| |].
  { right. unfold busy. rewrite Hh, dom_empty_L, union_empty_l_L. lia. }
  intros b. apply gwp_bind. unfold get_data. apply gwp_bind.
  eapply (gwp_get_buf w me pid n); [apply lookup_insert_eq|]. intros x Hx _ _. apply gwp_ret. rewrite Hx.
  specialize (Hk b (Hlen n Hn)). destruct a. unfold setter in *. cbn in *. subst. exact Hk.
Qed.

(** Releasing the one block that is held, unchanged since it was read. *)
Lemma gwp_release_clean n b a Q :
  in_disk a n -> at_rest a -> Q tt a ->
  (n ∉ a_pin a -> a_disk a !! Z.to_nat n = Some (a_blk a n)) ->
  gwp (brelse b) (a <| a_held := {[n := b]} |>) Q.
Proof.
  intros Hn [Hh Hp] HQ Hclean. eapply (gwp_brelse w me pid n); [apply lookup_singleton_eq| |].
  - cbn. destruct (decide (n ∈ a_pin a)); [by left|right; auto].
  - destruct a. unfold setter in *. cbn in *. rewrite delete_singleton_eq. by subst.
Qed.

(** [bmap] of an allocated block. *)
Lemma gwp_bmap ip bn x a Q :
  a_ic a !! ip = Some x -> file_ok a x -> at_rest a -> 0 <= bn -> bn * BSIZE < i_size x ->
  Q (file_block a x bn) a -> gwp (bmap ip bn) a Q.
Proof.
  intros Hx Hok Hrest Hbn Hsz HQ. destruct (fk_block _ _ Hok bn Hbn Hsz) as [Hne _]. revert Hne HQ.
  unfold bmap, file_block. pose proof (fk_addrs _ _ Hok) as Hlen. destruct (Z.ltb_spec bn NDIRECT) as [Hd|Hd]; intros Hne HQ.
  - apply gwp_bind. eapply gwp_get_inode; [done|]. apply gwp_bind. unfold NDIRECT in Hd.
    destruct (i_addrs x !! Z.to_nat bn) as [v|] eqn:E; [|apply lookup_ge_None in E; lia].
    eapply gwp_deref; [done|]. cbn in Hne. apply Z.eqb_neq in Hne as E0. change (default 0 (Some v)) with v in HQ. rewrite E0. by apply gwp_ret.
  - assert (NDIRECT * BSIZE < i_size x) as Hind by (unfold NDIRECT, BSIZE in *; lia). destruct (fk_indirect _ _ Hok Hind) as [Hine Hin].
    pose proof (fk_size _ _ Hok) as Hs. unfold MAXFILE in Hs.
    rewrite (proj2 (Z.ltb_lt (bn - NDIRECT) NINDIRECT)) by (unfold NINDIRECT, NDIRECT, BSIZE in *; lia).
    apply gwp_bind. eapply gwp_get_inode; [done|]. apply gwp_bind.
    destruct (i_addrs x !! Z.to_nat NDIRECT) as [v|] eqn:E; [|apply lookup_ge_None in E; change (Z.to_nat NDIRECT) with 12%nat in E; lia].
    eapply gwp_deref; [done|]. change (default 0 (Some v)) with v in *. apply Z.eqb_neq in Hine. rewrite Hine.
    apply gwp_bind, gwp_ret. rewrite (fk_dev _ _ Hok). apply gwp_facts. intros Hclean _.
    apply gwp_read_block; [done|done|]. intros b _. cbv zeta. apply Z.eqb_neq in Hne. rewrite Hne.
    apply gwp_bind, gwp_ret, gwp_bind. apply gwp_release_clean; [done|done|by apply gwp_ret|].
    intros Hnp. apply Hclean; [done|]. unfold busy. destruct Hrest as [-> _]. set_solver.
Qed.

(** The body of the loop of [readi]. *)
Definition readi_body (ip : nat) (x : inode) (n : Z) (st : Z * Z * list Z) : M ((Z * Z * list Z) + list Z) :=
  let '(tot, off, got) := st in
  if n <=? tot then mret (inr got) else
  bno ← bmap ip (off / BSIZE);
  bp ← bread (i_dev x) bno;
  let m := Z.min (n - tot) (BSIZE - off mod BSIZE) in
  d ← get_data bp;
  let got := got ++ slice d (Z.to_nat (off mod BSIZE)) (Z.to_nat m) in
  brelse bp ;;
  mret (inl (tot + m, off + m, got)).

Lemma readi_loop_gwp ip x a off n : a_ic a !! ip = Some x -> file_ok a x -> at_rest a ->
  0 <= off -> off + n <= i_size x -> forall fuel tot Q,
  0 <= tot <= n -> blocks_left off tot n < Z.of_nat fuel ->
  Q (file_bytes a x off (Z.to_nat n)) a ->
  gwp (loop fuel (readi_body ip x n) (tot, off + tot, file_bytes a x off (Z.to_nat tot))) a Q.
Proof.
  intros Hx Hok Hrest Hoff Hsz. induction fuel as [|fuel IH]; intros tot Q Htot Hf HQ.
  { unfold blocks_left, BSIZE in Hf. destruct (tot <? n); lia. }
  cbn [loop]. apply gwp_bind. unfold readi_body at 1. destruct (Z.leb_spec n tot) as [Hle|Hlt].
  { apply gwp_ret, gwp_ret. by replace tot with n by lia. }
  set (bn := (off + tot) / BSIZE). assert (0 <= bn /\ bn * BSIZE < i_size x) as [Hbn1 Hbn2] by (unfold bn, BSIZE; lia).
  destruct (fk_block _ _ Hok bn Hbn1 Hbn2) as [_ Hin]. apply gwp_bind. eapply gwp_bmap; [done..|]. rewrite (fk_dev _ _ Hok). cbv zeta.
  set (m := Z.min (n - tot) (BSIZE - (off + tot) mod BSIZE)).
  assert (0 < m <= n - tot /\ (off + tot) mod BSIZE + m <= BSIZE) as [Hm1 Hm2] by (unfold m, BSIZE; lia).
  apply gwp_facts. intros Hclean _. apply gwp_read_block; [done|done|]. intros b Hlen.
  apply gwp_bind. apply gwp_release_clean; [done|done| |].
  2:{ intros Hnp. apply Hclean; [done|]. unfold busy. destruct Hrest as [-> _]. set_solver. }
  apply gwp_ret. unfold bn. rewrite file_chunk by (done || lia).
  assert (file_bytes a x off (Z.to_nat tot) ++ file_bytes a x (off + tot) (Z.to_nat m) = file_bytes a x off (Z.to_nat (tot + m))) as ->.
  { replace (off + tot) with (off + Z.of_nat (Z.to_nat tot)) by lia. rewrite file_bytes_app. f_equal. lia. }
  rewrite <- Z.add_assoc. apply IH; [lia| |done]. revert Hf. unfold blocks_left. rewrite (proj2 (Z.ltb_lt tot n)) by done.
  destruct (Z.ltb_spec (tot + m) n) as [H|H]; unfold m, BSIZE in *; lia.
Qed.

(** [readi] on a file. *)
Lemma gwp_readi ip x a off n Q :
  a_ic a !! ip = Some x -> file_ok a x -> at_rest a -> 0 <= off -> 0 <= n -> off <= i_size x ->
  off + n < 2 ^ 32 ->
  (let m := Z.min n (i_size x - off) in Q (i32 m, file_bytes a x off (Z.to_nat m)) a) ->
  gwp (readi ip off n) a Q.
Proof.
  intros Hx Hok Hrest Hoff Hn Hs Hov HQ. unfold readi. apply gwp_bind. eapply gwp_get_inode; [done|].
  rewrite (proj2 (Z.eqb_neq (i_type x) T_DEV)) by apply Hok. rewrite u32_id by (unfold is_u32; lia).
  rewrite (proj2 (Z.ltb_ge (i_size x) off)), (proj2 (Z.ltb_ge (off + n) off)) by lia. cbn [orb].
  set (m := if i_size x <? off + n then i_size x - off else n).
  assert (m = Z.min n (i_size x - off)) as Em by (unfold m; destruct (Z.ltb_spec (i_size x) (off + n)); lia).
  rewrite <- Em in HQ. cbn in HQ. apply gwp_bind.
  pose proof (readi_loop_gwp ip x a off m Hx Hok Hrest Hoff ltac:(lia) (S (io_fuel m)) 0) as Hl.
  rewrite Z.add_0_r in Hl. apply Hl; [lia| |by apply gwp_ret].
  unfold blocks_left, io_fuel, BSIZE. destruct (Z.ltb_spec 0 m); lia.
Qed.

End Read.

(** [readi] returns the bytes of the file: on a file whose blocks are
    allocated it returns, for any offset in the file and any count, the number of
    bytes up to the end of the file and exactly those bytes, through the direct
    and the indirect blocks, and the disk and every cached block are as before. *)
Lemma readi_reads w me pid a ip x off n :
  fs_world w me pid a -> a_ic a !! ip = Some x -> file_ok a x -> at_rest a ->
  0 <= off -> 0 <= n -> off <= i_size x -> off + n < 2 ^ 32 ->
  exists w', readi ip off n w =
    Ok (Z.min n (i_size x - off), file_bytes a x off (Z.to_nat (Z.min n (i_size x - off)))) w' /\
    fs_world w' me pid a.
Proof.
  intros Hw Hx Hok Hrest Hoff Hn Hs Hov.
  destruct (gwp_run w me pid (readi ip off n) a
    (fun v a' => v = (i32 (Z.min n (i_size x - off)), file_bytes a x off (Z.to_nat (Z.min n (i_size x - off)))) /\ a' = a) Hw)
    as (v & w' & a' & E & Hw' & -> & ->).
  { intros Hctx. eapply gwp_readi; try done. }
  exists w'. split; [|done]. rewrite E. pose proof (fk_size _ _ Hok) as Hsz. unfold MAXFILE, NDIRECT, NINDIRECT, BSIZE in Hsz.
  rewrite i32_id; [done|]. unfold is_i32. lia.
Qed.
