(* ===== verification/FsAlloc.v ===== *)
(** The block allocator (fs.c): [balloc] and [bfree] on the free bitmap. *)

From S2P Require Import Prelude Kernel Sched Str Bio BioSpec Log LogCrash Inode Fs FsRead.

(** ** The bitmap *)

(** The byte of the bitmap that holds the bit of block [b]. *)
Definition bit_byte (a : ast) (sb : superblock) (b : Z) : Z :=
  default 0 (a_blk a (BBLOCK b sb) !! Z.to_nat (b mod BPB / 8)).

Definition used (a : ast) (sb : superblock) (b : Z) : bool := Z.testbit (bit_byte a sb b) (b mod BPB mod 8).

(** The bitmap is on the disk, and the blocks of the bitmap and of the log are
    marked. *)
Record bitmap_ok (a : ast) (sb : superblock) : Prop := Bitmap_ok {
  bm_size : 0 <= sb_size sb <= Z.of_nat (length (a_disk a));
  bm_start : 0 <= sb_bmapstart sb < 2 ^ 31;
  bm_disk : forall b, 0 <= b < sb_size sb -> in_disk a (BBLOCK b sb) /\ ~ in_log (a_log a) (BBLOCK b sb);
  bm_used : forall b, 0 <= b < sb_size sb ->
    in_log (a_log a) b \/ (exists b', 0 <= b' < sb_size sb /\ b = BBLOCK b' sb) -> used a sb b = true }.

Lemma bit_mask_pow bi : bit_mask bi = 2 ^ (bi mod 8).
Proof. unfold bit_mask. rewrite Z.shiftl_mul_pow2 by lia. lia. Qed.

Lemma land_mask x bi : (Z.land x (bit_mask bi) =? 0) = negb (Z.testbit x (bi mod 8)).
Proof.
  rewrite bit_mask_pow, land_bit by lia. destruct (Z.testbit x (bi mod 8)); [|done].
  apply Z.eqb_neq. apply Z.pow_nonzero; lia.
Qed.

(** Setting or clearing the bit of [b] in the bitmap changes no other bit. *)
Lemma used_put a sb b v a' b' :
  0 <= b -> 0 <= b' -> 0 <= sb_bmapstart sb -> b / BPB + sb_bmapstart sb < 2 ^ 32 -> b' / BPB + sb_bmapstart sb < 2 ^ 32 ->
  (b mod BPB / 8 < Z.of_nat (length (a_blk a (BBLOCK b sb)))) ->
  (forall i, 0 <= i < 8 -> i <> b mod BPB mod 8 -> Z.testbit v i = Z.testbit (bit_byte a sb b) i) ->
  a_blk a' (BBLOCK b' sb) = (<[BBLOCK b sb := <[Z.to_nat (b mod BPB / 8) := v]> (a_blk a (BBLOCK b sb))]> (a_blk a)) (BBLOCK b' sb) ->
  used a' sb b' = if b' =? b then Z.testbit v (b mod BPB mod 8) else used a sb b'.
Proof.
  intros Hb Hb' Hst H32 H32' Hlen Hv E. unfold used, bit_byte. rewrite E.
  assert (BBLOCK b' sb = BBLOCK b sb <-> b' / BPB = b / BPB) as HB.
  { unfold BBLOCK. rewrite !u32_id by (unfold is_u32, BPB, BSIZE in *; lia). lia. }
  destruct (Z.eqb_spec b' b) as [->|Hne].
  { rewrite fn_lookup_insert, list_lookup_insert_eq; [done|]. unfold BPB, BSIZE in *. lia. }
  destruct (decide (BBLOCK b sb = BBLOCK b' sb)) as [Eb|Eb]; [|by rewrite fn_lookup_insert_ne].
  rewrite <- Eb, fn_lookup_insert. destruct (decide (b mod BPB / 8 = b' mod BPB / 8)) as [E8|E8].
  - rewrite E8, list_lookup_insert_eq by (unfold BPB, BSIZE in *; lia). cbn.
    rewrite Hv; [|lia|].
    + unfold bit_byte. by rewrite E8.
    + symmetry in Eb. apply HB in Eb. unfold BPB, BSIZE in *. lia.
  - rewrite list_lookup_insert_ne; [done|]. unfold BPB, BSIZE in *. lia.
Qed.

Lemma lor_mask x bi i : 0 <= i -> Z.testbit (Z.lor x (bit_mask bi)) i = (bi mod 8 =? i) || Z.testbit x i.
Proof.
  intros Hi. rewrite bit_mask_pow, Z.lor_spec, Z.pow2_bits_eqb by lia. apply orb_comm.
Qed.

Lemma ldiff_mask x bi i : 0 <= i -> Z.testbit (Z.ldiff x (bit_mask bi)) i = negb (bi mod 8 =? i) && Z.testbit x i.
Proof.
  intros Hi. rewrite bit_mask_pow, Z.ldiff_spec, Z.pow2_bits_eqb by lia. apply andb_comm.
Qed.

(** ** A transaction in which a block may be held

    [bmap] allocates a block while it holds the file's indirect block. *)
Record txn (a : ast) (bs : list Z) : Prop := Txn {
  tx_log : log_ok (a_log a) (Z.of_nat (length (a_disk a))) bs;
  tx_out : 1 <= lg_outstanding (a_log a);
  tx_pin : a_pin a = list_to_set bs;
  tx_held : (size (a_held a) <= 1)%nat }.

Lemma in_txn_txn a bs : in_txn a bs -> txn a bs.
Proof. intros []. constructor; try done. rewrite it_held. rewrite map_size_empty. lia. Qed.

Lemma txn_in_txn a bs : txn a bs -> a_held a = ∅ -> in_txn a bs.
Proof. by intros []. Qed.

Lemma put_txn a bs b d : txn a bs -> in_disk a b -> ~ in_log (a_log a) b ->
  Z.of_nat (length bs) + 1 < lg_size (a_log a) -> txn (put_block a bs b d) (logged b bs).
Proof.
  intros [Hl Ho Hp Hh] Hb Hnl Hsp. constructor; cbn; [|by rewrite (proj2 (proj2 (log_added_start b bs (a_log a))))| |done].
  - apply log_added_ok; [done|done|done|by right].
  - rewrite Hp. unfold logged. case_decide; set_solver.
Qed.

(** There is a buffer for one more block. *)
Lemma txn_room a bs : txn a bs -> Z.of_nat (length bs) + 1 < lg_size (a_log a) -> (size (busy a) < NBUF)%nat.
Proof.
  intros [Hl _ Hp Hh] Hsp. pose proof (lo_len _ _ _ Hl). change LOGSIZE with 30 in *. unfold busy, NBUF. rewrite size_union_alt.
  pose proof (size_list_to_set_le bs) as H1. rewrite <- Hp in H1.
  pose proof (subseteq_size (a_pin a ∖ dom (a_held a)) (a_pin a) ltac:(set_solver)) as H2.
  rewrite size_dom. lia.
Qed.

Lemma held_back a n (bp : nat) : a_held a !! n = None -> a <| a_held ::= <[n := bp]> |> <| a_held ::= delete n |> = a.
Proof. intros H. destruct a. unfold setter. cbn in *. f_equal. by apply delete_insert_id. Qed.


Section Alloc.
Context (w : world) (me : nat) (pid : Z) `{!fs_ctx w me pid}.
Abbreviation gwp := (gwp w me pid).
Abbreviation sb := (k_sb (w_k w)).

Lemma gwp_get_sb a Q : Q sb a -> gwp (get k_sb) a Q.
Proof. intros HQ. apply (gwp_get w me pid k_sb sb); [by intros|done]. Qed.

(** Changing a held block, logging it and releasing it. *)
Lemma gwp_store_block {B} n bp f a bs (k : M B) Q :
  txn a bs -> a_held a !! n = Some bp -> in_disk a n -> ~ in_log (a_log a) n -> Z.of_nat (length bs) + 1 < lg_size (a_log a) ->
  (length (a_blk a n) = Z.to_nat BSIZE -> length (f (a_blk a n)) = Z.to_nat BSIZE) ->
  gwp k (put_block (a <| a_held ::= delete n |>) bs n (f (a_blk a n))) Q ->
  gwp (set_data bp f ;; log_write bp ;; brelse bp ;; k) a Q.
Proof.
  intros [Hl Ho Hp Hh] Hbp Hn Hnl Hsp Hlen Hk. apply gwp_bind. eapply (gwp_upd_data w me pid n); [done|done|].
  apply gwp_bind. eapply (gwp_log_write w me pid _ bs n); [exact Hl|done|done|done|exact Hsp|exact Ho|].
  apply gwp_bind. eapply (gwp_brelse w me pid n); [done|left; cbn; set_solver|]. exact Hk.
Qed.

(** Reading a block to work on it. *)
Lemma gwp_open_block {B} n a bs (k : nat -> M B) Q :
  txn a bs -> a_held a !! n = None -> in_disk a n -> Z.of_nat (length bs) + 1 < lg_size (a_log a) ->
  (forall bp, length (a_blk a n) = Z.to_nat BSIZE -> gwp (k bp) (a <| a_held ::= <[n := bp]> |>) Q) ->
  gwp (bp ← bread ROOTDEV n; k bp) a Q.
Proof.
  intros Htxn Hh Hn Hsp Hk. apply gwp_facts. intros _ Hlen.
  apply gwp_bind. apply (gwp_bread w me pid); [done|done|right; by eapply txn_room|]. intros bp. apply (Hk bp (Hlen n Hn)).
Qed.

Lemma gwp_get_data n bp a Q : a_held a !! n = Some bp -> Q (a_blk a n) a -> gwp (get_data bp) a Q.
Proof.
  intros Hh HQ. unfold get_data. apply gwp_bind. eapply (gwp_get_buf w me pid n); [done|].
  intros x Hx _ _. apply gwp_ret. rewrite Hx. exact HQ.
Qed.

(** Releasing a block that was only read. *)
Lemma gwp_close_block n bp a Q : a_held a !! n = None -> in_disk a n ->
  (n ∉ busy a -> a_disk a !! Z.to_nat n = Some (a_blk a n)) ->
  Q tt a -> gwp (brelse bp) (a <| a_held ::= <[n := bp]> |>) Q.
Proof.
  intros Hh Hn Hclean HQ. eapply (gwp_brelse w me pid n); [apply lookup_insert_eq| |by rewrite held_back].
  cbn. destruct (decide (n ∈ a_pin a)); [by left|right; apply Hclean]. unfold busy. rewrite not_elem_of_union, not_elem_of_dom. done.
Qed.

Lemma gwp_bzero a bs n Q :
  txn a bs -> a_held a !! n = None -> in_disk a n -> ~ in_log (a_log a) n -> Z.of_nat (length bs) + 1 < lg_size (a_log a) ->
  Q tt (put_block a bs n (replicate (Z.to_nat BSIZE) 0)) -> gwp (bzero ROOTDEV n) a Q.
Proof.
  intros Htxn Hh Hn Hnl Hsp HQ. unfold bzero. pose proof (lo_sz _ _ _ (tx_log _ _ Htxn)) as Hsz.
  rewrite u32_id by (unfold is_u32, in_disk in *; lia). apply gwp_facts. intros _ Hlen.
  apply gwp_bind. apply (gwp_bread w me pid); [done|done|right; by eapply txn_room|]. intros bp.
  destruct Htxn as [Hl Ho Hp _]. apply gwp_bind. eapply (gwp_upd_data w me pid n); [apply lookup_insert_eq|intros _; by rewrite length_replicate|].
  apply gwp_bind. eapply (gwp_log_write w me pid _ bs n); [exact Hl|apply lookup_insert_eq|done|done|exact Hsp|exact Ho|].
  eapply (gwp_brelse w me pid n); [apply lookup_insert_eq|left; cbn; set_solver|].
  match goal with |- Q tt ?q => assert (q = put_block a bs n (replicate (Z.to_nat BSIZE) 0)) as ->; [|exact HQ] end.
  destruct a. unfold put_block, setter. cbn in *. f_equal. by apply delete_insert_id.
Qed.

(** Where the bits of a stretch of the bitmap are. *)
Lemma bit_pos b bi : 0 <= b -> b mod BPB = 0 -> 0 <= bi < BPB ->
  (b + bi) / BPB = b / BPB /\ (b + bi) mod BPB = bi /\ BBLOCK (b + bi) sb = BBLOCK b sb.
Proof.
  intros Hb Hm Hbi. assert ((b + bi) / BPB = b / BPB) as E by (unfold BPB, BSIZE in *; lia).
  split; [done|]. split; [unfold BPB, BSIZE in *; lia|]. unfold BBLOCK. by rewrite E.
Qed.

(** The state [balloc] leaves. *)
Definition allocated (a a' : ast) (b : Z) : Prop :=
  bitmap_ok a' sb /\ lg_size (a_log a') = lg_size (a_log a) /\
  0 <= b < sb_size sb /\ used a sb b = false /\ a_blk a' b = replicate (Z.to_nat BSIZE) 0 /\
  (forall b', 0 <= b' < sb_size sb -> used a' sb b' = (b' =? b) || used a sb b') /\
  (forall n, n <> b -> n <> BBLOCK b sb -> a_blk a' n = a_blk a n) /\
  a_held a' = a_held a /\ a_ic a' = a_ic a /\ a_disk a' = a_disk a /\ lg_start (a_log a') = lg_start (a_log a).

(** The blocks that are held are in use, and not of the bitmap. *)
Definition held_used (a : ast) : Prop := forall n, is_Some (a_held a !! n) ->
  used a sb n = true /\ forall b, 0 <= b < sb_size sb -> n <> BBLOCK b sb.

Lemma in_txn_used a bs : in_txn a bs -> held_used a.
Proof. intros H n. rewrite (it_held _ _ H). by intros []. Qed.

Lemma held_used_free a b : held_used a -> used a sb b = false -> a_held a !! b = None.
Proof. intros H Hb. apply eq_None_not_Some. intros Hs. destruct (H b Hs). congruence. Qed.

Lemma held_used_bitmap a b : held_used a -> 0 <= b < sb_size sb -> a_held a !! BBLOCK b sb = None.
Proof. intros H Hb. apply eq_None_not_Some. intros Hs. by apply (proj2 (H _ Hs) b). Qed.

Lemma free_not_meta a b : bitmap_ok a sb -> 0 <= b < sb_size sb -> used a sb b = false ->
  ~ in_log (a_log a) b /\ forall b', 0 <= b' < sb_size sb -> b <> BBLOCK b' sb.
Proof.
  intros Hbm Hb Hu. split.
  - intros H. rewrite (bm_used _ _ Hbm b Hb) in Hu; [done|by left].
  - intros b' Hb' ->. rewrite (bm_used _ _ Hbm _ Hb) in Hu; [done|right; eauto].
Qed.

(** A state with the same disk and log layout, and at least the marks of the log
    and of the bitmap. *)
Lemma bitmap_ok_keep a a' : bitmap_ok a sb -> length (a_disk a') = length (a_disk a) ->
  lg_start (a_log a') = lg_start (a_log a) -> lg_size (a_log a') = lg_size (a_log a) ->
  (forall b, 0 <= b < sb_size sb -> in_log (a_log a) b \/ (exists b', 0 <= b' < sb_size sb /\ b = BBLOCK b' sb) ->
     used a sb b = true -> used a' sb b = true) -> bitmap_ok a' sb.
Proof.
  intros [H1 H2 H3 H4] Ed E1 E2 Hu. constructor.
  - by rewrite Ed.
  - done.
  - intros b Hb. destruct (H3 b Hb). unfold in_disk, in_log in *. rewrite Ed, E1, E2. by split.
  - intros b Hb Hm. assert (in_log (a_log a) b \/ (exists b', 0 <= b' < sb_size sb /\ b = BBLOCK b' sb)) as Hm'.
    { unfold in_log in *. by rewrite E1, E2 in Hm. }
    apply Hu; auto.
Qed.

(** Marking the block and zeroing it. *)
Lemma balloc_found a bs b bp (Q : option Z -> ast -> Prop) :
  txn a bs -> held_used a -> bitmap_ok a sb -> 0 <= b < sb_size sb -> used a sb b = false ->
  Z.of_nat (length bs) + 2 < lg_size (a_log a) -> length (a_blk a (BBLOCK b sb)) = Z.to_nat BSIZE ->
  (forall a' bs', txn a' bs' -> (length bs' <= length bs + 2)%nat -> allocated a a' b -> Q (Some b) a') ->
  gwp (set_data bp (<[Z.to_nat (b mod BPB / 8) := Z.lor (bit_byte a sb b) (bit_mask (b mod BPB))]>) ;;
       log_write bp ;; brelse bp ;; bzero ROOTDEV b ;; mret (Some b)) (a <| a_held ::= <[BBLOCK b sb := bp]> |>) Q.
Proof.
  intros Htxn Hhu Hbm Hb Hu Hsp Hlen HQ. destruct (free_not_meta a b Hbm Hb Hu) as [Hnl Hnb].
  destruct (bm_disk _ _ Hbm b Hb) as [Hin Hbl]. set (v := Z.lor (bit_byte a sb b) (bit_mask (b mod BPB))).
  pose proof (held_used_bitmap a b Hhu Hb) as Hhb. set (q := a <| a_held ::= _ |>).
  assert (log_ok (a_log q) (Z.of_nat (length (a_disk q))) bs) as Hlq by apply Htxn.
  apply gwp_bind. eapply (gwp_upd_data w me pid (BBLOCK b sb)); [apply lookup_insert_eq|intros _; by rewrite length_insert|].
  apply gwp_bind. eapply (gwp_log_write w me pid _ bs (BBLOCK b sb)); [exact Hlq|apply lookup_insert_eq|done|done|cbn; lia|apply Htxn|].
  apply gwp_bind. eapply (gwp_brelse w me pid (BBLOCK b sb)); [apply lookup_insert_eq|left; cbn; set_solver|].
  set (a1 := put_block a bs (BBLOCK b sb) (<[Z.to_nat (b mod BPB / 8) := v]> (a_blk a (BBLOCK b sb)))).
  match goal with |- _ _ _ _ _ ?z _ => replace z with a1 end.
  2:{ unfold a1, q. destruct a. unfold put_block, setter. cbn in *. f_equal. symmetry. by apply delete_insert_id. }
  assert (txn a1 (logged (BBLOCK b sb) bs)) as Htxn1 by (apply put_txn; (done || lia)).
  assert (in_disk a1 b) as Hin1 by (pose proof (bm_size _ _ Hbm); unfold in_disk, a1; cbn; lia).
  pose proof (logged_length (BBLOCK b sb) bs) as Hll.
  assert (~ in_log (a_log a1) b) as Hnl1.
  { unfold in_log, a1, put_block. cbn. by rewrite (proj1 (log_added_start _ _ _)), (proj1 (proj2 (log_added_start _ _ _))). }
  assert (lg_size (a_log a1) = lg_size (a_log a)) as Els by (unfold a1, put_block; cbn; apply log_added_start).
  apply gwp_bind. eapply gwp_bzero; [done|by apply (held_used_free a)|done|done|rewrite Els; lia|]. apply gwp_ret.
  pose proof (logged_length b (logged (BBLOCK b sb) bs)) as Hll2.
  apply (HQ _ (logged b (logged (BBLOCK b sb) bs))); [apply put_txn; (done || rewrite Els; lia)|lia|].
  assert (lg_size (a_log (put_block a1 (logged (BBLOCK b sb) bs) b (replicate (Z.to_nat BSIZE) 0))) = lg_size (a_log a) /\
    lg_start (a_log (put_block a1 (logged (BBLOCK b sb) bs) b (replicate (Z.to_nat BSIZE) 0))) = lg_start (a_log a)) as [Es1 Es2].
  { unfold a1, put_block. cbn. by rewrite !(proj1 (proj2 (log_added_start _ _ _))), !(proj1 (log_added_start _ _ _)). }
  assert (forall b', 0 <= b' < sb_size sb -> used (put_block a1 (logged (BBLOCK b sb) bs) b (replicate (Z.to_nat BSIZE) 0)) sb b' =
    (b' =? b) || used a sb b') as Hused.
  { intros b' Hb'. destruct (bm_disk _ _ Hbm b' Hb') as [Hin' _]. pose proof (lo_sz _ _ _ (tx_log _ _ Htxn)) as Hsz.
    pose proof (bm_size _ _ Hbm). pose proof (bm_start _ _ Hbm).
    rewrite (used_put a sb b v); [|lia|lia|lia|unfold BPB, BSIZE; lia|unfold BPB, BSIZE; lia|..].
    + destruct (Z.eqb_spec b' b); cbn; [|done]. subst v. rewrite lor_mask by lia. by rewrite Z.eqb_refl.
    + rewrite Hlen. unfold BPB, BSIZE. lia.
    + intros i Hi Hne. unfold v. rewrite lor_mask by lia. by rewrite (proj2 (Z.eqb_neq _ _)) by congruence.
    + cbn. rewrite fn_lookup_insert_ne by (by apply Hnb). done. }
  split; [|split; [done|]].
  { apply (bitmap_ok_keep a); [done|done|done|done|]. intros b' Hb' _ H. by rewrite Hused, H, orb_true_r. }
  split; [done|]. split; [done|]. split; [cbn; by rewrite fn_lookup_insert|]. split; [done|].
  split; [|done]. intros n Hn1 Hn2. cbn. by rewrite !fn_lookup_insert_ne by congruence.
Qed.

Lemma elem_bits b bi : bi ∈ bitmap_bits sb b <-> 0 <= bi < BPB /\ b + bi < sb_size sb.
Proof.
  unfold bitmap_bits. rewrite list_elem_of_fmap. split.
  - intros (i & -> & Hi%elem_of_seq). lia.
  - intros H. exists (Z.to_nat bi). split; [lia|]. apply elem_of_seq. lia.
Qed.

Lemma elem_starts b : b ∈ bitmap_starts sb -> 0 <= b /\ b mod BPB = 0.
Proof.
  unfold bitmap_starts. rewrite list_elem_of_fmap. intros (i & -> & _). unfold BPB, BSIZE. lia.
Qed.

Lemma starts_elem b : 0 <= b < sb_size sb -> b - b mod BPB ∈ bitmap_starts sb.
Proof.
  intros Hb. unfold bitmap_starts. apply list_elem_of_fmap. exists (Z.to_nat (b / BPB)). unfold BPB, BSIZE in *.
  split; [lia|]. apply elem_of_seq. lia.
Qed.

(** The bits of one block of the bitmap. *)
Lemma balloc_bits a bs b bp (Q : option Z -> ast -> Prop) :
  txn a bs -> held_used a -> bitmap_ok a sb -> b ∈ bitmap_starts sb -> Z.of_nat (length bs) + 2 < lg_size (a_log a) ->
  length (a_blk a (BBLOCK b sb)) = Z.to_nat BSIZE ->
  (forall c a' bs', txn a' bs' -> (length bs' <= length bs + 2)%nat -> allocated a a' c -> Q (Some c) a') ->
  ((forall bi, bi ∈ bitmap_bits sb b -> used a sb (b + bi) = true) -> Q None (a <| a_held ::= <[BBLOCK b sb := bp]> |>)) ->
  gwp (find_each (bitmap_bits sb b) (fun bi =>
      d ← get_data bp;
      x ← deref (d !! Z.to_nat (bi / 8));
      if Z.land x (bit_mask bi) =? 0 then
        set_data bp (<[Z.to_nat (bi / 8) := Z.lor x (bit_mask bi)]>) ;;
        log_write bp ;;
        brelse bp ;;
        bzero ROOTDEV (b + bi) ;;
        mret (Some (b + bi))
      else mret None)) (a <| a_held ::= <[BBLOCK b sb := bp]> |>) Q.
Proof.
  intros Htxn Hhu Hbm Hb Hsp Hlen HQ HN. apply elem_starts in Hb as [Hb0 Hbm0].
  apply (gwp_find_each w me pid _ _ (fun pre a' => a' = a <| a_held ::= <[BBLOCK b sb := bp]> |> /\
    forall bi, bi ∈ pre -> used a sb (b + bi) = true)).
  - split; [done|]. intros bi H. by apply not_elem_of_nil in H.
  - intros pre bi post a' E [-> Hpre].
    assert (0 <= bi < BPB /\ b + bi < sb_size sb) as [Hbi Hbs] by (apply elem_bits; rewrite E; set_solver).
    destruct (bit_pos b bi Hb0 Hbm0 Hbi) as (_ & Em & EB).
    apply gwp_bind. eapply (gwp_get_data (BBLOCK b sb)); [apply lookup_insert_eq|]. change (a_blk (a <| a_held ::= _ |>)) with (a_blk a). apply gwp_bind.
    destruct (a_blk a (BBLOCK b sb) !! Z.to_nat (bi / 8)) as [x|] eqn:Ex.
    2:{ apply lookup_ge_None in Ex. unfold BPB, BSIZE in *. lia. }
    eapply gwp_deref; [done|]. assert (bit_byte a sb (b + bi) = x) as Exb by (unfold bit_byte; by rewrite EB, Em, Ex).
    rewrite land_mask. destruct (Z.testbit x (bi mod 8)) eqn:Et; cbn [negb].
    + apply gwp_ret. split; [done|]. intros bj Hj. apply elem_of_app in Hj as [Hj|Hj]; [by apply Hpre|]. apply list_elem_of_singleton in Hj as ->.
      unfold used. by rewrite Exb, Em.
    + pose proof (fun Q' => balloc_found a bs (b + bi) bp Q' Htxn Hhu Hbm ltac:(lia)) as Hf. rewrite EB, Em, Exb in Hf. apply Hf; try done.
      * unfold used. by rewrite Exb, Em.
      * intros a' bs'. apply HQ.
  - intros a' [-> Hall]. by apply HN.
Qed.

Lemma gwp_balloc a bs Q :
  txn a bs -> held_used a -> bitmap_ok a sb -> Z.of_nat (length bs) + 2 < lg_size (a_log a) ->
  (exists b, 0 <= b < sb_size sb /\ used a sb b = false) ->
  (forall a' bs' b, txn a' bs' -> (length bs' <= length bs + 2)%nat -> allocated a a' b -> Q b a') -> gwp (balloc ROOTDEV) a Q.
Proof.
  intros Htxn Hhu Hbm Hsp (b0 & Hb0 & Hu0) HQ. unfold balloc. apply gwp_bind, gwp_get_sb, gwp_bind.
  apply (gwp_find_each w me pid _ _ (fun pre a' => a' = a /\
    forall b bi, b ∈ pre -> bi ∈ bitmap_bits sb b -> used a sb (b + bi) = true)).
  - split; [done|]. intros b bi H. by apply not_elem_of_nil in H.
  - intros pre b post a' E [-> Hpre]. assert (b ∈ bitmap_starts sb) as Hb by (rewrite E; set_solver).
    pose proof (elem_starts b Hb) as [Hb1 Hb2].
    assert (b < sb_size sb) as Hlt.
    { unfold bitmap_starts in Hb. apply list_elem_of_fmap in Hb as (i & -> & Hi%elem_of_seq). unfold BPB, BSIZE in *. lia. }
    destruct (bm_disk _ _ Hbm b ltac:(lia)) as [Hin _]. apply gwp_facts. intros Hclean _.
    pose proof (held_used_bitmap a b Hhu ltac:(lia)) as Hhb.
    eapply gwp_open_block; [done|done|done|lia|]. intros bp Hlen. apply gwp_bind. eapply balloc_bits; try done.
    + intros c a' bs' Ht Hl Ha. apply gwp_ret, gwp_ret. by eapply HQ.
    + intros Hall. apply gwp_bind. apply gwp_close_block; [done|done|by apply Hclean|].
      apply gwp_ret. split; [done|]. intros b1 bi H Hbi. apply elem_of_app in H as [H|H]; [by eapply Hpre|].
      apply list_elem_of_singleton in H as ->. by apply Hall.
  - intros a' [-> Hall]. exfalso. specialize (Hall _ (b0 mod BPB) (starts_elem b0 Hb0)).
    replace (b0 - b0 mod BPB + b0 mod BPB) with b0 in Hall by lia. rewrite Hall in Hu0; [done|].
    apply elem_bits. unfold BPB, BSIZE in *. lia.
Qed.

(** [bfree] of a block in use. *)
Lemma gwp_bfree a bs b Q :
  in_txn a bs -> bitmap_ok a sb -> Z.of_nat (length bs) + 1 < lg_size (a_log a) ->
  0 <= b < sb_size sb -> used a sb b = true ->
  (forall a' bs', in_txn a' bs' -> (forall b', 0 <= b' < sb_size sb -> used a' sb b' = negb (b' =? b) && used a sb b') ->
     (forall n, n <> BBLOCK b sb -> a_blk a' n = a_blk a n) -> Q tt a') ->
  gwp (bfree ROOTDEV b) a Q.
Proof.
  intros Htxn Hbm Hsp Hb Hu HQ. unfold bfree. apply gwp_bind, gwp_get_sb.
  destruct (bm_disk _ _ Hbm b Hb) as [Hin Hbl]. apply in_txn_txn in Htxn as Ht0.
  eapply gwp_open_block; [done|by rewrite (it_held _ _ Htxn)|done|done|]. intros bp Hlen. cbv zeta.
  apply gwp_bind. eapply (gwp_get_data (BBLOCK b sb)); [apply lookup_insert_eq|]. change (a_blk (a <| a_held ::= _ |>)) with (a_blk a). apply gwp_bind.
  destruct (a_blk a (BBLOCK b sb) !! Z.to_nat (b mod BPB / 8)) as [x|] eqn:Ex.
  2:{ apply lookup_ge_None in Ex. unfold BPB, BSIZE in *. lia. }
  eapply gwp_deref; [done|]. assert (bit_byte a sb b = x) as Exb by (unfold bit_byte; by rewrite Ex).
  rewrite land_mask. unfold used in Hu. rewrite Exb in Hu. rewrite Hu. cbn [negb].
  set (v := Z.ldiff x (bit_mask (b mod BPB))).
  apply gwp_bind. eapply (gwp_upd_data w me pid (BBLOCK b sb)); [apply lookup_insert_eq|intros _; by rewrite length_insert|].
  apply gwp_bind. eapply (gwp_log_write w me pid _ bs (BBLOCK b sb)); [apply Ht0|apply lookup_insert_eq|done|done|exact Hsp|apply Ht0|].
  eapply (gwp_brelse w me pid (BBLOCK b sb)); [apply lookup_insert_eq|left; cbn; set_solver|].
  match goal with |- Q tt ?z => replace z with (put_block a bs (BBLOCK b sb) (<[Z.to_nat (b mod BPB / 8) := v]> (a_blk a (BBLOCK b sb)))) end.
  2:{ pose proof (it_held _ _ Htxn). destruct a. unfold put_block, setter. cbn in *. f_equal. symmetry. apply delete_insert_id. by subst. }
  apply (HQ _ (logged (BBLOCK b sb) bs)).
  - by apply put_block_txn.
  - intros b' Hb'. pose proof (bm_size _ _ Hbm). pose proof (bm_start _ _ Hbm). pose proof (lo_sz _ _ _ (it_log _ _ Htxn)).
      rewrite (used_put a sb b v); [|lia|lia|lia|unfold BPB, BSIZE; lia|unfold BPB, BSIZE; lia| | |done].
      + destruct (Z.eqb_spec b' b); cbn; [|done]. subst v. rewrite ldiff_mask by lia. by rewrite Z.eqb_refl.
      + rewrite Hlen. unfold BPB, BSIZE. lia.
      + intros i Hi Hne. unfold v. rewrite ldiff_mask by lia. rewrite (proj2 (Z.eqb_neq _ _)) by congruence. by rewrite Exb.
  - intros n Hn. cbn. by rewrite fn_lookup_insert_ne by congruence.
Qed.

End Alloc.

(** C26. Allocation of a block.  In a transaction with room for two more blocks in the
    log, and with a free block on the disk, [balloc] does not panic: it returns a
    block that was free, marks it and no other block in the bitmap, fills it with
    zeros, changes no other block, and the bitmap is well formed again. *)
Theorem balloc_allocates w me pid a bs :
  let sb := k_sb (w_k w) in
  fs_world w me pid a -> in_txn a bs -> bitmap_ok a sb -> Z.of_nat (length bs) + 2 < lg_size (a_log a) ->
  (exists b, 0 <= b < sb_size sb /\ used a sb b = false) ->
  exists b w' a' bs', balloc ROOTDEV w = Ok b w' /\ fs_world w' me pid a' /\ in_txn a' bs' /\ bitmap_ok a' sb /\
    0 <= b < sb_size sb /\ used a sb b = false /\ a_blk a' b = replicate (Z.to_nat BSIZE) 0 /\
    (forall b', 0 <= b' < sb_size sb -> used a' sb b' = (b' =? b) || used a sb b') /\
    (forall n, n <> b -> n <> BBLOCK b sb -> a_blk a' n = a_blk a n).
Proof.
  intros sb Hw Htxn Hbm Hsp Hfree.
  destruct (gwp_run w me pid (balloc ROOTDEV) a (fun b a' => exists bs', in_txn a' bs' /\ allocated w a a' b) Hw)
    as (b & w' & a' & E & Hw' & bs' & Ht & Hbm' & _ & H).
  { intros Hctx. eapply gwp_balloc; [done|by apply in_txn_txn|by eapply in_txn_used|done|done|done|].
    intros a' bs' b Ht _ Ha. exists bs'. split; [|done]. apply txn_in_txn; [done|]. destruct Ha as (_ & _ & _ & _ & _ & _ & _ & -> & _). apply Htxn. }
  exists b, w', a', bs'. naive_solver.
Qed.

(** Freeing undoes allocating.  With room in the log, [balloc] followed by [bfree]
    of the block it returned runs without panic and leaves every bit of the bitmap
    as it was, and every block but the bitmap's and the one allocated. *)
Theorem balloc_bfree w me pid a bs :
  let sb := k_sb (w_k w) in
  fs_world w me pid a -> in_txn a bs -> bitmap_ok a sb -> Z.of_nat (length bs) + 3 < lg_size (a_log a) ->
  (exists b, 0 <= b < sb_size sb /\ used a sb b = false) ->
  exists w' a' b, (b ← balloc ROOTDEV; bfree ROOTDEV b ;; mret b) w = Ok b w' /\ fs_world w' me pid a' /\
    0 <= b < sb_size sb /\ used a sb b = false /\
    (forall b', 0 <= b' < sb_size sb -> used a' sb b' = used a sb b') /\
    (forall n, n <> b -> n <> BBLOCK b sb -> a_blk a' n = a_blk a n).
Proof.
  intros sb Hw Htxn Hbm Hsp Hfree.
  destruct (gwp_run w me pid (b ← balloc ROOTDEV; bfree ROOTDEV b ;; mret b) a (fun b a' =>
      0 <= b < sb_size sb /\ used a sb b = false /\ (forall b', 0 <= b' < sb_size sb -> used a' sb b' = used a sb b') /\
      (forall n, n <> b -> n <> BBLOCK b sb -> a_blk a' n = a_blk a n)) Hw) as (b & w' & a' & E & Hw' & H).
  2:{ by exists w', a', b. }
  intros Hctx. apply gwp_bind. eapply gwp_balloc; [done|by apply in_txn_txn|by eapply in_txn_used|done|lia|done|].
  intros a1 bs1 b Ht1 Hl1 (Hbm1 & Els & Hb & Hu & _ & Hu1 & Hblk1 & Eh & _). apply gwp_bind.
  eapply gwp_bfree; [done|apply txn_in_txn; [done|rewrite Eh; apply Htxn]|done|rewrite Els; lia|done|by rewrite Hu1, Z.eqb_refl|].
  intros a2 bs2 Ht2 Hu2 Hblk2. apply gwp_ret. split; [done|]. split; [done|]. split.
  - intros b' Hb'. rewrite Hu2, Hu1 by done. destruct (Z.eqb_spec b' b) as [->|]; [symmetry; exact Hu|done].
  - intros n H1 H2. rewrite Hblk2, Hblk1 by done. done.
Qed.

(** ** A disk to evaluate the theorems on

    The machine of LogCrash.v with blocks 0 to 8 marked in its bitmap, block 8. *)

Definition demo_bitmap_disk : list (list Z) :=
  <[8%nat := [255; 1] ++ replicate (Z.to_nat BSIZE - 2) 0]> demo_disk.

Definition demo_bitmap_world : world := demo_world demo_log demo_bitmap_disk.

Definition demo_bitmap_ast : ast := boot_ast demo_bitmap_world.

Lemma demo_bitmap_fs : fs_world demo_bitmap_world O 1 demo_bitmap_ast.
Proof.
  apply (booted_world _ _ _ demo_bitmap_disk), demo_booted; [done|]. apply (bool_decide_unpack _). vm_compute. exact I.
Qed.

Lemma demo_bitmap_txn : in_txn demo_bitmap_ast [].
Proof. constructor; [|cbn; lia|done|done]. constructor; try done; try (cbn; lia). Qed.

Lemma demo_bitmap_ok : bitmap_ok demo_bitmap_ast (k_sb (w_k demo_bitmap_world)).
Proof.
  assert (forall b, 0 <= b < 12 -> BBLOCK b (k_sb (w_k demo_bitmap_world)) = 8) as HB.
  { intros b Hb. unfold BBLOCK, u32. replace (b / BPB) with 0 by (unfold BPB, BSIZE; lia). reflexivity. }
  constructor; cbn [sb_size k_sb w_k demo_bitmap_world demo_world demo_kstate].
  - split; vm_compute; discriminate.
  - split; [vm_compute; discriminate|vm_compute; reflexivity].
  - intros b Hb. change (sb_size _) with 12 in Hb. rewrite HB by done. split; [by split|]. intros [_ H]. by vm_compute in H.
  - intros b Hb Hm. change (sb_size _) with 12 in *.
    assert (0 <= b <= 8) as Hb8.
    { destruct Hm as [H|(b' & Hb' & ->)]; [|by rewrite HB]. unfold in_log in H. cbn in H. lia. }
    assert (Forall (fun b => used demo_bitmap_ast (k_sb (w_k demo_bitmap_world)) b = true) (map Z.of_nat (seq 0 9))) as Hall.
    { apply (bool_decide_unpack _). vm_compute. exact I. }
    rewrite Forall_forall in Hall. apply Hall. apply list_elem_of_fmap. exists (Z.to_nat b).
    split; [lia|]. apply elem_of_seq. lia.
Qed.

Lemma demo_free : 0 <= 9 < sb_size (k_sb (w_k demo_bitmap_world)) /\
  used demo_bitmap_ast (k_sb (w_k demo_bitmap_world)) 9 = false.
Proof. split; [split; vm_compute; (discriminate || reflexivity)|vm_compute; reflexivity]. Qed.

Lemma balloc_allocates_witness : exists b w' a', balloc ROOTDEV demo_bitmap_world = Ok b w' /\
  fs_world w' O 1 a' /\ a_blk a' b = replicate (Z.to_nat BSIZE) 0.
Proof.
  destruct (balloc_allocates demo_bitmap_world O 1 demo_bitmap_ast [] demo_bitmap_fs demo_bitmap_txn demo_bitmap_ok
    ltac:(vm_compute; reflexivity)) as (b & w' & a' & bs' & E & Hw & _ & _ & _ & _ & Hz & _).
  - exists 9. exact demo_free.
  - exists b, w', a'. split; [exact E|]. split; [exact Hw|exact Hz].
Defined.

Lemma balloc_bfree_witness : exists w' a' b, (b ← balloc ROOTDEV; bfree ROOTDEV b ;; mret b) demo_bitmap_world = Ok b w' /\
  fs_world w' O 1 a' /\ used a' (k_sb (w_k demo_bitmap_world)) 9 = false.
Proof.
  destruct (balloc_bfree demo_bitmap_world O 1 demo_bitmap_ast [] demo_bitmap_fs demo_bitmap_txn demo_bitmap_ok
    ltac:(vm_compute; reflexivity)) as (w' & a' & b & E & Hw & _ & _ & Hu & _).
  - exists 9. exact demo_free.
  - exists w', a', b. split; [exact E|]. split; [exact Hw|].
    transitivity (used demo_bitmap_ast (k_sb (w_k demo_bitmap_world)) 9); [apply Hu|]; apply demo_free.
Defined.
