(* ===== verification/FsGrow.v ===== *)
(** Writing to files (fs.c): [bmap] that allocates the blocks it does not find,
    [iupdate], and [writei], which overwrites, extends a file, or both. *)

From S2P Require Import Prelude Kernel Sched Str Bio BioSpec Log LogCrash Inode Fs FsSpec FsRead FsAlloc.

(** ** Files that may grow *)

(** The address of the indirect block, and the one of block [bn] of the file; 0 for a
    block that the file does not have. *)
Definition ind (x : inode) : Z := default 0 (i_addrs x !! Z.to_nat NDIRECT).

Definition faddr (a : ast) (x : inode) (bn : Z) : Z :=
  if bn <? NDIRECT then default 0 (i_addrs x !! Z.to_nat bn)
  else if ind x =? 0 then 0 else get32 (a_blk a (ind x)) (Z.to_nat (4 * (bn - NDIRECT))).

(** A block that is in use and is neither of the log nor of the bitmap. *)
Record own_block (sb : superblock) (a : ast) (v : Z) : Prop := Own_block {
  ob_range : 0 < v < sb_size sb;
  ob_used : used a sb v = true;
  ob_log : ~ in_log (a_log a) v;
  ob_bitmap : forall b, 0 <= b < sb_size sb -> v <> BBLOCK b sb }.

(** A file whose first [sz] bytes are allocated: its blocks are distinct, and none is
    its indirect block or the block of its inode. *)
Record file_inv (sb : superblock) (a : ast) (x : inode) (sz : Z) : Prop := File_inv {
  g_type : i_type x <> T_DEV;
  g_dev : i_dev x = ROOTDEV;
  g_addrs : length (i_addrs x) = 13%nat;
  g_size : 0 <= sz <= MAXFILE * BSIZE;
  g_boot : used a sb 0 = true;
  g_iblock : own_block sb a (IBLOCK (i_inum x) sb);
  g_in : forall bn, 0 <= bn -> bn * BSIZE < sz -> faddr a x bn <> 0;
  g_own : forall bn, 0 <= bn < MAXFILE -> faddr a x bn <> 0 -> own_block sb a (faddr a x bn);
  g_ind : ind x <> 0 -> own_block sb a (ind x);
  g_inj : forall bn bn', 0 <= bn < MAXFILE -> 0 <= bn' < MAXFILE -> faddr a x bn <> 0 ->
    faddr a x bn = faddr a x bn' -> bn = bn';
  g_sep : forall bn, 0 <= bn < MAXFILE -> faddr a x bn <> 0 ->
    faddr a x bn <> ind x /\ faddr a x bn <> IBLOCK (i_inum x) sb;
  g_isep : ind x <> IBLOCK (i_inum x) sb }.

(** What a file keeps when blocks are added to it: an address stays or was 0 and is
    now one of a block that was free. *)
Definition kept (sb : superblock) (a : ast) (v v' : Z) : Prop :=
  v' = v \/ v = 0 /\ 0 < v' < sb_size sb /\ used a sb v' = false.

Record grown (sb : superblock) (ip : nat) (a a' : ast) (x x' : inode) : Prop := Grown {
  gr_ic : a_ic a' = <[ip := x']> (a_ic a);
  gr_x : x' = x <| i_addrs := i_addrs x' |>;
  gr_disk : a_disk a' = a_disk a;
  gr_lsize : lg_size (a_log a') = lg_size (a_log a);
  gr_lstart : lg_start (a_log a') = lg_start (a_log a);
  gr_used : forall b, 0 <= b < sb_size sb -> used a sb b = true -> used a' sb b = true;
  gr_addr : forall bn, 0 <= bn < MAXFILE -> kept sb a (faddr a x bn) (faddr a' x' bn);
  gr_ind : kept sb a (ind x) (ind x') }.

(** The blocks in use but the ones of [P] and of the bitmap are as they were. *)
Definition frame (sb : superblock) (a a' : ast) (P : Z -> Prop) : Prop :=
  forall n, own_block sb a n -> ~ P n -> a_blk a' n = a_blk a n.

(** At least [k] blocks of the disk are free. *)
Definition free_blocks (sb : superblock) (a : ast) (k : Z) : Prop :=
  exists l, NoDup l /\ k <= Z.of_nat (length l) /\ Forall (fun b => 0 <= b < sb_size sb /\ used a sb b = false) l.

(** The blocks that [bmap] allocates when it finds no indirect block. *)
Definition pot (x : inode) : Z := if ind x =? 0 then 1 else 0.

Section Pure.
Context (sb : superblock).
Implicit Types (a : ast) (x : inode).

Lemma kept_refl a v : kept sb a v v.
Proof. by left. Qed.

Lemma kept_trans a a1 v v1 v2 : (forall b, 0 <= b < sb_size sb -> used a sb b = true -> used a1 sb b = true) ->
  kept sb a v v1 -> kept sb a1 v1 v2 -> kept sb a v v2.
Proof.
  intros Hu H1 [->|(E & Hr & Hf)]; [done|]. right. split.
  - destruct H1 as [<-|[? _]]; done.
  - split; [done|]. destruct (used a sb v2) eqn:E2; [|done]. rewrite Hu in Hf; [done|lia|done].
Qed.

Lemma file_grown_refl ip a x : a_ic a !! ip = Some x -> grown sb ip a a x x.
Proof. intros H. constructor; try done; [by rewrite list_insert_id|by destruct x|intros; by left|by left]. Qed.

Lemma file_grown_trans ip a a1 a2 x x1 x2 : grown sb ip a a1 x x1 -> grown sb ip a1 a2 x1 x2 -> grown sb ip a a2 x x2.
Proof.
  intros [] []. constructor; try congruence.
  - rewrite gr_ic1, gr_ic0. apply list_insert_insert_eq.
  - rewrite gr_x1, gr_x0. by destruct x.
  - auto.
  - intros bn Hbn. eapply kept_trans; eauto.
  - eapply kept_trans; eauto.
Qed.

Lemma own_block_grown ip a a' x x' v : grown sb ip a a' x x' -> own_block sb a v -> own_block sb a' v.
Proof.
  intros [] []. constructor; try done; [apply gr_used0; [lia|done]|]. unfold in_log in *. by rewrite gr_lsize0, gr_lstart0.
Qed.

Lemma faddr_file_block a x bn : faddr a x bn <> 0 -> file_block a x bn = faddr a x bn.
Proof. unfold faddr, file_block. destruct (bn <? NDIRECT); [done|]. fold (ind x). by destruct (ind x =? 0). Qed.

(** The bytes of the blocks that the file had. *)
Lemma grown_byte ip a a' x x' sz i : file_inv sb a x sz -> grown sb ip a a' x x' -> frame sb a a' (eq (ind x)) ->
  0 <= i < sz -> file_byte a' x' i = file_byte a x i.
Proof.
  intros Hinv Hgr Hfr Hi. pose proof (g_size _ _ _ _ Hinv) as Hs.
  assert (0 <= i / BSIZE < MAXFILE) as Hbn by (unfold MAXFILE, NDIRECT, NINDIRECT, BSIZE in *; lia).
  pose proof (g_in _ _ _ _ Hinv (i / BSIZE) ltac:(lia) ltac:(unfold BSIZE in *; lia)) as Hne.
  destruct (gr_addr _ _ _ _ _ _ Hgr (i / BSIZE) Hbn) as [E|[? _]]; [|done].
  unfold file_byte. rewrite !faddr_file_block by congruence. rewrite E, Hfr; [done|by apply Hinv|].
  intros E1. by destruct (g_sep _ _ _ _ Hinv _ Hbn Hne).
Qed.

Lemma file_inv_size a x sz sz' : file_inv sb a x sz -> 0 <= sz' <= MAXFILE * BSIZE ->
  (forall bn, 0 <= bn -> bn * BSIZE < sz' -> faddr a x bn <> 0) -> file_inv sb a x sz'.
Proof. intros [] H1 H2. by constructor. Qed.

Lemma file_inv_ok a x : file_inv sb a x (i_size x) -> sb_size sb <= Z.of_nat (length (a_disk a)) -> file_ok a x.
Proof.
  intros Hinv Hd. pose proof Hinv as []. constructor; try done.
  - intros bn H1 H2. pose proof (g_in0 bn H1 H2) as Hne. rewrite faddr_file_block by done. split; [done|].
    destruct (g_own0 bn) as [? _ _ _]; [|done|unfold in_disk; lia]. unfold MAXFILE, NDIRECT, NINDIRECT, BSIZE in *. lia.
  - intros H. assert (ind x <> 0) as Hne.
    { intros E. apply (g_in0 NDIRECT); [done|done|]. unfold faddr. by rewrite E. }
    split; [done|]. destruct (g_ind0 Hne) as [? _ _ _]. unfold in_disk. fold (ind x). lia.
Qed.

(** *** Allocation *)

Lemma free_blocks_alloc w a a' b k : sb = k_sb (w_k w) -> allocated w a a' b -> free_blocks sb a (k + 1) -> free_blocks sb a' k.
Proof.
  intros -> (_ & _ & Hb & _ & _ & Hu & _) (l & Hn & Hl & HF). exists (filter (fun c => c <> b) l).
  split; [by apply NoDup_filter|]. split.
  - clear HF. assert (forall l, NoDup l -> (length l <= S (length (filter (fun c => c <> b) l)))%nat) as H; [|specialize (H l Hn); lia].
    clear. induction 1 as [|c l Hc Hn IH]; [cbn; lia|]. rewrite filter_cons. case_decide as Hd; cbn; [lia|].
    assert (c = b) as -> by (destruct (decide (c = b)); tauto).
    assert (filter (fun c => c <> b) l = l) as ->; [|lia]. clear -Hc. induction l as [|d l IH]; [done|].
    apply not_elem_of_cons in Hc as [? ?]. rewrite filter_cons_True by done. f_equal. auto.
  - apply Forall_forall. intros c [Hc Hin]%list_elem_of_filter. rewrite Forall_forall in HF. destruct (HF c Hin) as [Hr Hf].
    split; [done|]. rewrite Hu by done. rewrite (proj2 (Z.eqb_neq c b)) by done. done.
Qed.

Lemma free_blocks_le a k k' : k' <= k -> free_blocks sb a k -> free_blocks sb a k'.
Proof. intros H (l & ? & ? & ?). exists l. split; [done|]. split; [lia|done]. Qed.

Lemma free_blocks_one a k : 1 <= k -> free_blocks sb a k -> exists b, 0 <= b < sb_size sb /\ used a sb b = false.
Proof. intros Hk (l & _ & Hl & HF). destruct l as [|b l]; [cbn in Hl; lia|]. apply Forall_cons in HF as [H _]. by exists b. Qed.

(** A new address: block [bn] of the file is now [b], that was free. *)
Lemma file_inv_add ip a a' x x' sz bn b : file_inv sb a x sz -> grown sb ip a a' x x' -> length (i_addrs x') = 13%nat ->
  ind x' = ind x -> 0 < b < sb_size sb -> used a sb b = false -> own_block sb a' b -> faddr a x bn = 0 ->
  (forall bn', 0 <= bn' < MAXFILE -> faddr a' x' bn' = if bn' =? bn then b else faddr a x bn') ->
  file_inv sb a' x' sz.
Proof.
  intros Hinv Hgr Hlen Ei Hb Hub Hob H0 Hf. pose proof Hinv as [].
  assert (forall v, own_block sb a v -> v <> b) as Hne by (intros v [_ Hu _ _] ->; congruence).
  assert (forall bn', 0 <= bn' < MAXFILE -> faddr a' x' bn' <> 0 -> bn' = bn \/ faddr a x bn' <> 0) as Hc.
  { intros bn' Hbn'. rewrite Hf by done. destruct (Z.eqb_spec bn' bn); auto. }
  pose proof (gr_x _ _ _ _ _ _ Hgr) as Ex. assert (i_type x' = i_type x /\ i_dev x' = i_dev x /\ i_inum x' = i_inum x) as (E1 & E2 & E3)
    by (rewrite Ex; by destruct x).
  constructor; rewrite ?E1, ?E2, ?E3, ?Ei; try done.
  - apply (gr_used _ _ _ _ _ _ Hgr); [lia|done].
  - by eapply own_block_grown.
  - intros bn' H1 H2. pose proof (g_in0 bn' H1 H2). rewrite Hf; [destruct (bn' =? bn); lia|]. unfold MAXFILE, NDIRECT, NINDIRECT, BSIZE in *. lia.
  - intros bn' Hbn' Hn. destruct (Hc bn' Hbn' Hn) as [->|Hn']; rewrite Hf in * by done; [by rewrite Z.eqb_refl|].
    destruct (bn' =? bn); [done|]. eapply own_block_grown; eauto.
  - intros Hi. eapply own_block_grown; eauto.
  - intros b1 b2 H1 H2. rewrite !Hf by done. intros Hn E. destruct (Z.eqb_spec b1 bn) as [->|N1], (Z.eqb_spec b2 bn) as [->|N2]; [done| | |by apply g_inj0].
    + exfalso. apply (Hne (faddr a x b2)); [apply g_own0; congruence|done].
    + exfalso. apply (Hne (faddr a x b1)); [by apply g_own0|done].
  - intros bn' Hbn'. rewrite Hf by done. intros Hn. destruct (Z.eqb_spec bn' bn) as [->|N]; [|by apply g_sep0]. split.
    + intros E. apply (Hne (ind x)); [apply g_ind0; lia|done].
    + intros E. by apply (Hne (IBLOCK (i_inum x) sb)).
Qed.

(** A new indirect block, with no addresses yet. *)
Lemma file_inv_indirect ip a a' x x' sz b : file_inv sb a x sz -> grown sb ip a a' x x' -> length (i_addrs x') = 13%nat ->
  ind x = 0 -> ind x' = b -> 0 < b < sb_size sb -> used a sb b = false -> own_block sb a' b ->
  (forall bn', 0 <= bn' < MAXFILE -> faddr a' x' bn' = faddr a x bn') ->
  file_inv sb a' x' sz.
Proof.
  intros Hinv Hgr Hlen E0 Ei Hb Hub Hob Hf. pose proof Hinv as [].
  assert (forall v, own_block sb a v -> v <> b) as Hne by (intros v [_ Hu _ _] ->; congruence).
  pose proof (gr_x _ _ _ _ _ _ Hgr) as Ex. assert (i_type x' = i_type x /\ i_dev x' = i_dev x /\ i_inum x' = i_inum x) as (E1 & E2 & E3)
    by (rewrite Ex; by destruct x).
  constructor; rewrite ?E1, ?E2, ?E3, ?Ei; try done.
  - apply (gr_used _ _ _ _ _ _ Hgr); [lia|done].
  - by eapply own_block_grown.
  - intros bn' H1 H2. rewrite Hf; [by apply g_in0|]. unfold MAXFILE, NDIRECT, NINDIRECT, BSIZE in *. lia.
  - intros bn' Hbn'. rewrite Hf by done. intros Hn. eapply own_block_grown; eauto.
  - intros b1 b2 H1 H2. rewrite !Hf by done. auto.
  - intros bn' Hbn'. rewrite Hf by done. intros Hn. split; [|by apply g_sep0]. by apply Hne, g_own0.
  - intros E. by apply (Hne (IBLOCK (i_inum x) sb)).
Qed.

End Pure.

(** The state [balloc] leaves, and the blocks in use before. *)
Section Allocated.
Context (w : world) (a a' : ast) (b : Z).
Abbreviation sb := (k_sb (w_k w)).
Hypothesis (Hal : allocated w a a' b).
Hypothesis (Hbm : bitmap_ok a sb).

Lemma allocated_frame n : own_block sb a n -> a_blk a' n = a_blk a n.
Proof.
  destruct Hal as (_ & _ & Hb & Hf & _ & _ & Hblk & _). intros [_ Hu _ Hn]. apply Hblk; [congruence|]. by apply Hn.
Qed.

Lemma allocated_used n : 0 <= n < sb_size sb -> used a sb n = true -> used a' sb n = true.
Proof. destruct Hal as (_ & _ & _ & _ & _ & Hu & _). intros Hn E. by rewrite Hu, E, orb_true_r. Qed.

Lemma allocated_own : used a sb 0 = true -> 0 < b < sb_size sb /\ used a sb b = false /\ own_block sb a' b.
Proof.
  destruct Hal as (_ & Es & Hb & Hf & _ & Hu & _ & _ & _ & _ & Est). intros H0. destruct (free_not_meta w a b Hbm Hb Hf) as [Hl Hn].
  assert (0 < b < sb_size sb) as Hr by (destruct (decide (b = 0)) as [->|]; [congruence|lia]).
  split; [done|]. split; [done|]. constructor; [done|by rewrite Hu, Z.eqb_refl| |done]. unfold in_log in *. by rewrite Es, Est.
Qed.

End Allocated.

Lemma list_alter_insert {A} (f : A -> A) (l : list A) i x : l !! i = Some x -> alter f i l = <[i := f x]> l.
Proof.
  intros H. apply list_eq. intros j. destruct (decide (j = i)) as [->|Hne].
  - rewrite list_lookup_alter_eq, H, list_lookup_insert_eq by (by eapply lookup_lt_Some). done.
  - by rewrite list_lookup_alter_ne, list_lookup_insert_ne by done.
Qed.

(** ** [bmap] *)

Section Grow.
Context (w : world) (me : nat) (pid : Z) `{!fs_ctx w me pid}.
Abbreviation gwp := (gwp w me pid).
Abbreviation sb := (k_sb (w_k w)).
Implicit Types (a : ast) (x : inode).

Lemma gwp_upd_inode ip f x a (Q : unit -> ast -> Prop) : a_ic a !! ip = Some x ->
  Q tt (a <| a_ic ::= <[ip := f x]> |>) -> gwp (upd_inode ip f) a Q.
Proof.
  intros Hx HQ s Hs. apply (fwp_run _ _ _ _ _ tt (s <| s_ic ::= alter f ip |>)); [done|done|].
  eexists. split; [|exact HQ]. destruct Hs as [[] ? ? ? Hi]. constructor; try done.
  unfold setter; cbn. rewrite Hi. by apply list_alter_insert.
Qed.

(** Writing a block that is not of the bitmap. *)
Lemma put_block_used a bs n d b : (forall b, 0 <= b < sb_size sb -> n <> BBLOCK b sb) -> 0 <= b < sb_size sb ->
  used (put_block a bs n d) sb b = used a sb b.
Proof. intros Hn Hb. unfold used, bit_byte. cbn. rewrite fn_lookup_insert_ne; [done|]. by apply Hn. Qed.

Lemma put_block_bitmap a bs n d : bitmap_ok a sb -> (forall b, 0 <= b < sb_size sb -> n <> BBLOCK b sb) -> bitmap_ok (put_block a bs n d) sb.
Proof.
  intros Hbm Hn. apply (bitmap_ok_keep w a); [done|done|cbn; apply log_added_start..|].
  intros b Hb _ Hu. by rewrite put_block_used.
Qed.

(** The inodes in memory are not on the disk. *)
Lemma in_txn_ic a bs f : in_txn a bs -> in_txn (a <| a_ic ::= f |>) bs.
Proof. by intros []. Qed.

Lemma bitmap_ok_ic a f : bitmap_ok a sb -> bitmap_ok (a <| a_ic ::= f |>) sb.
Proof. by intros []. Qed.

Lemma own_block_ic a v f : own_block sb a v -> own_block sb (a <| a_ic ::= f |>) v.
Proof. by intros []. Qed.

(** What [bmap] does to the file, when it starts at [a] with [bs] in the log. *)
Record mapped (ip : nat) (sz bn : Z) (a : ast) (bs : list Z) (x : inode) (a' : ast) (bs' : list Z) (x' : inode) : Prop := Mapped {
  mp_grown : grown sb ip a a' x x';
  mp_txn : in_txn a' bs';
  mp_bitmap : bitmap_ok a' sb;
  mp_inv : file_inv sb a' x' sz;
  mp_ne : faddr a' x' bn <> 0;
  mp_frame : frame sb a a' (eq (ind x));
  mp_len : Z.of_nat (length bs') + 2 * pot x' <= Z.of_nat (length bs) + 3 + 2 * pot x;
  mp_free : forall k, free_blocks sb a (k + 1 + pot x) -> free_blocks sb a' (k + pot x');
  mp_same : faddr a x bn <> 0 -> x' = x }.

Lemma mapped_refl ip sz bn a bs x : a_ic a !! ip = Some x -> in_txn a bs -> bitmap_ok a sb -> file_inv sb a x sz ->
  faddr a x bn <> 0 -> mapped ip sz bn a bs x a bs x.
Proof.
  intros Hx Ht Hbm Hinv Hne. constructor; try done; [by apply file_grown_refl|lia|]. intros k. apply free_blocks_le. lia.
Qed.

(** Allocating a block for an address of the inode. *)
Lemma gwp_alloc_addr ip j x a bs Q :
  a_ic a !! ip = Some x -> i_dev x = ROOTDEV -> in_txn a bs -> bitmap_ok a sb -> Z.of_nat (length bs) + 2 < lg_size (a_log a) ->
  free_blocks sb a 1 ->
  (forall a1 bs1 b, in_txn a1 bs1 -> (length bs1 <= length bs + 2)%nat -> allocated w a a1 b ->
     Q b (a1 <| a_ic ::= <[ip := x <| i_addrs ::= <[j := b]> |>]> |>)) ->
  gwp (addr ← balloc (i_dev x); upd_inode ip (fun x => x <| i_addrs ::= <[j := addr]> |>) ;; mret addr) a Q.
Proof.
  intros Hx Hd Ht Hbm Hsp Hfree HQ. rewrite Hd. apply gwp_bind.
  eapply gwp_balloc; [done|by apply in_txn_txn|by eapply in_txn_used|done|done|by eapply free_blocks_one|].
  intros a1 bs1 b Ht1 Hl1 Ha. pose proof Ha as (_ & _ & _ & _ & _ & _ & _ & Eh & Ei & _). apply gwp_bind.
  eapply gwp_upd_inode; [by rewrite Ei|]. apply gwp_ret. apply (HQ a1 bs1); [|done|done].
  apply txn_in_txn; [done|]. rewrite Eh. apply Ht.
Qed.

(** A direct block that the file does not have. *)
Lemma mapped_direct ip sz bn a bs x a1 bs1 b :
  let x' := x <| i_addrs ::= <[Z.to_nat bn := b]> |> in
  a_ic a !! ip = Some x -> bitmap_ok a sb -> file_inv sb a x sz -> 0 <= bn < NDIRECT -> faddr a x bn = 0 ->
  in_txn a1 bs1 -> (length bs1 <= length bs + 2)%nat -> allocated w a a1 b ->
  mapped ip sz bn a bs x (a1 <| a_ic ::= <[ip := x']> |>) bs1 x' /\ faddr (a1 <| a_ic ::= <[ip := x']> |>) x' bn = b.
Proof.
  intros x' Hx Hbm Hinv Hbn H0 Ht1 Hl1 Ha. set (a' := a1 <| a_ic ::= _ |>).
  destruct (allocated_own w a a1 b Ha Hbm (g_boot _ _ _ _ Hinv)) as (Hb & Hf & Hob).
  pose proof Ha as (Hbm1 & Els & _ & _ & _ & Hu & _ & Eh & Ei & Ed & Est). pose proof (g_addrs _ _ _ _ Hinv) as Hlen.
  assert (ind x' = ind x) as Eind.
  { unfold ind, x'. cbn. rewrite list_lookup_insert_ne; [done|]. unfold NDIRECT in *. lia. }
  assert (forall bn', 0 <= bn' < MAXFILE -> faddr a' x' bn' = if bn' =? bn then b else faddr a x bn') as Hfa.
  { intros bn' Hbn'. unfold faddr. rewrite Eind. destruct (Z.ltb_spec bn' NDIRECT) as [Hd|Hd].
    - destruct (Z.eqb_spec bn' bn) as [->|Hne]; cbn.
      + rewrite list_lookup_insert_eq; [done|]. unfold NDIRECT in *. lia.
      + rewrite list_lookup_insert_ne; [done|]. lia.
    - rewrite (proj2 (Z.eqb_neq bn' bn)) by lia. destruct (Z.eqb_spec (ind x) 0); [done|].
      change (a_blk a') with (a_blk a1). rewrite (allocated_frame w a a1 b Ha); [done|]. by apply Hinv. }
  assert (grown sb ip a a' x x') as Hgr.
  { constructor; try done.
    - cbn. by rewrite Ei.
    - exact (allocated_used w a a1 b Ha).
    - intros bn' Hbn'. rewrite Hfa by done. destruct (Z.eqb_spec bn' bn) as [->|]; [right; by rewrite H0|by left].
    - rewrite Eind. by left. }
  assert (faddr a' x' bn = b) as Efb by (rewrite Hfa, Z.eqb_refl; [done|unfold MAXFILE, NDIRECT, NINDIRECT, BSIZE in *; lia]).
  split; [|done]. constructor; try done.
  - by apply in_txn_ic.
  - by apply bitmap_ok_ic.
  - eapply file_inv_add; [exact Hinv|exact Hgr|cbn; by rewrite length_insert|done|done|done|by apply own_block_ic|exact H0|exact Hfa].
  - rewrite Efb. lia.
  - intros n Hn _. by apply (allocated_frame w a a1 b Ha).
  - unfold pot. rewrite Eind. lia.
  - intros k Hk. unfold pot in *. rewrite Eind. apply (free_blocks_alloc _ w a a1 b); [done|done|]. revert Hk. apply free_blocks_le. lia.
Qed.

Lemma get32_zeros n i : get32 (replicate n 0) i = 0.
Proof.
  unfold get32. assert (forall l, Forall (fun v => v = 0) l -> le_val l = 0) as H by (induction 1 as [|v l -> _ IH]; [done|]; cbn; lia).
  apply H, Forall_take, Forall_drop, Forall_replicate. done.
Qed.

(** The indirect block, when the file has none. *)
Lemma mapped_indirect ip sz a x a1 bs1 b :
  let x' := x <| i_addrs ::= <[Z.to_nat NDIRECT := b]> |> in let a' := a1 <| a_ic ::= <[ip := x']> |> in
  a_ic a !! ip = Some x -> bitmap_ok a sb -> file_inv sb a x sz -> ind x = 0 ->
  in_txn a1 bs1 -> allocated w a a1 b ->
  grown sb ip a a' x x' /\ in_txn a' bs1 /\ bitmap_ok a' sb /\ file_inv sb a' x' sz /\ frame sb a a' (fun _ => False) /\
  ind x' = b /\ b <> 0 /\ used a sb b = false /\ (forall k, free_blocks sb a (k + 1) -> free_blocks sb a' k) /\
  (forall bn, 0 <= bn < MAXFILE -> faddr a' x' bn = faddr a x bn).
Proof.
  intros x' a' Hx Hbm Hinv H0 Ht1 Ha.
  destruct (allocated_own w a a1 b Ha Hbm (g_boot _ _ _ _ Hinv)) as (Hb & Hf & Hob).
  pose proof Ha as (Hbm1 & Els & _ & _ & Hz & Hu & _ & Eh & Ei & Ed & Est). pose proof (g_addrs _ _ _ _ Hinv) as Hlen.
  assert (ind x' = b) as Eind.
  { unfold ind, x'. cbn. rewrite list_lookup_insert_eq; [done|]. rewrite Hlen. unfold NDIRECT. lia. }
  assert (forall bn', 0 <= bn' < MAXFILE -> faddr a' x' bn' = faddr a x bn') as Hfa.
  { intros bn' Hbn'. unfold faddr. rewrite Eind, H0. destruct (Z.ltb_spec bn' NDIRECT) as [Hd|Hd].
    - cbn. rewrite list_lookup_insert_ne; [done|]. unfold NDIRECT in *. lia.
    - rewrite (proj2 (Z.eqb_neq b 0)) by lia. change (a_blk a') with (a_blk a1). rewrite Hz. apply get32_zeros. }
  assert (grown sb ip a a' x x') as Hgr.
  { constructor; try done.
    - cbn. by rewrite Ei.
    - exact (allocated_used w a a1 b Ha).
    - intros bn' Hbn'. rewrite Hfa by done. by left.
    - rewrite Eind, H0. by right. }
  split; [done|]. split; [by apply in_txn_ic|]. split; [by apply bitmap_ok_ic|]. split.
  { eapply file_inv_indirect; [exact Hinv|exact Hgr|cbn; by rewrite length_insert|done|exact Eind|done|done|by apply own_block_ic|exact Hfa]. }
  split; [intros n Hn _; by apply (allocated_frame w a a1 b Ha)|]. split; [done|]. split; [lia|]. split; [done|]. split; [|done].
  intros k. by apply (free_blocks_alloc _ w a a1 b).
Qed.

(** An address in the indirect block. *)
Lemma mapped_entry ip sz bn a bs x a1 bs1 b d :
  let a0 := a <| a_held ::= d |> in
  let a' := put_block (a1 <| a_held ::= delete (ind x) |>) bs1 (ind x) (put32 (a_blk a1 (ind x)) (Z.to_nat (4 * (bn - NDIRECT))) b) in
  a_ic a !! ip = Some x -> bitmap_ok a sb -> file_inv sb a x sz -> NDIRECT <= bn < MAXFILE -> ind x <> 0 -> faddr a x bn = 0 ->
  length (a_blk a (ind x)) = Z.to_nat BSIZE -> Z.of_nat (length bs) + 3 < lg_size (a_log a) ->
  txn a1 bs1 -> delete (ind x) (a_held a1) = ∅ -> (length bs1 <= length bs + 2)%nat -> allocated w a0 a1 b ->
  mapped ip sz bn a bs x a' (logged (ind x) bs1) x /\ faddr a' x bn = b.
Proof.
  intros a0 a' Hx Hbm Hinv Hbn Hne H0 Hlen Hsp Ht1 Hh1 Hl1 Ha.
  assert (bitmap_ok a0 sb) as Hbm0 by (by destruct Hbm).
  destruct (allocated_own w a0 a1 b Ha Hbm0 (g_boot _ _ _ _ Hinv)) as (Hb & Hf & Hob).
  pose proof Ha as (Hbm1 & Els & _ & _ & _ & Hu & _ & Eh & Ei & Ed & Est).
  pose proof (g_ind _ _ _ _ Hinv Hne) as Hoi.
  assert (a_blk a1 (ind x) = a_blk a (ind x)) as Ebi by (apply (allocated_frame w a0 a1 b Ha); by destruct Hoi).
  assert (forall b', 0 <= b' < sb_size sb -> used a' sb b' = used a1 sb b') as Hu'.
  { intros b' Hb'. unfold a'. etransitivity; [apply put_block_used; [apply Hoi|done]|done]. }
  assert (forall bn', 0 <= bn' < MAXFILE -> faddr a' x bn' = if bn' =? bn then b else faddr a x bn') as Hfa.
  { intros bn' Hbn'. unfold faddr. destruct (Z.ltb_spec bn' NDIRECT) as [Hd|Hd]; [by rewrite (proj2 (Z.eqb_neq bn' bn)) by lia|].
    rewrite (proj2 (Z.eqb_neq _ _) Hne). unfold a', put_block. cbn. rewrite fn_lookup_insert, Ebi.
    unfold MAXFILE, NINDIRECT, NDIRECT, BSIZE in *. destruct (Z.eqb_spec bn' bn) as [->|Hb'].
    - rewrite get32_put32_eq by (rewrite Hlen; lia). apply u32_id. pose proof (lo_sz _ _ _ (tx_log _ _ Ht1)).
      pose proof (bm_size _ _ Hbm1). unfold is_u32. lia.
    - apply get32_put32_ne; [rewrite Hlen; lia|lia]. }
  assert (lg_size (a_log a') = lg_size (a_log a) /\ lg_start (a_log a') = lg_start (a_log a)) as [El1 El2].
  { unfold a', put_block. cbn. rewrite (proj1 (log_added_start _ _ _)), (proj1 (proj2 (log_added_start _ _ _))). by rewrite Els, Est. }
  assert (grown sb ip a a' x x) as Hgr.
  { constructor; try done.
    - cbn. rewrite Ei. symmetry. by apply list_insert_id.
    - by destruct x.
    - intros b' Hb' Hub. rewrite Hu' by done. by apply (allocated_used w a0 a1 b Ha).
    - intros bn' Hbn'. rewrite Hfa by done. destruct (Z.eqb_spec bn' bn) as [->|]; [right; by rewrite H0|by left].
    - by left. }
  assert (faddr a' x bn = b) as Efb by (rewrite Hfa, Z.eqb_refl; [done|unfold NDIRECT in *; lia]).
  split; [|done]. pose proof (logged_length (ind x) bs1) as Hll. constructor; try done.
  - apply txn_in_txn; [|exact Hh1]. apply put_txn.
    + destruct Ht1. constructor; try done. cbn. rewrite Hh1. rewrite map_size_empty. lia.
    + pose proof (bm_size _ _ Hbm1). destruct Hoi. unfold in_disk. cbn. lia.
    + destruct Hoi. unfold in_log in *. cbn. by rewrite Els, Est.
    + cbn. rewrite Els. cbn. lia.
  - apply put_block_bitmap; [by destruct Hbm1|apply Hoi].
  - eapply file_inv_add; [exact Hinv|exact Hgr|apply Hinv|done|done|done| |exact H0|exact Hfa].
    destruct Hob. constructor; try done; [by rewrite Hu' by lia|]. unfold in_log in *. rewrite El1, El2. rewrite Els, Est in ob_log0. exact ob_log0.
  - rewrite Efb. lia.
  - intros n Hn Hni. unfold a', put_block. cbn. rewrite fn_lookup_insert_ne by done. apply (allocated_frame w a0 a1 b Ha). by destruct Hn.
  - lia.
  - intros k Hk. destruct (free_blocks_alloc _ w a0 a1 b (k + pot x) eq_refl Ha) as (l & H1 & H2 & H3).
    { change (free_blocks sb a (k + pot x + 1)). revert Hk. apply free_blocks_le. lia. }
    exists l. split; [done|]. split; [done|]. eapply Forall_impl; [exact H3|]. intros c [Hc ?]. split; [done|]. by rewrite Hu'.
Qed.

(** [bmap] with an indirect block: the end of its second half. *)
Lemma gwp_bmap_entry ip sz bn a bs x Q :
  a_ic a !! ip = Some x -> in_txn a bs -> bitmap_ok a sb -> file_inv sb a x sz -> NDIRECT <= bn < MAXFILE -> ind x <> 0 ->
  free_blocks sb a 1 -> Z.of_nat (length bs) + 3 < lg_size (a_log a) ->
  (forall a' bs' x', mapped ip sz bn a bs x a' bs' x' -> Q (faddr a' x' bn) a') ->
  gwp (bp ← bread ROOTDEV (ind x);
       d ← get_data bp;
       let addr := get32 d (Z.to_nat (4 * (bn - NDIRECT))) in
       addr ← (if addr =? 0 then
                 addr ← balloc ROOTDEV;
                 set_data bp (fun d => put32 d (Z.to_nat (4 * (bn - NDIRECT))) addr) ;;
                 log_write bp ;;
                 mret addr
               else mret addr);
       brelse bp ;;
       mret addr) a Q.
Proof.
  intros Hx Ht Hbm Hinv Hbn Hne Hfree Hsp HQ. pose proof (g_ind _ _ _ _ Hinv Hne) as Hoi.
  assert (in_disk a (ind x)) as Hin by (pose proof (bm_size _ _ Hbm); destruct Hoi; unfold in_disk; lia).
  assert (faddr a x bn = get32 (a_blk a (ind x)) (Z.to_nat (4 * (bn - NDIRECT)))) as Efa.
  { unfold faddr. rewrite (proj2 (Z.ltb_ge bn NDIRECT)), (proj2 (Z.eqb_neq _ _) Hne) by lia. done. }
  pose proof (it_held _ _ Ht) as Hh. apply gwp_facts. intros Hclean Hlens.
  eapply gwp_open_block; [done|by apply in_txn_txn|by rewrite Hh|done|lia|]. intros bp Hlen.
  apply gwp_bind. eapply (gwp_get_data w me pid (ind x)); [apply lookup_insert_eq|]. cbv zeta.
  change (a_blk (a <| a_held ::= _ |>)) with (a_blk a). rewrite <- Efa. destruct (Z.eqb_spec (faddr a x bn) 0) as [H0|H0].
  2:{ apply gwp_bind, gwp_ret, gwp_bind. apply gwp_close_block; [done|by rewrite Hh|done|by apply Hclean|].
      apply gwp_ret. apply (HQ a bs x). by apply mapped_refl. }
  apply gwp_bind, gwp_bind. eapply (gwp_balloc w me pid _ bs); [| | |cbn; lia|by eapply free_blocks_one|].
  - destruct (in_txn_txn _ _ Ht). constructor; try done. cbn. rewrite Hh, insert_empty, map_size_singleton. lia.
  - intros n. cbn. rewrite Hh. intros [v Hv]. apply lookup_insert_Some in Hv as [[<- _]|[_ Hv]]; [|done]. destruct Hoi. by split.
  - by destruct Hbm.
  - intros a1 bs1 b Ht1 Hl1 Ha. pose proof Ha as (_ & Els & _ & _ & _ & _ & _ & Eh & _ & Ed & Est). cbn in Eh, Els, Ed, Est.
    destruct (mapped_entry ip sz bn a bs x a1 bs1 b <[ind x := bp]> Hx Hbm Hinv Hbn Hne H0 Hlen Hsp Ht1) as [Hm Efb]; [|done|exact Ha|].
    { rewrite Eh, Hh. apply delete_insert_id, lookup_empty. }
    assert (a_held a1 !! ind x = Some bp) as Hb1 by (rewrite Eh; apply lookup_insert_eq).
    assert (in_disk a1 (ind x)) as Hin1 by (unfold in_disk in *; by rewrite Ed).
    assert (~ in_log (a_log a1) (ind x)) as Hnl1 by (destruct Hoi; unfold in_log in *; by rewrite Els, Est).
    apply gwp_bind. eapply (gwp_upd_data w me pid (ind x)); [done| |].
    { intros E. rewrite length_put32; [done|]. rewrite E. unfold MAXFILE, NDIRECT, NINDIRECT, BSIZE in *. lia. }
    apply gwp_bind. eapply (gwp_log_write w me pid _ bs1 (ind x)); [apply Ht1|done|done|done|cbn; rewrite Els; lia|apply Ht1|].
    apply gwp_ret, gwp_bind. eapply (gwp_brelse w me pid (ind x)); [done|left; cbn; set_solver|]. apply gwp_ret.
    specialize (HQ _ _ _ Hm). rewrite Efb in HQ. exact HQ.
Qed.

(** [bmap] of any block that a file can have. *)
Lemma gwp_bmap_grow ip sz bn a bs x Q :
  a_ic a !! ip = Some x -> in_txn a bs -> bitmap_ok a sb -> file_inv sb a x sz -> 0 <= bn < MAXFILE ->
  free_blocks sb a (1 + pot x) -> Z.of_nat (length bs) + 3 + 2 * pot x < lg_size (a_log a) ->
  (forall a' bs' x', mapped ip sz bn a bs x a' bs' x' -> Q (faddr a' x' bn) a') ->
  gwp (bmap ip bn) a Q.
Proof.
  intros Hx Ht Hbm Hinv Hbn Hfree Hsp HQ. pose proof (g_addrs _ _ _ _ Hinv) as Hlen. pose proof (g_dev _ _ _ _ Hinv) as Hdev.
  assert (0 <= pot x) as Hpot by (unfold pot; destruct (ind x =? 0); lia).
  unfold bmap. destruct (Z.ltb_spec bn NDIRECT) as [Hd|Hd].
  - apply gwp_bind. eapply gwp_get_inode; [done|]. apply gwp_bind.
    destruct (i_addrs x !! Z.to_nat bn) as [v|] eqn:E; [|apply lookup_ge_None in E; unfold NDIRECT in *; lia].
    eapply gwp_deref; [done|]. assert (faddr a x bn = v) as Efa by (unfold faddr; rewrite (proj2 (Z.ltb_lt bn NDIRECT)), E by done; done).
    destruct (Z.eqb_spec v 0) as [->|Hv].
    + eapply gwp_alloc_addr; [done|done|done|done|lia|revert Hfree; apply free_blocks_le; lia|]. intros a1 bs1 b Ht1 Hl1 Ha.
      destruct (mapped_direct ip sz bn a bs x a1 bs1 b Hx Hbm Hinv ltac:(lia) Efa Ht1 Hl1 Ha) as [Hm Efb].
      specialize (HQ _ _ _ Hm). rewrite Efb in HQ. exact HQ.
    + apply gwp_ret. rewrite <- Efa. apply (HQ a bs). apply mapped_refl; try done. congruence.
  - rewrite (proj2 (Z.ltb_lt (bn - NDIRECT) NINDIRECT)) by (unfold MAXFILE in *; lia).
    apply gwp_bind. eapply gwp_get_inode; [done|]. apply gwp_bind.
    destruct (i_addrs x !! Z.to_nat NDIRECT) as [v|] eqn:E; [|apply lookup_ge_None in E; change (Z.to_nat NDIRECT) with 12%nat in E; lia].
    eapply gwp_deref; [done|]. assert (ind x = v) as Ei by (unfold ind; by rewrite E). rewrite Hdev.
    destruct (Z.eqb_spec v 0) as [->|Hv].
    + assert (pot x = 1) as Ep by (unfold pot; by rewrite Ei). apply gwp_bind. rewrite <- Hdev at 1.
      eapply gwp_alloc_addr; [done|done|done|done|lia|revert Hfree; apply free_blocks_le; lia|]. intros a1 bs1 b Ht1 Hl1 Ha.
      destruct (mapped_indirect ip sz a x a1 bs1 b Hx Hbm Hinv Ei Ht1 Ha) as (Hgr & Ht' & Hbm' & Hinv' & Hfr & Eb & Hb0 & Hbf & Hfree' & Hfa).
      pose proof Ha as (_ & Els & _ & _ & _ & _ & _ & _ & Eic & _).
      set (x' := x <| i_addrs ::= _ |>) in *. set (a' := a1 <| a_ic ::= _ |>) in *. rewrite <- Eb.
      assert (pot x' = 0) as Ep' by (unfold pot; rewrite (proj2 (Z.eqb_neq (ind x') 0)) by congruence; done).
      apply (gwp_bmap_entry ip sz bn a' bs1 x'); [|done|done|done|lia|congruence| |cbn; rewrite Els; lia|].
      * cbn. rewrite Eic. apply list_lookup_insert_eq. by eapply lookup_lt_Some.
      * apply Hfree'. revert Hfree. apply free_blocks_le. lia.
      * intros a2 bs2 x2 [Hg2 Ht2 Hb2 Hi2 Hn2 Hf2 Hl2 Hk2 Hs2]. apply (HQ a2 bs2). constructor; try done.
        -- by eapply file_grown_trans.
        -- intros n Hn Hni. rewrite Hf2, Hfr; [done|done|tauto|by eapply own_block_grown|]. rewrite Eb. intros <-. destruct Hn. congruence.
        -- lia.
        -- intros k Hk. apply Hk2. rewrite Ep'. apply Hfree'. revert Hk. apply free_blocks_le. lia.
        -- rewrite Hfa in Hs2 by done. intros Hn. exfalso. apply Hn. unfold faddr. rewrite (proj2 (Z.ltb_ge bn NDIRECT)), Ei by lia. done.
    + apply gwp_bind, gwp_ret. rewrite <- Ei. apply (gwp_bmap_entry ip sz bn a bs x); [done|done|done|done|lia|congruence| |lia|done].
      revert Hfree. apply free_blocks_le. lia.
Qed.

(** ** [writei] *)

(** Writing a block that is not the indirect block. *)
Lemma put_keeps ip sz a bs x v d :
  let a' := put_block a bs v d in
  a_ic a !! ip = Some x -> bitmap_ok a sb -> file_inv sb a x sz -> own_block sb a v -> v <> ind x ->
  (forall bn, faddr a' x bn = faddr a x bn) /\ grown sb ip a a' x x /\ bitmap_ok a' sb /\ file_inv sb a' x sz /\
  (forall k, free_blocks sb a k -> free_blocks sb a' k).
Proof.
  intros a' Hx Hbm Hinv Hv Hvi. assert (forall bn, faddr a' x bn = faddr a x bn) as Hfa.
  { intros bn. unfold faddr. destruct (bn <? NDIRECT); [done|]. destruct (ind x =? 0); [done|].
    unfold a', put_block. cbn. by rewrite fn_lookup_insert_ne. }
  assert (forall b, 0 <= b < sb_size sb -> used a' sb b = used a sb b) as Hu by (intros b Hb; apply put_block_used; [apply Hv|done]).
  assert (grown sb ip a a' x x) as Hgr.
  { constructor; try done; [cbn; symmetry; by apply list_insert_id|by destruct x|cbn; apply log_added_start..| | |by left].
    - intros b Hb. by rewrite Hu.
    - intros bn _. rewrite Hfa. by left. }
  split; [done|]. split; [done|]. split; [apply put_block_bitmap; [done|apply Hv]|]. split.
  - destruct Hinv. constructor; try done; try (intros; rewrite ?Hfa in *; eauto; done).
    + pose proof (ob_range _ _ _ Hv). by rewrite Hu by lia.
    + by eapply own_block_grown.
    + intros bn Hbn. rewrite Hfa. intros Hne. eapply own_block_grown; eauto.
    + intros Hne. eapply own_block_grown; eauto.
  - intros k (l & H1 & H2 & H3). exists l. split; [done|]. split; [done|]. eapply Forall_impl; [exact H3|].
    intros b [Hb E]. split; [done|]. by rewrite Hu.
Qed.

(** The blocks of a file. *)
Definition of_file (a : ast) (x : inode) (n : Z) : Prop := n = ind x \/ exists bn, 0 <= bn < MAXFILE /\ faddr a x bn = n.

Lemma frame_trans ip a a1 a2 x x1 : grown sb ip a a1 x x1 -> frame sb a a1 (of_file a x) -> frame sb a1 a2 (of_file a1 x1) ->
  frame sb a a2 (of_file a x).
Proof.
  intros Hgr H1 H2 n Hn Hni. rewrite H2, H1; [done|done|done|by eapply own_block_grown|].
  assert (forall v v', kept sb a v v' -> v <> n -> v' <> n) as Hk.
  { intros v v' [->|(_ & _ & Hu)] Hne; [done|]. intros ->. destruct Hn. congruence. }
  intros [->|(bn & Hbn & E)].
  - apply (Hk _ _ (gr_ind _ _ _ _ _ _ Hgr)); [|done]. intros E. apply Hni. by left.
  - apply (Hk _ _ (gr_addr _ _ _ _ _ _ Hgr bn Hbn)); [|done]. intros E1. apply Hni. right. eauto.
Qed.

(** The state after [tot] bytes. *)
Record wrote (ip : nat) (src : list Z) (off tot : Z) (a a' : ast) (x x' : inode) (bs : list Z) : Prop := Wrote {
  wt_grown : grown sb ip a a' x x';
  wt_txn : in_txn a' bs;
  wt_bitmap : bitmap_ok a' sb;
  wt_inv : file_inv sb a' x' (Z.max (i_size x) (off + tot));
  wt_byte : forall i, 0 <= i < Z.max (i_size x) (off + tot) -> file_byte a' x' i =
    if (off <=? i) && (i <? off + tot) then default 0 (src !! Z.to_nat (i - off)) else file_byte a x i;
  wt_frame : frame sb a a' (of_file a x);
  wt_same : off + tot <= i_size x -> x' = x }.

Lemma wrote_refl ip src off a x bs : a_ic a !! ip = Some x -> in_txn a bs -> bitmap_ok a sb -> file_inv sb a x (i_size x) ->
  0 <= off <= i_size x -> wrote ip src off 0 a a x x bs.
Proof.
  intros Hx Ht Hbm Hinv Hoff. rewrite <- (Z.max_l (i_size x) (off + 0)) in Hinv by lia. constructor; try done.
  - by apply file_grown_refl.
  - intros i Hi. rewrite Z.add_0_r. destruct (Z.leb_spec off i), (Z.ltb_spec i off); try done; lia.
Qed.

(** One block of the file, mapped and written. *)
Lemma wrote_chunk ip src off tot m a a1 a2 x x1 x2 bs1 bs2 :
  let bn := (off + tot) / BSIZE in let v := faddr a2 x2 bn in
  let d := blit (a_blk a2 v) (Z.to_nat ((off + tot) mod BSIZE)) (slice src (Z.to_nat tot) (Z.to_nat m)) in
  wrote ip src off tot a a1 x x1 bs1 -> mapped ip (Z.max (i_size x) (off + tot)) bn a1 bs1 x1 a2 bs2 x2 ->
  0 <= off <= i_size x -> 0 <= tot -> 0 < m -> (off + tot) mod BSIZE + m <= BSIZE -> off + tot + m <= MAXFILE * BSIZE ->
  (Z.to_nat tot + Z.to_nat m <= length src)%nat -> length (a_blk a2 v) = Z.to_nat BSIZE ->
  Z.of_nat (length bs2) + 1 < lg_size (a_log a) -> (ip < length (a_ic a))%nat ->
  wrote ip src off (tot + m) a (put_block a2 bs2 v d) x x2 (logged v bs2).
Proof.
  intros bn v d Hw Hm Hoff Htot Hm0 Hmm Hmax Hsrc Hlen Hsp Hip.
  destruct Hw as [Hg1 Ht1 Hb1 Hi1 Hy1 Hf1 Hs1]. pose proof Hm as [Hg2 Ht2 Hb2 Hi2 Hn2 Hf2 _ _ Hs2].
  assert (0 <= bn < MAXFILE) as Hbn by (unfold bn, MAXFILE, NDIRECT, NINDIRECT, BSIZE in *; lia).
  pose proof (g_own _ _ _ _ Hi2 bn Hbn Hn2) as Hv. destruct (g_sep _ _ _ _ Hi2 bn Hbn Hn2) as [Hvi _]. fold v in Hv, Hvi.
  assert (a_ic a2 !! ip = Some x2) as Hx2.
  { rewrite (gr_ic _ _ _ _ _ _ Hg2), (gr_ic _ _ _ _ _ _ Hg1). apply list_lookup_insert_eq. by rewrite length_insert. }
  destruct (put_keeps ip _ a2 bs2 x2 v d Hx2 Hb2 Hi2 Hv Hvi) as (Hfa & Hg3 & Hb3 & Hi3 & _).
  set (a3 := put_block a2 bs2 v d) in *. pose proof (file_grown_trans _ _ _ _ _ _ _ _ Hg1 Hg2) as Hg12.
  assert (forall bn', 0 <= bn' -> bn' * BSIZE < Z.max (i_size x) (off + (tot + m)) -> faddr a3 x2 bn' <> 0) as Hin.
  { intros bn' H1 H2. destruct (decide (bn' = bn)) as [->|Hne]; [by rewrite Hfa|].
    apply Hi3; [done|]. unfold bn, BSIZE in *. lia. }
  assert (forall i, 0 <= i -> faddr a2 x2 (i / BSIZE) <> 0 -> 0 <= i / BSIZE < MAXFILE ->
    file_byte a3 x2 i = if i / BSIZE =? bn then default 0 (d !! Z.to_nat (i mod BSIZE)) else file_byte a2 x2 i) as Hby.
  { intros i H0 Hne Hr. unfold file_byte. rewrite !faddr_file_block by (rewrite ?Hfa; done). rewrite Hfa.
    unfold a3, put_block. cbn. destruct (Z.eqb_spec (i / BSIZE) bn) as [->|Hn]; [by rewrite fn_lookup_insert|].
    rewrite fn_lookup_insert_ne; [done|]. intros E. apply Hn. symmetry. by apply (g_inj _ _ _ _ Hi2). }
  constructor; [by eapply file_grown_trans| |done| | | |].
  - apply put_block_txn; [done|pose proof (bm_size _ _ Hb2); destruct Hv; unfold in_disk; lia|apply Hv|].
    by rewrite (gr_lsize _ _ _ _ _ _ Hg12).
  - eapply file_inv_size; [exact Hi3| |exact Hin]. pose proof (g_size _ _ _ _ Hi1). lia.
  - intros i Hi. rewrite Hby; [|lia|rewrite <- Hfa; apply Hin; unfold BSIZE in *; lia|pose proof (g_size _ _ _ _ Hi1); unfold MAXFILE, NDIRECT, NINDIRECT, BSIZE in *; lia].
    assert (file_block a2 x2 bn = v) as Evb by (by apply faddr_file_block).
    pose proof (chunk_byte a2 x2 src off tot m i) as Hc. cbv zeta in Hc. fold bn in Hc. rewrite Evb in Hc. unfold d.
    rewrite (Hc Hlen ltac:(lia) Htot ltac:(lia) Hmm ltac:(lia)). clear Hc.
    destruct (Z.leb_spec (off + tot) i), (Z.ltb_spec i (off + tot + m)); cbn [andb].
    1: rewrite (proj2 (Z.leb_le off i)), (proj2 (Z.ltb_lt i (off + (tot + m)))) by lia; done.
    all: rewrite (grown_byte _ _ _ _ _ _ _ _ Hi1 Hg2 Hf2), Hy1 by lia;
      destruct (Z.leb_spec off i), (Z.ltb_spec i (off + tot)), (Z.ltb_spec i (off + (tot + m))); cbn [andb]; done || lia.
  - eapply frame_trans; [exact Hg1|exact Hf1|]. eapply frame_trans; [exact Hg2| |].
    + intros n Hn Hni. apply Hf2; [done|]. intros <-. apply Hni. by left.
    + intros n Hn Hni. unfold a3, put_block. cbn. rewrite fn_lookup_insert_ne; [done|]. intros <-. apply Hni. right. by exists bn.
  - intros Hle. rewrite <- Hs1 by lia. apply Hs2. apply Hi1; unfold bn, BSIZE in *; lia.
Qed.

(** The body of the loop of [writei]. *)
Definition writei_body (ip : nat) (x : inode) (src : list Z) (n : Z) (st : Z * Z) : M ((Z * Z) + Z) :=
  let '(tot, off) := st in
  if n <=? tot then mret (inr off) else
  bno ← bmap ip (off / BSIZE);
  bp ← bread (i_dev x) bno;
  let m := Z.min (n - tot) (BSIZE - off mod BSIZE) in
  let chunk := slice src (Z.to_nat tot) (Z.to_nat m) in
  if negb (Z.of_nat (length chunk) =? m) then fault else
  set_data bp (fun d => blit d (Z.to_nat (off mod BSIZE)) chunk) ;;
  log_write bp ;;
  brelse bp ;;
  mret (inl (tot + m, off + m)).

Lemma gwp_write_chunk ip src off n tot k a a1 x x1 bs1 Q :
  wrote ip src off tot a a1 x x1 bs1 -> 0 <= off <= i_size x -> off + n <= MAXFILE * BSIZE -> length src = Z.to_nat n -> 0 <= tot < n ->
  (ip < length (a_ic a))%nat -> free_blocks sb a1 (k + 1 + pot x1) -> Z.of_nat (length bs1) + 2 * pot x1 + 4 < lg_size (a_log a) -> 0 <= k ->
  (let m := Z.min (n - tot) (BSIZE - (off + tot) mod BSIZE) in
   forall a' bs' x', wrote ip src off (tot + m) a a' x x' bs' ->
     Z.of_nat (length bs') + 2 * pot x' <= Z.of_nat (length bs1) + 2 * pot x1 + 4 -> free_blocks sb a' (k + pot x') ->
     Q (inl (tot + m, off + tot + m)) a') ->
  gwp (writei_body ip x src n (tot, off + tot)) a1 Q.
Proof.
  intros Hw Hoff Hmax Hsrc Htot Hip Hfree Hsp Hk HQ. pose proof Hw as [Hg1 Ht1 Hb1 Hi1 _ _ _]. unfold writei_body.
  rewrite (proj2 (Z.leb_gt n tot)) by lia. set (bn := (off + tot) / BSIZE).
  assert (0 <= bn < MAXFILE) as Hbn by (unfold bn, MAXFILE, NDIRECT, NINDIRECT, BSIZE in *; lia).
  assert (a_ic a1 !! ip = Some x1) as Hx1 by (rewrite (gr_ic _ _ _ _ _ _ Hg1); by apply list_lookup_insert_eq).
  assert (i_dev x = ROOTDEV) as -> by (rewrite <- (g_dev _ _ _ _ Hi1), (gr_x _ _ _ _ _ _ Hg1); by destruct x).
  rewrite <- (gr_lsize _ _ _ _ _ _ Hg1) in Hsp. assert (forall z, 0 <= pot z) as Hpot by (intros z; unfold pot; destruct (ind z =? 0); lia).
  apply gwp_bind. eapply (gwp_bmap_grow ip (Z.max (i_size x) (off + tot)) bn a1 bs1 x1); [done|done|done|done|done| |lia|].
  { revert Hfree. apply free_blocks_le. lia. }
  intros a2 bs2 x2 Hm. pose proof Hm as [Hg2 Ht2 Hb2 Hi2 Hn2 _ Hl2 Hf2 _]. pose proof (g_own _ _ _ _ Hi2 bn Hbn Hn2) as Hv.
  destruct (g_sep _ _ _ _ Hi2 bn Hbn Hn2) as [Hvi _]. set (v := faddr a2 x2 bn) in *.
  assert (in_disk a2 v) as Hin by (pose proof (bm_size _ _ Hb2); destruct Hv; unfold in_disk; lia).
  rewrite <- (gr_lsize _ _ _ _ _ _ Hg2) in Hsp. specialize (Hpot x2) as Hp2.
  eapply (gwp_open_block w me pid v a2 bs2); [by apply in_txn_txn|by rewrite (it_held _ _ Ht2)|done|lia|]. intros bp Hlen. cbv zeta.
  set (m := Z.min (n - tot) (BSIZE - (off + tot) mod BSIZE)) in *.
  assert (0 < m <= n - tot /\ (off + tot) mod BSIZE + m <= BSIZE) as [Hm1 Hm2] by (unfold m, BSIZE; lia).
  set (chunk := slice src (Z.to_nat tot) (Z.to_nat m)). assert (length chunk = Z.to_nat m) as Hch by (apply length_slice; lia).
  rewrite (proj2 (Z.eqb_eq (Z.of_nat (length chunk)) m)) by lia. cbn [negb].
  eapply (gwp_store_block w me pid v bp _ _ bs2); [|apply lookup_insert_eq|done|apply Hv|cbn; lia| |].
  { destruct (in_txn_txn _ _ Ht2). constructor; try done. cbn. rewrite (it_held _ _ Ht2), insert_empty, map_size_singleton. lia. }
  { cbn. intros _. rewrite length_blit; [done|]. rewrite Hch, Hlen. unfold BSIZE in *. lia. }
  rewrite held_back by (by rewrite (it_held _ _ Ht2)). apply gwp_ret. change (a_blk (a2 <| a_held ::= _ |>)) with (a_blk a2).
  pose proof (logged_length v bs2) as Hll. apply (HQ _ (logged v bs2) x2).
  - eapply wrote_chunk; try done; try lia. rewrite <- (gr_lsize _ _ _ _ _ _ Hg1), <- (gr_lsize _ _ _ _ _ _ Hg2). lia.
  - lia.
  - assert (a_ic a2 !! ip = Some x2) as Hx2.
    { rewrite (gr_ic _ _ _ _ _ _ Hg2). apply list_lookup_insert_eq. by eapply lookup_lt_Some. }
    apply (put_keeps ip _ a2 bs2 x2 v _ Hx2 Hb2 Hi2 Hv Hvi). by apply Hf2.
Qed.

Lemma writei_loop_gwp ip src off n a x : 0 <= off <= i_size x -> off + n <= MAXFILE * BSIZE -> length src = Z.to_nat n ->
  (ip < length (a_ic a))%nat -> forall fuel a1 bs1 x1 tot Q, 0 <= tot <= n -> wrote ip src off tot a a1 x x1 bs1 ->
  blocks_left off tot n < Z.of_nat fuel ->
  Z.of_nat (length bs1) + 2 * pot x1 + 4 * blocks_left off tot n + 1 < lg_size (a_log a) -> free_blocks sb a1 (blocks_left off tot n + pot x1) ->
  (forall a' bs' x', wrote ip src off n a a' x x' bs' ->
     Z.of_nat (length bs') <= Z.of_nat (length bs1) + 2 * pot x1 + 4 * blocks_left off tot n -> Q (off + n) a') ->
  gwp (loop fuel (writei_body ip x src n) (tot, off + tot)) a1 Q.
Proof.
  intros Hoff Hmax Hsrc Hip. induction fuel as [|fuel IH]; intros a1 bs1 x1 tot Q Htot Hw Hf Hsp Hfree HQ.
  { unfold blocks_left, BSIZE in Hf. destruct (tot <? n); lia. }
  assert (forall z, 0 <= pot z) as Hpot by (intros z; unfold pot; destruct (ind z =? 0); lia). pose proof (Hpot x1).
  cbn [loop]. apply gwp_bind. destruct (Z.leb_spec n tot) as [Hle|Hlt].
  { unfold writei_body at 1. rewrite (proj2 (Z.leb_le n tot)) by done. apply gwp_ret, gwp_ret. replace tot with n in * by lia.
    apply (HQ a1 bs1 x1); [done|]. unfold blocks_left. rewrite Z.ltb_irrefl. lia. }
  set (m := Z.min (n - tot) (BSIZE - (off + tot) mod BSIZE)).
  assert (0 <= blocks_left off (tot + m) n <= blocks_left off tot n - 1) as Hbl.
  { unfold blocks_left. rewrite (proj2 (Z.ltb_lt tot n)) by done.
    destruct (Z.ltb_spec (tot + m) n) as [H'|H']; unfold m, BSIZE in *; lia. }
  eapply (gwp_write_chunk ip src off n tot (blocks_left off tot n - 1) a a1 x x1 bs1); [done|done|done|done|lia|done| |lia|lia|].
  { revert Hfree. apply free_blocks_le. lia. }
  cbv zeta. fold m. intros a2 bs2 x2 Hw2 Hl2 Hf2. replace (off + tot + m) with (off + (tot + m)) by lia.
  apply (IH _ bs2 x2); [unfold m, BSIZE in *; lia|done|lia|lia|revert Hf2; apply free_blocks_le; lia|].
  intros a3 bs3 x3 Hw3 Hl3. apply (HQ a3 bs3 x3); [done|lia].
Qed.

(** ** [iupdate] *)

(** The inode on the disk is the one in memory. *)
Definition inode_sync (a : ast) (x : inode) : Prop :=
  dinode_ok (inode_disk x) /\ read_dinode (a_blk a (IBLOCK (i_inum x) sb)) (dip (i_inum x)) = inode_disk x.

Lemma dip_room i (d : list Z) : length d = Z.to_nat BSIZE -> (dip i + 64 <= length d)%nat.
Proof. intros ->. unfold dip, IPB, SIZEOF_DINODE, BSIZE. lia. Qed.

Lemma gwp_iupdate ip x a bs (Q : unit -> ast -> Prop) :
  let n := IBLOCK (i_inum x) sb in
  a_ic a !! ip = Some x -> i_dev x = ROOTDEV -> length (i_addrs x) = 13%nat -> in_txn a bs -> bitmap_ok a sb -> own_block sb a n ->
  Z.of_nat (length bs) + 1 < lg_size (a_log a) ->
  (length (a_blk a n) = Z.to_nat BSIZE -> Q tt (put_block a bs n (write_dinode (inode_disk x) (dip (i_inum x)) (a_blk a n)))) ->
  gwp (iupdate ip) a Q.
Proof.
  intros n Hx Hd Hl Ht Hbm Hn Hsp HQ. assert (in_disk a n) as Hin by (pose proof (bm_size _ _ Hbm); destruct Hn; unfold in_disk; lia).
  unfold iupdate. apply gwp_bind, (gwp_get_sb w me pid), gwp_bind. eapply gwp_get_inode; [done|]. rewrite Hd. fold n.
  eapply (gwp_open_block w me pid n a bs); [by apply in_txn_txn|by rewrite (it_held _ _ Ht)|done|lia|]. intros bp Hlen.
  destruct (in_txn_txn _ _ Ht) as [Hlo Ho _ _]. pose proof (dip_room (i_inum x) _ Hlen) as Hr.
  apply gwp_bind. eapply (gwp_upd_data w me pid n); [apply lookup_insert_eq| |].
  { intros _. change (length (write_dinode (inode_disk x) (dip (i_inum x)) (a_blk a n)) = Z.to_nat BSIZE).
    rewrite write_dinode_blit, length_blit by (done || rewrite length_dinode_bytes; done). exact Hlen. }
  apply gwp_bind. eapply (gwp_log_write w me pid _ bs n); [exact Hlo|apply lookup_insert_eq|done|apply Hn|cbn; lia|exact Ho|].
  eapply (gwp_brelse w me pid n); [apply lookup_insert_eq|left; cbn; set_solver|].
  match goal with |- Q tt ?q => assert (q = put_block a bs n (write_dinode (inode_disk x) (dip (i_inum x)) (a_blk a n))) as -> end; [|by apply HQ].
  pose proof (it_held _ _ Ht) as Hh. destruct a. unfold put_block, setter. cbn in *. f_equal. apply delete_insert_id. by subst.
Qed.

(** The values that the fields of the inode hold. *)
Lemma file_inv_dinode a x sz s : file_inv sb a x sz -> bitmap_ok a sb -> Z.of_nat (length (a_disk a)) < 2 ^ 31 -> dinode_ok (inode_disk (x <| i_addrs := s |>)) ->
  is_u32 (i_size x) -> dinode_ok (inode_disk x).
Proof.
  intros Hinv Hbm Hd [H1 H2 H3 H4 _ _ _] Hsz. pose proof (bm_size _ _ Hbm) as Hs. constructor; try done; [|apply Hinv]. cbn.
  apply Forall_lookup. intros i v Hv. pose proof (lookup_lt_Some _ _ _ Hv) as Hi. pose proof (g_addrs _ _ _ _ Hinv) as Hl.
  destruct (decide (v = 0)) as [->|Hne]; [done|]. assert (own_block sb a v) as Ho.
  { destruct (decide (i = 12)%nat) as [->|Hi12].
    - assert (ind x = v) as <- by (unfold ind; change (Z.to_nat NDIRECT) with 12%nat; by rewrite Hv). by apply Hinv.
    - assert (faddr a x (Z.of_nat i) = v) as <-.
      { unfold faddr. rewrite (proj2 (Z.ltb_lt (Z.of_nat i) NDIRECT)) by (unfold NDIRECT; lia). by rewrite Nat2Z.id, Hv. }
      apply Hinv; [unfold MAXFILE, NDIRECT, NINDIRECT, BSIZE; lia|done]. }
  destruct Ho. unfold is_u32. lia.
Qed.

(** *** The end of [writei] *)

(** The file with its new size, and its inode on the disk. *)
Record extended (ip : nat) (src : list Z) (off n : Z) (a a' : ast) (x x' : inode) (bs : list Z) : Prop := Extended {
  ex_ic : a_ic a' = <[ip := x']> (a_ic a);
  ex_x : x' = x <| i_size := Z.max (i_size x) (off + n) |> <| i_addrs := i_addrs x' |>;
  ex_txn : in_txn a' bs;
  ex_lsize : lg_size (a_log a') = lg_size (a_log a);
  ex_bitmap : bitmap_ok a' sb;
  ex_inv : file_inv sb a' x' (i_size x');
  ex_sync : inode_sync a' x';
  ex_byte : forall i, 0 <= i < i_size x' -> file_byte a' x' i =
    if (off <=? i) && (i <? off + n) then default 0 (src !! Z.to_nat (i - off)) else file_byte a x i;
  ex_used : forall b, 0 <= b < sb_size sb -> used a sb b = true -> used a' sb b = true;
  ex_frame : frame sb a a' (fun b => b = IBLOCK (i_inum x) sb \/ of_file a x b);
  ex_inodes : forall i, (i < dip (i_inum x) \/ dip (i_inum x) + 64 <= i)%nat ->
    a_blk a' (IBLOCK (i_inum x) sb) !! i = a_blk a (IBLOCK (i_inum x) sb) !! i }.

Lemma iblock_not_of_file a x sz : file_inv sb a x sz -> ~ of_file a x (IBLOCK (i_inum x) sb).
Proof.
  intros Hinv [E|(bn & Hbn & E)]; [by apply (g_isep _ _ _ _ Hinv)|]. pose proof (ob_range _ _ _ (g_iblock _ _ _ _ Hinv)).
  by apply (g_sep _ _ _ _ Hinv bn Hbn); [lia|].
Qed.

(** No new size. *)
Lemma wrote_extended ip src off n a a' x x' bs : wrote ip src off n a a' x x' bs -> file_inv sb a x (i_size x) -> inode_sync a x ->
  off + n <= i_size x -> extended ip src off n a a' x x' bs.
Proof.
  intros [Hg Ht Hb Hi Hy Hf Hs] Hinv Hsync Hle. specialize (Hs Hle) as ->. rewrite Z.max_l in * by done.
  pose proof (Hf _ (g_iblock _ _ _ _ Hinv) (iblock_not_of_file _ _ _ Hinv)) as Eib.
  constructor; try done; try apply Hg.
  - rewrite Z.max_l by done. by destruct x.
  - destruct Hsync as [H1 H2]. split; [done|]. by rewrite Eib.
  - intros b Hb' Hn. apply Hf; [done|]. intros H. apply Hn. by right.
  - intros i _. by rewrite Eib.
Qed.

Lemma file_inv_resize a x sz s f : file_inv sb a x sz -> file_inv sb (a <| a_ic ::= f |>) (x <| i_size := s |>) sz.
Proof. intros []. constructor; try done; intros; try (apply own_block_ic; eauto); eauto. Qed.

(** A new size. *)
Lemma resized_extended ip src off n a a' x x' bs :
  let y := x' <| i_size := off + n |> in let ib := IBLOCK (i_inum x) sb in let a1 := a' <| a_ic ::= <[ip := y]> |> in
  wrote ip src off n a a' x x' bs -> file_inv sb a x (i_size x) -> inode_sync a x -> i_size x < off + n -> 0 <= off -> off + n <= MAXFILE * BSIZE ->
  Z.of_nat (length bs) + 1 < lg_size (a_log a) -> (ip < length (a_ic a))%nat -> length (a_blk a1 ib) = Z.to_nat BSIZE ->
  extended ip src off n a (put_block a1 bs ib (write_dinode (inode_disk y) (dip (i_inum x)) (a_blk a1 ib))) x y (logged ib bs).
Proof.
  intros y ib a1 Hw Hinv [Hd Hsync] Hlt Hoff Hmax Hsp Hip Hlen. destruct Hw as [Hg Ht Hb Hi Hy Hf Hs]. rewrite Z.max_r in * by lia.
  pose proof (Hf _ (g_iblock _ _ _ _ Hinv) (iblock_not_of_file _ _ _ Hinv)) as Eib. fold ib in Eib.
  pose proof (own_block_grown _ _ _ _ _ _ _ Hg (g_iblock _ _ _ _ Hinv)) as Hob. fold ib in Hob.
  assert (i_inum x' = i_inum x) as En by (rewrite (gr_x _ _ _ _ _ _ Hg); by destruct x).
  pose proof (file_inv_resize a' x' _ (off + n) <[ip := y]> Hi) as Hi1. change (file_inv sb a1 y (off + n)) in Hi1.
  assert (a_ic a1 !! ip = Some y) as Hy1.
  { cbn. apply list_lookup_insert_eq. rewrite (gr_ic _ _ _ _ _ _ Hg). by rewrite length_insert. }
  assert (ib <> ind y) as Hne by (intros E; apply (g_isep _ _ _ _ Hi1); unfold y; cbn; by rewrite En).
  set (d := write_dinode _ _ _). destruct (put_keeps ip _ a1 bs y ib d Hy1 (bitmap_ok_ic _ _ Hb) Hi1 (own_block_ic _ _ _ Hob) Hne)
    as (Hfa & Hg3 & Hb3 & Hi3 & _). set (a3 := put_block a1 bs ib d) in *.
  assert (dinode_ok (inode_disk y)) as Hdy.
  { apply (file_inv_dinode a1 y _ (i_addrs x) Hi1 (bitmap_ok_ic _ _ Hb)); [apply (lo_sz _ _ _ (it_log _ _ Ht))| |].
    - destruct Hd. constructor; try done; unfold y; rewrite (gr_x _ _ _ _ _ _ Hg); destruct x; try done. cbn in *.
      unfold MAXFILE, NDIRECT, NINDIRECT, BSIZE, is_u32 in *. lia.
    - pose proof (g_size _ _ _ _ Hinv). unfold y, MAXFILE, NDIRECT, NINDIRECT, BSIZE, is_u32 in *. cbn. lia. }
  destruct (dinode_roundtrip (inode_disk y) (dip (i_inum x)) (a_blk a1 ib) Hdy (dip_room _ _ Hlen)) as [Hrd Hrest].
  assert (in_disk a1 ib) as Hin by (pose proof (bm_size _ _ Hb); destruct Hob; unfold in_disk; cbn; lia).
  constructor; [| | | |done|exact Hi3| | | | |].
  - cbn. rewrite (gr_ic _ _ _ _ _ _ Hg). apply list_insert_insert_eq.
  - rewrite Z.max_r by lia. unfold y. rewrite (gr_x _ _ _ _ _ _ Hg). by destruct x.
  - apply put_block_txn; [by apply in_txn_ic|done|by destruct Hob|]. cbn. by rewrite (gr_lsize _ _ _ _ _ _ Hg).
  - rewrite (gr_lsize _ _ _ _ _ _ Hg3). cbn. apply (gr_lsize _ _ _ _ _ _ Hg).
  - split; [done|]. change (i_inum y) with (i_inum x'). rewrite En. fold ib. unfold a3, put_block. cbn. rewrite fn_lookup_insert. exact Hrd.
  - intros i Hi'. change (i_size y) with (off + n) in Hi'. rewrite <- Hy by done. pose proof (g_size _ _ _ _ Hi1) as Hs1.
    assert (0 <= i / BSIZE < MAXFILE) as Hbn by (unfold MAXFILE, NDIRECT, NINDIRECT, BSIZE in *; lia).
    pose proof (g_in _ _ _ _ Hi1 (i / BSIZE) ltac:(lia) ltac:(unfold BSIZE in *; lia)) as Hnz.
    unfold file_byte. rewrite (faddr_file_block a3) by (by rewrite Hfa). rewrite Hfa.
    change (file_block a' x' (i / BSIZE)) with (file_block a1 y (i / BSIZE)). rewrite faddr_file_block by done.
    unfold a3, put_block. cbn. rewrite fn_lookup_insert_ne; [done|]. intros E. apply (g_sep _ _ _ _ Hi1 (i / BSIZE) Hbn Hnz).
    change (i_inum y) with (i_inum x'). rewrite En. by symmetry.
  - intros b Hb' Hu. apply (gr_used _ _ _ _ _ _ Hg3); [done|]. by apply (gr_used _ _ _ _ _ _ Hg b).
  - intros b Hb' Hn. unfold a3, put_block. cbn. rewrite fn_lookup_insert_ne by (intros <-; apply Hn; by left).
    apply Hf; [done|]. intros H. apply Hn. by right.
  - intros i Hi'. unfold a3, put_block. cbn. fold ib. rewrite fn_lookup_insert. etransitivity; [by apply Hrest|]. cbn. by rewrite Eib.
Qed.

Lemma gwp_writei ip src off n a x bs Q :
  a_ic a !! ip = Some x -> in_txn a bs -> bitmap_ok a sb -> file_inv sb a x (i_size x) -> inode_sync a x ->
  0 <= off <= i_size x -> 0 <= n -> off + n <= MAXFILE * BSIZE -> length src = Z.to_nat n ->
  Z.of_nat (length bs) + 4 * blocks_left off 0 n + 3 < lg_size (a_log a) -> free_blocks sb a (blocks_left off 0 n + 1) ->
  (forall a' x' bs', extended ip src off n a a' x x' bs' ->
     Z.of_nat (length bs') <= Z.of_nat (length bs) + 4 * blocks_left off 0 n + 3 -> Q n a') ->
  gwp (writei ip src off n) a Q.
Proof.
  intros Hx Ht Hbm Hinv Hsync Hoff Hn Hmax Hsrc Hsp Hfree HQ. assert (MAXFILE * BSIZE = 71680) as EM by done.
  assert (0 <= pot x <= 1) as Hpot by (unfold pot; destruct (ind x =? 0); lia). pose proof (lookup_lt_Some _ _ _ Hx) as Hip.
  unfold writei. apply gwp_bind. eapply gwp_get_inode; [done|].
  rewrite (proj2 (Z.eqb_neq (i_type x) T_DEV)) by apply Hinv. rewrite u32_id by (unfold is_u32; lia).
  rewrite (proj2 (Z.ltb_ge (i_size x) off)), (proj2 (Z.ltb_ge (off + n) off)) by lia. cbn [orb].
  rewrite (proj2 (Z.ltb_ge (MAXFILE * BSIZE) (off + n))) by lia. apply gwp_bind.
  pose proof (writei_loop_gwp ip src off n a x Hoff Hmax Hsrc Hip (S (io_fuel n)) a bs x 0) as Hl. rewrite Z.add_0_r in Hl.
  apply Hl; [lia|by apply wrote_refl| |lia|revert Hfree; apply free_blocks_le; lia|]; clear Hl.
  { unfold blocks_left, io_fuel, BSIZE. destruct (Z.ltb_spec 0 n); lia. }
  intros a' bs' x' Hw Hbs'. pose proof Hw as [Hg Ht' Hb' Hi' _ _ _].
  assert (a_ic a' !! ip = Some x') as Hx' by (rewrite (gr_ic _ _ _ _ _ _ Hg); by apply list_lookup_insert_eq).
  assert (i_size x' = i_size x /\ i_inum x' = i_inum x) as [Esz Ein] by (rewrite (gr_x _ _ _ _ _ _ Hg); by destruct x).
  apply gwp_bind. eapply gwp_get_inode; [done|]. rewrite Esz. apply gwp_bind, gwp_when.
  - intros [_ Hlt%Z.ltb_lt]%andb_true_iff. apply gwp_bind. eapply gwp_upd_inode; [done|].
    set (y := x' <| i_size := off + n |>). set (a1 := a' <| a_ic ::= _ |>).
    pose proof (logged_length (IBLOCK (i_inum x) sb) bs') as Hll.
    eapply (gwp_iupdate ip y a1 bs'); [cbn; apply list_lookup_insert_eq; by eapply lookup_lt_Some|apply Hi'|apply Hi'|by apply in_txn_ic|by apply bitmap_ok_ic
      |apply own_block_ic, Hi'|cbn; rewrite (gr_lsize _ _ _ _ _ _ Hg); lia|].
    change (i_inum y) with (i_inum x'). rewrite Ein. intros Hlen.
    apply gwp_ret. rewrite i32_id by (unfold is_i32; lia). eapply HQ; [|shelve].
    apply (resized_extended ip src off n a a' x x' bs'); try done; lia. Unshelve. lia.
  - intros Hge. apply gwp_ret. rewrite i32_id by (unfold is_i32; lia). eapply HQ; [eapply wrote_extended; try done|lia].
    apply andb_false_iff in Hge as [H|H]; [apply Z.ltb_ge in H|apply Z.ltb_ge in H]; lia.
Qed.

End Grow.

(** C23. What is written to a file is read back, also when the file grows.  In a
    transaction with room in the log, on a disk with enough free blocks, [writei] of any
    bytes at any offset up to the end of the file, as far as the largest size of a file,
    returns the count: [bmap] allocates the blocks that are missing, direct or indirect,
    and the indirect block itself.  [readi] of the same part then returns the bytes
    written, the size is the larger of the old one and the end of what was written, every
    other byte of the file is as it was, the inode on the disk is the one in memory, and
    no block in use of another file has changed.  The file and the bitmap are well formed
    again, so that writing can go on. *)
Theorem writei_readi w me pid a bs ip x src off n :
  let sb := k_sb (w_k w) in
  fs_world w me pid a -> a_ic a !! ip = Some x -> in_txn a bs -> bitmap_ok a sb ->
  file_inv sb a x (i_size x) -> inode_sync w a x ->
  0 <= off <= i_size x -> 0 <= n -> off + n <= MAXFILE * BSIZE -> length src = Z.to_nat n ->
  Z.of_nat (length bs) + 4 * blocks_left off 0 n + 4 < lg_size (a_log a) -> free_blocks sb a (blocks_left off 0 n + 1) ->
  exists w1 w2 a' x' bs', writei ip src off n w = Ok n w1 /\ readi ip off n w1 = Ok (n, src) w2 /\
    fs_world w2 me pid a' /\ k_sb (w_k w2) = sb /\ in_txn a' bs' /\ bitmap_ok a' sb /\
    file_inv sb a' x' (i_size x') /\ inode_sync w a' x' /\
    a_ic a' = <[ip := x']> (a_ic a) /\ i_size x' = Z.max (i_size x) (off + n) /\
    (forall i, 0 <= i < i_size x -> i < off \/ off + n <= i -> file_byte a' x' i = file_byte a x i) /\
    (forall b, own_block sb a b -> b <> IBLOCK (i_inum x) sb -> ~ of_file a x b -> a_blk a' b = a_blk a b).
Proof.
  intros sb Hw Hx Ht Hbm Hinv Hsync Hoff Hn Hmax Hsrc Hsp Hfree. assert (MAXFILE * BSIZE = 71680) as EM by done.
  destruct (gwp_run_sb w me pid (writei ip src off n) a (fun v a' => v = n /\ exists x' bs', extended w ip src off n a a' x x' bs' /\
    Z.of_nat (length bs') <= Z.of_nat (length bs) + 4 * blocks_left off 0 n + 3) Hw)
    as (v & w1 & a' & E1 & Hw1 & (-> & x' & bs' & Hex & Hbs') & Esb1).
  { intros Hctx. eapply gwp_writei; try done; [lia|]. eauto. }
  destruct Hex as [Hic Hx' Ht' Hls Hb' Hi' Hs' Hy' Hu' Hf' _].
  assert (i_size x' = Z.max (i_size x) (off + n)) as Esz by (rewrite Hx'; by destruct x).
  destruct (gwp_run_sb w1 me pid (readi ip off n) a' (fun v b => v = (n, src) /\ b = a') Hw1) as (v & w2 & a2 & E2 & Hw2 & (-> & ->) & Esb2).
  { intros Hctx. eapply (gwp_readi w1 me pid ip x'); [rewrite Hic; apply list_lookup_insert_eq; by eapply lookup_lt_Some
      |apply (file_inv_ok sb); [done|apply Hb']|eapply in_txn_rest; [done|rewrite Hls; lia]|lia|lia|lia|lia|].
    cbv zeta. rewrite Z.min_l by lia. rewrite i32_id by (unfold is_i32; lia). split; [|done]. f_equal.
    apply list_eq. intros i. unfold file_bytes. rewrite list_lookup_fmap. destruct (decide (i < Z.to_nat n)%nat) as [Hi|Hi].
    - rewrite lookup_seq_lt by done. cbn. rewrite Hy' by lia.
      rewrite (proj2 (Z.leb_le off (off + Z.of_nat i))), (proj2 (Z.ltb_lt (off + Z.of_nat i) (off + n))) by lia. cbn [andb].
      replace (Z.to_nat (off + Z.of_nat i - off)) with i by lia. destruct (src !! i) as [v|] eqn:E; [done|]. apply lookup_ge_None in E. lia.
    - rewrite lookup_seq_ge by lia. symmetry. apply lookup_ge_None. lia. }
  exists w1, w2, a', x', bs'. do 3 (split; [done|]). split; [by rewrite Esb2, Esb1|]. do 6 (split; [done|]). split.
  - intros i Hi Ho. rewrite Hy' by lia. destruct (Z.leb_spec off i), (Z.ltb_spec i (off + n)); cbn [andb]; done || lia.
  - intros b Hb Hne Hnf. apply Hf'; [done|]. by intros [->|].
Qed.

(** ** A file to evaluate the theorem on

    A file of 6100 bytes in blocks 18 to 29, all of its direct blocks, on a disk of 40
    blocks: log in 2 to 15, inodes in 16, bitmap in 17. *)

Definition grow_sb : superblock := SB 40 22 8 14 2 16 17.

Definition grow_inode : inode :=
  Inode ROOTDEV 1 1 (SL true 1) true T_FILE 0 0 1 6100 (map (fun i => 18 + Z.of_nat i) (seq 0 12) ++ [0]).

Definition grow_disk : list (list Z) :=
  let z := replicate (Z.to_nat BSIZE) 0 in
  <[16%nat := write_dinode (inode_disk grow_inode) (dip 1) z]>
    (<[17%nat := [255; 255; 255; 63] ++ replicate (Z.to_nat BSIZE - 4) 0]> (replicate 40 z)).

Definition grow_log : logst := Log 2 14 1 false ROOTDEV 0 (replicate (Z.to_nat LOGSIZE) 0).

Definition grow_world : world :=
  let w := demo_world grow_log grow_disk in w <| w_k ::= fun k => k <| k_icache := [grow_inode] |> <| k_sb := grow_sb |> |>.

Definition grow_ast : ast := boot_ast grow_world.

Lemma grow_fs : fs_world grow_world O 1 grow_ast.
Proof.
  assert (Forall (fun d : list Z => length d = Z.to_nat BSIZE) grow_disk) as HF by (apply (bool_decide_unpack _); vm_compute; exact I).
  apply (booted_world _ _ _ grow_disk). destruct (demo_booted grow_log grow_disk eq_refl HF) as (H1 & H2 & H3 & _).
  split; [by split|]. split; [done|]. split; [done|]. by split.
Qed.

Lemma grow_used : Forall (fun b => used grow_ast grow_sb b = true) (map Z.of_nat (seq 0 30)).
Proof. apply (bool_decide_unpack _). vm_compute. exact I. Qed.

Lemma grow_used_at b : 0 <= b < 30 -> used grow_ast grow_sb b = true.
Proof.
  intros Hb. pose proof grow_used as H. rewrite Forall_forall in H. apply H, list_elem_of_fmap. exists (Z.to_nat b).
  split; [lia|]. apply elem_of_seq. lia.
Qed.

Lemma grow_BBLOCK b : 0 <= b < 40 -> BBLOCK b grow_sb = 17.
Proof. intros Hb. unfold BBLOCK, u32. replace (b / BPB) with 0 by (unfold BPB, BSIZE; lia). reflexivity. Qed.

Lemma grow_own b : b = 16 \/ 18 <= b < 30 -> own_block grow_sb grow_ast b.
Proof.
  intros Hb. constructor; [cbn; lia|apply grow_used_at; lia|unfold in_log; cbn; lia|]. intros c Hc. rewrite grow_BBLOCK by done. lia.
Qed.

Lemma grow_bitmap : bitmap_ok grow_ast grow_sb.
Proof.
  constructor; [split; vm_compute; discriminate|split; [vm_compute; discriminate|vm_compute; reflexivity]| |].
  - intros b Hb. rewrite grow_BBLOCK by done. split; [by split|]. unfold in_log. cbn. lia.
  - intros b Hb Hm. apply grow_used_at. destruct Hm as [H|(b' & Hb' & ->)]; [unfold in_log in H; cbn in H; lia|by rewrite grow_BBLOCK].
Qed.

Lemma grow_faddr bn : 0 <= bn < MAXFILE -> faddr grow_ast grow_inode bn = if bn <? 12 then 18 + bn else 0.
Proof.
  intros Hbn. unfold faddr. change NDIRECT with 12. destruct (Z.ltb_spec bn 12) as [H|H]; [|done]. cbn [i_addrs grow_inode].
  rewrite lookup_app_l by (rewrite length_map, length_seq; lia).
  rewrite list_lookup_fmap, lookup_seq_lt by lia. cbn. lia.
Qed.

Lemma grow_inv : file_inv grow_sb grow_ast grow_inode 6100.
Proof.
  assert (forall bn, 0 <= bn < MAXFILE -> faddr grow_ast grow_inode bn <> 0 -> 0 <= bn < 12 /\ faddr grow_ast grow_inode bn = 18 + bn) as Hf.
  { intros bn Hbn. rewrite grow_faddr by done. destruct (Z.ltb_spec bn 12); lia. }
  assert (IBLOCK 1 grow_sb = 16) as Eib by reflexivity.
  constructor; [done|done|done|split; vm_compute; discriminate|by apply grow_used_at|apply grow_own; by left| | |done| | |done].
  - intros bn H1 H2. unfold BSIZE in H2. rewrite grow_faddr by (unfold MAXFILE, NDIRECT, NINDIRECT, BSIZE; lia).
    destruct (Z.ltb_spec bn 12); lia.
  - intros bn Hbn Hne. destruct (Hf bn Hbn Hne) as [? ->]. apply grow_own. lia.
  - intros b1 b2 H1 H2 Hne E. destruct (Hf b1 H1 Hne). destruct (Hf b2 H2 ltac:(congruence)). lia.
  - intros bn Hbn Hne. destruct (Hf bn Hbn Hne) as [? ->]. cbn [i_inum grow_inode]. rewrite Eib. change (ind grow_inode) with 0. lia.
Qed.

Lemma grow_sync : inode_sync grow_world grow_ast grow_inode.
Proof.
  split; [|vm_compute; reflexivity]. constructor; [split; vm_compute; (discriminate || reflexivity)..| |done].
  repeat (constructor; [split; vm_compute; (discriminate || reflexivity)|]). constructor.
Qed.

Lemma grow_txn : in_txn grow_ast [].
Proof. constructor; [|cbn; lia|done|done]. constructor; try done; try (cbn; lia). Qed.

Lemma grow_free : free_blocks grow_sb grow_ast 3.
Proof.
  exists [30; 31; 32]. split; [apply (bool_decide_unpack _); vm_compute; exact I|]. split; [done|].
  repeat constructor; vm_compute; (discriminate || reflexivity).
Qed.

Lemma writei_readi_witness : exists w1 w2 a' x', writei 0 (replicate 100 7) 6100 100 grow_world = Ok 100 w1 /\
  readi 0 6100 100 w1 = Ok (100, replicate 100 7) w2 /\ fs_world w2 O 1 a' /\ i_size x' = 6200 /\ file_byte a' x' 6099 = 0.
Proof.
  destruct (writei_readi grow_world O 1 grow_ast [] 0 grow_inode (replicate 100 7) 6100 100 grow_fs eq_refl grow_txn grow_bitmap
    grow_inv grow_sync ltac:(cbn; lia) ltac:(lia) ltac:(vm_compute; discriminate) eq_refl ltac:(vm_compute; reflexivity) grow_free)
    as (w1 & w2 & a' & x' & bs' & E1 & E2 & Hw & _ & _ & _ & _ & _ & _ & Es & Hb & _).
  exists w1, w2, a', x'. split; [exact E1|]. split; [exact E2|]. split; [exact Hw|]. split; [exact Es|].
  rewrite Hb; [vm_compute; reflexivity|cbn; lia|lia].
Defined.
