(* ===== verification/Mkfs.v ===== *)
(** mkfs.c: the program that builds the disk image the kernel mounts.

    The image file is the list of its blocks.  A run ends early with [None] where
    the program calls [exit(1)] or fails an assertion.  The program runs on a
    little-endian host: on one, [xint] and [xshort] are the identity on their
    types.  The host's files are their names and contents. *)

From S2P Require Import Prelude Kernel Inode Log.

Definition NINODES : Z := 200.
Definition nbitmap : Z := FSSIZE / (BSIZE * 8) + 1.
Definition ninodeblocks : Z := NINODES / IPB + 1.
Definition nlog : Z := LOGSIZE.
Definition nmeta : Z := 2 + nlog + ninodeblocks + nbitmap.
Definition nblocks : Z := FSSIZE - nmeta.

(** The globals that change: the image file, [freeinode] and [freeblock]. *)
Record mkfs := Mkfs { img : list (list Z); freeinode : Z; freeblock : Z }.
#[export] Instance mkfs_set : Settable mkfs := fun r => Mkfs (img r) (freeinode r) (freeblock r).

Definition K (A : Type) : Type := mkfs -> option (A * mkfs).
#[export] Instance K_ret : MRet K := fun A a s => Some (a, s).
#[export] Instance K_bind : MBind K := fun A B k c s =>
  match c s with Some (a, s') => k a s' | None => None end.

Definition exit1 {A} : K A := fun _ => None.
Definition assert (b : bool) : K unit := if b then mret tt else exit1.

Definition xshort (x : Z) : Z := le_val [u8 x; u8 (Z.shiftr x 8)].
Definition xint (x : Z) : Z := le_val [u8 x; u8 (Z.shiftr x 8); u8 (Z.shiftr x 16); u8 (Z.shiftr x 24)].

Definition zeroes : list Z := replicate (Z.to_nat BSIZE) 0.

Definition sb : superblock :=
  SB (xint FSSIZE) (xint nblocks) (xint NINODES) (xint nlog) (xint 2) (xint (2 + nlog))
     (xint (2 + nlog + ninodeblocks)).

(** The bytes of a [struct superblock]. *)
Definition sb_bytes (sb : superblock) : list Z :=
  concat (map (le_bytes 4) [sb_size sb; sb_nblocks sb; sb_ninodes sb; sb_nlog sb; sb_logstart sb;
                            sb_inodestart sb; sb_bmapstart sb]).

(** ** Sectors *)

(** Writing past the end of the file extends it. *)
Definition wsect (sec : Z) (buf : list Z) : K unit := fun s =>
  let sec := Z.to_nat sec in
  Some (tt, s <| img ::= fun im => <[sec := buf]> (im ++ replicate (S sec - length im) zeroes) |>).

Definition rsect (sec : Z) : K (list Z) := fun s =>
  match img s !! Z.to_nat sec with
  | Some buf => Some (buf, s)
  | None => None
  end.

(** ** Inodes *)

Definition winode (inum : Z) (ip : dinode) : K unit :=
  let bn := IBLOCK inum sb in
  buf ← rsect bn;
  wsect bn (write_dinode ip (dip inum) buf).

Definition rinode (inum : Z) : K dinode :=
  let bn := IBLOCK inum sb in
  buf ← rsect bn;
  mret (read_dinode buf (dip inum)).

Definition ialloc (type : Z) : K Z := fun s =>
  let inum := freeinode s in
  (winode inum (Dinode (xshort type) 0 0 (xshort 1) (xint 0) (replicate 13 0)) ;; mret inum)
    (s <| freeinode ::= fun n => u32 (n + 1) |>).

(** ** The bitmap *)

Definition balloc (used : Z) : K unit :=
  assert (used <? BSIZE * 8) ;;
  let buf := foldl (fun buf i =>
      alter (fun x => Z.lor x (Z.shiftl 1 (Z.of_nat i mod 8))) (Z.to_nat (Z.of_nat i / 8)) buf)
    zeroes (seq 0 (Z.to_nat used)) in
  wsect (sb_bmapstart sb) buf.

(** ** Appending to a file *)

(** [freeblock++] *)
Definition take_block : K Z := fun s => Some (freeblock s, s <| freeblock ::= fun n => u32 (n + 1) |>).

Definition set_addr (i : nat) (x : Z) (din : dinode) : dinode :=
  Dinode (di_type din) (di_major din) (di_minor din) (di_nlink din) (di_size din) (<[i := x]> (di_addrs din)).
Definition set_size (sz : Z) (din : dinode) : dinode :=
  Dinode (di_type din) (di_major din) (di_minor din) (di_nlink din) sz (di_addrs din).

Definition addr (din : dinode) (i : nat) : Z := default 0 (di_addrs din !! i).

Definition get_freeblock : K Z := fun s => Some (freeblock s, s).

(** [if(xint(din.addrs[i]) == 0) din.addrs[i] = xint(freeblock++)] *)
Definition need_addr (i : nat) (din : dinode) : K dinode :=
  if xint (addr din i) =? 0 then b ← take_block; mret (set_addr i (xint b) din) else mret din.

(** The block [x] that holds block [fbn] of the file. *)
Definition find_block (fbn : Z) (din : dinode) : K (dinode * Z) :=
  if fbn <? NDIRECT then
    din ← need_addr (Z.to_nat fbn) din;
    mret (din, xint (addr din (Z.to_nat fbn)))
  else
    din ← need_addr (Z.to_nat NDIRECT) din;
    let a := xint (addr din (Z.to_nat NDIRECT)) in
    let i := Z.to_nat (4 * (fbn - NDIRECT)) in
    indirect ← rsect a;
    indirect ← (if get32 indirect i =? 0 then
                  b ← take_block;
                  let indirect := put32 indirect i (xint b) in
                  wsect a indirect ;;
                  mret indirect
                else mret indirect);
    mret (din, xint (get32 indirect i)).

(** The loop [while(n > 0)]; it runs at most [n] times. *)
Fixpoint append_loop (fuel : nat) (p : list Z) (n : Z) (din : dinode) (off : Z) : K (dinode * Z) :=
  if n <=? 0 then mret (din, off) else
  match fuel with
  | O => exit1
  | S fuel =>
      let fbn := off / BSIZE in
      assert (fbn <? MAXFILE) ;;
      r ← find_block fbn din;
      let (din, x) := r : dinode * Z in
      let n1 := Z.min n ((fbn + 1) * BSIZE - off) in
      buf ← rsect x;
      wsect x (blit buf (Z.to_nat (off - fbn * BSIZE)) (take (Z.to_nat n1) p)) ;;
      append_loop fuel (drop (Z.to_nat n1) p) (n - n1) din (off + n1)
  end.

Definition iappend (inum : Z) (p : list Z) (n : Z) : K unit :=
  din ← rinode inum;
  r ← append_loop (Z.to_nat n) p n din (xint (di_size din));
  let (din, off) := r : dinode * Z in
  winode inum (set_size (xint off) din).

(** ** main *)

(** [struct dirent]: [strcpy] or [strncpy] of the name into a zeroed field. *)
Definition dirent (inum : Z) (name : list Z) : list Z :=
  le_bytes 2 (xshort inum) ++ take DIRSIZ (name ++ replicate DIRSIZ 0).

Definition sizeof_dirent : Z := 16.

(** [while((cc = read(fd, buf, sizeof(buf))) > 0) iappend(inum, buf, cc)]: each
    [read] takes a block of the file, the last one what is left. *)
Fixpoint copy_file (fuel : nat) (inum : Z) (data : list Z) : K unit :=
  match fuel, data with
  | S fuel, _ :: _ =>
      let buf := take (Z.to_nat BSIZE) data in
      iappend inum buf (Z.of_nat (length buf)) ;;
      copy_file fuel inum (drop (Z.to_nat BSIZE) data)
  | _, _ => mret tt
  end.

(** Skip the leading _ of a name. *)
Definition skip_underscore (name : list Z) : list Z :=
  match name with 95 :: name => name | _ => name end.

Definition add_file (rootino : Z) (file : list Z * list Z) : K unit :=
  assert (negb (bool_decide (47 ∈ file.1))) ;;
  inum ← ialloc T_FILE;
  iappend rootino (dirent inum (skip_underscore file.1)) sizeof_dirent ;;
  copy_file (length file.2) inum file.2.

Fixpoint add_files (rootino : Z) (files : list (list Z * list Z)) : K unit :=
  match files with
  | [] => mret tt
  | f :: files => add_file rootino f ;; add_files rootino files
  end.

(** [for(i = 0; i < FSSIZE; i++) wsect(i, zeroes)] *)
Fixpoint zero_sectors (secs : list nat) : K unit :=
  match secs with
  | [] => mret tt
  | i :: secs => wsect (Z.of_nat i) zeroes ;; zero_sectors secs
  end.

(** Round the size of the root directory up. *)
Definition fix_root (rootino : Z) : K unit :=
  din ← rinode rootino;
  let off := xint (di_size din) in
  let off := u32 ((off / BSIZE + 1) * BSIZE) in
  winode rootino (set_size (xint off) din).

Definition main (files : list (list Z * list Z)) : K unit :=
  zero_sectors (seq 0 (Z.to_nat FSSIZE)) ;;
  wsect 1 (blit zeroes 0 (sb_bytes sb)) ;;
  rootino ← ialloc T_DIR;
  assert (rootino =? ROOTINO) ;;
  iappend rootino (dirent rootino [46]) sizeof_dirent ;;
  iappend rootino (dirent rootino [46; 46]) sizeof_dirent ;;
  add_files rootino files ;;
  fix_root rootino ;;
  used ← get_freeblock;
  balloc used.

(** The globals when [main] starts, the image just created, and after it has
    computed [nmeta] and set [freeblock]. *)
Definition mkfs_start : mkfs := Mkfs [] 1 nmeta.
