(* ===== verification/MkfsSpec.v ===== *)
(** What mkfs.c leaves on the disk: the files it was given, as the kernel reads
    them. *)

From S2P Require Import Prelude Kernel Inode Log FsSpec Mkfs.

(** ** Conversions *)

Lemma xint_id x : is_u32 x -> xint x = x.
Proof.
  unfold is_u32. intros Hx. unfold xint, u8. cbn [le_val]. rewrite !Z.shiftr_div_pow2 by lia.
  change (2 ^ 8) with 256. change (2 ^ 16) with 65536. change (2 ^ 24) with 16777216. lia.
Qed.

Lemma xshort_id x : 0 <= x < 65536 -> xshort x = x.
Proof.
  intros Hx. unfold xshort, u8. cbn [le_val]. rewrite !Z.shiftr_div_pow2 by lia. change (2 ^ 8) with 256. lia.
Qed.

(** ** Blocks of a file *)

(** Block [k] of a file of the bytes [bs], filled with zeroes. *)
Definition chunk (bs : list Z) (k : nat) : list Z :=
  let c := slice bs (512 * k) 512 in c ++ replicate (512 - length c) 0.

Lemma length_chunk bs k : length (chunk bs k) = 512%nat.
Proof.
  unfold chunk. rewrite length_app, length_replicate. unfold slice. rewrite length_take, length_drop. lia.
Qed.

Lemma chunk_lookup bs k i : (i < 512)%nat -> chunk bs k !! i = Some (default 0 (bs !! (512 * k + i)%nat)).
Proof.
  intros Hi. unfold chunk. set (c := slice bs (512 * k) 512).
  assert (c !! i = bs !! (512 * k + i)%nat) as E by (unfold c; rewrite lookup_slice; by rewrite decide_True).
  destruct (bs !! (512 * k + i)%nat) as [x|] eqn:Ex.
  - rewrite lookup_app_l; [by rewrite E|]. by eapply lookup_lt_Some.
  - apply lookup_ge_None in E. rewrite lookup_app_r by done. apply lookup_replicate. split; [done|lia].
Qed.

Lemma length_zeroes : length zeroes = 512%nat.
Proof. apply length_replicate. Qed.

Lemma zeroes_lookup i : (i < 512)%nat -> zeroes !! i = Some 0.
Proof. intros H. by apply lookup_replicate_2. Qed.

Lemma chunk_end bs k : (length bs <= 512 * k)%nat -> chunk bs k = zeroes.
Proof.
  intros H. apply list_eq. intros i. destruct (decide (i < 512)%nat) as [Hi|Hi].
  - rewrite chunk_lookup by done. rewrite lookup_ge_None_2 by lia. by rewrite zeroes_lookup.
  - rewrite !lookup_ge_None_2; [done|rewrite length_zeroes; lia|rewrite length_chunk; lia].
Qed.

(** Appending within the last block. *)
Lemma chunk_append bs q k : (k = length bs / 512)%nat -> (length bs mod 512 + length q <= 512)%nat ->
  chunk (bs ++ q) k = blit (chunk bs k) (length bs mod 512) q.
Proof.
  intros -> Hq. pose proof (Nat.div_mod_eq (length bs) 512) as E. apply list_eq. intros i.
  rewrite lookup_blit by (rewrite length_chunk; lia). destruct (decide (i < 512)%nat) as [Hi|Hi].
  - rewrite !chunk_lookup by done. case_decide as Hc.
    + rewrite lookup_app_r by lia. replace (512 * (length bs / 512) + i - length bs)%nat with (i - length bs mod 512)%nat by lia.
      destruct (q !! (i - length bs mod 512)%nat) eqn:Eq; [done|]. apply lookup_ge_None in Eq. lia.
    + destruct (decide (i < length bs mod 512)%nat) as [Hl|Hl].
      * by rewrite lookup_app_l by lia.
      * rewrite !lookup_ge_None_2; [done|lia|]. rewrite length_app. lia.
  - rewrite lookup_ge_None_2 by (rewrite length_chunk; lia). rewrite decide_False by lia.
    symmetry. apply lookup_ge_None_2. rewrite length_chunk. lia.
Qed.

Lemma chunk_before bs q k : (512 * (k + 1) <= length bs)%nat -> chunk (bs ++ q) k = chunk bs k.
Proof.
  intros H. apply list_eq. intros i. destruct (decide (i < 512)%nat) as [Hi|Hi].
  - rewrite !chunk_lookup by done. by rewrite lookup_app_l by lia.
  - by rewrite !lookup_ge_None_2 by (rewrite length_chunk; lia).
Qed.

(** ** The image *)

Definition blk (im : list (list Z)) (b : Z) : list Z := default [] (im !! Z.to_nat b).

(** The image has its size, and the blocks not allocated yet are zero. *)
Record disk_ok (im : list (list Z)) (fb : Z) : Prop := Disk_ok {
  d_len : length im = 1000%nat;
  d_blocks : Forall (fun d => length d = 512%nat) im;
  d_fb : 59 <= fb <= 1000;
  d_free : forall b, fb <= b < 1000 -> blk im b = zeroes }.

Lemma disk_lookup im fb b : disk_ok im fb -> 0 <= b < 1000 -> im !! Z.to_nat b = Some (blk im b).
Proof.
  intros [Hl _ _ _] Hb. unfold blk. destruct (im !! Z.to_nat b) eqn:E; [done|]. apply lookup_ge_None in E. lia.
Qed.

Lemma length_blk im fb b : disk_ok im fb -> 0 <= b < 1000 -> length (blk im b) = 512%nat.
Proof.
  intros Hd Hb. pose proof (disk_lookup im fb b Hd Hb) as E. destruct Hd as [_ Hf _ _]. rewrite Forall_lookup in Hf. eauto.
Qed.

Definition put (b : Z) (d : list Z) (im : list (list Z)) : list (list Z) := <[Z.to_nat b := d]> im.

Lemma blk_put im b d b' : (Z.to_nat b < length im)%nat -> 0 <= b -> 0 <= b' -> blk (put b d im) b' = if b =? b' then d else blk im b'.
Proof.
  intros Hl Hb Hb'. unfold blk, put. destruct (Z.eqb_spec b b') as [->|Hne].
  - by rewrite list_lookup_insert_eq.
  - rewrite list_lookup_insert_ne by lia. done.
Qed.

Lemma blk_put_ne im b d b' : 0 <= b -> 0 <= b' -> b <> b' -> blk (put b d im) b' = blk im b'.
Proof. intros Hb Hb' Hne. unfold blk, put. by rewrite list_lookup_insert_ne by lia. Qed.

Lemma disk_put im fb b d : disk_ok im fb -> 0 <= b < fb -> length d = 512%nat -> disk_ok (put b d im) fb.
Proof.
  intros [Hl Hf Hfb Hz] Hb Hd. constructor; [by rewrite <- Hl; apply length_insert| |done|].
  - apply Forall_insert; done.
  - intros b' Hb'. rewrite blk_put_ne by lia. by apply Hz.
Qed.

Lemma disk_take im fb : disk_ok im fb -> fb < 1000 -> disk_ok im (fb + 1) /\ blk im fb = zeroes.
Proof. intros [Hl Hf Hfb Hz] H. split; [constructor; try done; [lia|]; intros b Hb; apply Hz; lia|apply Hz; lia]. Qed.

Lemma rsect_run im fi fb b : disk_ok im fb -> 0 <= b < 1000 -> rsect b (Mkfs im fi fb) = Some (blk im b, Mkfs im fi fb).
Proof. intros Hd Hb. unfold rsect. cbn. by rewrite (disk_lookup im fb b). Qed.

Lemma wsect_run im fi fb b d : length im = 1000%nat -> 0 <= b < 1000 ->
  wsect b d (Mkfs im fi fb) = Some (tt, Mkfs (put b d im) fi fb).
Proof.
  intros Hl Hb. unfold wsect, setter. cbn. replace (S (Z.to_nat b) - length im)%nat with O by lia. cbn. by rewrite app_nil_r.
Qed.

Lemma K_bind_run {A B} (c : K A) (k : A -> K B) s a s' : c s = Some (a, s') -> (c ≫= k) s = k a s'.
Proof. unfold mbind, K_bind. by intros ->. Qed.

Tactic Notation "krun" tactic3(t) := erewrite K_bind_run by t; cbv beta iota zeta.

Lemma elem_snoc {A} (l : list A) x : x ∈ l ++ [x].
Proof. apply elem_of_app. right. by apply list_elem_of_singleton. Qed.

(** ** The blocks of one file *)

Definition own (din : dinode) (bl : list Z) : list Z :=
  bl ++ if (12 <? length bl)%nat then [addr din 12] else [].

(** The inode [din] names the blocks [bl], directly and through its indirect
    block, and these hold the bytes [bs]. *)
Record holds (im : list (list Z)) (fb : Z) (din : dinode) (bl bs : list Z) : Prop := Holds {
  h_addrs : length (di_addrs din) = 13%nat;
  h_max : (length bl <= 140)%nat;
  h_own : Forall (fun b => 59 <= b < fb) (own din bl);
  h_nodup : NoDup (own din bl);
  h_direct : forall k, (k < 12)%nat -> addr din k = default 0 (bl !! k);
  h_ind0 : (length bl <= 12)%nat -> addr din 12 = 0;
  h_ind : (12 < length bl)%nat -> forall j, (j < 128)%nat ->
    get32 (blk im (addr din 12)) (4 * j) = default 0 (bl !! (12 + j)%nat);
  h_data : forall k b, bl !! k = Some b -> blk im b = chunk bs k;
  h_size : (length bs <= 512 * length bl)%nat }.

(** What allocating and writing blocks of this file does to the rest. *)
Record grown (im : list (list Z)) (fb : Z) (din : dinode) (bl : list Z)
    (im' : list (list Z)) (fb' : Z) (din' : dinode) (bl' : list Z) : Prop := Grown {
  g_fb : fb' = fb + Z.of_nat (length (own din' bl')) - Z.of_nat (length (own din bl));
  g_le : fb <= fb';
  g_own : forall b, b ∈ own din' bl' -> b ∈ own din bl \/ fb <= b;
  g_frame : forall b, 0 <= b < fb -> b ∉ own din bl -> blk im' b = blk im b;
  g_type : di_type din' = di_type din;
  g_major : di_major din' = di_major din;
  g_minor : di_minor din' = di_minor din;
  g_nlink : di_nlink din' = di_nlink din;
  g_size : di_size din' = di_size din }.

Lemma grown_refl im fb din bl : grown im fb din bl im fb din bl.
Proof. constructor; auto; lia. Qed.

Lemma grown_trans im fb din bl im1 fb1 din1 bl1 im2 fb2 din2 bl2 :
  grown im fb din bl im1 fb1 din1 bl1 -> grown im1 fb1 din1 bl1 im2 fb2 din2 bl2 ->
  grown im fb din bl im2 fb2 din2 bl2.
Proof.
  intros [A1 A2 A3 A4 A5 A6 A7 A8 A9] [B1 B2 B3 B4 B5 B6 B7 B8 B9]. constructor; try congruence; try lia.
  - intros b Hb. destruct (B3 b Hb) as [H|H]; [by apply A3|right; lia].
  - intros b Hb Hn. rewrite B4; [by apply A4|lia|]. intros Hin. destruct (A3 b Hin) as [H|H]; [done|lia].
Qed.

Lemma length_own din bl : length (own din bl) = (length bl + if (12 <? length bl)%nat then 1 else 0)%nat.
Proof. unfold own. rewrite length_app. by destruct (12 <? length bl)%nat. Qed.

Lemma addr_set i x din j : (i < length (di_addrs din))%nat -> addr (set_addr i x din) j = if (j =? i)%nat then x else addr din j.
Proof.
  intros Hi. unfold addr, set_addr. cbn. destruct (Nat.eqb_spec j i) as [->|Hne].
  - by rewrite list_lookup_insert_eq.
  - by rewrite list_lookup_insert_ne by congruence.
Qed.

Lemma get32_zeroes i : (i + 4 <= 512)%nat -> get32 zeroes i = 0.
Proof.
  intros H. unfold get32. assert (slice zeroes i 4 = replicate 4 0) as ->; [|done].
  apply list_eq. intros j. rewrite lookup_slice. case_decide.
  - by rewrite zeroes_lookup, lookup_replicate_2 by lia.
  - rewrite lookup_ge_None_2; [done|]. rewrite length_replicate. lia.
Qed.

Lemma lookup_snoc_cases {A} (l : list A) x k y : (l ++ [x]) !! k = Some y -> l !! k = Some y \/ k = length l /\ y = x.
Proof.
  intros H. destruct (decide (k < length l)%nat); [left; by rewrite lookup_app_l in H|right].
  rewrite lookup_app_r in H by lia. destruct (k - length l)%nat eqn:E; cbn in H; [|done]. injection H as <-. split; [lia|done].
Qed.

Lemma holds_frame im im' fb fb' din bl bs :
  holds im fb din bl bs -> fb <= fb' -> (forall b, b ∈ own din bl -> blk im' b = blk im b) -> holds im' fb' din bl bs.
Proof.
  intros [H1 H2 H3 H4 H5 H6 H7 H8 H9] Hfb Hfr. constructor; try done.
  - eapply Forall_impl; [exact H3|]. cbn. lia.
  - intros Hl j Hj. rewrite Hfr; [by apply H7|]. unfold own. rewrite (proj2 (Nat.ltb_lt _ _)) by lia. apply elem_snoc.
  - intros k b Hb. rewrite Hfr; [by apply H8|]. unfold own. apply elem_of_app. left. by eapply list_elem_of_lookup_2.
Qed.

(** A new block named directly. *)
Lemma add_direct im fb din bl bs : disk_ok im fb -> fb < 1000 -> holds im fb din bl bs -> (length bl < 12)%nat ->
  let din' := set_addr (length bl) fb din in
  holds im (fb + 1) din' (bl ++ [fb]) bs /\ grown im fb din bl im (fb + 1) din' (bl ++ [fb]).
Proof.
  intros Hd Hfb [H1 H2 H3 H4 H5 H6 H7 H8 H9] Hl din'. unfold own in *.
  assert ((12 <? length bl) = false /\ (12 <? length (bl ++ [fb])) = false)%nat as [E1 E2].
  { rewrite length_app. split; apply Nat.ltb_ge; cbn [length]; lia. }
  rewrite E1, app_nil_r in *.
  assert (forall j, addr din' j = if (j =? length bl)%nat then fb else addr din j) as Ha by (intros j; apply addr_set; lia).
  split.
  - constructor; unfold own; rewrite ?E2, ?app_nil_r.
    + unfold din'. cbn. by rewrite length_insert.
    + rewrite length_app. cbn. lia.
    + apply Forall_app_2; [eapply Forall_impl; [exact H3|]; cbn; lia|]. repeat constructor; destruct Hd; lia.
    + apply NoDup_app. split; [done|]. split; [|apply NoDup_singleton]. intros b Hb Hf. apply list_elem_of_singleton in Hf as ->.
      rewrite Forall_forall in H3. specialize (H3 fb Hb). lia.
    + intros k Hk. rewrite Ha. destruct (Nat.eqb_spec k (length bl)) as [->|Hne].
      * by rewrite lookup_app_r, Nat.sub_diag.
      * rewrite H5 by done. destruct (decide (k < length bl)%nat); [by rewrite lookup_app_l|].
        rewrite !lookup_ge_None_2; [done|rewrite length_app; cbn; lia|lia].
    + intros _. rewrite Ha. rewrite (proj2 (Nat.eqb_neq _ _)) by lia. apply H6. lia.
    + intros Hl'. apply Nat.ltb_lt in Hl'. congruence.
    + intros k b Hb. apply lookup_snoc_cases in Hb as [Hb|[-> ->]]; [by apply H8|].
      rewrite chunk_end by done. by apply Hd.
    + rewrite length_app. lia.
  - constructor; unfold own; rewrite ?E1, ?E2, ?app_nil_r; try done; rewrite ?length_app; cbn [length]; try lia.
    intros b Hb. apply elem_of_app in Hb as [Hb|Hb]; [by left|]. apply list_elem_of_singleton in Hb as ->. right. lia.
Qed.

(** A new block named by the indirect block [addr din 12]. *)
Lemma add_indirect im fb din bl bs :
  let ind := addr din 12 in let im' := put ind (put32 (blk im ind) (4 * (length bl - 12)) fb) im in
  disk_ok im fb -> fb < 1000 -> (12 <= length bl < 140)%nat -> length (di_addrs din) = 13%nat ->
  Forall (fun b => 59 <= b < fb) (bl ++ [ind]) -> NoDup (bl ++ [ind]) ->
  (forall k, (k < 12)%nat -> addr din k = default 0 (bl !! k)) ->
  (forall j, (j < 128)%nat -> get32 (blk im ind) (4 * j) = default 0 (bl !! (12 + j)%nat)) ->
  (forall k b, bl !! k = Some b -> blk im b = chunk bs k) -> (length bs <= 512 * length bl)%nat ->
  holds im' (fb + 1) din (bl ++ [fb]) bs /\ disk_ok im' (fb + 1).
Proof.
  intros ind im' Hd Hfb Hl H1 H3 H4 H5 H7 H8 H9. apply Forall_app in H3 as [Hbl Hind]. apply Forall_cons_1 in Hind as [Hind _].
  apply NoDup_app in H4 as (Hnd & Hni & _).
  assert (length (blk im ind) = 512%nat) as Hlb by (eapply length_blk; [done|lia]).
  assert (forall b, 0 <= b -> blk im' b = if ind =? b then put32 (blk im ind) (4 * (length bl - 12)) fb else blk im b) as Hb'.
  { intros b Hb. apply blk_put; [destruct Hd; lia|lia|done]. }
  assert ((12 <? length (bl ++ [fb])) = true)%nat as E2 by (apply Nat.ltb_lt; rewrite length_app; cbn [length]; lia).
  assert (forall b, b ∈ bl -> b <> ind /\ 59 <= b < fb) as Hbi.
  { intros b Hb. split; [intros ->; apply (Hni _ Hb); by apply list_elem_of_singleton|]. rewrite Forall_forall in Hbl. by apply Hbl. }
  split; [|apply disk_take; [apply disk_put; [done|lia|rewrite length_put32; lia]|done]].
  constructor; unfold own; rewrite ?E2; try done.
  - rewrite length_app. cbn. lia.
  - rewrite !Forall_app. split; [split|]; [eapply Forall_impl; [exact Hbl|]; cbn; lia| |]; repeat constructor; destruct Hd; lia.
  - apply NoDup_app. split; [apply NoDup_app; split; [done|]; split; [|apply NoDup_singleton]|split; [|apply NoDup_singleton]].
    + intros b Hb Hf. apply list_elem_of_singleton in Hf as ->. apply Hbi in Hb. lia.
    + intros b Hb Hf. apply list_elem_of_singleton in Hf as ->. apply elem_of_app in Hb as [Hb|Hb].
      * apply Hbi in Hb. by destruct Hb.
      * apply list_elem_of_singleton in Hb. lia.
  - intros k Hk. rewrite H5 by done. by rewrite lookup_app_l by lia.
  - intros Hle. apply Nat.ltb_lt in E2. lia.
  - intros _ j Hj. rewrite Hb' by lia. fold ind. rewrite Z.eqb_refl. destruct (decide (12 + j = length bl)%nat) as [Ej|Ej].
    + replace (length bl - 12)%nat with j by lia. rewrite get32_put32_eq by lia. rewrite lookup_app_r by lia.
      replace (12 + j - length bl)%nat with O by lia. change (default 0 ([fb] !! 0%nat)) with fb. apply u32_id. unfold is_u32. destruct Hd. lia.
    + rewrite get32_put32_ne by lia. rewrite H7 by done. destruct (decide (12 + j < length bl)%nat).
      * by rewrite lookup_app_l by lia.
      * rewrite !lookup_ge_None_2; [done|rewrite length_app; cbn [length]; lia|lia].
  - intros k b Hb. apply lookup_snoc_cases in Hb as [Hb|[-> ->]].
    + apply list_elem_of_lookup_2 in Hb as Hin. apply Hbi in Hin as [Hne Hr]. rewrite Hb' by lia.
      rewrite (proj2 (Z.eqb_neq _ _)) by congruence. by apply H8.
    + rewrite Hb' by (destruct Hd; lia). rewrite (proj2 (Z.eqb_neq _ _)) by lia. rewrite chunk_end by done. destruct Hd as [_ _ _ Hz]. apply Hz. lia.
  - rewrite length_app. lia.
Qed.

Lemma take_block_run im fi fb : 0 <= fb < 1000 -> take_block (Mkfs im fi fb) = Some (fb, Mkfs im fi (fb + 1)).
Proof. intros H. unfold take_block, setter. cbn. by rewrite u32_id by (unfold is_u32; lia). Qed.

(** A block the file has already. *)
Lemma find_block_old im fi fb din bl bs k x : disk_ok im fb -> holds im fb din bl bs -> bl !! k = Some x ->
  find_block (Z.of_nat k) din (Mkfs im fi fb) = Some ((din, x), Mkfs im fi fb).
Proof.
  intros Hd Hh Hx. apply lookup_lt_Some in Hx as Hk. pose proof (h_max _ _ _ _ _ Hh) as Hmax.
  assert (59 <= x < 1000) as Hxr.
  { pose proof (h_own _ _ _ _ _ Hh) as Ho. rewrite Forall_forall in Ho. specialize (Ho x). destruct Hd. unfold own in Ho.
    specialize (Ho ltac:(apply elem_of_app; left; by eapply list_elem_of_lookup_2)). lia. }
  unfold find_block, need_addr. change NDIRECT with 12. destruct (Z.ltb_spec (Z.of_nat k) 12).
  - rewrite Nat2Z.id, (h_direct _ _ _ _ _ Hh), Hx by lia. cbn [default from_option id].
    rewrite xint_id by (unfold is_u32; lia). rewrite (proj2 (Z.eqb_neq _ _)) by lia. krun reflexivity.
    rewrite (h_direct _ _ _ _ _ Hh), Hx by lia. cbn [default from_option id]. by rewrite xint_id by (unfold is_u32; lia).
  - change (Z.to_nat 12) with 12%nat.
    assert (59 <= addr din 12 < 1000) as Hir.
    { pose proof (h_own _ _ _ _ _ Hh) as Ho. unfold own in Ho. rewrite (proj2 (Nat.ltb_lt _ _)) in Ho by lia.
      apply Forall_app in Ho as [_ Ho]. apply Forall_cons_1 in Ho as [Ho _]. destruct Hd. lia. }
    rewrite xint_id by (unfold is_u32; lia). rewrite (proj2 (Z.eqb_neq _ _)) by lia. krun reflexivity.
    rewrite xint_id by (unfold is_u32; lia). krun (apply rsect_run; [done|lia]).
    pose proof (h_ind _ _ _ _ _ Hh ltac:(lia) (k - 12)%nat ltac:(lia)) as E. replace (12 + (k - 12))%nat with k in E by lia.
    rewrite Hx in E. cbn [default from_option id] in E. replace (4 * (k - 12))%nat with (Z.to_nat (4 * (Z.of_nat k - 12))) in E by lia.
    rewrite E. rewrite (proj2 (Z.eqb_neq _ _)) by lia. krun reflexivity. rewrite E. by rewrite xint_id by (unfold is_u32; lia).
Qed.

(** The first block that needs the indirect block, or a later one. *)
Lemma find_block_indirect im fi fb din (bl : list Z) : let ind := addr din 12 in
  disk_ok im fb -> fb < 1000 -> (12 <= length bl < 140)%nat -> 59 <= ind < fb ->
  get32 (blk im ind) (4 * (length bl - 12)) = 0 ->
  let im' := put ind (put32 (blk im ind) (4 * (length bl - 12)) fb) im in
  find_block (Z.of_nat (length bl)) din (Mkfs im fi fb) = Some ((din, fb), Mkfs im' fi (fb + 1)) /\
  (forall b, 0 <= b -> b <> ind -> blk im' b = blk im b).
Proof.
  intros ind Hd Hfb Hl Hi E im'. assert (length (blk im ind) = 512%nat) as Hlb by (eapply length_blk; [done|lia]).
  split.
  - unfold find_block, need_addr. change NDIRECT with 12. change (Z.to_nat 12) with 12%nat. fold ind.
    destruct (Z.ltb_spec (Z.of_nat (length bl)) 12); [lia|].
    rewrite xint_id by (unfold is_u32; lia). rewrite (proj2 (Z.eqb_neq _ _)) by lia. krun reflexivity. fold ind.
    rewrite xint_id by (unfold is_u32; lia). krun (apply rsect_run; [done|lia]).
    replace (Z.to_nat (4 * (Z.of_nat (length bl) - 12))) with (4 * (length bl - 12))%nat by lia. rewrite E. cbn [Z.eqb].
    assert ((b ← take_block; wsect ind (put32 (blk im ind) (4 * (length bl - 12)) (xint b)) ;;
      mret (put32 (blk im ind) (4 * (length bl - 12)) (xint b))) (Mkfs im fi fb) =
      Some (put32 (blk im ind) (4 * (length bl - 12)) fb, Mkfs im' fi (fb + 1))) as Ew.
    { krun (apply take_block_run; lia). rewrite xint_id by (unfold is_u32; lia).
      krun (apply wsect_run; [destruct Hd; done|lia]). done. }
    krun (exact Ew). rewrite get32_put32_eq by lia. rewrite u32_id by (unfold is_u32; lia). by rewrite xint_id by (unfold is_u32; lia).
  - intros b Hb Hne. apply blk_put_ne; [lia|done|congruence].
Qed.

Lemma own_small din bl : (length bl <= 12)%nat -> own din bl = bl.
Proof. intros H. unfold own. rewrite (proj2 (Nat.ltb_ge _ _)) by lia. apply app_nil_r. Qed.

Lemma own_large din bl : (12 < length bl)%nat -> own din bl = bl ++ [addr din 12].
Proof. intros H. unfold own. by rewrite (proj2 (Nat.ltb_lt _ _)) by lia. Qed.

(** Each case of the allocation of the next block of a file. *)
Lemma find_direct_new im fi fb din bl bs : disk_ok im fb -> holds im fb din bl bs -> (length bl < 12)%nat -> fb + 1 <= 1000 ->
  exists im' fb' din', find_block (Z.of_nat (length bl)) din (Mkfs im fi fb) = Some ((din', fb' - 1), Mkfs im' fi fb') /\
    holds im' fb' din' (bl ++ [fb' - 1]) bs /\ disk_ok im' fb' /\ grown im fb din bl im' fb' din' (bl ++ [fb' - 1]).
Proof.
  intros Hd Hh Hk Hfb. exists im, (fb + 1), (set_addr (length bl) fb din). replace (fb + 1 - 1) with fb by lia.
  destruct (add_direct im fb din bl bs Hd ltac:(lia) Hh Hk) as [Hh' Hg]. split; [|split; [done|split; [apply disk_take; [done|lia]|done]]].
  pose proof (d_fb _ _ Hd). unfold find_block, need_addr. change NDIRECT with 12. destruct (Z.ltb_spec (Z.of_nat (length bl)) 12); [|lia].
  rewrite Nat2Z.id, (h_direct _ _ _ _ _ Hh) by done. rewrite lookup_ge_None_2 by done. change (xint (default 0 None) =? 0) with true. cbv iota.
  assert ((b ← take_block; mret (set_addr (length bl) (xint b) din)) (Mkfs im fi fb) = Some (set_addr (length bl) fb din, Mkfs im fi (fb + 1))) as E.
  { krun (apply take_block_run; lia). by rewrite xint_id by (unfold is_u32; lia). }
  krun (exact E). rewrite addr_set by (rewrite (h_addrs _ _ _ _ _ Hh); lia). rewrite Nat.eqb_refl.
  by rewrite xint_id by (unfold is_u32; lia).
Qed.

Lemma find_first_indirect im fi fb din bl bs : disk_ok im fb -> holds im fb din bl bs -> length bl = 12%nat -> fb + 2 <= 1000 ->
  exists im' fb' din', find_block (Z.of_nat (length bl)) din (Mkfs im fi fb) = Some ((din', fb' - 1), Mkfs im' fi fb') /\
    holds im' fb' din' (bl ++ [fb' - 1]) bs /\ disk_ok im' fb' /\ grown im fb din bl im' fb' din' (bl ++ [fb' - 1]).
Proof.
  intros Hd Hh Hk Hfb. pose proof (d_fb _ _ Hd). destruct (disk_take _ _ Hd ltac:(lia)) as [Hd1 Hz]. pose proof (h_addrs _ _ _ _ _ Hh) as Ha.
  pose proof (h_own _ _ _ _ _ Hh) as Ho. rewrite own_small in Ho by lia. pose proof (h_nodup _ _ _ _ _ Hh) as Hn. rewrite own_small in Hn by lia.
  set (din1 := set_addr 12 fb din). assert (addr din1 12 = fb) as Ei by (unfold din1; rewrite addr_set by lia; done).
  destruct (find_block_indirect im fi (fb + 1) din1 bl) as [E Hfr]; [done|lia|lia|lia|rewrite Ei, Hz; apply get32_zeroes; lia|].
  destruct (add_indirect im (fb + 1) din1 bl bs) as [Hh' Hd']; [done|lia|lia|by unfold din1; cbn; rewrite length_insert| | | | |apply Hh|apply Hh|].
  - rewrite Ei. apply Forall_app_2; [eapply Forall_impl; [exact Ho|]; cbn; lia|]. apply Forall_cons_2; [lia|apply Forall_nil_2].
  - rewrite Ei. apply NoDup_app. split; [done|]. split; [|apply NoDup_singleton]. intros b Hb Hf.
    apply list_elem_of_singleton in Hf as ->. rewrite Forall_forall in Ho. apply Ho in Hb. lia.
  - intros k Hk'. unfold din1. rewrite addr_set by lia. rewrite (proj2 (Nat.eqb_neq _ _)) by lia. by apply Hh.
  - intros j Hj. rewrite Ei, Hz, get32_zeroes by lia. by rewrite lookup_ge_None_2 by lia.
  - rewrite Ei in *. exists (put fb (put32 (blk im fb) (4 * (length bl - 12)) (fb + 1)) im), (fb + 1 + 1), din1.
    replace (fb + 1 + 1 - 1) with (fb + 1) by lia. split; [|split; [done|split; [done|]]].
    + rewrite <- E. unfold find_block, need_addr. change NDIRECT with 12. destruct (Z.ltb_spec (Z.of_nat (length bl)) 12); [lia|].
      change (Z.to_nat 12) with 12%nat. rewrite Ei, (h_ind0 _ _ _ _ _ Hh) by lia. change (xint 0 =? 0) with true.
      rewrite xint_id by (unfold is_u32; lia). rewrite (proj2 (Z.eqb_neq fb 0)) by lia. cbv iota.
      assert ((b ← take_block; mret (set_addr 12 (xint b) din)) (Mkfs im fi fb) = Some (din1, Mkfs im fi (fb + 1))) as E1.
      { krun (apply take_block_run; lia). by rewrite xint_id by (unfold is_u32; lia). }
      krun (exact E1). symmetry. krun reflexivity. done.
    + constructor; try done; try lia; rewrite ?(own_small din) by lia; rewrite ?(own_large din1) by (rewrite length_app; cbn [length]; lia);
        rewrite ?length_app; cbn [length]; try lia.
      * intros b Hb. rewrite Ei in Hb. rewrite !elem_of_app, !list_elem_of_singleton in Hb. destruct Hb as [[Hb| ->]| ->]; [by left|right; lia|right; lia].
      * intros b Hb Hnb. apply Hfr; lia.
Qed.

Lemma find_next_indirect im fi fb din bl bs : disk_ok im fb -> holds im fb din bl bs -> (12 < length bl < 140)%nat -> fb + 1 <= 1000 ->
  exists im' fb' din', find_block (Z.of_nat (length bl)) din (Mkfs im fi fb) = Some ((din', fb' - 1), Mkfs im' fi fb') /\
    holds im' fb' din' (bl ++ [fb' - 1]) bs /\ disk_ok im' fb' /\ grown im fb din bl im' fb' din' (bl ++ [fb' - 1]).
Proof.
  intros Hd Hh Hk Hfb. pose proof (d_fb _ _ Hd).
  pose proof (h_own _ _ _ _ _ Hh) as Ho. rewrite own_large in Ho by lia. pose proof (h_nodup _ _ _ _ _ Hh) as Hn. rewrite own_large in Hn by lia.
  apply Forall_app in Ho as Ho'. destruct Ho' as [_ Hi]. apply Forall_cons_1 in Hi as [Hi _].
  destruct (find_block_indirect im fi fb din bl) as [E Hfr]; [done|lia|lia|lia| |].
  { rewrite (h_ind _ _ _ _ _ Hh) by lia. replace (12 + (length bl - 12))%nat with (length bl) by lia. by rewrite lookup_ge_None_2. }
  destruct (add_indirect im fb din bl bs) as [Hh' Hd']; [done|lia|lia|apply Hh|done|done|apply Hh|apply Hh; lia|apply Hh|apply Hh|].
  eexists _, (fb + 1), din. replace (fb + 1 - 1) with fb by lia. split; [exact E|]. split; [exact Hh'|]. split; [exact Hd'|].
  constructor; try done; try lia; rewrite ?(own_large din) by (rewrite ?length_app; cbn [length]; lia); rewrite ?length_app; cbn [length]; try lia.
  - intros b Hb. rewrite !elem_of_app, !list_elem_of_singleton in *. destruct Hb as [[Hb| ->]| ->]; [by left; left|right; lia|left; by right].
  - intros b Hb Hnb. apply Hfr; [lia|]. intros ->. apply Hnb, elem_of_app. right. set_solver.
Qed.

(** Blocks that a file of [k] data blocks takes. *)
Definition cost (k : nat) : nat := (k + if (12 <? k)%nat then 1 else 0)%nat.

Lemma find_block_new im fi fb din bl bs : disk_ok im fb -> holds im fb din bl bs -> (length bl < 140)%nat ->
  fb + Z.of_nat (cost (S (length bl))) - Z.of_nat (cost (length bl)) <= 1000 ->
  exists im' fb' din', find_block (Z.of_nat (length bl)) din (Mkfs im fi fb) = Some ((din', fb' - 1), Mkfs im' fi fb') /\
    holds im' fb' din' (bl ++ [fb' - 1]) bs /\ disk_ok im' fb' /\ grown im fb din bl im' fb' din' (bl ++ [fb' - 1]).
Proof.
  intros Hd Hh Hk Hfb. unfold cost in Hfb.
  destruct (Nat.ltb_spec 12 (length bl)); destruct (Nat.ltb_spec 12 (S (length bl))); try lia.
  - apply find_next_indirect; [done|done|lia|lia].
  - apply find_first_indirect; [done|done|lia|lia].
  - apply find_direct_new; [done|done|lia|lia].
Qed.

(** Writing in the last block. *)
Lemma write_last im fi fb din bl bs q x :
  let k := (length bs / 512)%nat in let im' := put x (blit (blk im x) (length bs mod 512) q) im in
  disk_ok im fb -> holds im fb din bl bs -> length bl = S k -> bl !! k = Some x -> (length bs mod 512 + length q <= 512)%nat ->
  holds im' fb din bl (bs ++ q) /\ disk_ok im' fb /\ grown im fb din bl im' fb din bl /\
  wsect x (blit (blk im x) (length bs mod 512) q) (Mkfs im fi fb) = Some (tt, Mkfs im' fi fb) /\ 59 <= x < fb.
Proof.
  intros k im' Hd Hh Hl Hx Hq. pose proof Hh as [H1 H2 H3 H4 H5 H6 H7 H8 H9].
  assert (x ∈ bl) as Hxin by (by eapply list_elem_of_lookup_2).
  assert (x ∈ own din bl) as Hxo by (unfold own; apply elem_of_app; by left).
  assert (59 <= x < fb) as Hxr by (rewrite Forall_forall in H3; by apply H3). pose proof (d_fb _ _ Hd) as Hfb.
  assert (length (blk im x) = 512%nat) as Hlx by (eapply length_blk; [done|lia]).
  assert (forall b, b ∈ own din bl -> b <> x -> blk im' b = blk im b) as Hfr.
  { intros b Hb Hne. apply blk_put_ne; [lia| |congruence]. rewrite Forall_forall in H3. specialize (H3 b Hb). lia. }
  split; [|split; [|split; [|split]]].
  - constructor; try done.
    + intros Hk j Hj. rewrite Hfr; [by apply H7|rewrite own_large by done; apply elem_snoc|].
      intros E. rewrite own_large in H4 by done. apply NoDup_app in H4 as (_ & Hni & _). apply (Hni x Hxin). rewrite E. by apply list_elem_of_singleton.
    + intros j b Hb. destruct (decide (j = k)) as [->|Hj].
      * assert (b = x) as -> by congruence. unfold im'. rewrite blk_put by (destruct Hd; lia). rewrite Z.eqb_refl.
        rewrite chunk_append by done. by rewrite (H8 k x Hx).
      * apply lookup_lt_Some in Hb as Hjl. pose proof (Nat.div_mod_eq (length bs) 512). fold k in H.
        rewrite Hfr, chunk_before; [by apply H8|lia| |].
        -- unfold own. apply elem_of_app. left. by eapply list_elem_of_lookup_2.
        -- intros ->. apply Hj. unfold own in H4. apply NoDup_app in H4 as (Hnd & _). by eapply NoDup_lookup.
    + rewrite length_app, Hl. pose proof (Nat.div_mod_eq (length bs) 512). fold k in H. lia.
  - apply disk_put; [done|lia|]. rewrite length_blit; lia.
  - constructor; try done; try lia; [auto|]. intros b Hb Hn. apply blk_put_ne; [lia|lia|]. intros ->. done.
  - apply wsect_run; [destruct Hd; done|lia].
  - done.
Qed.

(** Data blocks of a file of [sz] bytes. *)
Definition nblk (sz : nat) : nat := ((sz + 511) / 512)%nat.

Lemma nblk_mul k : nblk (512 * k) = k.
Proof. unfold nblk. pose proof (Nat.div_mod_eq (512 * k + 511) 512). pose proof (Nat.mod_upper_bound (512 * k + 511) 512). lia. Qed.

Lemma nblk_mono a b : (a <= b)%nat -> (nblk a <= nblk b)%nat.
Proof. intros H. unfold nblk. apply Nat.Div0.div_le_mono. lia. Qed.

Lemma cost_mono a b : (a <= b)%nat -> (cost a <= cost b)%nat.
Proof. intros H. unfold cost. destruct (Nat.ltb_spec 12 a), (Nat.ltb_spec 12 b); lia. Qed.

Lemma nblk_cases sz : (sz mod 512 = 0 /\ nblk sz = sz / 512 \/ sz mod 512 <> 0 /\ nblk sz = S (sz / 512))%nat.
Proof.
  unfold nblk. pose proof (Nat.div_mod_eq sz 512). pose proof (Nat.div_mod_eq (sz + 511) 512).
  pose proof (Nat.mod_upper_bound sz 512). pose proof (Nat.mod_upper_bound (sz + 511) 512).
  destruct (decide (sz mod 512 = 0)%nat); [left|right]; lia.
Qed.

Lemma nblk_next sz n : (0 < n)%nat -> (sz mod 512 + n <= 512)%nat -> nblk (sz + n) = S (sz / 512).
Proof.
  intros H1 H2. unfold nblk. pose proof (Nat.div_mod_eq sz 512). pose proof (Nat.div_mod_eq (sz + n + 511) 512).
  pose proof (Nat.mod_upper_bound (sz + n + 511) 512). lia.
Qed.

(** The block the next bytes go to. *)
Lemma find_block_run im fi fb din bl bs : let k := (length bs / 512)%nat in
  disk_ok im fb -> holds im fb din bl bs -> length bl = nblk (length bs) -> (k < 140)%nat ->
  fb + Z.of_nat (cost (S k)) - Z.of_nat (cost (length bl)) <= 1000 ->
  exists im' fb' din' bl' x, find_block (Z.of_nat k) din (Mkfs im fi fb) = Some ((din', x), Mkfs im' fi fb') /\
    bl' !! k = Some x /\ length bl' = S k /\ holds im' fb' din' bl' bs /\ disk_ok im' fb' /\ grown im fb din bl im' fb' din' bl'.
Proof.
  intros k Hd Hh Hl Hk Hfb. destruct (nblk_cases (length bs)) as [[Hm En]|[Hm En]]; fold k in En; rewrite En in Hl.
  - destruct (find_block_new im fi fb din bl bs Hd Hh) as (im' & fb' & din' & E & Hh' & Hd' & Hg); [lia|by rewrite Hl in *|].
    rewrite Hl in E. exists im', fb', din', (bl ++ [fb' - 1]), (fb' - 1). split; [done|]. split; [by rewrite lookup_app_r, Hl, Nat.sub_diag by lia|].
    split; [rewrite length_app, Hl; cbn [length]; lia|done].
  - destruct (lookup_lt_is_Some_2 bl k) as [x Hx]; [lia|].
    exists im, fb, din, bl, x. split; [by eapply find_block_old|]. split; [done|]. split; [done|]. split; [done|]. split; [done|]. apply grown_refl.
Qed.

Lemma append_loop_run fi : forall fuel p n din im fb bl bs,
  (n <= fuel)%nat -> (n <= length p)%nat -> Z.of_nat (length bs + n) <= 71680 -> length bl = nblk (length bs) ->
  fb + Z.of_nat (cost (nblk (length bs + n))) - Z.of_nat (cost (length bl)) <= 1000 ->
  disk_ok im fb -> holds im fb din bl bs ->
  exists im' fb' din' bl', append_loop fuel p (Z.of_nat n) din (Z.of_nat (length bs)) (Mkfs im fi fb) =
      Some ((din', Z.of_nat (length bs + n)), Mkfs im' fi fb') /\
    holds im' fb' din' bl' (bs ++ take n p) /\ length bl' = nblk (length bs + n) /\ disk_ok im' fb' /\
    grown im fb din bl im' fb' din' bl'.
Proof.
  induction fuel as [|fuel IH]; intros p n din im fb bl bs Hf Hp Hmax Hl Hfb Hd Hh.
  { assert (n = O) as -> by lia. exists im, fb, din, bl. cbn. rewrite Nat.add_0_r, app_nil_r. auto using grown_refl. }
  destruct n as [|n].
  { exists im, fb, din, bl. cbn. rewrite Nat.add_0_r, app_nil_r. auto using grown_refl. }
  cbn [append_loop]. destruct (Z.leb_spec (Z.of_nat (S n)) 0); [lia|]. clear H.
  set (k := (length bs / 512)%nat). pose proof (Nat.div_mod_eq (length bs) 512) as Ediv. fold k in Ediv.
  pose proof (Nat.mod_upper_bound (length bs) 512 ltac:(lia)) as Hmod.
  replace (Z.of_nat (length bs) / BSIZE) with (Z.of_nat k) by (unfold BSIZE; lia).
  krun (unfold assert; rewrite (proj2 (Z.ltb_lt _ _)) by (change MAXFILE with 140; lia); reflexivity).
  set (n1 := Nat.min (S n) (512 - length bs mod 512)).
  assert (nblk (length bs + n1) = S k) as En1 by (apply nblk_next; lia).
  destruct (find_block_run im fi fb din bl bs) as (im1 & fb1 & din1 & bl1 & x & E1 & Hx & Hl1 & Hh1 & Hd1 & Hg1); [done|done|done|fold k; lia| |].
  { assert (S k <= nblk (length bs + S n))%nat as Hc%cost_mono by (rewrite <- En1; apply nblk_mono; lia). fold k. lia. }
  krun (exact E1). replace (Z.min (Z.of_nat (S n)) ((Z.of_nat k + 1) * BSIZE - Z.of_nat (length bs))) with (Z.of_nat n1) by (unfold BSIZE; lia).
  replace (Z.to_nat (Z.of_nat (length bs) - Z.of_nat k * BSIZE)) with (length bs mod 512)%nat by (unfold BSIZE; lia).
  rewrite Nat2Z.id. destruct (write_last im1 fi fb1 din1 bl1 bs (take n1 p) x) as (Hh2 & Hd2 & Hg2 & E2 & Hxr); [done|done|done|done|rewrite length_take; lia|].
  pose proof (d_fb _ _ Hd1). krun (apply rsect_run; [done|lia]). krun (exact E2). set (im2 := put x _ im1) in *.
  assert (length (bs ++ take n1 p) = length bs + n1)%nat as Hlen by (rewrite length_app, length_take; lia).
  destruct (IH (drop n1 p) (S n - n1)%nat din1 im2 fb1 bl1 (bs ++ take n1 p)) as (im3 & fb3 & din3 & bl3 & E3 & Hh3 & Hl3 & Hd3 & Hg3);
    rewrite ?Hlen; [lia|rewrite length_drop; lia|lia|lia| |exact Hd2|exact Hh2|].
  { replace (length bs + n1 + (S n - n1))%nat with (length bs + S n)%nat by lia. destruct Hg1 as [Hgf _ _ _ _ _ _ _ _].
    rewrite !length_own in Hgf. fold (cost (length bl)) in Hgf. fold (cost (length bl1)) in Hgf. lia. }
  rewrite Hlen in E3, Hl3. replace (Z.of_nat (S n) - Z.of_nat n1) with (Z.of_nat (S n - n1)) by lia.
  replace (Z.of_nat (length bs) + Z.of_nat n1) with (Z.of_nat (length bs + n1)) by lia.
  replace (length bs + n1 + (S n - n1))%nat with (length bs + S n)%nat in E3, Hl3 by lia.
  exists im3, fb3, din3, bl3. split; [exact E3|]. split; [|split; [done|split; [done|]]].
  - rewrite <- app_assoc, take_take_drop in Hh3. by replace (n1 + (S n - n1))%nat with (S n) in Hh3 by lia.
  - eapply grown_trans; [exact Hg1|]. eapply grown_trans; [exact Hg2|exact Hg3].
Qed.

(** ** Inodes on the disk *)

Lemma read_dinode_ext d d' off : (forall i, (off <= i < off + 64)%nat -> d !! i = d' !! i) -> read_dinode d off = read_dinode d' off.
Proof.
  intros H. assert (forall o n, (off <= o)%nat -> (o + n <= off + 64)%nat -> slice d o n = slice d' o n) as Hs.
  { intros o n H1 H2. apply slice_ext. intros i Hi. apply H. lia. }
  unfold read_dinode, get16, get32. f_equal; try (by rewrite Hs by lia).
  apply map_ext_in. intros i Hi%in_seq. by rewrite Hs by lia.
Qed.

Definition node (im : list (list Z)) (i : Z) : dinode := read_dinode (blk im (IBLOCK i sb)) (dip i).

Lemma iblock_range i : 0 <= i < 208 -> IBLOCK i sb = i / 8 + 32 /\ 32 <= IBLOCK i sb < 58.
Proof.
  intros Hi. unfold IBLOCK. change IPB with 8. change (sb_inodestart sb) with 32.
  rewrite u32_id by (unfold is_u32; lia). lia.
Qed.

Lemma dip_bound i : (dip i + 64 <= 512)%nat.
Proof. unfold dip. change IPB with 8. change SIZEOF_DINODE with 64. lia. Qed.

Lemma rinode_run im fi fb i : disk_ok im fb -> 0 <= i < 208 -> rinode i (Mkfs im fi fb) = Some (node im i, Mkfs im fi fb).
Proof.
  intros Hd Hi. destruct (iblock_range i Hi) as [_ Hb]. unfold rinode. krun (apply rsect_run; [done|lia]). done.
Qed.

Lemma winode_run im fi fb i din : disk_ok im fb -> 0 <= i < 208 -> dinode_ok din ->
  exists im', winode i din (Mkfs im fi fb) = Some (tt, Mkfs im' fi fb) /\ disk_ok im' fb /\
    node im' i = din /\ (forall j, 0 <= j < 208 -> j <> i -> node im' j = node im j) /\
    (forall b, 0 <= b -> ~ 32 <= b < 58 -> blk im' b = blk im b).
Proof.
  intros Hd Hi Hok. destruct (iblock_range i Hi) as [Ei Hb]. pose proof (d_fb _ _ Hd) as Hfb.
  assert (length (blk im (IBLOCK i sb)) = 512%nat) as Hl by (eapply length_blk; [done|lia]).
  pose proof (dip_bound i) as Hdip. destruct (dinode_roundtrip din (dip i) (blk im (IBLOCK i sb)) Hok ltac:(lia)) as [Hr Hfr].
  assert (length (write_dinode din (dip i) (blk im (IBLOCK i sb))) = 512%nat) as Hlw.
  { pose proof (length_dinode_bytes din (do_len _ Hok)). rewrite write_dinode_blit by (apply Hok || lia). rewrite length_blit; lia. }
  exists (put (IBLOCK i sb) (write_dinode din (dip i) (blk im (IBLOCK i sb))) im). split; [|split; [|split; [|split]]].
  - unfold winode. krun (apply rsect_run; [done|lia]). apply wsect_run; [apply Hd|lia].
  - apply disk_put; [done|lia|done].
  - unfold node. rewrite blk_put by (destruct Hd; lia). by rewrite Z.eqb_refl.
  - intros j Hj Hne. destruct (iblock_range j Hj) as [Ej Hbj]. unfold node. rewrite blk_put by (destruct Hd; lia).
    destruct (Z.eqb_spec (IBLOCK i sb) (IBLOCK j sb)) as [E|E]; [|done]. rewrite <- E. apply read_dinode_ext. intros k Hk.
    apply Hfr. unfold dip in *. change IPB with 8 in *. change SIZEOF_DINODE with 64 in *. lia.
  - intros b Hb0 Hb1. apply blk_put_ne; lia.
Qed.
