(* ===== verification/MkfsMain.v ===== *)
(** The files of the image (mkfs.c): [ialloc], [iappend] and [main]. *)

From S2P Require Import Prelude Kernel Inode Log FsSpec Mkfs MkfsSpec.

(** ** Files *)

(** An inode, the blocks it names and the bytes of the file. *)
Record fnode := Node { n_din : dinode; n_bl : list Z; n_bs : list Z }.

Record node_ok (im : list (list Z)) (fb : Z) (x : fnode) : Prop := Node_ok {
  no_holds : holds im fb (n_din x) (n_bl x) (n_bs x);
  no_len : length (n_bl x) = nblk (length (n_bs x));
  no_size : di_size (n_din x) = Z.of_nat (length (n_bs x));
  no_max : Z.of_nat (length (n_bs x)) <= 71680;
  no_meta : is_i16 (di_type (n_din x)) /\ di_major (n_din x) = 0 /\ di_minor (n_din x) = 0 /\ di_nlink (n_din x) = 1 }.

Definition owned (x : fnode) : list Z := own (n_din x) (n_bl x).

(** The state of mkfs with the files [nodes], the first of them inode 1. *)
Record fs_ok (s : mkfs) (nodes : list fnode) : Prop := Fs_ok {
  f_disk : disk_ok (img s) (freeblock s);
  f_ino : freeinode s = Z.of_nat (length nodes) + 1;
  f_count : (length nodes < 208)%nat;
  f_node : forall t x, nodes !! t = Some x -> node (img s) (Z.of_nat t + 1) = n_din x /\ node_ok (img s) (freeblock s) x;
  f_disj : forall t u x y b, nodes !! t = Some x -> nodes !! u = Some y -> t <> u -> b ∈ owned x -> b ∉ owned y }.

Lemma holds_dinode_ok im fb din bl bs : disk_ok im fb -> holds im fb din bl bs -> is_i16 (di_type din) -> di_major din = 0 ->
  di_minor din = 0 -> di_nlink din = 1 -> is_u32 (di_size din) -> dinode_ok din.
Proof.
  intros Hd Hh Ht Hmj Hmn Hnl Hs. pose proof (d_fb _ _ Hd). pose proof (h_own _ _ _ _ _ Hh) as Ho.
  assert (forall b, b ∈ own din bl -> is_u32 b) as Hr.
  { intros b Hb. rewrite Forall_forall in Ho. specialize (Ho b Hb). unfold is_u32. lia. }
  constructor; [done|by rewrite Hmj|by rewrite Hmn|by rewrite Hnl|done| |apply Hh].
  apply Forall_lookup. intros k a Hk. apply lookup_lt_Some in Hk as Hlt. rewrite (h_addrs _ _ _ _ _ Hh) in Hlt.
  assert (a = addr din k) as -> by (unfold addr; by rewrite Hk). destruct (decide (k = 12)%nat) as [->|Hne].
  - destruct (decide (12 < length bl)%nat).
    + apply Hr. rewrite own_large by done. apply elem_snoc.
    + rewrite (h_ind0 _ _ _ _ _ Hh) by lia. done.
  - rewrite (h_direct _ _ _ _ _ Hh) by lia. destruct (bl !! k) as [b|] eqn:E; [|done]. apply Hr. unfold own.
    apply elem_of_app. left. by eapply list_elem_of_lookup_2.
Qed.

Lemma holds_set_size im fb din bl bs sz : holds im fb din bl bs -> holds im fb (set_size sz din) bl bs.
Proof. by intros [H1 H2 H3 H4 H5 H6 H7 H8 H9]. Qed.

(** File [t] changed, the others left alone. *)
Lemma fs_update im fi fb nodes t x im' fb' x' :
  fs_ok (Mkfs im fi fb) nodes -> nodes !! t = Some x -> disk_ok im' fb' -> fb <= fb' ->
  node im' (Z.of_nat t + 1) = n_din x' -> node_ok im' fb' x' ->
  (forall j, 0 <= j < 208 -> j <> Z.of_nat t + 1 -> node im' j = node im j) ->
  (forall b, 59 <= b < fb -> b ∉ owned x -> blk im' b = blk im b) ->
  (forall b, b ∈ owned x' -> b ∈ owned x \/ fb <= b) ->
  fs_ok (Mkfs im' fi fb') (<[t := x']> nodes).
Proof.
  intros [Hd Hi Hc Hn Hj] Hx Hd' Hle Hn' Hok' Hnf Hfr Hown. cbn [img freeinode freeblock] in *. apply lookup_lt_Some in Hx as Ht.
  assert (forall u y, nodes !! u = Some y -> forall b, b ∈ owned y -> 59 <= b < fb) as Hrange.
  { intros u y Hy b Hb. destruct (Hn u y Hy) as [_ [Yh _ _ _ _]]. pose proof (h_own _ _ _ _ _ Yh) as Yo.
    rewrite Forall_forall in Yo. by apply Yo. }
  assert (forall u y b, nodes !! u = Some y -> u <> t -> b ∈ owned x' -> b ∉ owned y) as Hdis.
  { intros u y b Hy Hne Hb Hby. destruct (Hown b Hb) as [Hb'|Hb'].
    - eapply (Hj t u x y b); [done|done|congruence|exact Hb'|done].
    - pose proof (Hrange u y Hy b Hby). lia. }
  constructor; cbn [img freeinode freeblock]; rewrite ?length_insert; [done|done|done| |].
  - intros u y Hy. destruct (decide (u = t)) as [->|Hne].
    { rewrite list_lookup_insert_eq in Hy by done. injection Hy as <-. by split. }
    rewrite list_lookup_insert_ne in Hy by congruence. destruct (Hn u y Hy) as [Ey [Yh Yl Ys Ym Yt]].
    apply lookup_lt_Some in Hy as Hu. split; [rewrite Hnf by lia; done|]. constructor; [|done..].
    apply (holds_frame im _ fb); [done|done|]. intros b Hb. apply Hfr; [by eapply Hrange|]. by eapply Hj.
  - intros u v y z b Hy Hz Huv Hb. destruct (decide (u = t)) as [->|Hu], (decide (v = t)) as [->|Hv]; [done|..].
    + rewrite list_lookup_insert_eq in Hy by done. injection Hy as <-. rewrite list_lookup_insert_ne in Hz by congruence. by eapply Hdis.
    + rewrite list_lookup_insert_eq in Hz by done. injection Hz as <-. rewrite list_lookup_insert_ne in Hy by congruence.
      intros Hb'. by eapply Hdis.
    + rewrite list_lookup_insert_ne in Hy, Hz by congruence. by eapply (Hj u v).
Qed.

(** [iappend] on one of the files. *)
Lemma iappend_run im fi fb nodes t x p n :
  fs_ok (Mkfs im fi fb) nodes -> nodes !! t = Some x -> (n <= length p)%nat -> Z.of_nat (length (n_bs x) + n) <= 71680 ->
  fb + Z.of_nat (cost (nblk (length (n_bs x) + n))) - Z.of_nat (cost (nblk (length (n_bs x)))) <= 1000 ->
  exists im' fb' x', iappend (Z.of_nat t + 1) p (Z.of_nat n) (Mkfs im fi fb) = Some (tt, Mkfs im' fi fb') /\
    fs_ok (Mkfs im' fi fb') (<[t := x']> nodes) /\ n_bs x' = n_bs x ++ take n p /\ di_type (n_din x') = di_type (n_din x) /\
    fb' = fb + Z.of_nat (cost (nblk (length (n_bs x) + n))) - Z.of_nat (cost (nblk (length (n_bs x)))) /\
    (forall b, 0 <= b < 32 -> blk im' b = blk im b).
Proof.
  intros Hfs Hx Hp Hmax Hfb. pose proof Hfs as [Hd Hi Hc Hn Hj]. cbn [img freeinode freeblock] in *. apply lookup_lt_Some in Hx as Ht.
  destruct (Hn t x Hx) as [Enode [Hh Hl Hs Hm (Hty & Hmj & Hmn & Hnl)]].
  unfold iappend. krun (apply rinode_run; [done|lia]). rewrite Enode, Hs, xint_id by (unfold is_u32; lia). rewrite Nat2Z.id.
  destruct (append_loop_run fi n p n (n_din x) im fb (n_bl x) (n_bs x)) as (im1 & fb1 & din1 & bl1 & E1 & Hh1 & Hl1 & Hd1 & [G1 G2 G3 G4 G5 G6 G7 G8 G9]);
    [lia|done|done|done|by rewrite Hl|done|done|].
  krun (exact E1). rewrite xint_id by (unfold is_u32; lia).
  assert (dinode_ok (set_size (Z.of_nat (length (n_bs x) + n)) din1)) as Hok.
  { eapply holds_dinode_ok; [exact Hd1|by apply holds_set_size|cbn; congruence..|cbn; unfold is_u32; lia]. }
  destruct (winode_run im1 fi fb1 (Z.of_nat t + 1) _ Hd1 ltac:(lia) Hok) as (im2 & E2 & Hd2 & Hn2 & Hn2' & Hb2).
  set (x' := Node (set_size (Z.of_nat (length (n_bs x) + n)) din1) bl1 (n_bs x ++ take n p)).
  assert (length (n_bs x ++ take n p) = length (n_bs x) + n)%nat as Elen by (rewrite length_app, length_take; lia).
  pose proof (h_own _ _ _ _ _ Hh1) as Ho1. rewrite Forall_forall in Ho1. pose proof (h_own _ _ _ _ _ Hh) as Ho. rewrite Forall_forall in Ho.
  assert (forall b, 0 <= b < 59 -> blk im1 b = blk im b) as Hlow.
  { intros b Hb. apply G4; [destruct Hd; lia|]. intros Hin. specialize (Ho _ Hin). lia. }
  exists im2, fb1, x'. split; [exact E2|]. split; [|split; [done|split; [done|split]]].
  - apply (fs_update im fi fb nodes t x); try done.
    + constructor; cbn [x' n_bs n_bl n_din]; rewrite ?Elen; [|done|done|done|cbn; by rewrite G5, G6, G7, G8].
      apply holds_set_size. apply (holds_frame im1 _ fb1); [done|lia|]. intros b Hb. specialize (Ho1 b Hb). apply Hb2; lia.
    + intros j Hj' Hne. rewrite Hn2' by done. unfold node. destruct (iblock_range j Hj') as [_ Hib]. by rewrite Hlow by lia.
    + intros b Hb Hno. rewrite Hb2 by lia. apply G4; [lia|done].
  - rewrite G1, !length_own. fold (cost (length bl1)). fold (cost (length (n_bl x))). by rewrite Hl1, Hl.
  - intros b Hb. rewrite Hb2 by lia. apply Hlow. lia.
Qed.

Definition new_node (ty : Z) : fnode := Node (Dinode ty 0 0 1 0 (replicate 13 0)) [] [].

Lemma holds_new im fb ty : 59 <= fb -> holds im fb (n_din (new_node ty)) [] [].
Proof.
  intros Hfb. assert (forall k, addr (n_din (new_node ty)) k = 0) as Ha.
  { intros k. unfold addr. cbn [new_node n_din di_addrs]. destruct (replicate 13 0 !! k) eqn:E; [|done].
    by apply lookup_replicate in E as [-> _]. }
  constructor; try done; try (cbn; lia).
  apply NoDup_nil_2.
Qed.

Lemma ialloc_run im fi fb nodes ty : fs_ok (Mkfs im fi fb) nodes -> (length nodes < 207)%nat -> 0 <= ty < 32768 ->
  exists im', ialloc ty (Mkfs im fi fb) = Some (Z.of_nat (length nodes) + 1, Mkfs im' (fi + 1) fb) /\
    fs_ok (Mkfs im' (fi + 1) fb) (nodes ++ [new_node ty]) /\ (forall b, 0 <= b < 32 -> blk im' b = blk im b).
Proof.
  intros [Hd Hi Hc Hn Hj] Hlt Hty. cbn [img freeinode freeblock] in *. subst fi.
  assert (dinode_ok (n_din (new_node ty))) as Hok.
  { constructor; cbn; try (unfold is_i16, is_u32; lia); try done. repeat constructor; by vm_compute. }
  destruct (winode_run im (Z.of_nat (length nodes) + 1 + 1) fb (Z.of_nat (length nodes) + 1) _ Hd ltac:(lia) Hok) as (im' & E & Hd' & Hn' & Hnf & Hb).
  exists im'. split; [|split].
  - unfold ialloc, setter. cbn [freeinode]. rewrite (xshort_id ty), (xshort_id 1), (xint_id 0) by (unfold is_u32; lia).
    rewrite u32_id by (unfold is_u32; lia). by krun (exact E).
  - assert (forall u y, nodes !! u = Some y -> node_ok im' fb y) as Hold.
    { intros u y Hy. destruct (Hn u y Hy) as [_ [Yh Yl Ys Ym Yt]]. constructor; [|done..].
      pose proof (h_own _ _ _ _ _ Yh) as Yo. rewrite Forall_forall in Yo. apply (holds_frame im _ fb); [done|lia|].
      intros b Hb'. specialize (Yo b Hb'). apply Hb; lia. }
    constructor; cbn [img freeinode freeblock]; [done|rewrite length_app; cbn [length]; lia|rewrite length_app; cbn [length]; lia| |].
    + intros u y Hy. apply lookup_snoc_cases in Hy as [Hy|[-> ->]].
      * apply lookup_lt_Some in Hy as Hu. split; [|by eapply Hold]. destruct (Hn u y Hy) as [Ey _]. by rewrite Hnf by lia.
      * split; [done|]. constructor; [apply holds_new; apply (d_fb _ _ Hd)|done|done|cbn; lia|]. cbn. unfold is_i16. split; [lia|done].
    + intros u v y z b Hy Hz Huv Hby Hbz.
      assert (forall c, c ∉ owned (new_node ty)) as Hnew by (intros c; apply not_elem_of_nil).
      apply lookup_snoc_cases in Hy as [Hy|[-> ->]]; [|by apply Hnew in Hby].
      apply lookup_snoc_cases in Hz as [Hz|[-> ->]]; [|by apply Hnew in Hbz]. by eapply (Hj u v).
  - intros b Hb'. apply Hb; lia.
Qed.

Lemma copy_file_run fi t : forall fuel data im fb nodes x,
  (length data <= fuel)%nat -> fs_ok (Mkfs im fi fb) nodes -> nodes !! t = Some x ->
  Z.of_nat (length (n_bs x) + length data) <= 71680 ->
  fb + Z.of_nat (cost (nblk (length (n_bs x) + length data))) - Z.of_nat (cost (nblk (length (n_bs x)))) <= 1000 ->
  exists im' fb' x', copy_file fuel (Z.of_nat t + 1) data (Mkfs im fi fb) = Some (tt, Mkfs im' fi fb') /\
    fs_ok (Mkfs im' fi fb') (<[t := x']> nodes) /\ n_bs x' = n_bs x ++ data /\ di_type (n_din x') = di_type (n_din x) /\
    fb' = fb + Z.of_nat (cost (nblk (length (n_bs x) + length data))) - Z.of_nat (cost (nblk (length (n_bs x)))) /\
    (forall b, 0 <= b < 32 -> blk im' b = blk im b).
Proof.
  assert (forall im fb nodes x, fs_ok (Mkfs im fi fb) nodes -> nodes !! t = Some x ->
    exists im' fb' x', Some (tt, Mkfs im fi fb) = Some (tt, Mkfs im' fi fb') /\
    fs_ok (Mkfs im' fi fb') (<[t := x']> nodes) /\ n_bs x' = n_bs x ++ [] /\ di_type (n_din x') = di_type (n_din x) /\
    fb' = fb + Z.of_nat (cost (nblk (length (n_bs x) + 0))) - Z.of_nat (cost (nblk (length (n_bs x)))) /\
    (forall b, 0 <= b < 32 -> blk im' b = blk im b)) as Hnil.
  { intros im fb nodes x Hfs Hx. exists im, fb, x. rewrite list_insert_id, app_nil_r, Nat.add_0_r by done. split; [done|]. split; [done|]. split; [done|]. split; [done|]. split; [lia|done]. }
  induction fuel as [|fuel IH]; intros data im fb nodes x Hf Hfs Hx Hmax Hfb.
  { destruct data; [|cbn in Hf; lia]. by apply Hnil. }
  destruct data as [|c data']; [by apply Hnil|]. cbn [copy_file]. set (data := c :: data') in *.
  set (buf := take (Z.to_nat BSIZE) data). change (Z.to_nat BSIZE) with 512%nat in *.
  assert (0 < length data)%nat as Hpos by (unfold data; cbn; lia).
  assert (length buf = Nat.min 512 (length data)) as Hbuf by apply length_take.
  destruct (iappend_run im fi fb nodes t x buf (length buf)) as (im1 & fb1 & x1 & E1 & Hfs1 & Hbs1 & Hty1 & Hfb1 & Hlow1); [done|done|lia|lia| |].
  { assert (nblk (length (n_bs x) + length buf) <= nblk (length (n_bs x) + length data))%nat as Hc%cost_mono by (apply nblk_mono; lia). lia. }
  rewrite firstn_all in Hbs1. krun (exact E1). apply lookup_lt_Some in Hx as Ht.
  assert (length (n_bs x1) = length (n_bs x) + length buf)%nat as El1 by (by rewrite Hbs1, length_app).
  destruct (IH (drop 512 data) im1 fb1 (<[t := x1]> nodes) x1) as (im2 & fb2 & x2 & E2 & Hfs2 & Hbs2 & Hty2 & Hfb2 & Hlow2);
    rewrite ?length_drop, ?El1; [lia|done|by apply list_lookup_insert_eq|lia| |].
  { replace (length (n_bs x) + length buf + (length data - 512))%nat with (length (n_bs x) + length data)%nat by lia. lia. }
  exists im2, fb2, x2. split; [exact E2|]. split; [by rewrite list_insert_insert_eq in Hfs2|].
  split; [rewrite Hbs2, Hbs1, <- app_assoc; unfold buf; by rewrite take_drop|]. split; [congruence|]. split.
  - rewrite El1, length_drop in Hfb2. replace (length (n_bs x) + length buf + (length data - 512))%nat with (length (n_bs x) + length data)%nat in Hfb2 by lia. lia.
  - intros b Hb. by rewrite Hlow2, Hlow1.
Qed.

(** ** The root directory and the files *)

Lemma length_dirent inum name : length (dirent inum name) = 16%nat.
Proof.
  unfold dirent. rewrite length_app, length_le_bytes, length_take, length_app, length_replicate. unfold DIRSIZ. lia.
Qed.

Lemma add_file_run im fi fb nodes r name data :
  fs_ok (Mkfs im fi fb) nodes -> nodes !! 0%nat = Some r -> (length nodes < 207)%nat -> 47 ∉ name ->
  Z.of_nat (length (n_bs r) + 16) <= 71680 -> Z.of_nat (length data) <= 71680 ->
  fb + Z.of_nat (cost (nblk (length (n_bs r) + 16))) - Z.of_nat (cost (nblk (length (n_bs r)))) + Z.of_nat (cost (nblk (length data))) <= 1000 ->
  exists im' fb' r' f, add_file 1 (name, data) (Mkfs im fi fb) = Some (tt, Mkfs im' (fi + 1) fb') /\
    fs_ok (Mkfs im' (fi + 1) fb') (<[0%nat := r']> nodes ++ [f]) /\
    n_bs r' = n_bs r ++ dirent (Z.of_nat (length nodes) + 1) (skip_underscore name) /\ di_type (n_din r') = di_type (n_din r) /\
    n_bs f = data /\ di_type (n_din f) = T_FILE /\
    fb' = fb + Z.of_nat (cost (nblk (length (n_bs r) + 16))) - Z.of_nat (cost (nblk (length (n_bs r)))) + Z.of_nat (cost (nblk (length data))) /\
    (forall b, 0 <= b < 32 -> blk im' b = blk im b).
Proof.
  intros Hfs Hr Hc Hname Hmr Hmd Hfb. apply lookup_lt_Some in Hr as H0. unfold add_file. cbn [fst snd].
  krun (unfold assert; rewrite bool_decide_eq_false_2 by done; reflexivity).
  destruct (ialloc_run im fi fb nodes T_FILE Hfs Hc ltac:(unfold T_FILE; lia)) as (im1 & E1 & Hfs1 & Hlow1). krun (exact E1).
  set (de := dirent (Z.of_nat (length nodes) + 1) (skip_underscore name)).
  destruct (iappend_run im1 (fi + 1) fb (nodes ++ [new_node T_FILE]) 0 r de 16) as (im2 & fb2 & r' & E2 & Hfs2 & Hbs2 & Hty2 & Hfb2 & Hlow2);
    [done|by rewrite lookup_app_l|by unfold de; rewrite length_dirent|done|lia|].
  rewrite take_ge in Hbs2 by (unfold de; by rewrite length_dirent). krun (exact E2).
  assert (<[0%nat := r']> (nodes ++ [new_node T_FILE]) = <[0%nat := r']> nodes ++ [new_node T_FILE]) as Ei by (by rewrite insert_app_l).
  rewrite Ei in Hfs2. assert (length (<[0%nat := r']> nodes) = length nodes) as Eli by apply length_insert.
  destruct (copy_file_run (fi + 1) (length nodes) (length data) data im2 fb2 (<[0%nat := r']> nodes ++ [new_node T_FILE]) (new_node T_FILE))
    as (im3 & fb3 & f & E3 & Hfs3 & Hbs3 & Hty3 & Hfb3 & Hlow3); [done|done|by rewrite lookup_app_r, Eli, Nat.sub_diag by lia|done| |].
  { change (length (n_bs (new_node T_FILE))) with O. change (cost (nblk 0)) with O. cbn [Nat.add]. lia. }
  exists im3, fb3, r', f. split; [exact E3|]. split; [|split; [done|split; [done|split; [done|split; [done|split]]]]].
  - rewrite insert_app_r_alt, Eli, Nat.sub_diag in Hfs3 by lia. done.
  - change (length (n_bs (new_node T_FILE))) with O in Hfb3. change (cost (nblk 0)) with O in Hfb3. cbn [Nat.add] in Hfb3. lia.
  - intros b Hb. by rewrite Hlow3, Hlow2, Hlow1.
Qed.

(** The directory entries of the files, from inode [inum] on. *)
Fixpoint entries (inum : Z) (files : list (list Z * list Z)) : list Z :=
  match files with
  | [] => []
  | f :: files => dirent inum (skip_underscore f.1) ++ entries (inum + 1) files
  end.

Lemma length_entries files : forall inum, length (entries inum files) = (16 * length files)%nat.
Proof. induction files as [|f files IH]; intros inum; [done|]. cbn [entries length]. rewrite length_app, length_dirent, IH. lia. Qed.

Fixpoint files_cost (files : list (list Z * list Z)) : nat :=
  match files with [] => O | f :: files => (cost (nblk (length f.2)) + files_cost files)%nat end.

(** Names without a slash, contents that fit in a file. *)
Definition file_fits (f : list Z * list Z) : Prop := 47 ∉ f.1 /\ Z.of_nat (length f.2) <= 71680.

Definition stored (f : list Z * list Z) (x : fnode) : Prop := n_bs x = f.2 /\ di_type (n_din x) = T_FILE.

Lemma add_files_run : forall files im fi fb nodes r,
  fs_ok (Mkfs im fi fb) nodes -> nodes !! 0%nat = Some r -> (length nodes + length files <= 207)%nat -> Forall file_fits files ->
  Z.of_nat (length (n_bs r) + 16 * length files) <= 71680 ->
  fb + Z.of_nat (cost (nblk (length (n_bs r) + 16 * length files))) - Z.of_nat (cost (nblk (length (n_bs r)))) + Z.of_nat (files_cost files) <= 1000 ->
  exists im' fi' fb' r' xs, add_files 1 files (Mkfs im fi fb) = Some (tt, Mkfs im' fi' fb') /\
    fs_ok (Mkfs im' fi' fb') (<[0%nat := r']> nodes ++ xs) /\ Forall2 stored files xs /\
    n_bs r' = n_bs r ++ entries (Z.of_nat (length nodes) + 1) files /\ di_type (n_din r') = di_type (n_din r) /\
    (forall b, 0 <= b < 32 -> blk im' b = blk im b).
Proof.
  induction files as [|[name data] files IH]; intros im fi fb nodes r Hfs Hr Hc Hfit Hmr Hfb.
  { exists im, fi, fb, r, []. rewrite list_insert_id, !app_nil_r by done. split; [done|]. split; [done|]. split; [constructor|done]. }
  apply Forall_cons_1 in Hfit as [[Hname Hmd] Hfit]. cbn [length files_cost fst snd] in *. apply lookup_lt_Some in Hr as H0.
  assert (nblk (length (n_bs r) + 16) <= nblk (length (n_bs r) + 16 * S (length files)))%nat as Hcm%cost_mono by (apply nblk_mono; lia).
  destruct (add_file_run im fi fb nodes r name data) as (im1 & fb1 & r1 & f & E1 & Hfs1 & Hbs1 & Hty1 & Hbf & Htf & Hfb1 & Hlow1);
    [done|done|lia|done|lia|done|lia|].
  assert (length (n_bs r1) = length (n_bs r) + 16)%nat as El1 by (by rewrite Hbs1, length_app, length_dirent).
  assert (length (<[0%nat := r1]> nodes ++ [f]) = S (length nodes)) as Eln by (rewrite length_app, length_insert; cbn; lia).
  destruct (IH im1 (fi + 1) fb1 (<[0%nat := r1]> nodes ++ [f]) r1) as (im2 & fi2 & fb2 & r2 & xs & E2 & Hfs2 & Hst & Hbs2 & Hty2 & Hlow2);
    rewrite ?Eln, ?El1; [done|by rewrite lookup_app_l, list_lookup_insert_eq by (rewrite ?length_insert; lia)|lia|done|lia| |].
  { replace (length (n_bs r) + 16 + 16 * length files)%nat with (length (n_bs r) + 16 * S (length files))%nat by lia. lia. }
  exists im2, fi2, fb2, r2, (f :: xs). split; [cbn [add_files]; by krun (exact E1)|]. split; [|split; [|split; [|split]]].
  - rewrite insert_app_l in Hfs2 by (rewrite length_insert; lia). rewrite list_insert_insert_eq in Hfs2. by rewrite <- app_assoc in Hfs2.
  - constructor; [by split|done].
  - rewrite Hbs2, Hbs1, Eln. cbn [entries fst]. rewrite <- app_assoc. by replace (Z.of_nat (length nodes) + 1 + 1) with (Z.of_nat (S (length nodes)) + 1) by lia.
  - congruence.
  - intros b Hb. by rewrite Hlow2, Hlow1.
Qed.

(** ** The rest of [main] *)

Lemma zero_sectors_run fi fb : forall r im,
  zero_sectors (seq (length im) r) (Mkfs im fi fb) = Some (tt, Mkfs (im ++ replicate r zeroes) fi fb).
Proof.
  induction r as [|r IH]; intros im; cbn [seq zero_sectors replicate]; [by rewrite app_nil_r|].
  assert (wsect (Z.of_nat (length im)) zeroes (Mkfs im fi fb) = Some (tt, Mkfs (im ++ [zeroes]) fi fb)) as E.
  { unfold wsect, setter. cbn [img freeinode freeblock]. rewrite Nat2Z.id. replace (S (length im) - length im)%nat with 1%nat by lia.
    by rewrite insert_app_r_alt, Nat.sub_diag by lia. }
  krun (exact E). specialize (IH (im ++ [zeroes])). rewrite length_app in IH. cbn [length] in IH. rewrite Nat.add_1_r in IH.
  rewrite IH. by rewrite <- app_assoc.
Qed.

(** The bitmap with the first [n] blocks marked. *)
Definition bitmap (n : nat) : list Z :=
  foldl (fun buf i => alter (fun x => Z.lor x (Z.shiftl 1 (Z.of_nat i mod 8))) (Z.to_nat (Z.of_nat i / 8)) buf) zeroes (seq 0 n).

Lemma bitmap_bits n : (n < 4096)%nat -> length (bitmap n) = 512%nat /\
  forall b, 0 <= b < 4096 -> Z.testbit (default 0 (bitmap n !! Z.to_nat (b / 8))) (b mod 8) = (b <? Z.of_nat n).
Proof.
  induction n as [|n IH]; intros Hn.
  - split; [apply length_zeroes|]. intros b Hb. cbn [bitmap seq foldl]. rewrite zeroes_lookup by lia.
    cbn [default from_option id]. rewrite Z.bits_0. symmetry. apply Z.ltb_ge. lia.
  - destruct (IH ltac:(lia)) as [Hl Hbits]. unfold bitmap. rewrite seq_S, foldl_app. cbn [foldl plus]. fold (bitmap n).
    split; [by rewrite length_alter|]. intros b Hb. specialize (Hbits b Hb).
    destruct (lookup_lt_is_Some_2 (bitmap n) (Z.to_nat (b / 8))) as [x Hx]; [lia|]. rewrite Hx in Hbits. cbn [default from_option id] in Hbits.
    rewrite list_lookup_alter. case_decide as Hd.
    + rewrite Hd, Hx. cbn [fmap option_fmap option_map default from_option id]. rewrite Z.shiftl_mul_pow2, Z.mul_1_l by lia. rewrite Z.lor_spec, Z.pow2_bits_eqb by lia. rewrite Hbits.
      destruct (Z.ltb_spec b (Z.of_nat n)), (Z.ltb_spec b (Z.of_nat (S n))), (Z.eqb_spec (Z.of_nat n mod 8) (b mod 8)); try done; lia.
    + rewrite Hx. cbn [default from_option id]. rewrite Hbits.
      destruct (Z.ltb_spec b (Z.of_nat n)), (Z.ltb_spec b (Z.of_nat (S n))); try done; lia.
Qed.

Lemma balloc_run im fi fb : disk_ok im fb ->
  balloc fb (Mkfs im fi fb) = Some (tt, Mkfs (put 58 (bitmap (Z.to_nat fb)) im) fi fb).
Proof.
  intros Hd. pose proof (d_fb _ _ Hd). unfold balloc.
  krun (unfold assert; rewrite (proj2 (Z.ltb_lt _ _)) by (change (BSIZE * 8) with 4096; lia); reflexivity).
  change (sb_bmapstart sb) with 58. apply wsect_run; [apply Hd|lia].
Qed.

(** [fix_root] rounds the size of the directory. *)
Definition rounded (n : nat) : Z := (Z.of_nat n / 512 + 1) * 512.

Lemma fix_root_run im fi fb nodes r : fs_ok (Mkfs im fi fb) nodes -> nodes !! 0%nat = Some r ->
  exists im', fix_root 1 (Mkfs im fi fb) = Some (tt, Mkfs im' fi fb) /\ disk_ok im' fb /\
    node im' 1 = set_size (rounded (length (n_bs r))) (n_din r) /\
    (forall j, 0 <= j < 208 -> j <> 1 -> node im' j = node im j) /\
    (forall b, 0 <= b -> ~ 32 <= b < 58 -> blk im' b = blk im b).
Proof.
  intros [Hd Hi Hc Hn Hj] Hr. cbn [img freeinode freeblock] in *. destruct (Hn _ _ Hr) as [En [Hh Hl Hs Hm (Ht & Hmj & Hmn & Hnl)]].
  change (Z.of_nat 0 + 1) with 1 in En. unfold fix_root. krun (apply rinode_run; [done|lia]). rewrite En, Hs. rewrite (xint_id (Z.of_nat (length (n_bs r)))) by (unfold is_u32; lia).
  change BSIZE with 512. fold (rounded (length (n_bs r))). assert (is_u32 (rounded (length (n_bs r)))) as Hu by (unfold rounded, is_u32; lia).
  rewrite u32_id, xint_id by done. apply winode_run; [done|lia|].
  eapply holds_dinode_ok; [exact Hd|by apply holds_set_size|done..].
Qed.

Definition image0 : list (list Z) := put 1 (blit zeroes 0 (sb_bytes sb)) (replicate 1000 zeroes).

Lemma length_sb_block : length (blit zeroes 0 (sb_bytes sb)) = 512%nat.
Proof. vm_compute. reflexivity. Qed.

Lemma image0_ok : disk_ok image0 59.
Proof.
  apply disk_put; [|lia|apply length_sb_block]. constructor; [apply length_replicate| |lia|].
  - apply Forall_replicate. apply length_zeroes.
  - intros b Hb. unfold blk. rewrite lookup_replicate_2 by lia. done.
Qed.

(** The contents of the root directory. *)
Definition dir_bytes (files : list (list Z * list Z)) : list Z :=
  dirent 1 [46] ++ dirent 1 [46; 46] ++ entries 2 files.

(** The files fit on the disk. *)
Record fits (files : list (list Z * list Z)) : Prop := Fits {
  fit_count : (length files <= 206)%nat;
  fit_each : Forall file_fits files;
  fit_room : 59 + Z.of_nat (cost (nblk (32 + 16 * length files))) + Z.of_nat (files_cost files) <= 1000 }.

(** What is on the disk when [main] has ended. *)
Record image_ok (im : list (list Z)) (fb : Z) (files : list (list Z * list Z)) : Prop := Image_ok {
  im_disk : disk_ok im fb;
  im_sb : sb_decode (blk im 1) = sb;
  im_root : exists bl, holds im fb (node im 1) bl (dir_bytes files) /\ length bl = nblk (length (dir_bytes files)) /\
    di_type (node im 1) = T_DIR /\ di_size (node im 1) = rounded (length (dir_bytes files));
  im_file : forall i f, files !! i = Some f -> exists bl, let din := node im (Z.of_nat i + 2) in
    holds im fb din bl f.2 /\ length bl = nblk (length f.2) /\
    di_type din = T_FILE /\ di_nlink din = 1 /\ di_size din = Z.of_nat (length f.2);
  im_bitmap : forall b, 0 <= b < 4096 ->
    Z.testbit (default 0 (blk im 58 !! Z.to_nat (b / 8))) (b mod 8) = (b <? fb) }.

Lemma start_run files : fits files ->
  exists im r, fs_ok (Mkfs im 2 (59 + Z.of_nat (cost (nblk 32)))) [r] /\ n_bs r = dirent 1 [46] ++ dirent 1 [46; 46] /\ di_type (n_din r) = T_DIR /\
    (forall b, 0 <= b < 32 -> blk im b = blk image0 b) /\
    main files mkfs_start = (add_files 1 files ;; fix_root 1 ;; used ← get_freeblock; balloc used) (Mkfs im 2 (59 + Z.of_nat (cost (nblk 32)))).
Proof.
  intros [Hc Hfit Hroom]. unfold main, mkfs_start. change nmeta with 59.
  krun (exact (zero_sectors_run 1 59 (Z.to_nat FSSIZE) [])). cbn [app].
  krun (apply wsect_run; [apply length_replicate|lia]). fold image0.
  assert (fs_ok (Mkfs image0 1 59) []) as Hfs0.
  { constructor; [apply image0_ok|done|cbn; lia|intros t x Hx; by rewrite lookup_nil in Hx|intros t u x y b Hx; by rewrite lookup_nil in Hx]. }
  destruct (ialloc_run image0 1 59 [] T_DIR Hfs0 ltac:(cbn; lia) ltac:(unfold T_DIR; lia)) as (im1 & E1 & Hfs1 & Hlow1).
  krun (exact E1). krun reflexivity. change (1 + 1) with 2 in *. cbn [app] in Hfs1.
  assert (nblk 16 <= nblk 32)%nat as Hc16 by (apply nblk_mono; lia). apply cost_mono in Hc16.
  assert (nblk 32 <= nblk (32 + 16 * length files))%nat as Hc32 by (apply nblk_mono; lia). apply cost_mono in Hc32.
  destruct (iappend_run im1 2 59 [new_node T_DIR] 0 (new_node T_DIR) (dirent 1 [46]) 16) as (im2 & fb2 & r2 & E2 & Hfs2 & Hbs2 & Hty2 & Hfb2 & Hlow2);
    [done|done|by rewrite length_dirent|cbn; lia|cbn [new_node n_bs length Nat.add]; lia|].
  krun (exact E2). rewrite take_ge in Hbs2 by (by rewrite length_dirent). cbn [new_node n_bs app length Nat.add] in Hbs2, Hfb2.
  assert (length (n_bs r2) = 16%nat) as El2 by (by rewrite Hbs2, length_dirent).
  change (cost (nblk 0)) with O in Hfb2.
  destruct (iappend_run im2 2 fb2 [r2] 0 r2 (dirent 1 [46; 46]) 16) as (im3 & fb3 & r3 & E3 & Hfs3 & Hbs3 & Hty3 & Hfb3 & Hlow3);
    rewrite ?El2; [done|done|by rewrite length_dirent|lia|change (16 + 16)%nat with 32%nat; lia|].
  krun (exact E3). rewrite take_ge in Hbs3 by (by rewrite length_dirent). rewrite El2 in Hfb3. change (16 + 16)%nat with 32%nat in Hfb3.
  assert (fb3 = 59 + Z.of_nat (cost (nblk 32))) as -> by lia.
  exists im3, r3. split; [done|]. split; [by rewrite Hbs3, Hbs2|]. split; [by rewrite Hty3, Hty2|]. split; [|done].
  intros b Hb. by rewrite Hlow3, Hlow2, Hlow1.
Qed.

(** mkfs builds the image it should. *)
Lemma main_run files : fits files -> exists im fi fb, main files mkfs_start = Some (tt, Mkfs im fi fb) /\ image_ok im fb files.
Proof.
  intros Hfits. destruct (start_run files Hfits) as (im0 & r0 & Hfs0 & Hbs0 & Hty0 & Hlow0 & ->). destruct Hfits as [Hc Hfit Hroom].
  assert (length (n_bs r0) = 32%nat) as El0 by (by rewrite Hbs0, length_app, !length_dirent).
  destruct (add_files_run files im0 2 _ [r0] r0 Hfs0 eq_refl) as (im1 & fi1 & fb1 & r & xs & E1 & Hfs1 & Hst & Hbs & Hty & Hlow1);
    rewrite ?El0; [cbn; lia|done|lia|lia|].
  krun (exact E1). cbn [list_insert] in Hfs1. change (<[0%nat := r]> [r0] ++ xs) with (r :: xs) in Hfs1.
  destruct (fix_root_run im1 fi1 fb1 (r :: xs) r Hfs1 eq_refl) as (im2 & E2 & Hd2 & Hroot & Hnode & Hb2).
  krun (exact E2). krun reflexivity. eexists _, fi1, fb1. split; [by apply balloc_run|]. set (im3 := put 58 _ im2).
  pose proof (d_fb _ _ Hd2) as Hfb. destruct (bitmap_bits (Z.to_nat fb1) ltac:(lia)) as [Hlb Hbits].
  assert (forall b, 0 <= b -> b <> 58 -> blk im3 b = blk im2 b) as Hb3 by (intros b Hb Hne; apply blk_put_ne; lia).
  assert (forall j, 0 <= j < 208 -> node im3 j = node im2 j) as Hn3.
  { intros j Hj. unfold node. destruct (iblock_range j Hj) as [_ Hib]. by rewrite Hb3 by lia. }
  assert (n_bs r = dir_bytes files) as Edir by (by rewrite Hbs, Hbs0, <- app_assoc).
  assert (forall b, 59 <= b -> blk im3 b = blk im1 b) as Hhigh by (intros b Hb; rewrite Hb3, Hb2 by lia; done).
  destruct Hfs1 as [Hd1 Hi1 Hc1 Hn1 Hj1]. cbn [img freeinode freeblock] in *.
  assert (forall t x, (r :: xs) !! t = Some x -> holds im3 fb1 (n_din x) (n_bl x) (n_bs x)) as Hholds.
  { intros t x Hx. destruct (Hn1 t x Hx) as [_ [Hh _ _ _ _]]. apply (holds_frame im1 _ fb1); [done|lia|].
    pose proof (h_own _ _ _ _ _ Hh) as Ho. rewrite Forall_forall in Ho. intros b Hb. specialize (Ho b Hb). apply Hhigh. lia. }
  constructor.
  - apply disk_put; [done|lia|done].
  - rewrite Hb3, Hb2, Hlow1, Hlow0 by lia. vm_compute. reflexivity.
  - exists (n_bl r). rewrite Hn3, Hroot by lia. destruct (Hn1 0%nat r eq_refl) as [_ [_ Hl _ _ _]]. rewrite <- Edir.
    split; [apply holds_set_size; by apply (Hholds O)|]. split; [done|]. split; [|done]. cbn. by rewrite Hty.
  - intros i f Hf. destruct (Forall2_lookup_l _ _ _ _ _ Hst Hf) as (x & Hx & Hbx & Htx).
    apply lookup_lt_Some in Hf as Hi. destruct (Hn1 (S i) x Hx) as [En [_ Hl Hs _ (_ & _ & _ & Hnl)]].
    exists (n_bl x). cbv zeta. replace (Z.of_nat i + 2) with (Z.of_nat (S i) + 1) by lia. rewrite Hn3, Hnode, En by lia.
    rewrite <- Hbx. split; [by apply (Hholds (S i))|done].
  - intros b Hb. unfold im3. rewrite blk_put by (destruct Hd2; lia). change (58 =? 58) with true. cbv iota.
    rewrite Hbits by done. by rewrite Z2Nat.id by lia.
Qed.
