(* ===== verification/MkfsBoot.v ===== *)
(** mkfs.c and fs.c together: the kernel reads back the files of the image. *)

From S2P Require Import Prelude Kernel Sched Bio BioSpec Log LogCrash Inode Fs FsSpec FsRead Mkfs MkfsSpec MkfsMain.

(** C24. mkfs builds the file system it was asked for.  Given files that fit on the
    disk, it ends without an error; the super block describes the layout; the root
    directory has the entries ".", ".." and one for each file, in order, its size
    rounded up; inode [i + 2] is the [i]-th file, with its size and its bytes in
    blocks of its own, named directly and through the indirect block; and the
    bitmap marks exactly the blocks below the first one not allocated. *)
Theorem mkfs_image files : fits files ->
  exists im fi fb, main files mkfs_start = Some (tt, Mkfs im fi fb) /\ image_ok im fb files.
Proof. apply main_run. Qed.

(** The kernel's view of a file of the image. *)
Lemma image_file_block w im fb din bl bs x0 bn :
  k_disk (w_k w) = im -> holds im fb din bl bs -> 0 <= bn < Z.of_nat (length bl) ->
  file_block (boot_ast w) (load_dinode din x0) bn = default 0 (bl !! Z.to_nat bn) /\ is_Some (bl !! Z.to_nat bn).
Proof.
  intros E Hh Hbn. split; [|apply lookup_lt_is_Some_2; lia]. unfold file_block. change NDIRECT with 12. cbn [load_dinode].
  change (i_addrs (load_dinode din x0)) with (di_addrs din). destruct (Z.ltb_spec bn 12).
  - apply (h_direct _ _ _ _ _ Hh). lia.
  - change (a_blk (boot_ast w)) with (blk_at (k_disk (w_k w))). rewrite E. change (blk_at im) with (blk im).
    change (default 0 (di_addrs din !! Z.to_nat 12)) with (addr din 12). pose proof (h_max _ _ _ _ _ Hh) as Hmax.
    pose proof (h_ind _ _ _ _ _ Hh ltac:(lia) (Z.to_nat (bn - 12)) ltac:(lia)) as Ei.
    replace (4 * Z.to_nat (bn - 12))%nat with (Z.to_nat (4 * (bn - 12))) in Ei by lia. rewrite Ei. do 2 f_equal. lia.
Qed.

Lemma image_file_ok w im fb din bl bs x0 :
  k_disk (w_k w) = im -> disk_ok im fb -> holds im fb din bl bs -> length bl = nblk (length bs) ->
  di_type din = T_FILE -> di_size din = Z.of_nat (length bs) -> i_dev x0 = ROOTDEV ->
  file_ok (boot_ast w) (load_dinode din x0) /\
  forall i, 0 <= i < Z.of_nat (length bs) -> file_byte (boot_ast w) (load_dinode din x0) i = default 0 (bs !! Z.to_nat i).
Proof.
  intros E Hd Hh Hl Ht Hs Hdev. pose proof (h_max _ _ _ _ _ Hh) as Hmax. pose proof (h_size _ _ _ _ _ Hh) as Hsz.
  pose proof (d_len _ _ Hd) as Hlen. pose proof (d_fb _ _ Hd) as Hfb. pose proof (h_own _ _ _ _ _ Hh) as Ho. rewrite Forall_forall in Ho.
  assert (forall bn, 0 <= bn -> bn * BSIZE < Z.of_nat (length bs) -> 0 <= bn < Z.of_nat (length bl)) as Hin.
  { intros bn H0 H1. unfold BSIZE in H1. lia. }
  assert (forall b, b ∈ own din bl -> b <> 0 /\ in_disk (boot_ast w) b) as Hblk.
  { intros b Hb. specialize (Ho b Hb). unfold in_disk. change (a_disk (boot_ast w)) with (k_disk (w_k w)). rewrite E. lia. }
  split.
  - constructor; change (i_size (load_dinode din x0)) with (di_size din); change (i_addrs (load_dinode din x0)) with (di_addrs din).
    + change (di_type din <> T_DEV). by rewrite Ht.
    + done.
    + apply Hh.
    + rewrite Hs. change (MAXFILE * BSIZE) with 71680. lia.
    + intros bn H0 H1. rewrite Hs in H1. destruct (image_file_block w im fb din bl bs x0 bn E Hh (Hin bn H0 H1)) as [-> [b Hb]].
      rewrite Hb. apply Hblk. unfold own. apply elem_of_app. left. by eapply list_elem_of_lookup_2.
    + intros H1. rewrite Hs in H1. change (NDIRECT * BSIZE) with 6144 in H1. apply Hblk. rewrite own_large by lia. apply elem_snoc.
  - intros i Hi. unfold file_byte. change BSIZE with 512.
    destruct (image_file_block w im fb din bl bs x0 (i / 512) E Hh) as [-> [b Hb]]; [lia|]. rewrite Hb.
    change (a_blk (boot_ast w)) with (blk_at (k_disk (w_k w))). rewrite E. change (blk_at im (default 0 (Some b))) with (blk im b).
    rewrite (h_data _ _ _ _ _ Hh _ _ Hb), chunk_lookup by lia. cbn [default from_option id]. do 2 f_equal. lia.
Qed.

(** C25. The kernel reads what mkfs wrote: on a machine that boots from the image,
    once the inode of the [i]-th file is in the cache with the fields the disk
    holds, [readi] returns any part of the file that is asked for, cut at its end. *)
Theorem mkfs_readi files i f : fits files -> files !! i = Some f ->
  exists s, main files mkfs_start = Some (tt, s) /\
  forall w me pid ip x0 off n, booted w me pid (img s) ->
    k_icache (w_k w) !! ip = Some (load_dinode (read_dinode (blk_at (img s) (IBLOCK (Z.of_nat i + 2) sb)) (dip (Z.of_nat i + 2))) x0) ->
    i_dev x0 = ROOTDEV -> 0 <= off <= Z.of_nat (length f.2) -> 0 <= n -> off + n < 2 ^ 32 ->
    exists w', readi ip off n w =
      Ok (Z.min n (Z.of_nat (length f.2) - off), slice f.2 (Z.to_nat off) (Z.to_nat (Z.min n (Z.of_nat (length f.2) - off)))) w'.
Proof.
  intros Hfits Hf. destruct (main_run files Hfits) as (im & fi & fb & E & Him). exists (Mkfs im fi fb). split; [exact E|].
  cbn [img]. intros w me pid ip x0 off n Hboot Hic Hdev Hoff Hn Hov.
  destruct (im_file _ _ _ Him i f Hf) as (bl & Hh & Hl & Ht & _ & Hs). fold (node im (Z.of_nat i + 2)) in Hic.
  change (read_dinode (blk_at im (IBLOCK (Z.of_nat i + 2) sb)) (dip (Z.of_nat i + 2))) with (node im (Z.of_nat i + 2)) in Hic.
  set (din := node im (Z.of_nat i + 2)) in *.
  assert (k_disk (w_k w) = im) as Ek by apply Hboot.
  destruct (image_file_ok w im fb din bl f.2 x0 Ek (im_disk _ _ _ Him) Hh Hl Ht Hs Hdev) as [Hok Hbytes].
  assert (i_size (load_dinode din x0) = Z.of_nat (length f.2)) as Esz by exact Hs.
  destruct (readi_reads w me pid (boot_ast w) ip (load_dinode din x0) off n) as (w' & Er & _); [by eapply booted_world|done|done| |lia|lia|lia|done|].
  { split; [done|]. change (a_pin (boot_ast w)) with (∅ : gset Z). rewrite size_empty. unfold NBUF. lia. }
  exists w'. rewrite Er, Esz. do 2 f_equal. apply list_eq. intros j. rewrite lookup_slice. unfold file_bytes. rewrite list_lookup_fmap.
  case_decide as Hj.
  - rewrite lookup_seq_lt by done. cbn [fmap option_fmap option_map]. rewrite Hbytes by lia.
    replace (Z.to_nat (off + Z.of_nat (0 + j))) with (Z.to_nat off + j)%nat by lia.
    destruct (f.2 !! (Z.to_nat off + j)%nat) eqn:Ej; [done|]. apply lookup_ge_None in Ej. lia.
  - by rewrite lookup_seq_ge by lia.
Qed.

(** ** An image to evaluate the theorems on *)

Definition demo_files : list (list Z * list Z) := [(bytes_of "_cat", bytes_of "miau"); (bytes_of "README", replicate 700 65)].

Lemma demo_fits : fits demo_files.
Proof.
  constructor; [cbn; lia| |vm_compute; discriminate].
  repeat apply Forall_cons_2; [| |apply Forall_nil_2]; (split; [|vm_compute; discriminate]); apply (bool_decide_unpack _); vm_compute; exact I.
Qed.

Lemma mkfs_image_witness : exists im fi fb, main demo_files mkfs_start = Some (tt, Mkfs im fi fb) /\ image_ok im fb demo_files.
Proof. exact (mkfs_image demo_files demo_fits). Defined.

(** A machine that boots from the image, with inode 2 in the cache. *)
Definition demo_image_world (im : list (list Z)) : world :=
  (demo_world demo_log im) <| w_k ::= fun k => k <| k_icache :=
    [load_dinode (read_dinode (blk_at im (IBLOCK 2 sb)) (dip 2)) (inode0 <| i_dev := ROOTDEV |>)] |> |>.

Lemma demo_image_booted im fb : disk_ok im fb -> booted (demo_image_world im) O 1 im.
Proof.
  intros Hd. destruct (demo_booted demo_log im eq_refl) as (H1 & H2 & H3 & H4 & H5 & H6).
  { eapply Forall_impl; [apply Hd|]. done. }
  split; [destruct H1; by split|]. split; [exact H2|]. split; [exact H3|]. split; [exact H4|]. split; [exact H5|exact H6].
Qed.

Lemma mkfs_readi_witness : exists s w', main demo_files mkfs_start = Some (tt, s) /\
  readi 0 0 100 (demo_image_world (img s)) = Ok (4, bytes_of "miau") w'.
Proof.
  destruct (mkfs_readi demo_files 0 (bytes_of "_cat", bytes_of "miau") demo_fits eq_refl) as (s & E & H).
  destruct (main_run demo_files demo_fits) as (im & fi & fb & E' & Him). rewrite E in E'. injection E' as ->.
  destruct (H (demo_image_world im) O 1 O (inode0 <| i_dev := ROOTDEV |>) 0 100) as [w' Hr].
  - exact (demo_image_booted im fb (im_disk _ _ _ Him)).
  - reflexivity.
  - reflexivity.
  - split; [lia|vm_compute; discriminate].
  - lia.
  - vm_compute; reflexivity.
  - exists (Mkfs im fi fb), w'. split; [exact E|exact Hr].
Defined.

(** When the entries fill the last block of the root directory exactly, the size
    that [main] rounds up covers one more block, which has no address. *)
Lemma root_size_unallocated files : fits files -> ((2 + length files) mod 32 = 0)%nat -> (length files < 350)%nat ->
  exists im fi fb k, main files mkfs_start = Some (tt, Mkfs im fi fb) /\
    Z.of_nat k * BSIZE < di_size (node im 1) /\ addr (node im 1) k = 0.
Proof.
  intros Hfits Hm Hlt. destruct (main_run files Hfits) as (im & fi & fb & E & Him).
  destruct (im_root _ _ _ Him) as (bl & Hh & Hl & _ & Hs).
  assert (length (dir_bytes files) = 16 * (2 + length files))%nat as Ed.
  { unfold dir_bytes. rewrite !length_app, !length_dirent, length_entries. lia. }
  assert (nblk (length (dir_bytes files)) = (2 + length files) / 32)%nat as En.
  { rewrite Ed. pose proof (Nat.div_mod_eq (2 + length files) 32) as E32.
    replace (16 * (2 + length files))%nat with (512 * ((2 + length files) / 32))%nat by lia. apply nblk_mul. }
  pose proof (Nat.div_mod_eq (2 + length files) 32) as E32.
  exists im, fi, fb, ((2 + length files) / 32)%nat. split; [done|]. split.
  - rewrite Hs. unfold rounded, BSIZE. rewrite Ed. lia.
  - rewrite (h_direct _ _ _ _ _ Hh) by lia. by rewrite lookup_ge_None_2 by lia.
Qed.
