(* ===== verification/Kalloc.v ===== *)
(** The physical page allocator (kalloc.c): the free pages are linked through
    their first word. *)

From S2P Require Import Prelude Kernel.

(** ** memlayout.h and mmu.h *)

Definition PGSIZE : Z := 4096.
Definition EXTMEM : Z := 1048576.
Definition PHYSTOP : Z := 234881024.
Definition DEVSPACE : Z := 4261412864.
Definition KERNBASE : Z := 2147483648.
Definition KERNLINK : Z := KERNBASE + EXTMEM.

Definition V2P (a : Z) : Z := u32 (a - KERNBASE).
Definition P2V (a : Z) : Z := u32 (a + KERNBASE).

Definition PGROUNDUP (sz : Z) : Z := Z.ldiff (u32 (sz + PGSIZE - 1)) (PGSIZE - 1).
Definition PGROUNDDOWN (a : Z) : Z := Z.ldiff a (PGSIZE - 1).

(** ** Accesses to physical pages *)

Definition get_page (v : Z) : M (list Z) := m ← get k_mem; deref (m_page m !! v).
Definition set_page (v : Z) (d : list Z) : M unit :=
  modify (fun k => k <| k_mem ::= fun m => m <| m_page ::= <[v := d]> |> |>).
Definition upd_page (v : Z) (f : list Z -> list Z) : M unit :=
  d ← get_page v;
  set_page v (f d).
Definition upd_kmem (f : kmem -> kmem) : M unit := modify (fun k => k <| k_mem ::= f |>).

(** [if(kmem.use_lock) ...] *)
Definition kmem_lock : M unit := m ← get k_mem; when (m_use_lock m) (acquire Lkmem).
Definition kmem_unlock : M unit := m ← get k_mem; when (m_use_lock m) (release Lkmem).

Definition page_fill (c : Z) : list Z := replicate (Z.to_nat PGSIZE) c.

(** ** kalloc.c *)

Definition kfree (v : Z) : M unit :=
  m ← get k_mem;
  if negb (v mod PGSIZE =? 0) || (v <? m_end m) || (PHYSTOP <=? V2P v) then panic "kfree" else
  upd_page v (fun _ => page_fill 1) ;;
  kmem_lock ;;
  m ← get k_mem;
  upd_page v (fun d => put32 d 0 (m_freelist m)) ;;
  upd_kmem (fun m => m <| m_freelist := v |>) ;;
  kmem_unlock.

(** A null result is [None]. *)
Definition kalloc : M (option Z) :=
  kmem_lock ;;
  m ← get k_mem;
  let r := m_freelist m in
  when (negb (r =? 0))
    (d ← get_page r;
     upd_kmem (fun m => m <| m_freelist := get32 d 0 |>)) ;;
  kmem_unlock ;;
  mret (if r =? 0 then None else Some r).

(** The loop frees each page that lies wholly below [vend]. *)
Definition freerange (vstart vend : Z) : M unit :=
  let p := PGROUNDUP vstart in
  for_each (map (fun i => p + PGSIZE * Z.of_nat i) (seq 0 (Z.to_nat ((vend - p) / PGSIZE)))) kfree.

Definition kinit1 (vstart vend : Z) : M unit :=
  upd_kmem (fun m => m <| m_use_lock := false |>) ;;
  freerange vstart vend.

Definition kinit2 (vstart vend : Z) : M unit :=
  freerange vstart vend ;;
  upd_kmem (fun m => m <| m_use_lock := true |>).

(** ** Rounding *)

Lemma ldiff_page a : 0 <= a -> Z.ldiff a 4095 = a / 4096 * 4096.
Proof.
  intros Ha. change 4095 with (Z.ones 12). rewrite Z.ldiff_ones_r by lia.
  rewrite Z.shiftl_mul_pow2, Z.shiftr_div_pow2 by lia. done.
Qed.

Lemma PGROUNDDOWN_eq a : 0 <= a -> PGROUNDDOWN a = a / 4096 * 4096.
Proof. apply ldiff_page. Qed.

Lemma PGROUNDUP_eq a : 0 <= a -> a + 4095 < 4294967296 -> PGROUNDUP a = (a + 4095) / 4096 * 4096.
Proof.
  intros Ha Hb. unfold PGROUNDUP, PGSIZE. rewrite u32_id by (unfold is_u32; lia).
  replace (a + 4096 - 1) with (a + 4095) by lia. apply ldiff_page. lia.
Qed.

Lemma length_page_fill c : length (page_fill c) = 4096%nat.
Proof. apply length_replicate. Qed.

(** ** The free list *)

Definition page_ok (m : kmem) (v : Z) : Prop :=
  exists d, m_page m !! v = Some d /\ length d = 4096%nat.

(** A page that [kfree] accepts. *)
Definition freeable (m : kmem) (v : Z) : Prop :=
  is_u32 v /\ v <> 0 /\ v mod PGSIZE = 0 /\ m_end m <= v /\ V2P v < PHYSTOP.

(** From [head], the first words of the pages link the list [l]. *)
Fixpoint free_list (pages : gmap Z (list Z)) (head : Z) (l : list Z) : Prop :=
  match l with
  | [] => head = 0
  | v :: l =>
      head = v /\ exists d, pages !! v = Some d /\ length d = 4096%nat /\ free_list pages (get32 d 0) l
  end.

Definition kmem_ok (m : kmem) (l : list Z) : Prop :=
  free_list (m_page m) (m_freelist m) l /\ NoDup l /\ Forall (freeable m) l.

Lemma free_list_frame pages v d head l :
  v ∉ l -> free_list pages head l -> free_list (<[v := d]> pages) head l.
Proof.
  revert head. induction l as [|u l IH]; intros head Hv H; [done|]. cbn in *.
  destruct H as (-> & e & He & Hl & H). split; [done|]. exists e.
  rewrite lookup_insert_ne by set_solver. split; [done|]. split; [done|]. apply IH; [set_solver|done].
Qed.

(** The pointer to the first page of a list. *)
Definition ptr (l : list Z) : Z := match l with [] => 0 | v :: _ => v end.

Lemma free_list_head pages head l : free_list pages head l -> head = ptr l.
Proof. destruct l; cbn; [done|]. by intros [-> _]. Qed.

(** The lock is taken only once [kinit2] has turned it on. *)
Definition kmem_unlocked (w : world) : Prop :=
  m_use_lock (k_mem (w_k w)) = true -> Lkmem ∉ w_held w.

Definition with_mem (m : kmem) (w : world) : world := w <| w_k ::= fun k => k <| k_mem := m |> |>.

Definition kmem_held (use : bool) (h : list lock) : list lock := if use then Lkmem :: h else h.

Lemma kmem_lock_run w :
  kmem_unlocked w ->
  kmem_lock w = Ok tt (w <| w_held ::= kmem_held (m_use_lock (k_mem (w_k w))) |>).
Proof.
  intros H. unfold kmem_lock. erewrite bind_run by reflexivity.
  unfold kmem_unlocked in H. destruct (m_use_lock (k_mem (w_k w))); cbn [when].
  - by rewrite acquire_run by auto.
  - by destruct w.
Qed.

Lemma kmem_unlock_run w h :
  w_held w = kmem_held (m_use_lock (k_mem (w_k w))) h -> kmem_unlock w = Ok tt (w <| w_held := h |>).
Proof.
  intros H. unfold kmem_unlock. erewrite bind_run by reflexivity.
  destruct (m_use_lock (k_mem (w_k w))); cbn [when kmem_held] in *.
  - by apply release_run.
  - unfold setter. rewrite <- H. by destruct w.
Qed.

Lemma get_page_run v w d : m_page (k_mem (w_k w)) !! v = Some d -> get_page v w = Ok d w.
Proof. intros H. unfold get_page. erewrite bind_run by reflexivity. by rewrite H. Qed.

Lemma upd_page_run v f w d :
  m_page (k_mem (w_k w)) !! v = Some d ->
  upd_page v f w = Ok tt (with_mem ((k_mem (w_k w)) <| m_page ::= <[v := f d]> |>) w).
Proof. intros H. unfold upd_page. by erewrite bind_run by (by apply get_page_run). Qed.

Lemma kalloc_run w l :
  kmem_ok (k_mem (w_k w)) l -> kmem_unlocked w ->
  kalloc w = Ok (hd_error l) (with_mem ((k_mem (w_k w)) <| m_freelist := ptr (tail l) |>) w).
Proof.
  intros (Hf & Hnd & Hok) Hu. unfold kalloc. erewrite bind_run by (by apply kmem_lock_run).
  erewrite bind_run by reflexivity. cbn zeta.
  pose proof (free_list_head _ _ _ Hf) as Hhd. cbn. rewrite Hhd.
  destruct l as [|v l]; cbn [hd_error ptr tail].
  - cbn. erewrite bind_run by reflexivity. erewrite bind_run by (by apply kmem_unlock_run). 
    destruct w as [k]. destruct k as [? ? ? m]. destruct m. cbn in Hhd. by subst.
  - apply Forall_cons_1 in Hok as [(_ & Hv0 & _) _]. destruct (Z.eqb_spec v 0); [done|]. cbn [negb when].
    destruct Hf as (_ & d & Hd & _ & Hf). apply free_list_head in Hf.
    erewrite bind_run; [|erewrite bind_run by (by apply get_page_run); reflexivity].
    erewrite bind_run by (by apply kmem_unlock_run). rewrite Hf. by destruct w.
Qed.

(** C8. [kalloc] refines taking the first element of the list of free pages:
    it returns null exactly when there is none, and the list that is left is
    well formed, so that the page returned is on it no more. *)
Theorem kalloc_refines w l :
  kmem_ok (k_mem (w_k w)) l -> kmem_unlocked w ->
  exists m, kalloc w = Ok (hd_error l) (with_mem m w) /\ kmem_ok m (tail l) /\
    m_page m = m_page (k_mem (w_k w)) /\ (forall v, hd_error l = Some v -> v ∉ tail l).
Proof.
  intros H Hu. eexists. split; [by apply kalloc_run|]. destruct H as (Hf & Hnd & Hok).
  split; [|split; [done|]].
  - destruct l as [|v l]; cbn; [by repeat split|]. destruct Hf as (_ & d & _ & _ & Hf).
    apply NoDup_cons in Hnd as [_ Hnd]. apply Forall_cons_1 in Hok as [_ Hok].
    rewrite <- (free_list_head _ _ _ Hf). by repeat split.
  - destruct l as [|v l]; [done|]. cbn. intros u [= <-]. by apply NoDup_cons in Hnd as [? _].
Qed.

(** The memory after [kfree v]. *)
Definition freed (v : Z) (m : kmem) : kmem :=
  m <| m_page ::= <[v := put32 (page_fill 1) 0 (m_freelist m)]> |> <| m_freelist := v |>.

Lemma kfree_run v w :
  freeable (k_mem (w_k w)) v -> page_ok (k_mem (w_k w)) v -> kmem_unlocked w ->
  kfree v w = Ok tt (with_mem (freed v (k_mem (w_k w))) w).
Proof.
  intros (Hu & H0 & Ha & He & Ht) (d & Hd & Hl) Hk. unfold kfree. erewrite bind_run by reflexivity.
  assert (negb (v mod PGSIZE =? 0) || (v <? m_end (k_mem (w_k w))) || (PHYSTOP <=? V2P v) = false) as ->.
  { rewrite Ha. cbn [negb orb Z.eqb]. apply orb_false_iff. split; [apply Z.ltb_ge|apply Z.leb_gt]; done. }
  erewrite bind_run by (by apply upd_page_run).
  erewrite bind_run by (by apply kmem_lock_run).
  erewrite bind_run by reflexivity. cbn zeta.
  erewrite bind_run; [|apply upd_page_run; cbn; by rewrite lookup_insert_eq].
  erewrite bind_run by reflexivity. erewrite kmem_unlock_run by reflexivity.
  unfold with_mem, freed, setter. cbn. rewrite insert_insert_eq. by destruct w.
Qed.

Lemma freed_ok v m l : kmem_ok m l -> freeable m v -> v ∉ l -> kmem_ok (freed v m) (v :: l).
Proof.
  intros (Hf & Hnd & Hok) Hv Hnl. split; [|split].
  - cbn. split; [done|]. eexists. rewrite lookup_insert_eq. split; [done|].
    split; [rewrite length_put32; rewrite length_page_fill; [done|lia]|].
    rewrite get32_put32_eq by (rewrite length_page_fill; lia).
    assert (is_u32 (m_freelist m)) as Hu.
    { rewrite (free_list_head _ _ _ Hf). destruct l as [|u l]; [done|].
      apply Forall_cons_1 in Hok as [(? & _) _]. done. }
    rewrite u32_id by done. by apply free_list_frame.
  - by apply NoDup_cons.
  - by apply Forall_cons.
Qed.

(** The bytes of a freed page after its link. *)
Lemma drop_put32_fill c x : drop 4 (put32 (page_fill c) 0 x) = replicate 4092 c.
Proof. reflexivity. Qed.

(** C9. [kfree] refines pushing the page on the list of free pages: the page becomes
    the one the next [kalloc] returns.  The page holds the link to the page that was
    the first one and is filled with ones after it, and every other page, the other
    fields of the allocator and the rest of the kernel are as they were. *)
Theorem kfree_refines v w l :
  kmem_ok (k_mem (w_k w)) l -> freeable (k_mem (w_k w)) v -> page_ok (k_mem (w_k w)) v ->
  v ∉ l -> kmem_unlocked w ->
  exists m, kfree v w = Ok tt (with_mem m w) /\ kmem_ok m (v :: l) /\
    (exists d, m_page m !! v = Some d /\ get32 d 0 = ptr l /\ drop 4 d = replicate 4092 1) /\
    (forall u, u <> v -> m_page m !! u = m_page (k_mem (w_k w)) !! u) /\
    m_use_lock m = m_use_lock (k_mem (w_k w)) /\ m_end m = m_end (k_mem (w_k w)) /\ m_data m = m_data (k_mem (w_k w)).
Proof.
  intros Hm Hv Hp Hnl Hk. eexists. split; [by apply kfree_run|]. pose proof (freed_ok v _ l Hm Hv Hnl) as Hok. split; [exact Hok|].
  split; [|split; [|done]].
  - destruct Hok as ((_ & d & Hd & _ & Hf) & _). exists d. split; [exact Hd|]. split; [by apply free_list_head in Hf|].
    cbn in Hd. rewrite lookup_insert_eq in Hd. injection Hd as <-. apply drop_put32_fill.
  - intros u Hu. cbn. by rewrite lookup_insert_ne.
Qed.

(** A sequence of distinct pages freed one after the other. *)
Lemma kfree_all vs w l :
  kmem_ok (k_mem (w_k w)) l -> Forall (freeable (k_mem (w_k w))) vs ->
  Forall (page_ok (k_mem (w_k w))) vs -> NoDup vs -> (forall v, v ∈ vs -> v ∉ l) -> kmem_unlocked w ->
  exists m, for_each vs kfree w = Ok tt (with_mem m w) /\ kmem_ok m (rev vs ++ l) /\
    m_end m = m_end (k_mem (w_k w)) /\ m_use_lock m = m_use_lock (k_mem (w_k w)) /\
    (forall u, page_ok (k_mem (w_k w)) u -> page_ok m u) /\ m_data m = m_data (k_mem (w_k w)).
Proof.
  revert w l. induction vs as [|v vs IH]; intros w l Hm Hf Hp Hnd Hd Hk.
  - exists (k_mem (w_k w)). split; [destruct w as [k]; by destruct k|]. by repeat split; try apply Hm.
  - apply Forall_cons_1 in Hf as [Hv Hf]. apply Forall_cons_1 in Hp as [Hpv Hp].
    apply NoDup_cons in Hnd as [Hv' Hnd].
    set (m1 := freed v (k_mem (w_k w))).
    assert (forall u, page_ok (k_mem (w_k w)) u -> page_ok m1 u) as Hkeep.
    { intros u Hu. unfold page_ok. cbn. destruct (decide (u = v)) as [->|Hne].
      - rewrite lookup_insert_eq. eexists. split; [done|].
        rewrite length_put32; rewrite length_page_fill; [done|lia].
      - by rewrite lookup_insert_ne by done. }
    destruct (IH (with_mem m1 w) (v :: l)) as (m & E & Hm' & He & Hu & Hpk & Hda).
    + apply freed_ok; [done|done|]. apply Hd. set_solver.
    + done.
    + eapply Forall_impl; [exact Hp|]. apply Hkeep.
    + done.
    + intros u Hu. specialize (Hd u). set_solver.
    + done.
    + exists m. split; [|split; [|split; [|split; [|split]]]].
      * cbn [for_each]. erewrite bind_run by (by apply kfree_run). exact E.
      * cbn [rev]. by rewrite <- app_assoc.
      * done.
      * done.
      * intros u Hu'. by apply Hpk, Hkeep.
      * done.
Qed.

(** The pages from [p] that end at or below [vend]. *)
Definition page_range (p vend : Z) : list Z :=
  map (fun i => p + PGSIZE * Z.of_nat i) (seq 0 (Z.to_nat ((vend - p) / PGSIZE))).

Lemma elem_of_page_range p vend v :
  p mod PGSIZE = 0 -> vend mod PGSIZE = 0 -> v ∈ page_range p vend <-> v mod PGSIZE = 0 /\ p <= v < vend.
Proof.
  intros Hp He. unfold page_range, PGSIZE in *. rewrite list_elem_of_fmap. split.
  - intros (i & -> & Hi). apply elem_of_seq in Hi. lia.
  - intros (Hv & Hl & Hu). exists (Z.to_nat ((v - p) / 4096)). rewrite elem_of_seq. lia.
Qed.

Lemma NoDup_page_range p vend : NoDup (page_range p vend).
Proof. apply NoDup_fmap_2_strong; [|apply NoDup_seq]. unfold PGSIZE. intros x y _ _ H. lia. Qed.

Lemma freerange_run vstart vend w l :
  0 <= vstart -> vstart + 4095 < 4294967296 -> vend mod PGSIZE = 0 ->
  kmem_ok (k_mem (w_k w)) l -> kmem_unlocked w ->
  (forall v, v mod PGSIZE = 0 -> vstart <= v < vend ->
     freeable (k_mem (w_k w)) v /\ page_ok (k_mem (w_k w)) v /\ v ∉ l) ->
  exists m r, freerange vstart vend w = Ok tt (with_mem m w) /\ kmem_ok m (r ++ l) /\
    (forall v, v ∈ r <-> v mod PGSIZE = 0 /\ vstart <= v < vend) /\
    m_end m = m_end (k_mem (w_k w)) /\ m_use_lock m = m_use_lock (k_mem (w_k w)) /\
    (forall u, page_ok (k_mem (w_k w)) u -> page_ok m u).
Proof.
  intros H0 Hlt He Hm Hk Hall. pose proof (PGROUNDUP_eq vstart H0 Hlt) as Ep.
  assert (PGROUNDUP vstart mod PGSIZE = 0) as Hp by (rewrite Ep; apply Z_mod_mult).
  assert (forall v, v ∈ page_range (PGROUNDUP vstart) vend <-> v mod PGSIZE = 0 /\ vstart <= v < vend) as Hr.
  { intros v. rewrite elem_of_page_range by done. rewrite Ep. unfold PGSIZE in *. lia. }
  destruct (kfree_all (page_range (PGROUNDUP vstart) vend) w l) as (m & E & Hm' & He' & Hu & Hpk & _); [done|..|done|].
  - apply Forall_forall. intros v Hv. apply Hr in Hv as [? ?]. by apply Hall.
  - apply Forall_forall. intros v Hv. apply Hr in Hv as [? ?]. by apply Hall.
  - apply NoDup_page_range.
  - intros v Hv. apply Hr in Hv as [? ?]. by apply Hall.
  - exists m, (rev (page_range (PGROUNDUP vstart) vend)). split; [exact E|]. split; [done|].
    split; [|done]. intros v. rewrite <- Hr. by rewrite list_elem_of_In, <- in_rev, <- list_elem_of_In.
Qed.

(** C7. The two phases of the allocator's initialisation put exactly the whole
    pages between the end of the kernel and the top of physical memory on the
    free list, each once, whatever the boundary between the phases. *)
Theorem kinit_frees_all vmid w :
  let m := k_mem (w_k w) in let top := P2V PHYSTOP in
  m_freelist m = 0 -> KERNBASE <= m_end m -> m_end m <= vmid <= top -> vmid mod PGSIZE = 0 ->
  Lkmem ∉ w_held w ->
  (forall v, v mod PGSIZE = 0 -> m_end m <= v < top -> page_ok m v) ->
  exists m' l, (kinit1 (m_end m) vmid ;; kinit2 vmid top) w = Ok tt (with_mem m' w) /\
    kmem_ok m' l /\ m_use_lock m' = true /\
    (forall v, v ∈ l <-> v mod PGSIZE = 0 /\ m_end m <= v < top).
Proof.
  cbn zeta. set (m := k_mem (w_k w)). change (P2V PHYSTOP) with 2382364672.
  unfold KERNBASE. intros Hf Hb Hmid Hal Hh Hpages.
  assert (forall v, v mod PGSIZE = 0 -> m_end m <= v < 2382364672 -> freeable m v) as Hfree.
  { intros v Hv Hr. unfold freeable, V2P, KERNBASE, PHYSTOP, is_u32. rewrite u32_id by (unfold is_u32; lia). lia. }
  set (w1 := with_mem (m <| m_use_lock := false |>) w).
  destruct (freerange_run (m_end m) vmid w1 []) as (m1 & r1 & E1 & Hm1 & Hr1 & He1 & Hu1 & Hp1).
  { lia. } { lia. } { done. } { split; [exact Hf|]. split; constructor. } { by intros ?. }
  { intros v Hv Hr. split; [apply (Hfree v); [done|lia]|]. split; [apply (Hpages v); [done|lia]|]. apply not_elem_of_nil. }
  rewrite app_nil_r in Hm1.
  destruct (freerange_run vmid 2382364672 (with_mem m1 w1) r1) as (m2 & r2 & E2 & Hm2 & Hr2 & He2 & Hu2 & Hp2).
  { lia. } { lia. } { done. } { done. } { intros Hu. exfalso. cbn in Hu. rewrite Hu1 in Hu. done. }
  { intros v Hv Hr. split; [|split].
    - destruct (Hfree v Hv ltac:(lia)) as (? & ? & ? & ? & ?). unfold freeable. cbn. rewrite He1. done.
    - apply Hp1. apply (Hpages v); [done|lia].
    - rewrite Hr1. lia. }
  exists (m2 <| m_use_lock := true |>), (r2 ++ r1). split; [|split; [exact Hm2|split; [done|]]].
  - unfold kinit1, kinit2. erewrite bind_run; [|erewrite bind_run by reflexivity; exact E1].
    erewrite bind_run by exact E2. by destruct w as [k].
  - intros v. rewrite elem_of_app, Hr1, Hr2. split; [|intros (? & ?); destruct (decide (v < vmid)); [right|left]]; lia.
Qed.

(** ** A machine with two free pages, below the top of physical memory *)

Definition demo_page : Z := 2382356480.

Definition demo_mem (head : Z) : kmem :=
  Kmem {[demo_page := page_fill 0; demo_page + PGSIZE := page_fill 0]} head false demo_page KERNLINK.

Definition demo_kernel (head : Z) : world := with_mem (demo_mem head) world0.

Lemma demo_freeable head v : v = demo_page \/ v = demo_page + PGSIZE -> freeable (demo_mem head) v.
Proof. intros [->| ->]; repeat split; done. Qed.

Lemma demo_page_ok head v : v = demo_page \/ v = demo_page + PGSIZE -> page_ok (demo_mem head) v.
Proof. intros [->| ->]; eexists; split; [reflexivity|apply length_page_fill|reflexivity|apply length_page_fill]. Qed.

Lemma demo_kmem_ok : kmem_ok (demo_mem demo_page) [demo_page].
Proof.
  split; [|split; [apply NoDup_singleton|apply Forall_singleton, demo_freeable; by left]].
  split; [done|]. exists (page_fill 0). split; [reflexivity|]. split; [apply length_page_fill|reflexivity].
Qed.

Lemma kalloc_refines_witness :
  exists m, kalloc (demo_kernel demo_page) = Ok (Some demo_page) (with_mem m (demo_kernel demo_page)) /\
    kmem_ok m [] /\ m_page m = m_page (demo_mem demo_page) /\
    (forall v, Some demo_page = Some v -> v ∉ []).
Proof. apply (kalloc_refines (demo_kernel demo_page) [demo_page]); [apply demo_kmem_ok|by intros ?]. Defined.

Lemma kfree_refines_witness :
  exists m, kfree (demo_page + PGSIZE) (demo_kernel demo_page) = Ok tt (with_mem m (demo_kernel demo_page)) /\
    kmem_ok m [demo_page + PGSIZE; demo_page] /\
    (exists d, m_page m !! (demo_page + PGSIZE) = Some d /\ get32 d 0 = demo_page /\ drop 4 d = replicate 4092 1) /\
    (forall u, u <> demo_page + PGSIZE -> m_page m !! u = m_page (demo_mem demo_page) !! u) /\
    m_use_lock m = false /\ m_end m = demo_page /\ m_data m = KERNLINK.
Proof.
  apply (kfree_refines (demo_page + PGSIZE) (demo_kernel demo_page) [demo_page]).
  - apply demo_kmem_ok.
  - apply demo_freeable. by right.
  - apply demo_page_ok. by right.
  - rewrite list_elem_of_singleton. by vm_compute.
  - by intros ?.
Defined.

Lemma kinit_frees_all_witness :
  exists m' l, (kinit1 demo_page (demo_page + PGSIZE) ;; kinit2 (demo_page + PGSIZE) (P2V PHYSTOP)) (demo_kernel 0)
      = Ok tt (with_mem m' (demo_kernel 0)) /\
    kmem_ok m' l /\ m_use_lock m' = true /\
    (forall v, v ∈ l <-> v mod PGSIZE = 0 /\ demo_page <= v < P2V PHYSTOP).
Proof.
  apply (kinit_frees_all (demo_page + PGSIZE) (demo_kernel 0)).
  - reflexivity.
  - done.
  - done.
  - reflexivity.
  - apply not_elem_of_nil.
  - intros v Hv Hr. apply demo_page_ok. cbn in Hr. unfold PGSIZE in *. change (P2V PHYSTOP) with 2382364672 in Hr.
    unfold demo_page in *. lia.
Defined.

(** ** A pool of free pages, as [kinit1] and [kinit2] would leave it *)

Definition pool_base (n : nat) : Z := P2V PHYSTOP - PGSIZE * Z.of_nat n.

Definition pool_pages (n : nat) : list Z := page_range (pool_base n) (P2V PHYSTOP).

Definition pool_mem (n : nat) : kmem :=
  Kmem (list_to_map (map (fun v => (v, page_fill 0)) (pool_pages n))) 0 false (pool_base n) (KERNLINK + PGSIZE).

Lemma pool_ok n :
  Z.of_nat n <= 50000 ->
  exists m, for_each (pool_pages n) kfree (with_mem (pool_mem n) world0) = Ok tt (with_mem m world0) /\
    kmem_ok m (rev (pool_pages n)) /\ m_data m = KERNLINK + PGSIZE /\ length (rev (pool_pages n)) = n.
Proof.
  intros Hn. change (P2V PHYSTOP) with 2382364672 in *.
  assert (forall v, v ∈ pool_pages n <-> v mod PGSIZE = 0 /\ pool_base n <= v < 2382364672) as Hin.
  { intros v. unfold pool_pages. change (P2V PHYSTOP) with 2382364672.
    apply elem_of_page_range; [|done]. unfold pool_base, PGSIZE. change (P2V PHYSTOP) with 2382364672. lia. }
  destruct (kfree_all (pool_pages n) (with_mem (pool_mem n) world0) []) as (m & E & Hm & _ & _ & _ & Hda).
  - split; [done|]. split; constructor.
  - apply Forall_forall. intros v Hv. apply Hin in Hv as [Hv Hr].
    unfold pool_base, PGSIZE in *. change (P2V PHYSTOP) with 2382364672 in *.
    unfold freeable, V2P, KERNBASE, PHYSTOP, is_u32. rewrite u32_id by (unfold is_u32; lia).
    cbn. unfold pool_base, PGSIZE. change (P2V PHYSTOP) with 2382364672. lia.
  - apply Forall_forall. intros v Hv. exists (page_fill 0). split; [|apply length_page_fill].
    cbn. apply elem_of_list_to_map_1.
    + rewrite <- list_fmap_compose. cbn. rewrite list_fmap_id. apply NoDup_page_range.
    + apply list_elem_of_fmap. by exists v.
  - apply NoDup_page_range.
  - intros v _. apply not_elem_of_nil.
  - by intros ?.
  - exists m. split; [exact E|]. rewrite app_nil_r in Hm. split; [done|]. split; [exact Hda|].
    rewrite length_rev. unfold pool_pages, page_range, pool_base. rewrite length_map, length_seq. unfold PGSIZE. lia.
Qed.
