(* ===== verification/Vm.v ===== *)
(** Page tables (vm.c) over the physical pages.

    A page directory or page table is a page of 1024 little-endian words; a
    [pte_t *] is the page and the index of the entry. *)

From S2P Require Import Prelude Kernel Sched Cons Bio Log Inode Fs Kalloc.

(** ** mmu.h *)

Definition NPDENTRIES : Z := 1024.
Definition PTE_P : Z := 1.
Definition PTE_W : Z := 2.
Definition PTE_U : Z := 4.

Definition PDX (va : Z) : Z := Z.land (Z.shiftr (u32 va) 22) 1023.
Definition PTX (va : Z) : Z := Z.land (Z.shiftr (u32 va) 12) 1023.
Definition PGADDR (d t o : Z) : Z := u32 (Z.lor (Z.lor (Z.shiftl d 22) (Z.shiftl t 12)) o).
Definition PTE_ADDR (pte : Z) : Z := Z.ldiff pte 4095.
Definition PTE_FLAGS (pte : Z) : Z := Z.land pte 4095.

(** ** Page table entries *)

Definition pte_ptr : Type := Z * nat.

Definition read_pte (p : pte_ptr) : M Z := d ← get_page p.1; mret (get32 d (4 * p.2)).
Definition write_pte (p : pte_ptr) (v : Z) : M unit := upd_page p.1 (fun d => put32 d (4 * p.2) v).

Definition walkpgdir (pgdir va : Z) (alloc : bool) : M (option pte_ptr) :=
  let pde := (pgdir, Z.to_nat (PDX va)) in
  e ← read_pte pde;
  if hasf e PTE_P then mret (Some (P2V (PTE_ADDR e), Z.to_nat (PTX va)))
  else if negb alloc then mret None
  else
    o ← kalloc;
    match o with
    | None => mret None
    | Some pgtab =>
        upd_page pgtab (fun _ => page_fill 0) ;;
        write_pte pde (Z.lor (Z.lor (Z.lor (V2P pgtab) PTE_P) PTE_W) PTE_U) ;;
        mret (Some (pgtab, Z.to_nat (PTX va)))
    end.

Definition mappages (pgdir va size pa perm : Z) : M Z :=
  let a := PGROUNDDOWN va in
  let last := PGROUNDDOWN (u32 (va + size - 1)) in
  loop (S (Z.to_nat (u32 (last - a) / PGSIZE))) (fun st : Z * Z =>
    let '(a, pa) := st in
    o ← walkpgdir pgdir a true;
    match o with
    | None => mret (inr (-1))
    | Some pte =>
        e ← read_pte pte;
        if hasf e PTE_P then panic "remap" else
        write_pte pte (Z.lor (Z.lor pa perm) PTE_P) ;;
        mret (if a =? last then inr 0 else inl (u32 (a + PGSIZE), u32 (pa + PGSIZE)))
    end) (a, pa).

(** ** User memory *)

(** [for(; a < oldsz; a += PGSIZE)] with the jumps of [deallocuvm]. *)
Definition deallocuvm (pgdir oldsz newsz : Z) : M Z :=
  if oldsz <=? newsz then mret oldsz else
  loop (S (Z.to_nat (oldsz / PGSIZE + 1))) (fun a =>
    if oldsz <=? a then mret (inr newsz) else
    o ← walkpgdir pgdir a false;
    match o with
    | None => mret (inl (u32 (u32 (PGADDR (PDX a + 1) 0 0 - PGSIZE) + PGSIZE)))
    | Some pte =>
        e ← read_pte pte;
        when (hasf e PTE_P)
          (let pa := PTE_ADDR e in
           if pa =? 0 then panic "kfree" else
           kfree (P2V pa) ;;
           write_pte pte 0) ;;
        mret (inl (u32 (a + PGSIZE)))
    end) (PGROUNDUP newsz).

Definition freevm (pgdir : Z) : M unit :=
  if pgdir =? 0 then panic "freevm: no pgdir" else
  deallocuvm pgdir KERNBASE 0 ;;
  for_each (seq 0 (Z.to_nat NPDENTRIES)) (fun i =>
    e ← read_pte (pgdir, i);
    when (hasf e PTE_P) (kfree (P2V (PTE_ADDR e)))) ;;
  kfree pgdir.

(** The table [kmap]; [data] comes from the linker. *)
Record kmap_entry := Kmap { km_virt : Z; km_start : Z; km_end : Z; km_perm : Z }.

Definition kmap (data : Z) : list kmap_entry :=
  [ Kmap KERNBASE 0 EXTMEM PTE_W;
    Kmap KERNLINK (V2P KERNLINK) (V2P data) 0;
    Kmap data (V2P data) PHYSTOP PTE_W;
    Kmap DEVSPACE DEVSPACE 0 PTE_W ].

Definition setupkvm : M (option Z) :=
  o ← kalloc;
  match o with
  | None => mret None
  | Some pgdir =>
      upd_page pgdir (fun _ => page_fill 0) ;;
      if DEVSPACE <? P2V PHYSTOP then panic "PHYSTOP too high" else
      m ← get k_mem;
      r ← find_each (kmap (m_data m)) (fun k =>
        r ← mappages pgdir (km_virt k) (u32 (km_end k - km_start k)) (km_start k) (km_perm k);
        if r <? 0 then freevm pgdir ;; mret (Some tt) else mret None);
      mret (match r with Some _ => None | None => Some pgdir end)
  end.

Definition inituvm (pgdir : Z) (init : list Z) (sz : Z) : M unit :=
  if PGSIZE <=? sz then panic "inituvm: more than a page" else
  o ← kalloc;
  mem ← deref o;
  upd_page mem (fun _ => page_fill 0) ;;
  mappages pgdir 0 PGSIZE (V2P mem) (Z.lor PTE_W PTE_U) ;;
  upd_page mem (fun d => blit d 0 (take (Z.to_nat sz) init)).

Definition loaduvm (pgdir addr : Z) (ip : nat) (offset sz : Z) : M Z :=
  if negb (addr mod PGSIZE =? 0) then panic "loaduvm: addr must be page aligned" else
  r ← find_each (map (fun i => PGSIZE * Z.of_nat i) (seq 0 (Z.to_nat ((sz + PGSIZE - 1) / PGSIZE)))) (fun i =>
    o ← walkpgdir pgdir (u32 (addr + i)) false;
    match o with
    | None => panic "loaduvm: address should exist"
    | Some pte =>
        e ← read_pte pte;
        let pa := PTE_ADDR e in
        let n := if sz - i <? PGSIZE then sz - i else PGSIZE in
        r ← readi ip (u32 (offset + i)) n;
        upd_page (P2V pa) (fun d => blit d 0 r.2) ;;
        mret (if negb (r.1 =? n) then Some (-1) else None)
    end);
  mret (default 0 r).

Definition allocuvm (pgdir oldsz newsz : Z) : M Z :=
  if KERNBASE <=? newsz then mret 0 else
  if newsz <? oldsz then mret oldsz else
  loop (S (S (Z.to_nat (newsz / PGSIZE)))) (fun a =>
    if newsz <=? a then mret (inr newsz) else
    o ← kalloc;
    match o with
    | None =>
        cprintf "allocuvm out of memory
" [] ;;
        deallocuvm pgdir newsz oldsz ;;
        mret (inr 0)
    | Some mem =>
        upd_page mem (fun _ => page_fill 0) ;;
        r ← mappages pgdir a PGSIZE (V2P mem) (Z.lor PTE_W PTE_U);
        if r <? 0 then
          cprintf "allocuvm out of memory (2)
" [] ;;
          deallocuvm pgdir newsz oldsz ;;
          kfree mem ;;
          mret (inr 0)
        else mret (inl (u32 (a + PGSIZE)))
    end) (PGROUNDUP oldsz).

Definition clearpteu (pgdir uva : Z) : M unit :=
  o ← walkpgdir pgdir uva false;
  match o with
  | None => panic "clearpteu"
  | Some pte => e ← read_pte pte; write_pte pte (Z.ldiff e PTE_U)
  end.

Definition copyuvm (pgdir sz : Z) : M (option Z) :=
  od ← setupkvm;
  match od with
  | None => mret None
  | Some d =>
      r ← find_each (map (fun i => PGSIZE * Z.of_nat i) (seq 0 (Z.to_nat ((sz + PGSIZE - 1) / PGSIZE)))) (fun i =>
        o ← walkpgdir pgdir i false;
        match o with
        | None => panic "copyuvm: pte should exist"
        | Some pte =>
            e ← read_pte pte;
            if negb (hasf e PTE_P) then panic "copyuvm: page not present" else
            let pa := PTE_ADDR e in
            let flags := PTE_FLAGS e in
            o ← kalloc;
            match o with
            | None => mret (Some tt)
            | Some mem =>
                src ← get_page (P2V pa);
                upd_page mem (fun _ => src) ;;
                r ← mappages d i PGSIZE (V2P mem) flags;
                if r <? 0 then kfree mem ;; mret (Some tt) else mret None
            end
        end);
      match r with
      | None => mret (Some d)
      | Some _ => freevm d ;; mret None
      end
  end.

(** A null pointer from [walkpgdir] is dereferenced unchecked. *)
Definition uva2ka (pgdir uva : Z) : M (option Z) :=
  o ← walkpgdir pgdir uva false;
  pte ← deref o;
  e ← read_pte pte;
  if negb (hasf e PTE_P) then mret None else
  if negb (hasf e PTE_U) then mret None else
  mret (Some (P2V (PTE_ADDR e))).

Definition copyout (pgdir va : Z) (p : list Z) (len : Z) : M Z :=
  loop (S (S (Z.to_nat (len / PGSIZE + 1)))) (fun st : Z * list Z * Z =>
    let '(va, buf, len) := st in
    if len <=? 0 then mret (inr 0) else
    let va0 := PGROUNDDOWN va in
    o ← uva2ka pgdir va0;
    match o with
    | None => mret (inr (-1))
    | Some pa0 =>
        let n := PGSIZE - (va - va0) in
        let n := if len <? n then len else n in
        upd_page pa0 (fun d => blit d (Z.to_nat (va - va0)) (take (Z.to_nat n) buf)) ;;
        mret (inl (u32 (va0 + PGSIZE), drop (Z.to_nat n) buf, len - n))
    end) (va, p, len).

(** ** User memory as the kernel reaches it through the current page table *)

(** The byte that user address [va] designates: a page and an offset. *)
Definition translate (pgdir va : Z) : M (Z * nat) :=
  o ← walkpgdir pgdir va false;
  pte ← deref o;
  e ← read_pte pte;
  if negb (hasf e PTE_P) then fault else
  mret (P2V (PTE_ADDR e), Z.to_nat (va mod PGSIZE)).

Definition user_load (va : Z) : M Z :=
  pgdir ← my p_pgdir;
  l ← translate pgdir va;
  d ← get_page l.1;
  deref (d !! l.2).

Definition user_store (va v : Z) : M unit :=
  pgdir ← my p_pgdir;
  l ← translate pgdir va;
  upd_page l.1 (<[l.2 := v]>).

Fixpoint user_loads (va : Z) (n : nat) : M (list Z) :=
  match n with
  | O => mret []
  | S n => x ← user_load va; l ← user_loads (va + 1) n; mret (x :: l)
  end.

Fixpoint user_stores (va : Z) (l : list Z) : M unit :=
  match l with
  | [] => mret tt
  | x :: l => user_store va x ;; user_stores (va + 1) l
  end.

(** ** Address space switches *)

(** The checks.  What follows them in the source sets the task state segment and its
    descriptor, which is [Desc.switch_tss] (Desc.v), and loads the registers [tr] and
    [cr3] of the processor, which are not in the state here. *)
Definition switchuvm (op : option nat) : M unit :=
  match op with
  | None => panic "switchuvm: no process"
  | Some i =>
      p ← get_proc i;
      if p_kstack p =? 0 then panic "switchuvm: no kstack" else
      if p_pgdir p =? 0 then panic "switchuvm: no pgdir" else
      mret tt
  end.
