(* ===== verification/VmSpec.v ===== *)
(** Address spaces: what the page tables that vm.c builds map.

    The computations of vm.c change only [k_mem]; [mwp w c m Q] says that [c],
    started in [w] with memory [m], returns and leaves a memory and a result
    that satisfy [Q]. *)

From S2P Require Import Prelude Kernel Sched Kalloc Vm.

Definition mwp {A} (w : world) (c : M A) (m : kmem) (Q : A -> kmem -> Prop) : Prop :=
  exists a m', c (with_mem m w) = Ok a (with_mem m' w) /\ Q a m'.

Section MWP.
Context (w : world) (nolock : Lkmem ∉ w_held w).

Lemma mwp_ret {A} (a : A) m (Q : A -> kmem -> Prop) : Q a m -> mwp w (mret a) m Q.
Proof. intros H. by exists a, m. Qed.

Lemma mwp_bind {A B} (c : M A) (k : A -> M B) m Q :
  mwp w c m (fun a m' => mwp w (k a) m' Q) -> mwp w (c ≫= k) m Q.
Proof.
  intros (a & m' & E & b & m2 & E2 & H). exists b, m2. by rewrite (bind_run _ _ _ _ _ E).
Qed.

Lemma mwp_mono {A} (c : M A) m (P Q : A -> kmem -> Prop) :
  mwp w c m P -> (forall a m', P a m' -> Q a m') -> mwp w c m Q.
Proof. intros (a & m' & E & H) HPQ. exists a, m'. auto. Qed.

Lemma mwp_get_mem m (Q : kmem -> kmem -> Prop) : Q m m -> mwp w (get k_mem) m Q.
Proof. intros H. by exists m, m. Qed.

Lemma mwp_get_page v m d (Q : list Z -> kmem -> Prop) :
  m_page m !! v = Some d -> Q d m -> mwp w (get_page v) m Q.
Proof. intros Hd H. exists d, m. split; [by apply get_page_run|done]. Qed.

Lemma mwp_upd_page v f m d (Q : unit -> kmem -> Prop) :
  m_page m !! v = Some d -> Q tt (m <| m_page ::= <[v := f d]> |>) -> mwp w (upd_page v f) m Q.
Proof.
  intros Hd H. exists tt, (m <| m_page ::= <[v := f d]> |>). split; [|done].
  by rewrite (upd_page_run _ _ _ d).
Qed.

Lemma mwp_kalloc m l (Q : option Z -> kmem -> Prop) :
  kmem_ok m l ->
  (forall m', kmem_ok m' (tail l) -> m' = m <| m_freelist := m_freelist m' |> -> Q (hd_error l) m') ->
  mwp w kalloc m Q.
Proof.
  intros Hm HQ. exists (hd_error l), (m <| m_freelist := ptr (tail l) |>).
  split; [rewrite (kalloc_run _ l); [done|done|by intros _]|]. apply HQ; [|done]. destruct Hm as (Hf & Hnd & Hok).
  destruct l as [|v l]; cbn; [by repeat split|]. destruct Hf as (_ & d & _ & _ & Hf).
  apply NoDup_cons in Hnd as [_ Hnd]. apply Forall_cons_1 in Hok as [_ Hok].
  rewrite <- (free_list_head _ _ _ Hf). by repeat split.
Qed.

Lemma mwp_kfree v m l (Q : unit -> kmem -> Prop) :
  kmem_ok m l -> freeable m v -> page_ok m v -> v ∉ l ->
  (kmem_ok (freed v m) (v :: l) -> Q tt (freed v m)) -> mwp w (kfree v) m Q.
Proof.
  intros Hm Hv Hp Hl HQ. exists tt, (freed v m). split; [rewrite kfree_run; [done|done|done|by intros _]|].
  apply HQ. by apply freed_ok.
Qed.

Lemma mwp_read_pte t i m d (Q : Z -> kmem -> Prop) :
  m_page m !! t = Some d -> Q (get32 d (4 * i)) m -> mwp w (read_pte (t, i)) m Q.
Proof. intros Hd H. apply mwp_bind. eapply mwp_get_page; [exact Hd|]. by apply mwp_ret. Qed.

Lemma mwp_write_pte t i v m d (Q : unit -> kmem -> Prop) :
  m_page m !! t = Some d -> Q tt (m <| m_page ::= <[t := put32 d (4 * i) v]> |>) ->
  mwp w (write_pte (t, i) v) m Q.
Proof. intros Hd H. by eapply mwp_upd_page. Qed.

End MWP.

(** ** The tree of a page directory *)

Definition pde (m : kmem) (pgdir : Z) (i : nat) : Z :=
  match m_page m !! pgdir with Some d => get32 d (4 * i) | None => 0 end.

(** The page table of directory entry [i]. *)
Definition table (m : kmem) (pgdir : Z) (i : nat) : option Z :=
  if hasf (pde m pgdir i) PTE_P then Some (P2V (PTE_ADDR (pde m pgdir i))) else None.

Definition entry (m : kmem) (t : Z) (j : nat) : Z :=
  match m_page m !! t with Some d => get32 d (4 * j) | None => 0 end.

(** What the address space maps at [va]: the present entry, if there is one. *)
Definition mapping (m : kmem) (pgdir va : Z) : option Z :=
  match table m pgdir (Z.to_nat (PDX va)) with
  | Some t =>
      let e := entry m t (Z.to_nat (PTX va)) in
      if hasf e PTE_P then Some e else None
  | None => None
  end.

(** The directory and its tables are distinct pages, none of them free. *)
Record vm_ok (m : kmem) (pgdir : Z) (l : list Z) : Prop := Vm_ok {
  vm_kmem : kmem_ok m l;
  vm_dir : page_ok m pgdir;
  vm_dir_used : pgdir ∉ l;
  vm_table : forall i t, (i < 1024)%nat -> table m pgdir i = Some t -> page_ok m t /\ t ∉ l /\ t <> pgdir;
  vm_inj : forall i j t, (i < 1024)%nat -> (j < 1024)%nat ->
    table m pgdir i = Some t -> table m pgdir j = Some t -> i = j }.

Lemma PDX_lt va : (Z.to_nat (PDX va) < 1024)%nat.
Proof.
  unfold PDX. change 1023 with (Z.ones 10). rewrite Z.land_ones by lia.
  pose proof (Z.mod_pos_bound (Z.shiftr (u32 va) 22) (2 ^ 10) ltac:(lia)). change (2 ^ 10) with 1024 in *. lia.
Qed.

Lemma PTX_lt va : (Z.to_nat (PTX va) < 1024)%nat.
Proof.
  unfold PTX. change 1023 with (Z.ones 10). rewrite Z.land_ones by lia.
  pose proof (Z.mod_pos_bound (Z.shiftr (u32 va) 12) (2 ^ 10) ltac:(lia)). change (2 ^ 10) with 1024 in *. lia.
Qed.

Lemma PDX_eq va : is_u32 va -> PDX va = va / 4194304.
Proof.
  intros H. unfold PDX. rewrite u32_id by done. change 1023 with (Z.ones 10). rewrite Z.land_ones by lia.
  rewrite Z.shiftr_div_pow2 by lia. unfold is_u32 in H. change (2 ^ 22) with 4194304. change (2 ^ 10) with 1024. lia.
Qed.

Lemma PTX_eq va : is_u32 va -> PTX va = va / 4096 mod 1024.
Proof.
  intros H. unfold PTX. rewrite u32_id by done. change 1023 with (Z.ones 10). rewrite Z.land_ones by lia.
  by rewrite Z.shiftr_div_pow2 by lia.
Qed.

(** ** Entries *)

Lemma lor_flags x f : 0 <= x -> x mod 4096 = 0 -> 0 <= f < 4096 -> Z.lor x f = x + f.
Proof.
  intros Hx Hm Hf. symmetry.
  assert (Z.land x f = 0) as H0.
  { apply Z.bits_inj'. intros i Hi. rewrite Z.land_spec, Z.bits_0.
    replace x with (Z.shiftl (x / 4096) 12) by (rewrite Z.shiftl_mul_pow2 by lia; change (2 ^ 12) with 4096; lia).
    destruct (decide (i < 12)) as [Hlt|Hge].
    - rewrite Z.shiftl_spec_low by lia. done.
    - replace f with (f mod 2 ^ 12) by (apply Z.mod_small; change (2 ^ 12) with 4096; lia).
      rewrite Z.mod_pow2_bits_high by lia. apply andb_false_r. }
  rewrite Z.add_nocarry_lxor by done. by apply Z.lxor_lor.
Qed.

Lemma PTE_ADDR_flags x f : 0 <= x -> x mod 4096 = 0 -> 0 <= f < 4096 -> PTE_ADDR (x + f) = x.
Proof. intros Hx Hm Hf. unfold PTE_ADDR. rewrite ldiff_page by lia. lia. Qed.

Lemma hasf_P x f : 0 <= x -> x mod 4096 = 0 -> 0 <= f < 4096 -> hasf (x + f) PTE_P = hasf f PTE_P.
Proof.
  intros Hx Hm Hf. change PTE_P with (2 ^ 0). rewrite !hasf_bit by lia.
  rewrite !Z.bit0_odd, Z.odd_add. replace (Z.odd x) with false; [done|].
  symmetry. rewrite Zodd_mod. apply Z.eqb_neq. lia.
Qed.

Lemma V2P_freeable m v : freeable m v -> is_u32 (V2P v) /\ V2P v mod 4096 = 0 /\ P2V (V2P v) = v.
Proof.
  intros (Hu & _ & Ha & _ & _). unfold V2P, P2V, KERNBASE, PGSIZE, is_u32, u32 in *. lia.
Qed.

(** The directory entry that [walkpgdir] installs. *)
Lemma new_pde m t :
  freeable m t ->
  let e := Z.lor (Z.lor (Z.lor (V2P t) PTE_P) PTE_W) PTE_U in
  is_u32 e /\ hasf e PTE_P = true /\ P2V (PTE_ADDR e) = t.
Proof.
  intros Ht. destruct (V2P_freeable _ _ Ht) as (Hu & Ha & Hp). unfold is_u32 in Hu.
  cbn zeta. rewrite <- !Z.lor_assoc. change (Z.lor PTE_P (Z.lor PTE_W PTE_U)) with 7.
  rewrite lor_flags by lia. split; [unfold is_u32; lia|].
  split; [by rewrite hasf_P by lia|]. by rewrite PTE_ADDR_flags by lia.
Qed.

(** ** walkpgdir *)

Section Walk.
Context (w : world) (nolock : Lkmem ∉ w_held w).

Lemma mwp_walk_find pgdir va alloc m t (Q : option pte_ptr -> kmem -> Prop) :
  page_ok m pgdir -> table m pgdir (Z.to_nat (PDX va)) = Some t ->
  Q (Some (t, Z.to_nat (PTX va))) m -> mwp w (walkpgdir pgdir va alloc) m Q.
Proof.
  intros (d & Hd & _) Ht HQ. unfold walkpgdir. apply mwp_bind. eapply mwp_read_pte; [exact Hd|].
  unfold table, pde in Ht. rewrite Hd in Ht. destruct (hasf _ PTE_P); [|done]. simplify_eq. by apply mwp_ret.
Qed.

Lemma mwp_walk_miss pgdir va m (Q : option pte_ptr -> kmem -> Prop) :
  page_ok m pgdir -> table m pgdir (Z.to_nat (PDX va)) = None ->
  Q None m -> mwp w (walkpgdir pgdir va false) m Q.
Proof.
  intros (d & Hd & _) Ht HQ. unfold walkpgdir. apply mwp_bind. eapply mwp_read_pte; [exact Hd|].
  unfold table, pde in Ht. rewrite Hd in Ht. destruct (hasf _ PTE_P); [done|]. by apply mwp_ret.
Qed.

(** The memory after [walkpgdir] has added the empty table [t] for entry [i]. *)
Definition add_table (m : kmem) (pgdir : Z) (i : nat) (t : Z) (m' : kmem) : Prop :=
  exists d, m_page m !! pgdir = Some d /\
    m' = m <| m_freelist := m_freelist m' |>
           <| m_page ::= fun p =>
                <[pgdir := put32 d (4 * i) (Z.lor (Z.lor (Z.lor (V2P t) PTE_P) PTE_W) PTE_U)]>
                  (<[t := page_fill 0]> p) |>.

Lemma mwp_walk_alloc pgdir va m l (Q : option pte_ptr -> kmem -> Prop) :
  vm_ok m pgdir l -> table m pgdir (Z.to_nat (PDX va)) = None ->
  (l = [] -> Q None m) ->
  (forall t l' m', l = t :: l' -> kmem_ok m' l' -> add_table m pgdir (Z.to_nat (PDX va)) t m' ->
     Q (Some (t, Z.to_nat (PTX va))) m') ->
  mwp w (walkpgdir pgdir va true) m Q.
Proof.
  intros Hv Ht Hnone Hsome. destruct (vm_dir _ _ _ Hv) as (d & Hd & Hld).
  unfold walkpgdir. apply mwp_bind. eapply mwp_read_pte; [exact Hd|].
  unfold table, pde in Ht. rewrite Hd in Ht. destruct (hasf _ PTE_P); [done|]. cbn [negb].
  apply mwp_bind. apply (mwp_kalloc w nolock m l); [apply Hv|]. intros m1 Hm1 Em1.
  destruct l as [|t l]; cbn [hd_error tail] in *.
  - apply mwp_ret. replace m1 with m; [by apply Hnone|].
    destruct (vm_kmem _ _ _ Hv) as (Hf & _). destruct Hm1 as (Hf1 & _). cbn in Hf, Hf1.
    rewrite Em1, Hf1. destruct m; cbn in *. by subst.
  - destruct (vm_kmem _ _ _ Hv) as (Hf & Hnd & Hok). apply Forall_cons_1 in Hok as [Hok _].
    destruct Hf as (_ & dt & Hdt & _).
    assert (t <> pgdir) as Hne by (intros ->; apply (vm_dir_used _ _ _ Hv); set_solver).
    assert (m_page m1 = m_page m) as Ep by (by rewrite Em1).
    apply mwp_bind. apply (mwp_upd_page w t _ m1 dt); [by rewrite Ep|].
    apply mwp_bind. eapply mwp_write_pte; [cbn; by rewrite lookup_insert_ne, Ep|].
    apply mwp_ret. apply (Hsome t l); [done| |].
    + apply NoDup_cons in Hnd as [Hnt _]. destruct Hm1 as (Hf1 & Hnd1 & Hok1).
      split; [|by split]. cbn. apply free_list_frame; [|by apply free_list_frame].
      intros Hin. apply (vm_dir_used _ _ _ Hv). set_solver.
    + exists d. split; [done|]. by rewrite Em1.
Qed.

End Walk.

(** ** How one step changes an address space *)

Lemma get32_page_fill0 i : get32 (page_fill 0) i = 0.
Proof.
  unfold get32, slice, page_fill. rewrite drop_replicate, take_replicate.
  generalize (4 `min` (Z.to_nat PGSIZE - i))%nat as n. induction n as [|n IH]; cbn; [done|]. by rewrite IH.
Qed.

Lemma table_frame m m' pgdir i :
  m_page m' !! pgdir = m_page m !! pgdir -> table m' pgdir i = table m pgdir i.
Proof. unfold table, pde. by intros ->. Qed.

Lemma entry_frame m m' t j : m_page m' !! t = m_page m !! t -> entry m' t j = entry m t j.
Proof. unfold entry. by intros ->. Qed.

Lemma page_ok_insert m m' v d u :
  m_page m' = <[v := d]> (m_page m) -> length d = 4096%nat -> page_ok m u -> page_ok m' u.
Proof.
  intros E Hl (e & He & Hle). unfold page_ok. rewrite E. destruct (decide (u = v)) as [->|Hne].
  - rewrite lookup_insert_eq. eauto.
  - rewrite lookup_insert_ne by done. eauto.
Qed.

Lemma kmem_ok_insert m v d l :
  v ∉ l -> kmem_ok m l -> kmem_ok (m <| m_page ::= <[v := d]> |>) l.
Proof. intros Hv (Hf & Hnd & Hok). split; [|by split]. cbn. by apply free_list_frame. Qed.

(** From [m] and the free list [l] to [m'] and [l'], the address space [pgdir]
    becomes [mp]; nothing but the pages of its tree and free pages changed. *)
Record vm_ext (pgdir : Z) (m : kmem) (l : list Z) (m' : kmem) (l' : list Z) (mp : Z -> option Z) : Prop := Vm_ext {
  ext_ok : vm_ok m' pgdir l';
  ext_map : forall va, is_u32 va -> mapping m' pgdir va = mp va;
  ext_mono : forall i t, (i < 1024)%nat -> table m pgdir i = Some t -> table m' pgdir i = Some t;
  ext_new : forall i t, (i < 1024)%nat -> table m' pgdir i = Some t -> table m pgdir i = Some t \/ t ∈ l;
  ext_free : l' `suffix_of` l;
  ext_frame : forall u, u ∉ l -> u <> pgdir -> (forall i, (i < 1024)%nat -> table m pgdir i <> Some u) ->
    m_page m' !! u = m_page m !! u;
  ext_pages : forall u, page_ok m u -> page_ok m' u;
  ext_end : m_end m' = m_end m;
  ext_data : m_data m' = m_data m }.

Lemma vm_ext_refl pgdir m l : vm_ok m pgdir l -> vm_ext pgdir m l m l (mapping m pgdir).
Proof. intros H. by constructor; auto. Qed.

Lemma vm_ext_trans pgdir m l m1 l1 mp1 m2 l2 mp2 :
  vm_ext pgdir m l m1 l1 mp1 -> vm_ext pgdir m1 l1 m2 l2 mp2 -> vm_ext pgdir m l m2 l2 mp2.
Proof.
  intros H1 H2. assert (forall u, u ∈ l1 -> u ∈ l) as Hsub.
  { intros u Hu. destruct (ext_free _ _ _ _ _ _ H1) as [k ->]. set_solver. }
  constructor.
  - apply H2.
  - apply H2.
  - intros i t Hi Ht. apply (ext_mono _ _ _ _ _ _ H2), (ext_mono _ _ _ _ _ _ H1); done.
  - intros i t Hi Ht. destruct (ext_new _ _ _ _ _ _ H2 i t Hi Ht) as [Ht'|Ht']; [|eauto].
    by apply (ext_new _ _ _ _ _ _ H1).
  - etransitivity; [apply H2|apply H1].
  - intros u Hl Hp Ht. rewrite (ext_frame _ _ _ _ _ _ H2), (ext_frame _ _ _ _ _ _ H1); try done; [naive_solver|].
    intros i Hi Ht'. destruct (ext_new _ _ _ _ _ _ H1 i u Hi Ht') as [Ht''|Ht'']; [by eapply Ht|done].
  - intros u Hu. by apply (ext_pages _ _ _ _ _ _ H2), (ext_pages _ _ _ _ _ _ H1).
  - by rewrite (ext_end _ _ _ _ _ _ H2), (ext_end _ _ _ _ _ _ H1).
  - by rewrite (ext_data _ _ _ _ _ _ H2), (ext_data _ _ _ _ _ _ H1).
Qed.

Lemma vm_ext_mono pgdir m l m' l' mp mp' :
  vm_ext pgdir m l m' l' mp -> (forall va, is_u32 va -> mp va = mp' va) -> vm_ext pgdir m l m' l' mp'.
Proof. intros [] H. constructor; auto. intros va Hva. rewrite <- H by done. auto. Qed.

Lemma add_table_table pgdir m l i t m' :
  vm_ok m pgdir (t :: l) -> (i < 1024)%nat -> add_table m pgdir i t m' ->
  forall j, (j < 1024)%nat -> table m' pgdir j = if decide (j = i) then Some t else table m pgdir j.
Proof.
  intros Hv Hi (d & Hd & ->) j Hj. destruct (vm_dir _ _ _ Hv) as (d' & Hd' & Hl). simplify_eq.
  destruct (vm_kmem _ _ _ Hv) as (_ & _ & Hok). apply Forall_cons_1 in Hok as [Hok _].
  destruct (new_pde _ _ Hok) as (Hu & Hp & Ha).
  unfold table, pde. cbn. rewrite lookup_insert_eq, Hd. case_decide as Hij.
  - subst. rewrite get32_put32_eq by lia. by rewrite u32_id, Hp, Ha by done.
  - rewrite get32_put32_ne by lia. done.
Qed.

Lemma add_table_ext pgdir m l i t m' :
  vm_ok m pgdir (t :: l) -> (i < 1024)%nat -> table m pgdir i = None -> kmem_ok m' l ->
  add_table m pgdir i t m' -> vm_ext pgdir m (t :: l) m' l (mapping m pgdir).
Proof.
  intros Hv Hi Hn Hk Ha. pose proof (add_table_table _ _ _ _ _ _ Hv Hi Ha) as Htab.
  destruct Ha as (d & Hd & Em). destruct (vm_dir _ _ _ Hv) as (d' & Hd' & Hl). simplify_eq.
  assert (t ∉ l) as Htl by (destruct (vm_kmem _ _ _ Hv) as (_ & Hnd & _); by apply NoDup_cons in Hnd as [? _]).
  pose proof (vm_dir_used _ _ _ Hv) as Hdu. apply not_elem_of_cons in Hdu as [Hne Hdl].
  assert (forall u, u <> t -> u <> pgdir -> m_page m' !! u = m_page m !! u) as Hfr.
  { intros u H1 H2. rewrite Em. cbn. by rewrite !lookup_insert_ne by done. }
  assert (m_page m' !! t = Some (page_fill 0)) as Ht0.
  { rewrite Em. cbn. by rewrite lookup_insert_ne, lookup_insert_eq by done. }
  assert (page_ok m' t) as Hpt by (exists (page_fill 0); split; [done|apply length_page_fill]).
  assert (forall u, page_ok m u -> page_ok m' u) as Hpk.
  { intros u Hu. destruct (decide (u = t)) as [->|]; [done|]. destruct (decide (u = pgdir)) as [->|].
    - rewrite Em. eexists. cbn. rewrite lookup_insert_eq. split; [done|]. by rewrite length_put32 by lia.
    - unfold page_ok. by rewrite Hfr. }
  assert (forall j u, (j < 1024)%nat -> table m pgdir j = Some u -> u <> t /\ u <> pgdir /\ u ∉ l) as Hold.
  { intros j u Hj Hu. destruct (vm_table _ _ _ Hv j u Hj Hu) as (_ & Hul & Hud).
    by apply not_elem_of_cons in Hul as [? ?]. }
  constructor.
  - constructor; [done|apply Hpk, Hv|..].
    + done.
    + intros j u Hj Hu. rewrite Htab in Hu by done. case_decide; [by simplify_eq|].
      destruct (vm_table _ _ _ Hv j u Hj Hu) as (Hpu & _). destruct (Hold j u Hj Hu) as (? & ? & ?). auto.
    + intros j1 j2 u H1 H2 E1 E2. rewrite Htab in E1, E2 by done. destruct (decide (j1 = i)) as [N1|N1], (decide (j2 = i)) as [N2|N2].
      * congruence.
      * injection E1 as <-. by destruct (Hold j2 t H2 E2) as (? & _).
      * injection E2 as <-. by destruct (Hold j1 t H1 E1) as (? & _).
      * by apply (vm_inj _ _ _ Hv j1 j2 u).
  - intros va _. unfold mapping. rewrite Htab by apply PDX_lt. case_decide as Hij.
    + rewrite Hij, Hn. unfold entry. rewrite Ht0, get32_page_fill0. done.
    + destruct (table m pgdir (Z.to_nat (PDX va))) as [u|] eqn:Eu; [|done].
      destruct (Hold _ _ (PDX_lt va) Eu) as (? & ? & _). by rewrite (entry_frame m m') by auto.
  - intros j u Hj Hu. rewrite Htab by done. case_decide; [by subst; rewrite Hn in Hu|done].
  - intros j u Hj Hu. rewrite Htab in Hu by done. case_decide; [simplify_eq; right; by left|by left].
  - by exists [t].
  - intros u Hu Hup _. apply not_elem_of_cons in Hu as [? _]. by apply Hfr.
  - done.
  - by rewrite Em.
  - by rewrite Em.
Qed.

(** The page that contains an address. *)
Definition page_of (va : Z) : Z := va / 4096 * 4096.

Lemma page_of_eq va a :
  is_u32 va -> is_u32 a -> Z.to_nat (PDX va) = Z.to_nat (PDX a) /\ Z.to_nat (PTX va) = Z.to_nat (PTX a) <->
  page_of va = page_of a.
Proof.
  intros Hva Ha. unfold page_of. rewrite !PDX_eq, !PTX_eq by done. unfold is_u32 in *. lia.
Qed.

(** Writing an entry of a table of the address space. *)
Lemma set_entry_ext pgdir m l a t d v :
  vm_ok m pgdir l -> is_u32 a -> table m pgdir (Z.to_nat (PDX a)) = Some t -> m_page m !! t = Some d ->
  is_u32 v ->
  vm_ext pgdir m l (m <| m_page ::= <[t := put32 d (4 * Z.to_nat (PTX a)) v]> |>) l
    (fun va => if decide (page_of va = page_of a) then (if hasf v PTE_P then Some v else None)
               else mapping m pgdir va).
Proof.
  intros Hv Ha Ht Hd Hu. set (m' := m <| m_page ::= _ |>).
  destruct (vm_table _ _ _ Hv _ _ (PDX_lt a) Ht) as ((d' & Hd' & Hl) & Htl & Htd). simplify_eq.
  pose proof (PTX_lt a) as Hj.
  assert (length (put32 d (4 * Z.to_nat (PTX a)) v) = 4096%nat) as Hl' by (by rewrite length_put32 by lia).
  assert (forall u, u <> t -> m_page m' !! u = m_page m !! u) as Hfr.
  { intros u Hne. cbn. by rewrite lookup_insert_ne by done. }
  assert (forall i, table m' pgdir i = table m pgdir i) as Htab by (intros i; apply table_frame, Hfr; done).
  assert (forall u, page_ok m u -> page_ok m' u) as Hpk by (intros u; by eapply page_ok_insert).
  constructor.
  - constructor.
    + by apply kmem_ok_insert; [|apply Hv].
    + apply Hpk, Hv.
    + apply Hv.
    + intros i u Hi Hu'. rewrite Htab in Hu'. destruct (vm_table _ _ _ Hv i u Hi Hu') as (? & ? & ?). auto.
    + intros i j u Hi Hj'. rewrite !Htab. by apply (vm_inj _ _ _ Hv).
  - intros va Hva. unfold mapping. rewrite Htab. case_decide as Hp.
    + apply (page_of_eq va a Hva Ha) in Hp as [-> ->]. rewrite Ht. unfold entry. cbn.
      rewrite lookup_insert_eq, get32_put32_eq by lia. by rewrite u32_id.
    + destruct (table m pgdir (Z.to_nat (PDX va))) as [u|] eqn:Eu; [|done].
      destruct (decide (u = t)) as [->|Hne]; [|by rewrite (entry_frame m m') by auto].
      assert (Z.to_nat (PDX va) = Z.to_nat (PDX a)) as Ei by (eapply (vm_inj _ _ _ Hv); eauto using PDX_lt).
      assert (Z.to_nat (PTX va) <> Z.to_nat (PTX a)) as Hne.
      { intros Ej. apply Hp. by apply (page_of_eq va a). }
      unfold entry. cbn. rewrite lookup_insert_eq, Hd. pose proof (PTX_lt va).
      rewrite get32_put32_ne by lia. done.
  - intros i u _. by rewrite Htab.
  - intros i u _. rewrite Htab. by left.
  - done.
  - intros u _ _ Hnt. apply Hfr. intros ->. by eapply Hnt, Ht; apply PDX_lt.
  - done.
  - done.
  - done.
Qed.

(** ** mappages *)

(** Is the table for [a] there? *)
Definition has_table (m : kmem) (pgdir a : Z) : bool :=
  match table m pgdir (Z.to_nat (PDX a)) with Some _ => true | None => false end.

(** The address space [mp] with [v] at the page of [a]. *)
Definition map_page (a v : Z) (mp : Z -> option Z) (va : Z) : option Z :=
  if decide (page_of va = page_of a) then Some v else mp va.

Section Mappages.
Context (w : world) (nolock : Lkmem ∉ w_held w) (pgdir : Z).

(** An iteration of the loop. *)
Lemma mwp_map_one {X} a v (next fail : X) m l (Q : X -> kmem -> Prop) :
  vm_ok m pgdir l -> is_u32 a -> mapping m pgdir a = None -> is_u32 v -> hasf v PTE_P = true ->
  (has_table m pgdir a = false -> l = [] -> Q fail m) ->
  (forall m' l', vm_ext pgdir m l m' l' (map_page a v (mapping m pgdir)) ->
     has_table m' pgdir a = true ->
     (length l <= length l' + (if has_table m pgdir a then 0 else 1))%nat -> Q next m') ->
  mwp w (o ← walkpgdir pgdir a true;
         match o with
         | None => mret fail
         | Some pte =>
             e ← read_pte pte;
             if hasf e PTE_P then panic "remap" else
             write_pte pte v ;;
             mret next
         end) m Q.
Proof.
  intros Hv Ha Hm Hu Hp Hfail Hnext. apply mwp_bind.
  assert (forall m1 l1 t, vm_ext pgdir m l m1 l1 (mapping m pgdir) -> table m1 pgdir (Z.to_nat (PDX a)) = Some t ->
    (length l <= length l1 + (if has_table m pgdir a then 0 else 1))%nat ->
    mwp w (e ← read_pte (t, Z.to_nat (PTX a));
           if hasf e PTE_P then panic "remap" else write_pte (t, Z.to_nat (PTX a)) v ;; mret next) m1 Q) as G.
  { intros m1 l1 t He Ht Hlen. pose proof (ext_ok _ _ _ _ _ _ He) as Hv1.
    destruct (vm_table _ _ _ Hv1 _ _ (PDX_lt a) Ht) as ((d & Hd & Hl) & _).
    apply mwp_bind. eapply mwp_read_pte; [exact Hd|].
    pose proof (ext_map _ _ _ _ _ _ He a Ha) as Hma. rewrite Hm in Hma.
    unfold mapping, entry in Hma. rewrite Ht, Hd in Hma. destruct (hasf (get32 d _) PTE_P); [done|].
    apply mwp_bind. eapply mwp_write_pte; [exact Hd|]. apply mwp_ret.
    pose proof (set_entry_ext pgdir m1 l1 a t d v Hv1 Ha Ht Hd Hu) as Hs.
    apply (Hnext _ l1); [| |done].
    - eapply vm_ext_mono; [by eapply vm_ext_trans|]. intros va Hva. cbn. unfold map_page. rewrite Hp.
      case_decide; [done|]. apply (ext_map _ _ _ _ _ _ He va Hva).
    - unfold has_table. by rewrite (ext_mono _ _ _ _ _ _ Hs _ _ (PDX_lt a) Ht). }
  unfold has_table in *. destruct (table m pgdir (Z.to_nat (PDX a))) as [t|] eqn:Ht.
  - eapply mwp_walk_find; [apply Hv|exact Ht|]. apply (G m l t); [by apply vm_ext_refl|done|lia].
  - eapply mwp_walk_alloc; [done|exact Hv|exact Ht| |].
    + intros ->. apply mwp_ret. by apply Hfail.
    + intros t l' m' -> Hk Hat. apply (G m' l' t); [| |cbn; lia].
      * by apply (add_table_ext pgdir m l' (Z.to_nat (PDX a)) t m'); [|apply PDX_lt|..].
      * rewrite (add_table_table pgdir m l' _ t m' Hv (PDX_lt a) Hat) by apply PDX_lt. by rewrite decide_True.
Qed.

(** The entry [mappages] writes for the page at offset [off] of a range. *)
Definition pte_val (pa off perm : Z) : Z := Z.lor (Z.lor (u32 (pa + off)) perm) PTE_P.

(** The address space [mp] with [n] pages mapped from [a]. *)
Definition map_range (a : Z) (n : Z) (pa perm : Z) (mp : Z -> option Z) (va : Z) : option Z :=
  if decide (a <= va < a + 4096 * n) then Some (pte_val pa (page_of va - a) perm) else mp va.

Lemma pte_val_ok pa off perm :
  pa mod 4096 = 0 -> off mod 4096 = 0 -> 0 <= perm < 4096 ->
  is_u32 (pte_val pa off perm) /\ hasf (pte_val pa off perm) PTE_P = true /\
  PTE_ADDR (pte_val pa off perm) = u32 (pa + off).
Proof.
  intros Hp Ho Hf. unfold pte_val. rewrite <- Z.lor_assoc.
  assert (0 <= Z.lor perm PTE_P < 4096) as Hfl.
  { split; [apply Z.lor_nonneg; split; [lia|done]|].
    change 4096 with (2 ^ 12). apply Z.log2_lt_cancel. rewrite Z.log2_lor; [|lia|done].
    change (Z.log2 PTE_P) with 0. rewrite Z.max_l by apply Z.log2_nonneg.
    destruct (decide (perm = 0)) as [->|]; [done|]. apply Z.log2_lt_pow2; [lia|]. change (2 ^ Z.log2 (2 ^ 12)) with 4096. lia. }
  assert (u32 (pa + off) mod 4096 = 0) as Hm by (unfold u32; lia).
  pose proof (u32_range (pa + off)) as Hr. unfold is_u32 in Hr.
  rewrite lor_flags by lia. split; [unfold is_u32; lia|].
  split; [|by rewrite PTE_ADDR_flags by lia].
  rewrite hasf_P by lia. change PTE_P with (2 ^ 0). rewrite hasf_bit, Z.lor_spec by lia.
  by rewrite Z.pow2_bits_true, orb_true_r by lia.
Qed.

(** Tables the range from [a] to the page [last] still needs, at most. *)
Definition need (m : kmem) (a last : Z) : Z :=
  PDX last - PDX a + (if has_table m pgdir a then 0 else 1).

Lemma need_next m m' a last :
  is_u32 last -> 0 <= a -> a + 4096 <= last -> has_table m' pgdir a = true ->
  need m' (a + 4096) last <= need m a last - (if has_table m pgdir a then 0 else 1).
Proof.
  unfold is_u32. intros Hl Ha Hle Ht. unfold need.
  assert (is_u32 a) by (unfold is_u32; lia). assert (is_u32 (a + 4096)) by (unfold is_u32; lia).
  assert (is_u32 last) by (unfold is_u32; lia). rewrite !PDX_eq by done.
  destruct (decide (PDX (a + 4096) = PDX a)) as [E|E].
  - unfold has_table in *. rewrite E in *. rewrite !PDX_eq in E by done. rewrite E.
    destruct (table m' pgdir (Z.to_nat (PDX a))); [|done]. destruct (table m pgdir _); lia.
  - rewrite !PDX_eq in E by done. assert ((a + 4096) / 4194304 = a / 4194304 + 1) by lia.
    destruct (has_table m' pgdir (a + 4096)), (has_table m pgdir a); lia.
Qed.

(** The outcome of mapping the pages from [a] to [last] at [pa]. *)
Definition map_result (m : kmem) (l : list Z) (a last pa perm : Z) (r : Z) (m' : kmem) : Prop :=
  exists l',
    (r = 0 /\ vm_ext pgdir m l m' l' (map_range a ((last - a) / 4096 + 1) pa perm (mapping m pgdir)) /\
     Z.of_nat (length l) <= Z.of_nat (length l') + need m a last) \/
    (r = -1 /\ Z.of_nat (length l) < need m a last /\ exists mp, vm_ext pgdir m l m' l' mp).

(** The body of the loop of [mappages]. *)
Definition map_body (last perm : Z) (st : Z * Z) : M (Z * Z + Z) :=
  let '(a, pa) := st in
  o ← walkpgdir pgdir a true;
  match o with
  | None => mret (inr (-1))
  | Some pte =>
      e ← read_pte pte;
      if hasf e PTE_P then panic "remap" else
      write_pte pte (Z.lor (Z.lor pa perm) PTE_P) ;;
      mret (if a =? last then inr 0 else inl (u32 (a + PGSIZE), u32 (pa + PGSIZE)))
  end.

Lemma map_range_one a pa perm mp va :
  a mod 4096 = 0 -> is_u32 pa -> map_range a 1 pa perm mp va = map_page a (pte_val pa 0 perm) mp va.
Proof.
  intros Ha Hpa. unfold map_range, map_page, page_of. repeat case_decide; try lia; [|done].
  do 2 f_equal. unfold page_of. lia.
Qed.

Lemma map_range_next a n pa perm mp va :
  a mod 4096 = 0 -> 0 <= n ->
  map_range (a + 4096) n (u32 (pa + 4096)) perm (map_page a (pte_val pa 0 perm) mp) va
  = map_range a (n + 1) pa perm mp va.
Proof.
  intros Ha Hn. unfold map_range, map_page, page_of. repeat case_decide; try lia; try done.
  - f_equal. unfold pte_val. rewrite u32_add_l. do 3 f_equal. lia.
  - f_equal. unfold pte_val. do 3 f_equal. lia.
Qed.

Lemma mwp_map_loop last perm k a pa m l :
  vm_ok m pgdir l -> is_u32 last -> a = last - 4096 * Z.of_nat k -> 0 <= a -> a mod 4096 = 0 ->
  pa mod 4096 = 0 -> is_u32 pa -> 0 <= perm < 4096 ->
  (forall va, is_u32 va -> a <= va < last + 4096 -> mapping m pgdir va = None) ->
  mwp w (loop (S k) (map_body last perm) (a, pa)) m (map_result m l a last pa perm).
Proof.
  intros Hv Hl. revert a pa m l Hv. induction k as [|k IH]; intros a pa m l Hv Ea Ha Hal Hpal Hpa Hf Hfree;
    assert (is_u32 a) as Hau by (unfold is_u32 in *; lia); cbn [loop]; apply mwp_bind; unfold map_body at 1;
    destruct (pte_val_ok pa 0 perm Hpal eq_refl Hf) as (Hvu & Hvp & _);
    assert (Z.lor (Z.lor pa perm) PTE_P = pte_val pa 0 perm) as ->
      by (unfold pte_val; by rewrite Z.add_0_r, u32_id);
    apply (mwp_map_one a (pte_val pa 0 perm) _ _ m l); try done; try (apply Hfree; [done|lia]).
  - intros Ht ->. apply mwp_ret. exists []. right. split; [done|]. unfold need. rewrite Ht. cbn.
    split; [rewrite !PDX_eq by done; unfold is_u32 in *; lia|]. eexists. by apply vm_ext_refl.
  - intros m' l' He Ht Hlen. replace (a =? last) with true by lia. apply mwp_ret. exists l'. left.
    split; [done|]. split.
    + eapply vm_ext_mono; [exact He|]. intros va Hva. rewrite <- map_range_one by done. f_equal. lia.
    + unfold need. rewrite !PDX_eq by done. destruct (has_table m pgdir a); lia.
  - intros Ht ->. apply mwp_ret. exists []. right. split; [done|]. unfold need. rewrite Ht. cbn.
    split; [rewrite !PDX_eq by done; unfold is_u32 in *; lia|]. eexists. by apply vm_ext_refl.
  - intros m' l' He Ht Hlen. replace (a =? last) with false by lia.
    assert (u32 (a + PGSIZE) = a + 4096) as -> by (apply u32_id; unfold is_u32 in *; lia).
    change (pa + PGSIZE) with (pa + 4096). unfold is_u32 in Hl, Hau.
    eapply mwp_mono; [apply (IH (a + 4096) (u32 (pa + 4096)) m' l'); [apply He|lia|lia|lia|unfold u32; lia|apply u32_range|done|]|].
    { intros va Hva Hr. rewrite (ext_map _ _ _ _ _ _ He va Hva). unfold map_page.
      rewrite decide_False by (unfold page_of; lia). apply Hfree; [done|lia]. }
    pose proof (need_next m m' a last ltac:(unfold is_u32; lia) Ha ltac:(lia) Ht) as Hneed.
    intros r m2 (l2 & [(-> & He2 & Hlen2)|(-> & Hlen2 & mp & He2)]); exists l2; [left|right].
    + split; [done|]. split.
      * eapply vm_ext_mono; [by eapply vm_ext_trans|]. intros va Hva. cbn beta.
        replace ((last - a) / 4096 + 1) with ((last - (a + 4096)) / 4096 + 1 + 1) by lia.
        rewrite <- (map_range_next a) by lia. unfold map_range. case_decide; [done|].
        by apply (ext_map _ _ _ _ _ _ He).
      * destruct (has_table m pgdir a); lia.
    + split; [done|]. split; [destruct (has_table m pgdir a); lia|]. exists mp. by eapply vm_ext_trans.
Qed.

Lemma mwp_mappages va size pa perm m l :
  vm_ok m pgdir l -> is_u32 va -> 0 < size -> va + size <= 4294967296 ->
  pa mod 4096 = 0 -> is_u32 pa -> 0 <= perm < 4096 ->
  (forall u, is_u32 u -> page_of va <= u < page_of (va + size - 1) + 4096 -> mapping m pgdir u = None) ->
  mwp w (mappages pgdir va size pa perm) m
    (map_result m l (page_of va) (page_of (va + size - 1)) pa perm).
Proof.
  intros Hv Hva Hs Hle Hpal Hpa Hf Hfree. unfold mappages. unfold is_u32 in Hva.
  assert (u32 (va + size - 1) = va + size - 1) as -> by (apply u32_id; unfold is_u32; lia).
  rewrite !PGROUNDDOWN_eq by lia. fold (page_of va). fold (page_of (va + size - 1)).
  assert (u32 (page_of (va + size - 1) - page_of va) = page_of (va + size - 1) - page_of va) as ->
    by (apply u32_id; unfold page_of, is_u32; lia).
  apply mwp_map_loop; try done; unfold page_of, is_u32, PGSIZE in *; lia.
Qed.

End Mappages.

Lemma with_mem_id w : with_mem (k_mem (w_k w)) w = w.
Proof. destruct w as [k]. by destruct k. Qed.

(** C10. [mappages] maps every page that [va .. va+size) touches to the
    consecutive physical pages from [pa], with the permissions asked for, and
    leaves every other mapping of the address space as it was; it allocates at
    most one page table per directory entry, succeeds whenever that many pages
    are free, and touches no page outside the page tables and the free list. *)
Theorem mappages_maps pgdir va size pa perm w l :
  let m := k_mem (w_k w) in let a := page_of va in let last := page_of (va + size - 1) in
  Lkmem ∉ w_held w -> vm_ok m pgdir l -> is_u32 va -> 0 < size -> va + size <= 4294967296 ->
  pa mod 4096 = 0 -> is_u32 pa -> 0 <= perm < 4096 ->
  (forall u, is_u32 u -> a <= u < last + 4096 -> mapping m pgdir u = None) ->
  exists r m' l', mappages pgdir va size pa perm w = Ok r (with_mem m' w) /\ vm_ok m' pgdir l' /\
    (PDX last - PDX a + 1 <= Z.of_nat (length l) -> r = 0) /\
    (r = 0 -> forall u, is_u32 u -> mapping m' pgdir u =
       if decide (a <= u < last + 4096) then Some (pte_val pa (page_of u - a) perm) else mapping m pgdir u) /\
    (forall u, u ∉ l -> u <> pgdir -> (forall i, (i < 1024)%nat -> table m pgdir i <> Some u) ->
       m_page m' !! u = m_page m !! u).
Proof.
  cbn zeta. intros Hn Hv Hva Hs Hle Hpal Hpa Hf Hfree.
  destruct (mwp_mappages w Hn pgdir va size pa perm _ l Hv Hva Hs Hle Hpal Hpa Hf Hfree)
    as (r & m' & E & l' & H). rewrite with_mem_id in E. exists r, m', l'. split; [exact E|].
  unfold is_u32 in Hva. destruct H as [(-> & He & Hlen)|(-> & Hlen & mp & He)].
  - split; [apply He|]. split; [done|]. split; [|apply He].
    intros _ u Hu. rewrite (ext_map _ _ _ _ _ _ He u Hu). unfold map_range.
    replace (page_of va + 4096 * ((page_of (va + size - 1) - page_of va) / 4096 + 1))
      with (page_of (va + size - 1) + 4096) by (unfold page_of; lia). done.
  - split; [apply He|]. split; [|split; [done|apply He]].
    intros Hle'. unfold need in Hlen. destruct (has_table _ _ _); lia.
Qed.

(** ** An empty page directory, and one free page *)

Definition demo_vm : world := demo_kernel (demo_page + PGSIZE).

Lemma demo_table i : table (demo_mem (demo_page + PGSIZE)) demo_page i = None.
Proof.
  unfold table, pde. replace (m_page _ !! demo_page) with (Some (page_fill 0)) by reflexivity.
  by rewrite get32_page_fill0.
Qed.

Lemma demo_vm_ok : vm_ok (demo_mem (demo_page + PGSIZE)) demo_page [demo_page + PGSIZE].
Proof.
  constructor.
  - split; [|split; [apply NoDup_singleton|apply Forall_singleton, demo_freeable; by right]].
    split; [done|]. exists (page_fill 0). split; [reflexivity|]. split; [apply length_page_fill|reflexivity].
  - apply demo_page_ok. by left.
  - rewrite list_elem_of_singleton. by vm_compute.
  - intros i t _. by rewrite demo_table.
  - intros i j t _ _. by rewrite demo_table.
Qed.

Lemma mappages_maps_witness :
  exists r m' l', mappages demo_page 4096 4096 20480 6 demo_vm = Ok r (with_mem m' demo_vm) /\
    vm_ok m' demo_page l' /\ (1 <= 1 -> r = 0) /\
    (r = 0 -> forall u, is_u32 u -> mapping m' demo_page u =
       if decide (4096 <= u < 8192) then Some (pte_val 20480 (page_of u - 4096) 6)
       else mapping (demo_mem (demo_page + PGSIZE)) demo_page u) /\
    (forall u, u ∉ [demo_page + PGSIZE] -> u <> demo_page ->
       (forall i, (i < 1024)%nat -> table (demo_mem (demo_page + PGSIZE)) demo_page i <> Some u) ->
       m_page m' !! u = m_page (demo_mem (demo_page + PGSIZE)) !! u).
Proof.
  apply (mappages_maps demo_page 4096 4096 20480 6 demo_vm [demo_page + PGSIZE]).
  - apply not_elem_of_nil.
  - apply demo_vm_ok.
  - done.
  - done.
  - done.
  - done.
  - done.
  - done.
  - intros u _ _. unfold mapping. by rewrite demo_table.
Defined.
