(* ===== verification/MemFrame.v ===== *)
(** What the memory functions of the kernel leave alone: kalloc.c, and the page table
    functions of vm.c that [fork] and [wait] call, change the pages and the free list and
    nothing else, whatever they return. *)

From S2P Require Import Prelude Kernel Sched Kalloc Vm VmSpec.

(** The fields of the allocator that only [kinit1], [kinit2] and the linker set. *)
Definition same_pool (m m' : kmem) : Prop :=
  m_use_lock m' = m_use_lock m /\ m_end m' = m_end m /\ m_data m' = m_data m.

Definition mem_only {A} (c : M A) : Prop := forall w a w', c w = Ok a w' ->
  exists m', w' = with_mem m' w /\ same_pool (k_mem (w_k w)) m'.

Create HintDb mem_only.

Lemma mem_only_same {A} (c : M A) : (forall w a w', c w = Ok a w' -> w' = w) -> mem_only c.
Proof. intros H w a w' E. rewrite (H _ _ _ E). exists (k_mem (w_k w)). by rewrite with_mem_id. Qed.

Lemma mem_only_ret {A} (a : A) : mem_only (mret a).
Proof. apply mem_only_same. by intros w b w' [= _ <-]. Qed.

Lemma mem_only_panic {A} s : mem_only (panic s : M A).
Proof. by intros w a w'. Qed.

Lemma mem_only_get {A} (f : kstate -> A) : mem_only (get f).
Proof. apply mem_only_same. by intros w b w' [= _ <-]. Qed.

Lemma mem_only_deref {A} (o : option A) : mem_only (deref o).
Proof. destruct o; [apply mem_only_ret|by intros w a w']. Qed.

Lemma mem_only_bind {A B} (c : M A) (k : A -> M B) : mem_only c -> (forall a, mem_only (k a)) -> mem_only (c ≫= k).
Proof.
  intros Hc Hk w b w'. unfold mbind, M_bind. destruct (c w) as [a w1| | | |] eqn:E; try done. intros E2.
  destruct (Hc _ _ _ E) as (m1 & -> & H1). destruct (Hk _ _ _ _ E2) as (m2 & -> & H2). exists m2. split; [by destruct w|].
  unfold same_pool in *. cbn in H2. naive_solver congruence.
Qed.

Lemma mem_only_when b (c : M unit) : mem_only c -> mem_only (when b c).
Proof. intros H. destruct b; [done|apply mem_only_ret]. Qed.

Lemma mem_only_if {A} (b : bool) (c d : M A) : mem_only c -> mem_only d -> mem_only (if b then c else d).
Proof. by destruct b. Qed.

#[export] Hint Resolve mem_only_ret mem_only_panic mem_only_get mem_only_deref mem_only_bind mem_only_when mem_only_if : mem_only.

Lemma mem_only_for_each {A} (body : A -> M unit) : (forall a, mem_only (body a)) -> forall l, mem_only (for_each l body).
Proof. intros H. induction l; cbn; auto with mem_only. Qed.

Lemma mem_only_find_each {A R} (body : A -> M (option R)) : (forall a, mem_only (body a)) -> forall l, mem_only (find_each l body).
Proof. intros H. induction l; cbn; [auto with mem_only|]. apply mem_only_bind; [done|]. intros [r|]; auto with mem_only. Qed.

Lemma mem_only_loop {S R} (body : S -> M (S + R)) : (forall s, mem_only (body s)) -> forall n s, mem_only (loop n body s).
Proof.
  intros H. induction n as [|n IH]; intros s; [by intros w a w'|]. cbn. apply mem_only_bind; [done|]. intros [s'|r]; auto with mem_only.
Qed.

Lemma mem_only_upd_page v f : mem_only (upd_page v f).
Proof.
  unfold upd_page. apply mem_only_bind; [unfold get_page; auto with mem_only|]. intros d w a w' [= _ <-].
  eexists. split; [by destruct w|done].
Qed.

Lemma mem_only_get_page v : mem_only (get_page v).
Proof. unfold get_page. auto with mem_only. Qed.

#[export] Hint Resolve mem_only_for_each mem_only_find_each mem_only_loop mem_only_upd_page mem_only_get_page : mem_only.

(** A part between [kmem_lock] and [kmem_unlock]. *)
Lemma mem_only_locked {A} (c : M A) : mem_only c -> mem_only (kmem_lock ;; a ← c; kmem_unlock ;; mret a).
Proof.
  intros Hc w b w'. unfold kmem_lock, kmem_unlock, mbind, M_bind, get, when, acquire, release, mret, M_ret.
  destruct (m_use_lock (k_mem (w_k w))) eqn:Eu.
  - destruct (bool_decide (Lkmem ∈ w_held w)) eqn:Eh; [done|]. destruct (c _) as [a w1| | | |] eqn:E; try done.
    destruct (Hc _ _ _ E) as (m1 & -> & H1). pose proof H1 as (Hu & _). cbn in Hu. cbn. rewrite Hu, Eu, bool_decide_eq_true_2 by left.
    intros [= _ <-]. exists m1. split; [by destruct w|exact H1].
  - destruct (c w) as [a w1| | | |] eqn:E; try done. destruct (Hc _ _ _ E) as (m1 & -> & H1). pose proof H1 as (Hu & _).
    cbn. rewrite Hu, Eu. intros [= _ <-]. eauto.
Qed.

Lemma mem_only_ext {A} (c d : M A) : (forall w, c w = d w) -> mem_only d -> mem_only c.
Proof. intros H Hd w a w'. rewrite H. apply Hd. Qed.

Lemma mem_only_upd_freelist (f : kmem -> Z) : mem_only (upd_kmem (fun m => m <| m_freelist := f m |>)).
Proof. intros w a w' [= _ <-]. eexists. split; [by destruct w|done]. Qed.

Lemma mem_only_kalloc : mem_only kalloc.
Proof.
  apply (mem_only_ext _ (kmem_lock ;; r ← (m ← get k_mem; when (negb (m_freelist m =? 0))
    (d ← get_page (m_freelist m); upd_kmem (fun m => m <| m_freelist := get32 d 0 |>)) ;;
    mret (if m_freelist m =? 0 then None else Some (m_freelist m))); kmem_unlock ;; mret r)).
  - intros w. unfold kalloc, mbind, M_bind, get. destruct (kmem_lock w) as [[] w1| | | |]; try done.
    destruct (when _ _ w1) as [[] w2| | | |]; try done.
  - apply mem_only_locked. apply mem_only_bind; [auto with mem_only|]. intros m. apply mem_only_bind; [|auto with mem_only].
    apply mem_only_when, mem_only_bind; [auto with mem_only|]. intros d. apply (mem_only_upd_freelist (fun _ => get32 d 0)).
Qed.

Lemma mem_only_kfree v : mem_only (kfree v).
Proof.
  unfold kfree. apply mem_only_bind; [auto with mem_only|]. intros m. apply mem_only_if; [auto with mem_only|].
  apply mem_only_bind; [auto with mem_only|]. intros _.
  apply (mem_only_ext _ (kmem_lock ;; r ← (m ← get k_mem; upd_page v (fun d => put32 d 0 (m_freelist m)) ;;
    upd_kmem (fun m => m <| m_freelist := v |>)); kmem_unlock ;; mret r)).
  - intros w. unfold mbind, M_bind, get. destruct (kmem_lock w) as [[] w1| | | |]; try done.
    destruct (upd_page _ _ w1) as [[] w2| | | |]; try done. destruct (upd_kmem _ w2) as [[] w3| | | |]; try done.
    by destruct (kmem_unlock w3) as [[] w4| | | |].
  - apply mem_only_locked. apply mem_only_bind; [auto with mem_only|]. intros m1. apply mem_only_bind; [auto with mem_only|].
    intros _. apply (mem_only_upd_freelist (fun _ => v)).
Qed.

#[export] Hint Resolve mem_only_kalloc mem_only_kfree : mem_only.

(** The goal is split along the code. *)
Ltac mem_only := repeat first
  [ progress intros | solve [auto with mem_only] | apply mem_only_bind | apply mem_only_if | apply mem_only_when
  | apply mem_only_loop | apply mem_only_find_each | apply mem_only_for_each
  | match goal with |- mem_only (match ?x with _ => _ end) => destruct x end ].

Lemma mem_only_read_pte p : mem_only (read_pte p).
Proof. unfold read_pte. mem_only. Qed.

Lemma mem_only_write_pte p v : mem_only (write_pte p v).
Proof. unfold write_pte. mem_only. Qed.

#[export] Hint Resolve mem_only_read_pte mem_only_write_pte : mem_only.

Lemma mem_only_walkpgdir pgdir va alloc : mem_only (walkpgdir pgdir va alloc).
Proof. unfold walkpgdir. mem_only. Qed.

#[export] Hint Resolve mem_only_walkpgdir : mem_only.

Lemma mem_only_mappages pgdir va size pa perm : mem_only (mappages pgdir va size pa perm).
Proof. unfold mappages. mem_only. Qed.

Lemma mem_only_deallocuvm pgdir o n : mem_only (deallocuvm pgdir o n).
Proof. unfold deallocuvm. mem_only. Qed.

#[export] Hint Resolve mem_only_mappages mem_only_deallocuvm : mem_only.

Lemma mem_only_freevm pgdir : mem_only (freevm pgdir).
Proof. unfold freevm. mem_only. Qed.

#[export] Hint Resolve mem_only_freevm : mem_only.

Lemma mem_only_setupkvm : mem_only setupkvm.
Proof. unfold setupkvm. mem_only. Qed.

#[export] Hint Resolve mem_only_setupkvm : mem_only.

Lemma mem_only_copyuvm pgdir sz : mem_only (copyuvm pgdir sz).
Proof. unfold copyuvm. mem_only. Qed.
