(* ===== verification/VmProc.v ===== *)
(** Address spaces of processes: the kernel part that [setupkvm] builds and the
    copy that [copyuvm] makes for a child (vm.c). *)

From S2P Require Import Prelude Kernel Sched Kalloc Vm VmSpec.

(** ** A fresh page directory *)

Lemma table_zero m pgdir i : m_page m !! pgdir = Some (page_fill 0) -> table m pgdir i = None.
Proof. intros H. unfold table, pde. by rewrite H, get32_page_fill0. Qed.

Section Setup.
Context (w : world) (nolock : Lkmem ∉ w_held w).

Lemma mwp_fresh_dir {X} m p l (k : M X) (Q : X -> kmem -> Prop) :
  kmem_ok m (p :: l) ->
  (forall m', vm_ok m' p l -> (forall i, table m' p i = None) ->
     (forall u, u <> p -> m_page m' !! u = m_page m !! u) ->
     (forall u, page_ok m u -> page_ok m' u) -> m_end m' = m_end m -> m_data m' = m_data m ->
     mwp w k m' Q) ->
  mwp w (upd_page p (fun _ => page_fill 0) ;; k) (m <| m_freelist := ptr l |>) Q.
Proof.
  intros (Hf & Hnd & Hok) Hk. destruct Hf as (_ & d & Hd & Hl & Hf).
  apply NoDup_cons in Hnd as [Hp Hnd]. apply Forall_cons_1 in Hok as [_ Hok].
  apply mwp_bind. eapply mwp_upd_page; [exact Hd|]. set (m' := setter _ _).
  assert (m_page m' !! p = Some (page_fill 0)) as Hz by (cbn; apply lookup_insert_eq).
  apply Hk; try done.
  - constructor.
    + split; [|by split]. cbn. apply free_list_frame; [done|]. by rewrite <- (free_list_head _ _ _ Hf).
    + exists (page_fill 0). split; [done|apply length_page_fill].
    + done.
    + intros i t _. by rewrite table_zero.
    + intros i j t _ _. by rewrite table_zero.
  - intros i. by apply table_zero.
  - intros u Hu. cbn. by rewrite lookup_insert_ne.
  - intros u (e & He & Hle). unfold page_ok. cbn. destruct (decide (u = p)) as [->|].
    + rewrite lookup_insert_eq. eexists. split; [done|apply length_page_fill].
    + rewrite lookup_insert_ne by done. eauto.
Qed.

Lemma has_table_mapping m pgdir va va' e :
  mapping m pgdir va = Some e -> PDX va' = PDX va -> has_table m pgdir va' = true.
Proof. unfold mapping, has_table. intros H ->. by destruct (table m pgdir _). Qed.

(** A line of [kmap]: mapped whole when the free list is long enough. *)
Lemma mwp_kmap_line pgdir va size pa perm m l (Q : Z -> kmem -> Prop) :
  vm_ok m pgdir l -> is_u32 va -> va mod 4096 = 0 -> 0 < size -> size mod 4096 = 0 ->
  va + size <= 4294967296 -> pa mod 4096 = 0 -> is_u32 pa -> 0 <= perm < 4096 ->
  (forall u, is_u32 u -> va <= u < va + size -> mapping m pgdir u = None) ->
  need pgdir m va (va + size - 4096) <= Z.of_nat (length l) ->
  (forall m' l', vm_ext pgdir m l m' l' (map_range va (size / 4096) pa perm (mapping m pgdir)) ->
     Z.of_nat (length l) <= Z.of_nat (length l') + need pgdir m va (va + size - 4096) -> Q 0 m') ->
  mwp w (mappages pgdir va size pa perm) m Q.
Proof.
  intros Hv Hva Hal Hs Hsal Hle Hpal Hpa Hf Hfree Hneed HQ.
  assert (page_of va = va) as E1 by (unfold page_of; lia).
  assert (page_of (va + size - 1) = va + size - 4096) as E2 by (unfold page_of; lia).
  eapply mwp_mono.
  - apply (mwp_mappages w nolock pgdir va size pa perm m l); try done. rewrite E1, E2.
    intros u Hu Hr. apply Hfree; [done|lia].
  - rewrite E1, E2. intros r m' (l' & [(-> & He & Hlen)|(_ & Hlen & _)]); [|lia].
    apply (HQ m' l'); [|done]. eapply vm_ext_mono; [exact He|]. intros u _. f_equal. lia.
Qed.

End Setup.

(** ** setupkvm *)

(** The mappings every address space has: physical memory from [KERNBASE], the
    kernel's text and read-only data not writable, and the devices. *)
Definition kernel_map (data va : Z) : option Z :=
  if decide (KERNBASE <= va < P2V PHYSTOP) then
    Some (Z.lor (Z.lor (V2P (page_of va)) (if decide (KERNLINK <= va < data) then 0 else PTE_W)) PTE_P)
  else if decide (DEVSPACE <= va) then Some (Z.lor (Z.lor (page_of va) PTE_W) PTE_P)
  else None.

(** The pages [setupkvm] takes: a directory and 64 tables. *)
Definition kvm_pages : Z := 65.

(** The loop of [setupkvm]. *)
Definition kmap_loop (pgdir : Z) (ks : list kmap_entry) : M (option unit) :=
  find_each ks (fun k =>
    r ← mappages pgdir (km_virt k) (u32 (km_end k - km_start k)) (km_start k) (km_perm k);
    if r <? 0 then freevm pgdir ;; mret (Some tt) else mret None).

Lemma mwp_kmap_step w (nolock : Lkmem ∉ w_held w) pgdir va pa e perm size ks m l (Q : option unit -> kmem -> Prop) :
  u32 (e - pa) = size ->
  vm_ok m pgdir l -> is_u32 va -> va mod 4096 = 0 -> 0 < size -> size mod 4096 = 0 ->
  va + size <= 4294967296 -> pa mod 4096 = 0 -> is_u32 pa -> 0 <= perm < 4096 ->
  (forall u, is_u32 u -> va <= u < va + size -> mapping m pgdir u = None) ->
  need pgdir m va (va + size - 4096) <= Z.of_nat (length l) ->
  (forall m' l', vm_ext pgdir m l m' l' (map_range va (size / 4096) pa perm (mapping m pgdir)) ->
     Z.of_nat (length l) <= Z.of_nat (length l') + need pgdir m va (va + size - 4096) ->
     mwp w (kmap_loop pgdir ks) m' Q) ->
  mwp w (kmap_loop pgdir (Kmap va pa e perm :: ks)) m Q.
Proof.
  intros <- Hv Hva Hal Hs Hsal Hle Hpal Hpa Hf Hfree Hneed HQ. unfold kmap_loop. cbn [find_each].
  apply mwp_bind, mwp_bind. cbn [km_virt km_start km_end km_perm].
  eapply (mwp_kmap_line w nolock); try done.
  intros m' l' He Hlen. cbn. apply mwp_ret. by apply (HQ m' l').
Qed.

Ltac vm_nums :=
  unfold KERNLINK, KERNBASE, EXTMEM, DEVSPACE, PHYSTOP in *;
  change (2147483648 + 1048576) with 2148532224 in *;
  change (P2V 234881024) with 2382364672 in *.

Lemma map_range_cong a n pa perm mp mp' va :
  mp va = mp' va -> map_range a n pa perm mp va = map_range a n pa perm mp' va.
Proof. unfold map_range. by intros ->. Qed.

(** The four lines together. *)
Lemma kernel_map_lines data va :
  KERNLINK < data < P2V PHYSTOP -> data mod 4096 = 0 -> is_u32 va ->
  map_range 4261412864 (33554432 / 4096) 4261412864 PTE_W
    (map_range data ((2382364672 - data) / 4096) (data - 2147483648) PTE_W
      (map_range 2148532224 ((data - 2148532224) / 4096) 1048576 0
        (map_range 2147483648 (1048576 / 4096) 0 PTE_W (fun _ => None)))) va
  = kernel_map data va.
Proof.
  intros Hd Hdal Hva. unfold map_range, kernel_map, pte_val, V2P. vm_nums. unfold is_u32 in Hva.
  change (33554432 / 4096) with 8192. change (1048576 / 4096) with 256.
  assert (is_u32 (page_of va)) by (unfold page_of, is_u32; lia).
  repeat case_decide; try lia; try done; do 3 f_equal.
  all: try (f_equal; lia).
  all: rewrite <- (u32_id (page_of va)) at 2 by done; f_equal; lia.
Qed.

(** Where the data starts, the table of the text may serve again. *)
Lemma need_data pgdir m data e :
  2148532224 < data < 2382364672 -> data mod 4096 = 0 -> mapping m pgdir (data - 4096) = Some e ->
  need pgdir m data (data + (2382364672 - data) - 4096) <= 567 - (data - 4096) / 4194304.
Proof.
  intros Hd Hdal He. unfold need. rewrite !PDX_eq by (unfold is_u32; lia).
  replace (data + (2382364672 - data) - 4096) with 2382360576 by lia. change (2382360576 / 4194304) with 567.
  destruct (decide (data / 4194304 = (data - 4096) / 4194304)) as [E|E].
  - rewrite (has_table_mapping m pgdir (data - 4096) data e); [lia|done|].
    by rewrite !PDX_eq by (unfold is_u32; lia).
  - destruct (has_table m pgdir data); lia.
Qed.

(** The lines of [kmap] one after the other, with their number of tables. *)
Lemma mwp_kmap w (nolock : Lkmem ∉ w_held w) pgdir data m l (Q : option unit -> kmem -> Prop) :
  KERNLINK < data < P2V PHYSTOP -> data mod 4096 = 0 ->
  vm_ok m pgdir l -> (forall va, mapping m pgdir va = None) -> 64 <= Z.of_nat (length l) ->
  (forall m' l', vm_ext pgdir m l m' l' (kernel_map data) ->
     Z.of_nat (length l) <= Z.of_nat (length l') + 64 -> Q None m') ->
  mwp w (kmap_loop pgdir (kmap data)) m Q.
Proof.
  intros Hd Hdal Hv Hno Hlen HQ. unfold kmap, V2P. vm_nums.
  change (u32 (2148532224 - 2147483648)) with 1048576.
  rewrite (u32_id (data - 2147483648)) by (unfold is_u32; lia).
  assert (need pgdir m 2147483648 (2147483648 + 1048576 - 4096) <= 1) as Hn1.
  { unfold need. replace (PDX (2147483648 + 1048576 - 4096)) with 512 by reflexivity.
    replace (PDX 2147483648) with 512 by reflexivity. destruct (has_table _ _ _); lia. }
  apply (mwp_kmap_step w nolock pgdir _ _ _ _ 1048576 _ m l); try done; [lia|].
  intros m1 l1 He1 Hl1.
  assert (forall u, is_u32 u -> 2148532224 <= u -> mapping m1 pgdir u = None) as Hm1.
  { intros u Hu Hr. rewrite (ext_map _ _ _ _ _ _ He1 u Hu). unfold map_range.
    rewrite decide_False; [apply Hno|]. change (1048576 / 4096) with 256. lia. }
  assert (need pgdir m1 2148532224 (2148532224 + (data - 2148532224) - 4096) = (data - 4096) / 4194304 - 512) as Hn2.
  { unfold need. rewrite (has_table_mapping m1 pgdir 2147483648 2148532224 (pte_val 0 0 PTE_W)).
    - rewrite !PDX_eq by (unfold is_u32; lia). replace (2148532224 + (data - 2148532224) - 4096) with (data - 4096) by lia.
      change (2148532224 / 4194304) with 512. lia.
    - rewrite (ext_map _ _ _ _ _ _ He1) by done. done.
    - done. }
  apply (mwp_kmap_step w nolock pgdir _ _ _ _ (data - 2148532224) _ m1 l1); try done; try (unfold is_u32; lia).
  { rewrite u32_id; unfold is_u32; lia. }
  { apply He1. }
  { intros u Hu Hr. apply Hm1; [done|lia]. }
  intros m2 l2 He2 Hl2.
  assert (forall u, is_u32 u -> data <= u -> mapping m2 pgdir u = None) as Hm2.
  { intros u Hu Hr. rewrite (ext_map _ _ _ _ _ _ He2 u Hu). unfold map_range.
    rewrite decide_False by lia. apply Hm1; [done|lia]. }
  assert (need pgdir m2 data (data + (2382364672 - data) - 4096) <= 567 - (data - 4096) / 4194304) as Hn3.
  { apply (need_data pgdir m2 data (pte_val 1048576 (page_of (data - 4096) - 2148532224) 0)); [done..|].
    rewrite (ext_map _ _ _ _ _ _ He2) by (unfold is_u32; lia). unfold map_range. by rewrite decide_True by lia. }
  apply (mwp_kmap_step w nolock pgdir _ _ _ _ (2382364672 - data) _ m2 l2); try done; try (unfold is_u32; lia).
  { rewrite u32_id; unfold is_u32; lia. }
  { apply He2. }
  { intros u Hu Hr. apply Hm2; [done|lia]. }
  intros m3 l3 He3 Hl3.
  assert (need pgdir m3 4261412864 (4261412864 + 33554432 - 4096) <= 8) as Hn4.
  { unfold need. replace (PDX (4261412864 + 33554432 - 4096)) with 1023 by reflexivity.
    replace (PDX 4261412864) with 1016 by reflexivity. destruct (has_table _ _ _); lia. }
  apply (mwp_kmap_step w nolock pgdir _ _ _ _ 33554432 _ m3 l3); try done; try lia.
  { apply He3. }
  { intros u Hu Hr. rewrite (ext_map _ _ _ _ _ _ He3 u Hu). unfold map_range. rewrite decide_False by lia.
    apply Hm2; [done|lia]. }
  intros m4 l4 He4 Hl4. apply mwp_ret. apply (HQ m4 l4); [|lia].
  eapply vm_ext_mono; [eapply vm_ext_trans; [eapply vm_ext_trans; [eapply vm_ext_trans|]|]; eassumption|].
  intros va Hva. rewrite <- kernel_map_lines by done.
  apply map_range_cong. rewrite (ext_map _ _ _ _ _ _ He3 va Hva).
  apply map_range_cong. rewrite (ext_map _ _ _ _ _ _ He2 va Hva).
  apply map_range_cong. rewrite (ext_map _ _ _ _ _ _ He1 va Hva).
  apply map_range_cong. apply Hno.
Qed.

(** What [setupkvm] leaves: a new address space [p] built from free pages. *)
Record kvm_new (m : kmem) (l : list Z) (p : Z) (m' : kmem) (l' : list Z) : Prop := Kvm_new {
  new_ok : vm_ok m' p l';
  new_dir : p ∈ l;
  new_map : forall va, is_u32 va -> mapping m' p va = kernel_map (m_data m) va;
  new_table : forall i t, (i < 1024)%nat -> table m' p i = Some t -> t ∈ l;
  new_free : l' `suffix_of` l;
  new_len : Z.of_nat (length l) <= Z.of_nat (length l') + kvm_pages;
  new_frame : forall u, u ∉ l -> m_page m' !! u = m_page m !! u;
  new_pages : forall u, page_ok m u -> page_ok m' u;
  new_end : m_end m' = m_end m }.

Definition data_ok (m : kmem) : Prop := KERNLINK < m_data m < P2V PHYSTOP /\ m_data m mod 4096 = 0.

Lemma mwp_setupkvm w (nolock : Lkmem ∉ w_held w) m l (Q : option Z -> kmem -> Prop) :
  kmem_ok m l -> data_ok m -> kvm_pages <= Z.of_nat (length l) ->
  (forall p m' l', kvm_new m l p m' l' -> Q (Some p) m') ->
  mwp w setupkvm m Q.
Proof.
  unfold kvm_pages. intros Hk [Hd Hdal] Hlen HQ. unfold setupkvm. apply mwp_bind.
  destruct l as [|p l]; [cbn in Hlen; lia|].
  apply (mwp_kalloc w nolock m (p :: l)); [done|]. cbn [hd_error tail]. intros m0 Hk0 Em0.
  assert (m0 = m <| m_freelist := ptr l |>) as -> by (rewrite Em0; by rewrite (free_list_head _ _ _ (proj1 Hk0))).
  apply mwp_fresh_dir; [done|]. intros m1 Hv1 Hno1 Hfr1 Hpk1 Hend1 Hdata1.
  change (DEVSPACE <? P2V PHYSTOP) with false. cbn iota.
  apply mwp_bind. apply mwp_get_mem. rewrite Hdata1. apply mwp_bind. cbn in Hlen.
  apply (mwp_kmap w nolock p (m_data m) m1 l); [done..| |lia|].
  { intros va. unfold mapping. by rewrite Hno1. }
  intros m2 l2 He2 Hl2. apply mwp_ret. apply (HQ p m2 l2). constructor.
  - apply He2.
  - by left.
  - apply He2.
  - intros i t Hi Ht. destruct (ext_new _ _ _ _ _ _ He2 i t Hi Ht) as [Ht'|Ht']; [by rewrite Hno1 in Ht'|by right].
  - apply suffix_cons_r, He2.
  - unfold kvm_pages. cbn [length]. lia.
  - intros u Hu. apply not_elem_of_cons in Hu as [Hup Hul].
    rewrite (ext_frame _ _ _ _ _ _ He2), Hfr1; try done. intros i _. by rewrite Hno1.
  - intros u Hu. by apply (ext_pages _ _ _ _ _ _ He2), Hpk1.
  - by rewrite (ext_end _ _ _ _ _ _ He2).
Qed.

(** With [kvm_pages] free pages, [setupkvm] returns a new address space
    that maps the kernel as [kmap] says - physical memory at [KERNBASE], text
    and read-only data without write permission, the devices at [DEVSPACE] -
    and nothing of the user half; it changes only pages that were free. *)
Theorem setupkvm_kernel_map w l :
  Lkmem ∉ w_held w -> kmem_ok (k_mem (w_k w)) l -> data_ok (k_mem (w_k w)) ->
  kvm_pages <= Z.of_nat (length l) ->
  exists p m' l', setupkvm w = Ok (Some p) (with_mem m' w) /\ kvm_new (k_mem (w_k w)) l p m' l'.
Proof.
  intros Hn Hk Hd Hlen.
  destruct (mwp_setupkvm w Hn _ l (fun r m' => exists p l', r = Some p /\ kvm_new (k_mem (w_k w)) l p m' l') Hk Hd Hlen)
    as (r & m' & E & p & l' & -> & Hnew); [eauto|].
  rewrite with_mem_id in E. by exists p, m', l'.
Qed.

(** ** copyuvm *)

(** Taking a free page and filling it does not disturb an address space. *)
Lemma vm_take m d u l src :
  vm_ok m d (u :: l) -> length src = 4096%nat ->
  let m' := m <| m_freelist := ptr l |> <| m_page ::= <[u := src]> |> in
  vm_ok m' d l /\ (forall va, mapping m' d va = mapping m d va) /\
  (forall i, table m' d i = table m d i) /\ (forall i, (i < 1024)%nat -> table m d i <> Some u) /\ u <> d /\ u ∉ l.
Proof.
  intros Hv Hs m'. destruct (vm_kmem _ _ _ Hv) as (Hf & Hnd & Hok). destruct Hf as (_ & du & _ & _ & Hf).
  apply NoDup_cons in Hnd as [Hul Hnd]. apply Forall_cons_1 in Hok as [_ Hok].
  pose proof (vm_dir_used _ _ _ Hv) as Hdu. apply not_elem_of_cons in Hdu as [Hdu Hdl].
  assert (forall i t, (i < 1024)%nat -> table m d i = Some t -> t <> u /\ t ∉ l) as Htab.
  { intros i t Hi Ht. destruct (vm_table _ _ _ Hv i t Hi Ht) as (_ & Hx & _). by apply not_elem_of_cons in Hx. }
  assert (forall t, t <> u -> m_page m' !! t = m_page m !! t) as Hfr by (intros t Ht; cbn; by rewrite lookup_insert_ne).
  assert (forall i, table m' d i = table m d i) as Htm by (intros i; by apply table_frame, Hfr).
  assert (forall t, page_ok m t -> page_ok m' t) as Hpk by (intros t; by eapply page_ok_insert).
  split; [|split; [|split; [done|split; [|done]]]].
  - constructor.
    + split; [|by split]. cbn. apply free_list_frame; [done|]. by rewrite <- (free_list_head _ _ _ Hf).
    + apply Hpk, Hv.
    + done.
    + intros i t Hi. rewrite Htm. intros Ht. destruct (vm_table _ _ _ Hv i t Hi Ht) as (Hp & _ & Hne).
      split; [by apply Hpk|]. split; [|done]. by destruct (Htab i t Hi Ht).
    + intros i j t Hi Hj. rewrite !Htm. by apply (vm_inj _ _ _ Hv).
  - intros va. unfold mapping. rewrite Htm. destruct (table m d (Z.to_nat (PDX va))) as [t|] eqn:Et; [|done].
    rewrite (entry_frame m m'); [done|]. apply Hfr. by destruct (Htab _ _ (PDX_lt va) Et).
  - intros i Hi Ht. by destruct (Htab i u Hi Ht).
Qed.

Section Copy.
Context (w : world) (nolock : Lkmem ∉ w_held w).
Context (m : kmem) (l : list Z) (pgdir : Z) (n : nat).

(** The page of the parent at user page [i]. *)
Definition upage (i : nat) : option Z := mapping m pgdir (4096 * Z.of_nat i).
Definition frame_of (e : Z) : Z := P2V (PTE_ADDR e).

(** The parent: [n] user pages mapped, below the kernel, none of them free. *)
Record parent_ok : Prop := Parent_ok {
  par_vm : vm_ok m pgdir l;
  par_user : forall i, (i < n)%nat ->
    exists e, upage i = Some e /\ page_ok m (frame_of e) /\ frame_of e ∉ l;
  par_below : 4096 * Z.of_nat n <= KERNBASE }.

(** The entry of the child for the copy [u] of the parent's page [e]. *)
Definition child_pte (e u : Z) : Z := Z.lor (Z.lor (V2P u) (PTE_FLAGS e)) PTE_P.

(** The state of [copyuvm] when the pages [cp] have been copied into the child
    [d]. *)
Record copied (d : Z) (cp : list Z) (mk : kmem) (lk : list Z) : Prop := Copied {
  cp_vm : vm_ok mk d lk;
  cp_dir : d ∈ l;
  cp_map : forall va, is_u32 va -> mapping mk d va =
    match cp !! Z.to_nat (va / 4096) with
    | Some u => e ← upage (Z.to_nat (va / 4096)); Some (child_pte e u)
    | None => kernel_map (m_data m) va
    end;
  cp_data : forall i u e, cp !! i = Some u -> upage i = Some e -> m_page mk !! u = m_page m !! frame_of e;
  cp_fresh : forall u, u ∈ cp -> u ∈ l /\ u ∉ lk /\ u <> d /\ forall i, (i < 1024)%nat -> table mk d i <> Some u;
  cp_nodup : NoDup cp;
  cp_table : forall i t, (i < 1024)%nat -> table mk d i = Some t -> t ∈ l;
  cp_free : lk `suffix_of` l;
  cp_frame : forall u, u ∉ l -> m_page mk !! u = m_page m !! u;
  cp_end : m_end mk = m_end m }.

Lemma copied_nil d m1 l1 : kvm_new m l d m1 l1 -> copied d [] m1 l1.
Proof.
  intros []. constructor; try done.
  - intros u Hu. by apply not_elem_of_nil in Hu.
  - constructor.
Qed.

(** The parent is where it was. *)
Lemma copied_parent d cp mk lk :
  parent_ok -> copied d cp mk lk ->
  (forall i, (i < 1024)%nat -> table mk pgdir i = table m pgdir i) /\ page_ok mk pgdir /\
  (forall va, mapping mk pgdir va = mapping m pgdir va).
Proof.
  intros Hp Hc. pose proof (par_vm Hp) as Hv.
  assert (m_page mk !! pgdir = m_page m !! pgdir) as Ed by (apply (cp_frame _ _ _ _ Hc), Hv).
  assert (forall i, table mk pgdir i = table m pgdir i) as Ht by (intros i; by apply table_frame).
  split; [auto|]. split.
  - destruct (vm_dir _ _ _ Hv) as (d0 & H0 & H1). exists d0. by rewrite Ed.
  - intros va. unfold mapping. rewrite Ht. destruct (table m pgdir _) as [t|] eqn:Et; [|done].
    destruct (vm_table _ _ _ Hv _ _ (PDX_lt va) Et) as (_ & Htl & _).
    by rewrite (entry_frame m mk) by (by apply (cp_frame _ _ _ _ Hc)).
Qed.

Lemma copied_step d cp mk u l1 e src m2 l2 :
  copied d cp mk (u :: l1) -> upage (length cp) = Some e -> 4096 * Z.of_nat (length cp) < KERNBASE ->
  m_page m !! frame_of e = Some src -> length src = 4096%nat ->
  vm_ext d (mk <| m_freelist := ptr l1 |> <| m_page ::= <[u := src]> |>) l1 m2 l2
    (map_range (4096 * Z.of_nat (length cp)) 1 (V2P u) (PTE_FLAGS e)
      (mapping (mk <| m_freelist := ptr l1 |> <| m_page ::= <[u := src]> |>) d)) ->
  copied d (cp ++ [u]) m2 l2.
Proof.
  intros Hc He Hk Hsrc Hlen Hx. destruct Hc as [Hvm Hdir Hmap Hdata Hfresh Hnd Htab Hsuf Hfr Hend].
  pose proof (vm_take mk d u l1 src Hvm Hlen) as (Hv1 & Hm1 & Ht1 & Hnt & Hud & Hul1).
  set (m1 := mk <| m_freelist := ptr l1 |> <| m_page ::= <[u := src]> |>) in *.
  assert (u ∈ l) as Hul by (destruct Hsuf as [x ->]; apply elem_of_app; right; by left).
  assert (u ∉ cp) as Hucp by (intros Hin; destruct (Hfresh u Hin) as (_ & H & _); apply H; by left).
  assert (forall x, x ∈ l1 -> x ∈ l) as Hsub by (intros x Hxl; destruct Hsuf as [y ->]; apply elem_of_app; right; by right).
  assert (forall x, x ∉ l1 -> x <> d -> (forall i, (i < 1024)%nat -> table mk d i <> Some x) ->
    m_page m2 !! x = m_page m1 !! x) as Hfr2.
  { intros x H1 H2 H3. apply (ext_frame _ _ _ _ _ _ Hx); [done|done|]. intros i Hi. rewrite Ht1. auto. }
  assert (forall i t, (i < 1024)%nat -> table m2 d i = Some t -> table mk d i = Some t \/ t ∈ l1) as Hnew.
  { intros i t Hi Ht. destruct (ext_new _ _ _ _ _ _ Hx i t Hi Ht) as [H|H]; [left; by rewrite <- Ht1|by right]. }
  assert (forall x, x ∉ l2 \/ x ∈ l1) as Hl2.
  { intros x. destruct (decide (x ∈ l1)) as [|N]; [by right|left]. intros Hin. apply N.
    destruct (ext_free _ _ _ _ _ _ Hx) as [y ->]. apply elem_of_app. by right. }
  constructor.
  - apply Hx.
  - done.
  - intros va Hva. rewrite (ext_map _ _ _ _ _ _ Hx va Hva). unfold map_range. unfold KERNBASE, is_u32 in *.
    case_decide as Hr.
    + assert (Z.to_nat (va / 4096) = length cp) as -> by lia.
      rewrite list_lookup_middle by done. rewrite He. cbn. unfold pte_val, child_pte.
      replace (page_of va - 4096 * Z.of_nat (length cp)) with 0 by (unfold page_of; lia).
      rewrite Z.add_0_r. rewrite (u32_id (V2P u)); [done|apply u32_range].
    + rewrite Hm1, Hmap by done. rewrite lookup_app. destruct (cp !! Z.to_nat (va / 4096)) eqn:E; [done|].
      apply lookup_ge_None in E. rewrite (lookup_ge_None_2 [u]); [done|]. cbn. lia.
  - intros i x e' Hi He'. apply lookup_app_Some in Hi as [Hi|[Hge Hi]].
    + assert (x ∈ cp) as Hxc by (by eapply list_elem_of_lookup_2). destruct (Hfresh x Hxc) as (_ & H1 & H2 & H3).
      apply not_elem_of_cons in H1 as [H1 H1']. rewrite Hfr2 by done.
      cbn. rewrite lookup_insert_ne by done. by apply (Hdata i).
    + apply list_lookup_singleton_Some in Hi as [Hi <-]. assert (i = length cp) as -> by lia.
      rewrite He in He'. simplify_eq. rewrite Hfr2 by done. cbn. by rewrite lookup_insert_eq.
  - intros x Hx'. apply elem_of_app in Hx' as [Hx'|Hx'%list_elem_of_singleton].
    + destruct (Hfresh x Hx') as (H1 & H2 & H3 & H4). apply not_elem_of_cons in H2 as [H2 H2'].
      split; [done|]. split; [by destruct (Hl2 x)|]. split; [done|].
      intros i Hi Ht. destruct (Hnew i x Hi Ht) as [H|H]; [by eapply H4|done].
    + subst x. split; [done|]. split; [by destruct (Hl2 u)|]. split; [done|].
      intros i Hi Ht. destruct (Hnew i u Hi Ht) as [H|H]; [by eapply Hnt|done].
  - apply NoDup_app. split; [done|]. split; [|apply NoDup_singleton].
    intros x Hxc Hxu%list_elem_of_singleton. by subst.
  - intros i t Hi Ht. destruct (Hnew i t Hi Ht) as [H|H]; [by eapply Htab|auto].
  - etransitivity; [apply Hx|]. etransitivity; [|exact Hsuf]. by apply suffix_cons_r.
  - intros x Hxl. rewrite Hfr2; [|auto|by intros ->|].
    + cbn. rewrite lookup_insert_ne by (by intros ->). auto.
    + intros i Hi Ht. apply Hxl. by eapply Htab.
  - rewrite (ext_end _ _ _ _ _ _ Hx). done.
Qed.

(** The body of the loop of [copyuvm]. *)
Definition copy_body (d i : Z) : M (option unit) :=
  o ← walkpgdir pgdir i false;
  match o with
  | None => panic "copyuvm: pte should exist"
  | Some pte =>
      e ← read_pte pte;
      if negb (hasf e PTE_P) then panic "copyuvm: page not present" else
      let pa := PTE_ADDR e in
      let flags := PTE_FLAGS e in
      o ← kalloc;
      match o with
      | None => mret (Some tt)
      | Some mem =>
          src ← get_page (P2V pa);
          upd_page mem (fun _ => src) ;;
          r ← mappages d i PGSIZE (V2P mem) flags;
          if r <? 0 then kfree mem ;; mret (Some tt) else mret None
      end
  end.

Lemma kernel_map_user data va : 0 <= va < KERNBASE -> kernel_map data va = None.
Proof. unfold kernel_map, KERNBASE, DEVSPACE. intros H. rewrite !decide_False by lia. done. Qed.

Lemma PTE_FLAGS_range e : 0 <= PTE_FLAGS e < 4096.
Proof.
  unfold PTE_FLAGS. change 4095 with (Z.ones 12). rewrite Z.land_ones by lia. apply Z.mod_pos_bound. lia.
Qed.

Lemma mwp_copy_page d cp mk lk (Q : option unit -> kmem -> Prop) :
  parent_ok -> copied d cp mk lk -> (length cp < n)%nat -> 2 <= Z.of_nat (length lk) ->
  (forall u m' l', copied d (cp ++ [u]) m' l' -> Z.of_nat (length lk) <= Z.of_nat (length l') + 2 -> Q None m') ->
  mwp w (copy_body d (4096 * Z.of_nat (length cp))) mk Q.
Proof.
  intros Hp Hc Hn Hlen HQ. destruct (par_user Hp (length cp) Hn) as (e & He & (src & Hsrc & Hsl) & Hfl).
  destruct (copied_parent d cp mk lk Hp Hc) as (Ht & Hpd & _). pose proof (par_below Hp) as Hb.
  unfold upage, mapping in He. set (a := 4096 * Z.of_nat (length cp)) in *.
  destruct (table m pgdir (Z.to_nat (PDX a))) as [t|] eqn:Et; [|done].
  destruct (vm_table _ _ _ (par_vm Hp) _ _ (PDX_lt a) Et) as ((dt & Hdt & _) & Htl & _).
  unfold entry in He. rewrite Hdt in He. destruct (hasf (get32 dt _) PTE_P) eqn:EP; [|done].
  assert (get32 dt (4 * Z.to_nat (PTX a)) = e) as Ee by congruence.
  unfold copy_body. apply mwp_bind. eapply mwp_walk_find; [done|by rewrite Ht by apply PDX_lt|].
  apply mwp_bind. eapply mwp_read_pte; [rewrite (cp_frame _ _ _ _ Hc) by done; exact Hdt|].
  rewrite EP. cbn [negb]. rewrite Ee. apply mwp_bind.
  destruct lk as [|u l1]; [cbn in Hlen; lia|].
  apply (mwp_kalloc w nolock mk (u :: l1)); [apply Hc|]. cbn [hd_error tail]. intros m0 Hk0 Em0.
  assert (m0 = mk <| m_freelist := ptr l1 |>) as -> by (rewrite Em0; by rewrite (free_list_head _ _ _ (proj1 Hk0))).
  destruct (vm_kmem _ _ _ (cp_vm _ _ _ _ Hc)) as (Hfl0 & _ & Hok). apply Forall_cons_1 in Hok as [Hok _].
  destruct Hfl0 as (_ & du & Hdu & _).
  apply mwp_bind. eapply mwp_get_page; [cbn; rewrite (cp_frame _ _ _ _ Hc) by done; exact Hsrc|].
  apply mwp_bind. eapply mwp_upd_page; [exact Hdu|]. cbn beta.
  pose proof (vm_take mk d u l1 src (cp_vm _ _ _ _ Hc) Hsl) as (Hv1 & Hm1 & _).
  destruct (V2P_freeable _ _ Hok) as (Hvu & Hval & _). apply mwp_bind.
  unfold KERNBASE in *. unfold PGSIZE.
  eapply (mwp_kmap_line w nolock d a 4096 (V2P u) (PTE_FLAGS e) _ l1); try done; try (unfold is_u32; lia).
  - apply PTE_FLAGS_range.
  - intros x Hx Hr. rewrite Hm1, (cp_map _ _ _ _ Hc x Hx).
    rewrite lookup_ge_None_2 by lia. apply kernel_map_user. unfold KERNBASE. lia.
  - unfold need. replace (a + 4096 - 4096) with a by lia. cbn in Hlen. destruct (has_table _ _ _); lia.
  - intros m2 l2 Hx Hl2. cbn. apply mwp_ret. apply (HQ u m2 l2).
    + eapply copied_step; try done; [|unfold KERNBASE; lia]. unfold upage, mapping. fold a.
      rewrite Et. unfold entry. by rewrite Hdt, EP, Ee.
    + unfold need in Hl2. replace (a + 4096 - 4096) with a in Hl2 by lia. cbn. destruct (has_table _ _ _); lia.
Qed.

Lemma mwp_copy_loop d r : forall cp mk lk,
  parent_ok -> copied d cp mk lk -> (length cp + r = n)%nat -> 2 * Z.of_nat r <= Z.of_nat (length lk) ->
  mwp w (find_each (map (fun i => PGSIZE * Z.of_nat i) (seq (length cp) r)) (copy_body d)) mk
    (fun o m' => o = None /\ exists cp' l', copied d cp' m' l' /\ length cp' = n).
Proof.
  induction r as [|r IH]; intros cp mk lk Hp Hc Hn Hlen; cbn [seq map find_each].
  - apply mwp_ret. split; [done|]. exists cp, lk. split; [done|lia].
  - apply mwp_bind. apply (mwp_copy_page d cp mk lk); [done|done|lia|lia|].
    intros u m' l' Hc' Hl'. replace (S (length cp)) with (length (cp ++ [u])) by (rewrite length_app; cbn; lia).
    apply (IH _ _ l'); [done|done|rewrite length_app; cbn; lia|lia].
Qed.

End Copy.

(** [copyuvm] run to its end. *)
Lemma copyuvm_run w l pgdir sz :
  let m := k_mem (w_k w) in let n := Z.to_nat ((sz + PGSIZE - 1) / PGSIZE) in
  Lkmem ∉ w_held w -> data_ok m -> parent_ok m l pgdir n ->
  kvm_pages + 2 * Z.of_nat n <= Z.of_nat (length l) ->
  exists d m' cp l', copyuvm pgdir sz w = Ok (Some d) (with_mem m' w) /\ copied m l pgdir d cp m' l' /\
    length cp = n /\ NoDup cp /\ (forall u, u ∈ cp -> u ∈ l) /\
    (forall i u e, cp !! i = Some u -> upage m pgdir i = Some e ->
       mapping m' d (4096 * Z.of_nat i) = Some (child_pte e u) /\ m_page m' !! u = m_page m !! frame_of e) /\
    (forall va, 4096 * Z.of_nat n <= va < KERNBASE -> mapping m' d va = None) /\
    (forall va, mapping m' pgdir va = mapping m pgdir va) /\
    (forall u, u ∉ l -> m_page m' !! u = m_page m !! u).
Proof.
  cbn zeta. intros Hnl Hd Hp Hlen. set (m := k_mem (w_k w)) in *. set (n := Z.to_nat _) in *.
  pose proof (par_below _ _ _ _ Hp) as Hb. unfold KERNBASE in Hb.
  assert (mwp w (copyuvm pgdir sz) m (fun o m' => exists d cp l', o = Some d /\ copied m l pgdir d cp m' l' /\ length cp = n))
    as (o & m' & E & d & cp & l' & -> & Hc & Hcp).
  { unfold copyuvm. apply mwp_bind. apply (mwp_setupkvm w Hnl m l); [apply Hp|done|unfold kvm_pages in *; lia|].
    intros d m1 l1 Hnew. apply mwp_bind.
    eapply mwp_mono; [apply (mwp_copy_loop w Hnl m l pgdir n d n [] m1 l1)|].
    - done.
    - by apply copied_nil.
    - done.
    - pose proof (new_len _ _ _ _ _ Hnew). lia.
    - intros o m2 (-> & cp & l2 & Hc & Hcp). apply mwp_ret. by exists d, cp, l2. }
  unfold m in E. rewrite with_mem_id in E. exists d, m', cp, l'. split; [exact E|]. split; [exact Hc|]. split; [done|]. split; [apply Hc|].
  split; [intros u Hu; by apply Hc|]. split; [|split; [|split]].
  - intros i u e Hi He. split; [|by apply (cp_data _ _ _ _ _ _ _ Hc i)].
    apply lookup_lt_Some in Hi as Hlt. rewrite (cp_map _ _ _ _ _ _ _ Hc) by (unfold is_u32; lia).
    replace (4096 * Z.of_nat i / 4096) with (Z.of_nat i) by lia. rewrite Nat2Z.id, Hi, He. done.
  - intros va Hva. unfold KERNBASE in Hva. rewrite (cp_map _ _ _ _ _ _ _ Hc) by (unfold is_u32; lia).
    rewrite lookup_ge_None_2 by lia. apply kernel_map_user. unfold KERNBASE. lia.
  - by apply (copied_parent m l pgdir n d cp m' l').
  - apply Hc.
Qed.

(** C2. Enough free pages given, [copyuvm] makes a child address space in which
    every user page of the parent has its own copy: a page that was free, no
    two of them the same, with the parent's contents and permissions, and
    nothing else is mapped below the kernel.  The parent's mappings and the
    contents of every page in use are unchanged, so neither process can reach
    the other's memory. *)
Theorem copyuvm_isolates w l pgdir sz :
  let m := k_mem (w_k w) in let n := Z.to_nat ((sz + PGSIZE - 1) / PGSIZE) in
  Lkmem ∉ w_held w -> data_ok m -> parent_ok m l pgdir n ->
  kvm_pages + 2 * Z.of_nat n <= Z.of_nat (length l) ->
  exists d m' cp, copyuvm pgdir sz w = Ok (Some d) (with_mem m' w) /\
    length cp = n /\ NoDup cp /\ (forall u, u ∈ cp -> u ∈ l) /\
    (forall i u e, cp !! i = Some u -> upage m pgdir i = Some e ->
       mapping m' d (4096 * Z.of_nat i) = Some (child_pte e u) /\ m_page m' !! u = m_page m !! frame_of e) /\
    (forall va, 4096 * Z.of_nat n <= va < KERNBASE -> mapping m' d va = None) /\
    (forall va, mapping m' pgdir va = mapping m pgdir va) /\
    (forall u, u ∉ l -> m_page m' !! u = m_page m !! u).
Proof. intros m n H1 H2 H3 H4. destruct (copyuvm_run w l pgdir sz H1 H2 H3 H4) as (d & m' & cp & l' & E & _ & H). by exists d, m', cp. Qed.

(** ** A pool of pages, and a process with one page *)

Lemma setupkvm_kernel_map_witness :
  exists w l p m' l', setupkvm w = Ok (Some p) (with_mem m' w) /\ kvm_new (k_mem (w_k w)) l p m' l' /\
    Z.of_nat (length l) = 70.
Proof.
  destruct (pool_ok 70 ltac:(lia)) as (m & _ & Hm & Hd & Hl).
  destruct (setupkvm_kernel_map (with_mem m world0) (rev (pool_pages 70))) as (p & m' & l' & E & Hn).
  - apply not_elem_of_nil.
  - exact Hm.
  - unfold data_ok. cbn. rewrite Hd. by vm_compute.
  - rewrite Hl. by vm_compute.
  - exists (with_mem m world0), (rev (pool_pages 70)), p, m', l'. by rewrite Hl.
Defined.

(** A directory with one user page at address 0. *)
Lemma demo_parent :
  exists m l p, parent_ok m l p 1 /\ data_ok m /\ 70 <= Z.of_nat (length l) /\
    exists e, upage m p 0 = Some e /\ frame_of e <> p /\ forall i, (i < 1024)%nat -> table m p i <> Some (frame_of e).
Proof.
  destruct (pool_ok 80 ltac:(lia)) as (m & _ & Hm & Hd & Hl).
  destruct (rev (pool_pages 80)) as [|p [|u l]] eqn:El; [done|done|]. cbn in Hl. clear El.
  assert (mwp world0 (upd_page p (fun _ => page_fill 0) ;; mret tt) (m <| m_freelist := ptr (u :: l) |>)
    (fun _ m1 => vm_ok m1 p (u :: l) /\ (forall i, table m1 p i = None) /\ m_data m1 = m_data m /\ page_ok m1 u))
    as (_ & m1 & _ & Hv1 & Ht1 & Hd1 & (du & Hdu & Hlu)).
  { apply mwp_fresh_dir; [done|]. intros m' Hv Ht Hf Hp _ Hda. apply mwp_ret. repeat (split; [done|]). apply Hp.
    destruct Hm as (Hf0 & _). cbn in Hf0. destruct Hf0 as (_ & d0 & _ & _ & _ & d1 & H1 & H2 & _). by exists d1. }
  pose proof (vm_take m1 p u l du Hv1 Hlu) as (Hv2 & Hm2 & Ht2 & _ & Hup' & Hul).
  set (m2 := m1 <| m_freelist := ptr l |> <| m_page ::= <[u := du]> |>) in *.
  destruct (vm_kmem _ _ _ Hv1) as (_ & _ & Hok). apply Forall_cons_1 in Hok as [Hok _].
  destruct (V2P_freeable _ _ Hok) as (Hvu & Hval & Hpv).
  assert (mwp world0 (mappages p 0 4096 (V2P u) 6) m2 (fun _ m3 => exists l3, Z.of_nat (length l) <= Z.of_nat (length l3) + 1 /\
    vm_ext p m2 l m3 l3 (map_range 0 1 (V2P u) 6 (mapping m2 p)))) as (_ & m3 & _ & l3 & Hl3 & Hx).
  { assert (need p m2 0 (0 + 4096 - 4096) <= 1) as Hn.
    { unfold need. change (0 + 4096 - 4096) with 0. rewrite Z.sub_diag. destruct (has_table _ _ _); lia. }
    apply (mwp_kmap_line world0 (not_elem_of_nil _) p 0 4096 (V2P u) 6 m2 l); try done; try lia.
    - intros x _ _. rewrite Hm2. unfold mapping. by rewrite Ht1.
    - intros m3 l3 Hx Hl3. exists l3. split; [lia|done]. }
  assert (upage m3 p 0 = Some (pte_val (V2P u) 0 6)) as Hup
    by (unfold upage; by rewrite (ext_map _ _ _ _ _ _ Hx) by done).
  assert (frame_of (pte_val (V2P u) 0 6) = u) as Hfr.
  { unfold frame_of. destruct (pte_val_ok (V2P u) 0 6 Hval eq_refl ltac:(lia)) as (_ & _ & ->).
    by rewrite Z.add_0_r, u32_id. }
  exists m3, l3, p. split; [|split; [|split; [lia|]]]; [| |eexists; split; [exact Hup|]; rewrite Hfr; split; [done|]].
  - constructor; [apply Hx| |done]. intros i Hi. assert (i = O) as -> by lia. eexists. split; [exact Hup|].
    rewrite Hfr. split.
    + apply (ext_pages _ _ _ _ _ _ Hx). exists du. split; [cbn; apply lookup_insert_eq|done].
    + intros Hin. apply Hul. destruct (ext_free _ _ _ _ _ _ Hx) as [y ->]. apply elem_of_app. by right.
  - unfold data_ok. rewrite (ext_data _ _ _ _ _ _ Hx). cbn. rewrite Hd1, Hd. by vm_compute.
  - intros i Hi Ht. destruct (ext_new _ _ _ _ _ _ Hx i u Hi Ht) as [Ht'|Ht']; [|done]. by rewrite Ht2, Ht1 in Ht'.
Qed.

Lemma copyuvm_isolates_witness :
  exists w pgdir d m' (cp : list Z), copyuvm pgdir 4096 w = Ok (Some d) (with_mem m' w) /\ length cp = 1%nat /\
    (forall va, mapping m' pgdir va = mapping (k_mem (w_k w)) pgdir va).
Proof.
  destruct demo_parent as (m & l & p & Hp & Hd & Hl & _).
  destruct (copyuvm_isolates (with_mem m world0) l p 4096) as (d & m' & cp & E & Hc & _ & _ & _ & _ & Hm & _).
  - apply not_elem_of_nil.
  - exact Hd.
  - exact Hp.
  - unfold kvm_pages. change (Z.to_nat ((4096 + PGSIZE - 1) / PGSIZE)) with 1%nat. lia.
  - by exists (with_mem m world0), p, d, m', cp.
Defined.
