(* ===== verification/Umem.v ===== *)
(** The memory of a process, as the kernel reaches it through the current page
    table: a partial map from user addresses to bytes. *)

From S2P Require Import Prelude Kernel Sched Kalloc Vm VmSpec VmProc.

(** The byte at user address [va]. *)
Definition ubyte (m : kmem) (pgdir va : Z) : option Z :=
  e ← mapping m pgdir va;
  d ← m_page m !! frame_of e;
  d !! Z.to_nat (va mod PGSIZE).

(** A user address space of [sz] bytes: every page below [sz] has a frame of
    its own, which is not a page of the page table. *)
Record uspace (m : kmem) (pgdir sz : Z) : Prop := Uspace {
  us_dir : page_ok m pgdir;
  us_size : 0 <= sz <= KERNBASE;
  us_map : forall va, 0 <= va < sz -> exists e, mapping m pgdir va = Some e /\ page_ok m (frame_of e) /\
    frame_of e <> pgdir /\ forall i, (i < 1024)%nat -> table m pgdir i <> Some (frame_of e);
  us_inj : forall va vb e f, 0 <= va < sz -> 0 <= vb < sz ->
    mapping m pgdir va = Some e -> mapping m pgdir vb = Some f -> frame_of e = frame_of f ->
    page_of va = page_of vb }.

Lemma translate_run w pgdir va e :
  page_ok (k_mem (w_k w)) pgdir -> mapping (k_mem (w_k w)) pgdir va = Some e ->
  translate pgdir va w = Ok (frame_of e, Z.to_nat (va mod PGSIZE)) w.
Proof.
  intros Hd He. unfold mapping in He.
  destruct (table _ pgdir (Z.to_nat (PDX va))) as [t|] eqn:Et; [|done].
  destruct (mwp_walk_find w pgdir va false (k_mem (w_k w)) t (fun o m' => o = Some (t, Z.to_nat (PTX va)) /\ m' = k_mem (w_k w)) Hd Et)
    as (o & m' & E & -> & ->); [done|].
  rewrite with_mem_id in E. unfold translate. erewrite bind_run by exact E. cbn [deref].
  erewrite bind_run by reflexivity. unfold entry in He.
  destruct (m_page (k_mem (w_k w)) !! t) as [dt|] eqn:Edt; [|done].
  unfold read_pte. cbn [fst snd].
  erewrite bind_run; [|erewrite bind_run by (by apply get_page_run); reflexivity].
  destruct (hasf (get32 dt (4 * Z.to_nat (PTX va))) PTE_P); [|done]. cbn [negb]. by injection He as <-.
Qed.

Lemma user_load_run w i p sz va :
  running w i p -> uspace (k_mem (w_k w)) (p_pgdir p) sz -> 0 <= va < sz ->
  exists b, ubyte (k_mem (w_k w)) (p_pgdir p) va = Some b /\ user_load va w = Ok b w.
Proof.
  intros Hr Hu Hva. destruct (us_map _ _ _ Hu va Hva) as (e & He & (d & Hd & Hl) & _).
  assert (is_Some (d !! Z.to_nat (va mod PGSIZE))) as [b Hb].
  { apply lookup_lt_is_Some. rewrite Hl. unfold PGSIZE. lia. }
  exists b. split.
  - unfold ubyte. rewrite He. cbn. rewrite Hd. done.
  - unfold user_load. erewrite bind_run by (by eapply my_run).
    erewrite bind_run by (apply translate_run; [apply Hu|exact He]). cbn [fst snd].
    erewrite bind_run by (by apply get_page_run). by rewrite Hb.
Qed.

(** The memory after a store. *)
Definition stored (m : kmem) (pgdir va b : Z) : kmem :=
  match mapping m pgdir va with
  | Some e => m <| m_page ::= alter <[Z.to_nat (va mod PGSIZE) := b]> (frame_of e) |>
  | None => m
  end.

Lemma user_store_run w i p sz va b :
  running w i p -> uspace (k_mem (w_k w)) (p_pgdir p) sz -> 0 <= va < sz ->
  user_store va b w = Ok tt (with_mem (stored (k_mem (w_k w)) (p_pgdir p) va b) w).
Proof.
  intros Hr Hu Hva. destruct (us_map _ _ _ Hu va Hva) as (e & He & (d & Hd & Hl) & _).
  unfold user_store, stored. rewrite He. erewrite bind_run by (by eapply my_run).
  erewrite bind_run by (apply translate_run; [apply Hu|exact He]). cbn [fst snd].
  rewrite (upd_page_run _ _ _ d) by done. do 2 f_equal. unfold setter. cbn. f_equal.
  apply map_eq. intros u. destruct (decide (u = frame_of e)) as [->|Hne].
  - by rewrite lookup_insert_eq, lookup_alter_eq, Hd.
  - by rewrite lookup_insert_ne, lookup_alter_ne.
Qed.

Section Stored.
Context (m : kmem) (pgdir sz va b : Z) (Hu : uspace m pgdir sz) (Hva : 0 <= va < sz).

Lemma stored_inv : exists e d, mapping m pgdir va = Some e /\ m_page m !! frame_of e = Some d /\
  length d = 4096%nat /\
  m_page (stored m pgdir va b) = <[frame_of e := <[Z.to_nat (va mod PGSIZE) := b]> d]> (m_page m) /\
  frame_of e <> pgdir /\ forall i, (i < 1024)%nat -> table m pgdir i <> Some (frame_of e).
Proof.
  destruct (us_map _ _ _ Hu va Hva) as (e & He & (d & Hd & Hl) & Hne & Ht).
  exists e, d. split; [done|]. split; [done|]. split; [done|]. split; [|done].
  unfold stored. rewrite He. cbn. apply map_eq. intros u. destruct (decide (u = frame_of e)) as [->|Hne'].
  - by rewrite lookup_insert_eq, lookup_alter_eq, Hd.
  - by rewrite lookup_insert_ne, lookup_alter_ne.
Qed.

Lemma stored_mapping vb : mapping (stored m pgdir va b) pgdir vb = mapping m pgdir vb.
Proof.
  destruct stored_inv as (e & d & He & Hd & Hl & Ep & Hne & Ht).
  assert (forall i, table (stored m pgdir va b) pgdir i = table m pgdir i) as Htab.
  { intros i. apply table_frame. rewrite Ep. by rewrite lookup_insert_ne. }
  unfold mapping. rewrite Htab. destruct (table m pgdir (Z.to_nat (PDX vb))) as [t|] eqn:Et; [|done].
  rewrite (entry_frame m); [done|]. rewrite Ep, lookup_insert_ne; [done|].
  intros <-. by apply (Ht _ (PDX_lt vb)).
Qed.

Lemma stored_uspace : uspace (stored m pgdir va b) pgdir sz.
Proof.
  destruct stored_inv as (e & d & He & Hd & Hl & Ep & Hne & Ht).
  assert (forall u, page_ok m u -> page_ok (stored m pgdir va b) u) as Hpk.
  { intros u. eapply page_ok_insert; [exact Ep|]. by rewrite length_insert. }
  constructor.
  - apply Hpk, Hu.
  - apply Hu.
  - intros vb Hvb. destruct (us_map _ _ _ Hu vb Hvb) as (f & Hf & Hpf & Hnf & Htf).
    exists f. rewrite stored_mapping. split; [done|]. split; [by apply Hpk|]. split; [done|].
    intros i Hi. rewrite (table_frame m); [by apply Htf|]. by rewrite Ep, lookup_insert_ne.
  - intros va' vb e' f' H1 H2. rewrite !stored_mapping. by apply (us_inj _ _ _ Hu).
Qed.

(** Load after store. *)
Lemma stored_ubyte vb :
  0 <= vb < sz ->
  ubyte (stored m pgdir va b) pgdir vb = if decide (vb = va) then Some b else ubyte m pgdir vb.
Proof.
  intros Hvb. destruct stored_inv as (e & d & He & Hd & Hl & Ep & Hne & Ht).
  destruct (us_map _ _ _ Hu vb Hvb) as (f & Hf & (df & Hdf & Hlf) & _).
  unfold ubyte. rewrite stored_mapping, Hf. cbn. rewrite Ep.
  destruct (decide (frame_of e = frame_of f)) as [E|E].
  - rewrite <- E in *. rewrite Hd in Hdf. injection Hdf as <-. rewrite lookup_insert_eq, Hd. cbn.
    pose proof (us_inj _ _ _ Hu va vb e f Hva Hvb He Hf E) as Hp. unfold page_of, PGSIZE in *.
    case_decide as Hv.
    + subst vb. apply list_lookup_insert_eq. rewrite Hl. lia.
    + rewrite list_lookup_insert_ne; [done|]. lia.
  - rewrite lookup_insert_ne by done. rewrite decide_False; [done|]. intros ->. rewrite He in Hf. by simplify_eq.
Qed.

(** Nothing outside the frame changes. *)
Lemma stored_frame u :
  (forall e, mapping m pgdir va = Some e -> u <> frame_of e) -> m_page (stored m pgdir va b) !! u = m_page m !! u.
Proof.
  intros Hu'. destruct stored_inv as (e & d & He & _ & _ & Ep & _). rewrite Ep, lookup_insert_ne; [done|].
  intros <-. by apply (Hu' e).
Qed.

End Stored.

(** ** A process with one page of memory *)

Lemma mapping_page m pgdir va vb :
  is_u32 va -> is_u32 vb -> page_of va = page_of vb -> mapping m pgdir va = mapping m pgdir vb.
Proof. intros Ha Hb E. apply page_of_eq in E as [E1 E2]; [|done..]. unfold mapping. by rewrite E1, E2. Qed.

Lemma demo_uspace : exists m p, uspace m p 4096.
Proof.
  destruct demo_parent as (m & l & p & Hp & _ & _ & e & He & Hne & Ht). exists m, p.
  destruct (par_user _ _ _ _ Hp 0) as (e' & He' & Hok & _); [lia|]. rewrite He in He'. simplify_eq.
  assert (forall va, 0 <= va < 4096 -> mapping m p va = Some e') as Hm.
  { intros va Hva. rewrite <- He. apply mapping_page; unfold is_u32, page_of; lia. }
  constructor.
  - apply (par_vm _ _ _ _ Hp).
  - done.
  - intros va Hva. exists e'. rewrite Hm by done. done.
  - intros va vb _ _ Hva Hvb _ _ _. unfold page_of. lia.
Qed.

(** The first process, running with [sz] bytes of memory. *)
Definition demo_process (pgdir sz esp : Z) : proc :=
  proc0 <| p_state := RUNNING |> <| p_pid := 1 |> <| p_pgdir := pgdir |> <| p_sz := sz |>
        <| p_tf := tf_zero <| tf_esp := esp |> |>.

Definition demo_run (m : kmem) (p : proc) : world :=
  World (kstate0 <| k_mem := m |> <| k_ptable := p :: replicate 63 proc0 |>) [] (Some O) [].

Lemma demo_running m p : running (demo_run m p) O p.
Proof. done. Qed.
