(* ===== verification/File.v ===== *)
(** Pipes (pipe.c) and the file table (file.c).

    A [struct pipe] lives in a page of its own and is named by the address of
    the page.  [addr] is an address of the current process. *)

From S2P Require Import Prelude Kernel Sched Cons Bio Log Inode Fs Kalloc Vm.

(** ** pipe.c *)

Definition PIPESIZE : Z := 512.
Definition SIZEOF_SPINLOCK : nat := 52.

(** [pipewrite], with the loop on a full pipe inside the loop on the bytes. *)
Definition pipewrite (p : Z) (addr n : Z) : M Z :=
  acquire (Lpipe p) ;;
  r ← find_each (map Z.of_nat (seq 0 (Z.to_nat n))) (fun i =>
    ok ← loop_sleep (fun _ : unit =>
      x ← get_pipe p;
      if pi_nwrite x =? u32 (pi_nread x + PIPESIZE) then
        killed ← my p_killed;
        if negb (pi_readopen x) || killed then
          release (Lpipe p) ;; mret (inr false)
        else
          wakeup (Cnread p) ;;
          sleep (Cnwrite p) (Some (Lpipe p)) ;;
          mret (inl tt)
      else mret (inr true)) tt;
    if negb ok then mret (Some (-1)) else
    c ← user_load (u32 (addr + i));
    upd_pipe p (fun x => x <| pi_data ::= <[Z.to_nat (pi_nwrite x mod PIPESIZE) := c]> |>
                           <| pi_nwrite ::= fun w => u32 (w + 1) |>) ;;
    mret None);
  match r with
  | Some v => mret v
  | None =>
      wakeup (Cnread p) ;;
      release (Lpipe p) ;;
      mret n
  end.

Definition piperead (p : Z) (addr n : Z) : M Z :=
  acquire (Lpipe p) ;;
  ok ← loop_sleep (fun _ : unit =>
    x ← get_pipe p;
    if (pi_nread x =? pi_nwrite x) && pi_writeopen x then
      killed ← my p_killed;
      if (killed : bool) then
        release (Lpipe p) ;; mret (inr false)
      else
        sleep (Cnread p) (Some (Lpipe p)) ;;
        mret (inl tt)
    else mret (inr true)) tt;
  if negb ok then mret (-1) else
  r ← find_each (map Z.of_nat (seq 0 (Z.to_nat n))) (fun i =>
    x ← get_pipe p;
    if pi_nread x =? pi_nwrite x then mret (Some i) else
    c ← deref (pi_data x !! Z.to_nat (pi_nread x mod PIPESIZE));
    upd_pipe p (fun x => x <| pi_nread ::= fun r => u32 (r + 1) |>) ;;
    user_store (u32 (addr + i)) c ;;
    mret None);
  wakeup (Cnwrite p) ;;
  release (Lpipe p) ;;
  mret (default (Z.max 0 n) r).

Definition pipeclose (p : Z) (writable : bool) : M unit :=
  acquire (Lpipe p) ;;
  (if writable then
     upd_pipe p (fun x => x <| pi_writeopen := false |>) ;;
     wakeup (Cnread p)
   else
     upd_pipe p (fun x => x <| pi_readopen := false |>) ;;
     wakeup (Cnwrite p)) ;;
  x ← get_pipe p;
  if negb (pi_readopen x) && negb (pi_writeopen x) then
    release (Lpipe p) ;;
    modify (fun k => k <| k_pipes ::= delete p |>) ;;
    kfree p
  else release (Lpipe p).

(** ** file.c *)

Definition files : list nat := seq 0 NFILE.

Definition filealloc : M (option nat) :=
  acquire Lftable ;;
  r ← find_each files (fun f =>
    x ← get_file f;
    if f_ref x =? 0 then
      upd_file f (fun x => x <| f_ref := 1 |>) ;;
      release Lftable ;;
      mret (Some f)
    else mret None);
  match r with
  | Some f => mret (Some f)
  | None => release Lftable ;; mret None
  end.

Definition filedup (f : nat) : M nat :=
  acquire Lftable ;;
  x ← get_file f;
  if f_ref x <? 1 then panic "filedup" else
  upd_file f (fun x => x <| f_ref ::= fun n => i32 (n + 1) |>) ;;
  release Lftable ;;
  mret f.

Definition fileclose (f : nat) : M unit :=
  acquire Lftable ;;
  x ← get_file f;
  if f_ref x <? 1 then panic "fileclose" else
  upd_file f (fun x => x <| f_ref ::= fun n => n - 1 |>) ;;
  ff ← get_file f;
  if 0 <? f_ref ff then release Lftable else
  upd_file f (fun x => x <| f_ref := 0 |>) ;;
  upd_file f (fun x => x <| f_type := FD_NONE |>) ;;
  release Lftable ;;
  match f_type ff with
  | FD_PIPE => pipeclose (f_pipe ff) (f_writable ff)
  | FD_INODE => begin_op ;; iput (f_ip ff) ;; end_op
  | FD_NONE => mret tt
  end.

(** The fields of a [struct stat] at [addr]; its padding is left alone. *)
Definition store_stat (addr : Z) (s : stat) : M unit :=
  user_stores addr (le_bytes 2 (st_type s)) ;;
  user_stores (addr + 4) (le_bytes 4 (st_dev s)) ;;
  user_stores (addr + 8) (le_bytes 4 (st_ino s)) ;;
  user_stores (addr + 12) (le_bytes 2 (st_nlink s)) ;;
  user_stores (addr + 16) (le_bytes 4 (st_size s)).

Definition filestat (f : nat) (addr : Z) : M Z :=
  x ← get_file f;
  match f_type x with
  | FD_INODE =>
      ilock (Some (f_ip x)) ;;
      s ← stati (f_ip x);
      store_stat addr s ;;
      iunlock (Some (f_ip x)) ;;
      mret 0
  | _ => mret (-1)
  end.

Definition fileread (f : nat) (addr n : Z) : M Z :=
  x ← get_file f;
  if negb (f_readable x) then mret (-1) else
  match f_type x with
  | FD_PIPE => piperead (f_pipe x) addr n
  | FD_INODE =>
      ilock (Some (f_ip x)) ;;
      y ← get_file f;
      r ← readi (f_ip x) (f_off y) (u32 n);
      user_stores addr r.2 ;;
      when (0 <? r.1) (upd_file f (fun x => x <| f_off ::= fun o => u32 (o + r.1) |>)) ;;
      iunlock (Some (f_ip x)) ;;
      mret r.1
  | FD_NONE => panic "fileread"
  end.

(** The bytes of one transaction of [filewrite]. *)
Definition filewrite_max : Z := (MAXOPBLOCKS - 1 - 1 - 2) / 2 * 512.

Definition filewrite (f : nat) (addr n : Z) : M Z :=
  x ← get_file f;
  if negb (f_writable x) then mret (-1) else
  match f_type x with
  | FD_PIPE => pipewrite (f_pipe x) addr n
  | FD_INODE =>
      i ← loop (S (S (Z.to_nat n))) (fun i =>
        if negb (i <? n) then mret (inr i) else
        let n1 := Z.min (n - i) filewrite_max in
        begin_op ;;
        ilock (Some (f_ip x)) ;;
        y ← get_file f;
        src ← user_loads (addr + i) (Z.to_nat n1);
        r ← writei (f_ip x) src (f_off y) n1;
        when (0 <? r) (upd_file f (fun x => x <| f_off ::= fun o => u32 (o + r) |>)) ;;
        iunlock (Some (f_ip x)) ;;
        end_op ;;
        if r <? 0 then mret (inr i) else
        if negb (r =? n1) then panic "short filewrite" else
        mret (inl (i + r))) 0;
      mret (if i =? n then n else -1)
  | FD_NONE => panic "filewrite"
  end.

(** ** pipe.c, once the file table is there *)

(** The label [bad] of [pipealloc]. *)
Definition pipealloc_bad (op : option Z) (of0 of1 : option nat) : M (option (nat * nat)) :=
  (match op with Some p => kfree p | None => mret tt end) ;;
  (match of0 with Some f => fileclose f | None => mret tt end) ;;
  (match of1 with Some f => fileclose f | None => mret tt end) ;;
  mret None.

Definition pipealloc : M (option (nat * nat)) :=
  of0 ← filealloc;
  match of0 with
  | None => pipealloc_bad None None None
  | Some f0 =>
      of1 ← filealloc;
      match of1 with
      | None => pipealloc_bad None (Some f0) None
      | Some f1 =>
          op ← kalloc;
          match op with
          | None => pipealloc_bad None (Some f0) (Some f1)
          | Some p =>
              page ← get_page p;
              let x := Pipe (slice page SIZEOF_SPINLOCK (Z.to_nat PIPESIZE)) 0 0 true true in
              modify (fun k => k <| k_pipes ::= <[p := x]> |>) ;;
              upd_file f0 (fun x => x <| f_type := FD_PIPE |> <| f_readable := true |>
                                      <| f_writable := false |> <| f_pipe := p |>) ;;
              upd_file f1 (fun x => x <| f_type := FD_PIPE |> <| f_readable := false |>
                                      <| f_writable := true |> <| f_pipe := p |>) ;;
              mret (Some (f0, f1))
          end
      end
  end.
