(* ===== verification/Proc.v ===== *)
(** Processes: the rest of proc.c, from [allocproc] to [forkret].  [sched],
    [sleep], [wakeup] and [kill] are in Sched.v. *)

From S2P Require Import Prelude Kernel Sched Cons Str Bio Log Inode Fs Kalloc Vm File.

Definition SEG_UCODE : Z := 3.
Definition SEG_UDATA : Z := 4.
Definition DPL_USER : Z := 3.
Definition FL_IF : Z := 512.

(** ** Creation *)

(** The trap frame of a new process is the top of its fresh kernel stack: both
    callers overwrite it before they use it.  Below it [allocproc] stores the return
    address [trapret] and a context that starts in [forkret]; these words of the stack
    page are only read by the first switch to the process, and [Rforkret] stands for
    them. *)
Definition allocproc : M (option nat) :=
  acquire Lptable ;;
  r ← find_each procs (fun i =>
    p ← get_proc i;
    mret (if bool_decide (p_state p = UNUSED) then Some i else None));
  match r with
  | None => release Lptable ;; mret None
  | Some i =>
      upd_proc i (fun p => p <| p_state := EMBRYO |>) ;;
      pid ← get k_nextpid;
      upd_proc i (fun p => p <| p_pid := pid |>) ;;
      modify (fun k => k <| k_nextpid ::= fun n => i32 (n + 1) |>) ;;
      release Lptable ;;
      o ← kalloc;
      upd_proc i (fun p => p <| p_kstack := default 0 o |>) ;;
      match o with
      | None => upd_proc i (fun p => p <| p_state := UNUSED |>) ;; mret None
      | Some _ => upd_proc i (fun p => p <| p_ctx := Rforkret |>) ;; mret (Some i)
      end
  end.

Definition tf_init : trapframe :=
  let ds := Z.lor (Z.shiftl SEG_UDATA 3) DPL_USER in
  tf_zero <| tf_cs := Z.lor (Z.shiftl SEG_UCODE 3) DPL_USER |>
          <| tf_ds := ds |> <| tf_es := ds |> <| tf_ss := ds |>
          <| tf_eflags := FL_IF |> <| tf_esp := PGSIZE |> <| tf_eip := 0 |>.

(** [initcode] is the image the linker embeds. *)
Definition userinit (initcode : list Z) : M unit :=
  o ← allocproc;
  modify (fun k => k <| k_initproc := o |>) ;;
  i ← deref o;
  pg ← setupkvm;
  upd_proc i (fun p => p <| p_pgdir := default 0 pg |>) ;;
  match pg with
  | None => panic "userinit: out of memory?"
  | Some pgdir =>
      inituvm pgdir initcode (Z.of_nat (length initcode)) ;;
      upd_proc i (fun p => p <| p_sz := PGSIZE |>) ;;
      upd_proc i (fun p => p <| p_tf := tf_init |>) ;;
      p ← get_proc i;
      name ← deref (Kstring.safestrcpy (p_name p) (bytes_of "initcode" ++ [0]) 16);
      upd_proc i (fun p => p <| p_name := name |>) ;;
      cwd ← namei [slash];
      upd_proc i (fun p => p <| p_cwd := cwd |>) ;;
      acquire Lptable ;;
      upd_proc i (fun p => p <| p_state := RUNNABLE |>) ;;
      release Lptable
  end.

Definition growproc (n : Z) : M Z :=
  i ← curproc;
  p ← get_proc i;
  let sz := p_sz p in
  r ← (if 0 <? n then
         sz ← allocuvm (p_pgdir p) sz (u32 (sz + n));
         mret (if sz =? 0 then None else Some sz)
       else if n <? 0 then
         sz ← deallocuvm (p_pgdir p) sz (u32 (sz + n));
         mret (if sz =? 0 then None else Some sz)
       else mret (Some sz));
  match r with
  | None => mret (-1)
  | Some sz =>
      upd_proc i (fun p => p <| p_sz := sz |>) ;;
      switchuvm (Some i) ;;
      mret 0
  end.

Definition fork : M Z :=
  me ← curproc;
  o ← allocproc;
  match o with
  | None => mret (-1)
  | Some np =>
      cur ← get_proc me;
      pg ← copyuvm (p_pgdir cur) (p_sz cur);
      upd_proc np (fun p => p <| p_pgdir := default 0 pg |>) ;;
      match pg with
      | None =>
          x ← get_proc np;
          kfree (p_kstack x) ;;
          upd_proc np (fun p => p <| p_kstack := 0 |>) ;;
          upd_proc np (fun p => p <| p_state := UNUSED |>) ;;
          mret (-1)
      | Some _ =>
          upd_proc np (fun p => p <| p_sz := p_sz cur |>) ;;
          upd_proc np (fun p => p <| p_parent := Some me |>) ;;
          upd_proc np (fun p => p <| p_tf := p_tf cur |>) ;;
          upd_proc np (fun p => p <| p_tf ::= fun t => t <| tf_eax := 0 |> |>) ;;
          for_each (seq 0 NOFILE) (fun i =>
            c ← get_proc me;
            fo ← deref (p_ofile c !! i);
            match fo with
            | Some f =>
                g ← filedup f;
                upd_proc np (fun p => p <| p_ofile ::= <[i := Some g]> |>)
            | None => mret tt
            end) ;;
          c ← get_proc me;
          cwd ← deref (p_cwd c);
          d ← idup cwd;
          upd_proc np (fun p => p <| p_cwd := Some d |>) ;;
          x ← get_proc np;
          name ← deref (Kstring.safestrcpy (p_name x) (p_name c) 16);
          upd_proc np (fun p => p <| p_name := name |>) ;;
          x ← get_proc np;
          let pid := p_pid x in
          acquire Lptable ;;
          upd_proc np (fun p => p <| p_state := RUNNABLE |>) ;;
          release Lptable ;;
          mret pid
      end
  end.

(** ** Termination *)

(** The channel of a process pointer. *)
Definition pchan (op : option nat) : option chan := Cproc <$> op.

(** The end of [exit], from its [acquire]. *)
Definition exit_table {A} (me : nat) (init : option nat) : M A :=
  acquire Lptable ;;
  c ← get_proc me;
  wakeup1 (pchan (p_parent c)) ;;
  for_each procs (fun i =>
    p ← get_proc i;
    when (bool_decide (p_parent p = Some me))
      (upd_proc i (fun p => p <| p_parent := init |>) ;;
       when (bool_decide (p_state p = ZOMBIE)) (wakeup1 (pchan init)))) ;;
  upd_proc me (fun p => p <| p_state := ZOMBIE |>) ;;
  sched ;;
  panic "zombie exit".

Definition exit {A} : M A :=
  me ← curproc;
  init ← get k_initproc;
  if bool_decide (Some me = init) then panic "init exiting" else
  for_each (seq 0 NOFILE) (fun fd =>
    c ← get_proc me;
    fo ← deref (p_ofile c !! fd);
    match fo with
    | Some f => fileclose f ;; upd_proc me (fun p => p <| p_ofile ::= <[fd := None]> |>)
    | None => mret tt
    end) ;;
  begin_op ;;
  c ← get_proc me;
  cwd ← deref (p_cwd c);
  iput cwd ;;
  end_op ;;
  upd_proc me (fun p => p <| p_cwd := None |>) ;;
  exit_table me init.

(** The scan of [wait]: the pid of the child reaped, or [havekids]. *)
Fixpoint wait_scan (me : nat) (l : list nat) (havekids : bool) : M (Z + bool) :=
  match l with
  | [] => mret (inr havekids)
  | i :: l =>
      p ← get_proc i;
      if negb (bool_decide (p_parent p = Some me)) then wait_scan me l havekids else
      if bool_decide (p_state p = ZOMBIE) then
        let pid := p_pid p in
        kfree (p_kstack p) ;;
        upd_proc i (fun p => p <| p_kstack := 0 |>) ;;
        freevm (p_pgdir p) ;;
        upd_proc i (fun p => p <| p_pid := 0 |>) ;;
        upd_proc i (fun p => p <| p_parent := None |>) ;;
        upd_proc i (fun p => p <| p_name ::= <[O := 0]> |>) ;;
        upd_proc i (fun p => p <| p_killed := false |>) ;;
        upd_proc i (fun p => p <| p_state := UNUSED |>) ;;
        release Lptable ;;
        mret (inl pid)
      else wait_scan me l true
  end.

Definition wait : M Z :=
  me ← curproc;
  acquire Lptable ;;
  loop_sleep (fun _ : unit =>
    r ← wait_scan me procs false;
    match r with
    | inl pid => mret (inr pid)
    | inr havekids =>
        c ← get_proc me;
        if negb havekids || p_killed c then
          release Lptable ;; mret (inr (-1))
        else
          sleep (Cproc me) (Some Lptable) ;;
          mret (inl tt)
    end) tt.

(** ** The scheduler *)

(** [c->proc = p] *)
Definition set_cpu_proc (op : option nat) : M unit := fun w => Ok tt (w <| w_proc := op |>).

(** One round of the loop of [scheduler].  Its [swtch] runs the process chosen
    until that process switches back.  The [sti] before the round and the [switchkvm]
    after the switch only set registers of the processor (the interrupt flag and [cr3]),
    which are not in the state here: interrupts are on when no lock is held, and the
    kernel's mappings are the same in every page directory. *)
Definition scheduler_round : M unit :=
  acquire Lptable ;;
  for_each procs (fun i =>
    p ← get_proc i;
    when (bool_decide (p_state p = RUNNABLE))
      (set_cpu_proc (Some i) ;;
       switchuvm (Some i) ;;
       upd_proc i (fun p => p <| p_state := RUNNING |>) ;;
       swtch ;;
       set_cpu_proc None)) ;;
  release Lptable.

(** The first [n] rounds of [scheduler], which never returns. *)
Definition scheduler (n : nat) : M unit :=
  set_cpu_proc None ;;
  for_each (seq 0 n) (fun _ => scheduler_round).

Definition forkret : M unit :=
  release Lptable ;;
  first ← get k_first;
  when first
    (modify (fun k => k <| k_first := false |>) ;;
     iinit ROOTDEV ;;
     initlog ROOTDEV).
