(* ===== verification/ProcSpec.v ===== *)
(** Processes: what [allocproc] and [fork] do to the process table, the memory,
    the open files and the current directory, and the rounds of [scheduler]. *)

From S2P Require Import Prelude Kernel Sched Str Kalloc Vm VmSpec MemFrame VmProc Inode FsSpec File Proc.

(** One statement whose effect is known. *)
Tactic Notation "run" tactic3(t) := erewrite bind_run by t; cbv beta iota.

(** ** The parts of the state a fork changes *)

(** [w] with the process table [ps], the next pid [n], memory [m], the file table
    [fs], the inode cache [ics] and the locks [h]. *)
Definition pw (w : world) (ps : list proc) (n : Z) (m : kmem) (fs : list file) (ics : list inode) (h : list lock) : world :=
  World ((w_k w) <| k_ptable := ps |> <| k_nextpid := n |> <| k_mem := m |> <| k_ftable := fs |> <| k_icache := ics |>)
    h (w_proc w) (w_env w).

Lemma pw_id w : pw w (k_ptable (w_k w)) (k_nextpid (w_k w)) (k_mem (w_k w)) (k_ftable (w_k w)) (k_icache (w_k w)) (w_held w) = w.
Proof. by destruct w as [[] ? ? ?]. Qed.

Section Run.
Context (w : world).
Implicit Types (ps : list proc) (m : kmem) (fs : list file) (ics : list inode) (h : list lock).

Lemma pw_acquire ps n m fs ics h lk : lk ∉ h -> acquire lk (pw w ps n m fs ics h) = Ok tt (pw w ps n m fs ics (lk :: h)).
Proof. intros H. by rewrite acquire_run. Qed.

Lemma pw_release ps n m fs ics h lk : release lk (pw w ps n m fs ics (lk :: h)) = Ok tt (pw w ps n m fs ics h).
Proof. by rewrite (release_run lk _ h). Qed.

Lemma pw_upd_proc ps n m fs ics h i f : upd_proc i f (pw w ps n m fs ics h) = Ok tt (pw w (alter f i ps) n m fs ics h).
Proof. done. Qed.

Lemma pw_get_proc ps n m fs ics h i p : ps !! i = Some p -> get_proc i (pw w ps n m fs ics h) = Ok p (pw w ps n m fs ics h).
Proof. intros H. by apply get_proc_run. Qed.

Lemma pw_nextpid ps n m fs ics h : get k_nextpid (pw w ps n m fs ics h) = Ok n (pw w ps n m fs ics h).
Proof. done. Qed.

Lemma pw_kalloc ps n m fs ics h v l : kmem_ok m (v :: l) -> Lkmem ∉ h ->
  kalloc (pw w ps n m fs ics h) = Ok (Some v) (pw w ps n (m <| m_freelist := ptr l |>) fs ics h).
Proof. intros Hm Hh. rewrite (kalloc_run _ (v :: l)); [done|done|by intros _]. Qed.

Lemma pw_kalloc_none ps n m fs ics h : kmem_ok m [] -> Lkmem ∉ h ->
  kalloc (pw w ps n m fs ics h) = Ok None (pw w ps n m fs ics h).
Proof.
  intros Hm Hh. rewrite (kalloc_run _ []); [|done|by intros _]. cbn. destruct Hm as [E _]. cbn in E. destruct m. cbn in E. by subst.
Qed.

Lemma pw_bump ps n m fs ics h : modify (fun k => k <| k_nextpid ::= fun n => i32 (n + 1) |>) (pw w ps n m fs ics h) =
  Ok tt (pw w ps (i32 (n + 1)) m fs ics h).
Proof. done. Qed.

Lemma pw_upd_file ps n m fs ics h f g : upd_file f g (pw w ps n m fs ics h) = Ok tt (pw w ps n m (alter g f fs) ics h).
Proof. done. Qed.

Lemma pw_upd_inode ps n m fs ics h ip g : upd_inode ip g (pw w ps n m fs ics h) = Ok tt (pw w ps n m fs (alter g ip ics) h).
Proof. done. Qed.

(** The first slot that is not in use. *)
Definition first_unused ps (i : nat) : Prop :=
  exists p, ps !! i = Some p /\ p_state p = UNUSED /\ forall j q, (j < i)%nat -> ps !! j = Some q -> p_state q <> UNUSED.

Lemma find_unused ps n m fs ics h i : length ps = NPROC -> first_unused ps i ->
  find_each procs (fun i => p ← get_proc i; mret (if bool_decide (p_state p = UNUSED) then Some i else None)) (pw w ps n m fs ics h) =
  Ok (Some i) (pw w ps n m fs ics h).
Proof.
  intros Hlen (p & Hp & Hu & Hfirst). apply lookup_lt_Some in Hp as Hi. unfold procs.
  replace NPROC with (i + S (NPROC - S i))%nat by lia. rewrite seq_app. cbn [seq plus]. apply find_each_hit.
  - intros j Hj. apply elem_of_seq in Hj. destruct (lookup_lt_is_Some_2 ps j) as [q Hq]; [lia|].
    erewrite bind_run by (by apply pw_get_proc). rewrite bool_decide_eq_false_2; [done|]. apply (Hfirst j); [lia|done].
  - erewrite bind_run by (by apply pw_get_proc). by rewrite bool_decide_eq_true_2.
Qed.

(** What [allocproc] makes of the slot. *)
Definition embryo (pid v : Z) (p : proc) : proc :=
  p <| p_state := EMBRYO |> <| p_pid := pid |> <| p_kstack := v |> <| p_ctx := Rforkret |>.

Lemma allocproc_run ps n m fs ics h i v l :
  length ps = NPROC -> first_unused ps i -> kmem_ok m (v :: l) -> Lkmem ∉ h -> Lptable ∉ h ->
  allocproc (pw w ps n m fs ics h) =
  Ok (Some i) (pw w (alter (embryo n v) i ps) (i32 (n + 1)) (m <| m_freelist := ptr l |>) fs ics h).
Proof.
  intros Hlen Hi Hm Hh Hp. unfold allocproc. run (by apply pw_acquire). run (by apply find_unused).
  run apply pw_upd_proc. run apply pw_nextpid. run apply pw_upd_proc. run apply pw_bump. run apply pw_release.
  run (by eapply pw_kalloc). run apply pw_upd_proc. run apply pw_upd_proc. by rewrite !alter_alter.
Qed.

(** ** The open files *)

Definition dup (x : file) : file := x <| f_ref ::= fun n => i32 (n + 1) |>.

(** The file table after [filedup] of each descriptor in use. *)
Fixpoint dups (ofs : list (option nat)) fs : list file :=
  match ofs with
  | [] => fs
  | Some f :: ofs => dups ofs (alter dup f fs)
  | None :: ofs => dups ofs fs
  end.

(** How many descriptors name file [f]. *)
Fixpoint fd_count (ofs : list (option nat)) (f : nat) : Z :=
  match ofs with
  | [] => 0
  | o :: ofs => (if bool_decide (o = Some f) then 1 else 0) + fd_count ofs f
  end.

Lemma fd_count_bounds ofs f : 0 <= fd_count ofs f <= Z.of_nat (length ofs).
Proof. induction ofs as [|o ofs IH]; cbn; [lia|]. case_bool_decide; lia. Qed.

Lemma dups_lookup ofs : forall fs f x, fs !! f = Some x -> 0 <= f_ref x -> f_ref x + Z.of_nat (length ofs) < 2 ^ 31 ->
  dups ofs fs !! f = Some (x <| f_ref := f_ref x + fd_count ofs f |>).
Proof.
  induction ofs as [|[g|] ofs IH]; intros fs f x Hx H0 Hr; cbn [dups fd_count length] in *.
  - rewrite Hx. unfold setter. cbn. rewrite Z.add_0_r. by destruct x.
  - destruct (decide (g = f)) as [->|Hg].
    + rewrite bool_decide_eq_true_2 by done. rewrite (IH _ _ (dup x)).
      * unfold dup, setter. cbn. rewrite i32_id by (unfold is_i32; lia). do 2 f_equal. lia.
      * by rewrite list_lookup_alter, decide_True, Hx by done.
      * unfold dup. cbn. rewrite i32_id by (unfold is_i32; lia). lia.
      * unfold dup. cbn. rewrite i32_id by (unfold is_i32; lia). lia.
    + rewrite bool_decide_eq_false_2 by congruence. rewrite (IH _ _ x); [done|by rewrite list_lookup_alter_ne|done|lia].
  - apply IH; [done|done|lia].
Qed.

Lemma length_dups ofs : forall fs, length (dups ofs fs) = length fs.
Proof. induction ofs as [|[g|] ofs IH]; intros fs; cbn; [done|by rewrite IH, length_alter|apply IH]. Qed.

Lemma dups_other ofs : forall fs f x, fs !! f = Some x -> fd_count ofs f = 0 ->
  dups ofs fs !! f = Some (x <| f_ref := f_ref x + fd_count ofs f |>).
Proof.
  induction ofs as [|[g|] ofs IH]; intros fs f x Hx H0; cbn [dups fd_count] in *.
  - rewrite Hx, Z.add_0_r. by destruct x.
  - pose proof (fd_count_bounds ofs f). case_bool_decide; [lia|]. rewrite Z.add_0_l in *. apply IH; [|done].
    by rewrite list_lookup_alter_ne by congruence.
  - by apply IH.
Qed.

Lemma pw_filedup ps n m fs ics h f x : Lftable ∉ h -> fs !! f = Some x -> 1 <= f_ref x ->
  filedup f (pw w ps n m fs ics h) = Ok f (pw w ps n m (alter dup f fs) ics h).
Proof.
  intros Hh Hx Hr. unfold filedup. run (by apply pw_acquire). run (by apply get_file_run).
  rewrite (proj2 (Z.ltb_ge _ _)) by lia. run apply pw_upd_file. run apply pw_release. done.
Qed.

(** The loop of [fork] over the parent's descriptors. *)
Definition dup_body (me np i : nat) : M unit :=
  c ← get_proc me;
  fo ← deref (p_ofile c !! i);
  match fo with
  | Some f =>
      g ← filedup f;
      upd_proc np (fun p => p <| p_ofile ::= <[i := Some g]> |>)
  | None => mret tt
  end.

Lemma dup_files_run me np n m ics h c : me <> np -> Lftable ∉ h -> forall post pre ps fs x,
  ps !! me = Some c -> p_ofile c = pre ++ post -> ps !! np = Some x -> p_ofile x = pre ++ replicate (length post) None ->
  (forall f, Some f ∈ post -> exists y, fs !! f = Some y /\ 1 <= f_ref y /\ f_ref y + Z.of_nat (length post) < 2 ^ 31) ->
  for_each (seq (length pre) (length post)) (dup_body me np) (pw w ps n m fs ics h) =
  Ok tt (pw w (alter (fun x => x <| p_ofile := pre ++ post |>) np ps) n m (dups post fs) ics h).
Proof.
  intros Hne Hh. induction post as [|[f|] post IH]; intros pre ps fs x Hme Hof Hnp Hox Hfs; cbn [length seq for_each dups].
  - cbn in Hox. rewrite (alter_id_at _ _ _ x); [done|done|]. unfold setter. rewrite <- Hox. by destruct x.
  - assert (p_ofile c !! length pre = Some (Some f)) as Hlk by (rewrite Hof; by apply list_lookup_middle).
    destruct (Hfs f ltac:(by left)) as (y & Hy & Hr & Hb).
    assert (dup_body me np (length pre) (pw w ps n m fs ics h) = Ok tt (pw w (alter (fun x => x <| p_ofile ::= <[length pre := Some f]> |>) np ps) n m (alter dup f fs) ics h)) as E.
    { unfold dup_body. run (by apply pw_get_proc). run (by apply deref_run). run (by eapply pw_filedup). done. }
    run (exact E). replace (S (length pre)) with (length (pre ++ [Some f])) by (rewrite length_app; cbn; lia).
    erewrite (IH (pre ++ [Some f])).
    + rewrite alter_alter, <- app_assoc. done.
    + by rewrite list_lookup_alter_ne.
    + by rewrite <- app_assoc.
    + rewrite list_lookup_alter, decide_True, Hnp by done. reflexivity.
    + cbn. rewrite Hox, insert_app_r_alt, Nat.sub_diag by done. cbn. by rewrite <- app_assoc.
    + intros g Hg. destruct (Hfs g ltac:(by right)) as (z & Hz & Hr' & Hb'). cbn [length] in *. destruct (decide (f = g)) as [->|Hfg].
      * exists (dup z). rewrite list_lookup_alter, decide_True, Hz by done. unfold dup. cbn. rewrite i32_id by (unfold is_i32; lia). split; [done|lia].
      * exists z. rewrite list_lookup_alter_ne by done. split; [done|lia].
  - assert (p_ofile c !! length pre = Some None) as Hlk by (rewrite Hof; by apply list_lookup_middle).
    assert (dup_body me np (length pre) (pw w ps n m fs ics h) = Ok tt (pw w ps n m fs ics h)) as E.
    { unfold dup_body. run (by apply pw_get_proc). run (by apply deref_run). done. }
    run (exact E). replace (S (length pre)) with (length (pre ++ [None : option nat])) by (rewrite length_app; cbn; lia).
    erewrite (IH (pre ++ [None])); [by rewrite <- app_assoc|done|by rewrite <- app_assoc|done|by rewrite <- app_assoc|].
    intros g Hg. destruct (Hfs g ltac:(by right)) as (z & Hz & Hr' & Hb'). cbn [length] in *. exists z. split; [done|lia].
Qed.

End Run.

(** ** [fork] *)

(** Taking the first free page leaves the parent's address space alone. *)
Lemma parent_take m v l pgdir n : parent_ok m (v :: l) pgdir n -> parent_ok (m <| m_freelist := ptr l |>) l pgdir n.
Proof.
  intros [Hvm Huser Hb]. destruct (vm_kmem _ _ _ Hvm) as (Hf & _ & _). destruct Hf as (_ & du & Hdu & Hlu & _).
  destruct (vm_take m pgdir v l du Hvm Hlu) as [Hv _]. unfold setter in Hv. cbn in Hv. rewrite insert_id in Hv by done.
  constructor; [exact Hv| |done]. intros i Hi. destruct (Huser i Hi) as (e & He & Hp & Hn). exists e.
  split; [exact He|]. split; [exact Hp|]. by apply not_elem_of_cons in Hn as [_ ?].
Qed.

(** [safestrcpy] of a terminated name. *)
Lemma safecopy_text k : forall s t, (k < length s)%nat -> 0 ∈ take k t ->
  exists r, Kstring.safecopy s t k = Some r /\ length r = length s /\ upto_zero r = upto_zero t.
Proof.
  induction k as [|k IH]; intros s t Hs Ht; [cbn in Ht; by apply not_elem_of_nil in Ht|].
  destruct s as [|y s]; [cbn in Hs; lia|]. destruct t as [|x t]; [by apply not_elem_of_nil in Ht|].
  cbn in Hs, Ht. cbn [Kstring.safecopy upto_zero]. destruct (Z.eqb_spec x 0) as [->|Hx]; cbn [negb].
  - destruct s as [|z s]; [cbn in Hs; lia|]. by exists (0 :: 0 :: s).
  - destruct (IH s t) as (r & -> & Hl & Hr); [lia|by apply elem_of_cons in Ht as [?|?]|].
    exists (x :: r). split; [done|]. split; [cbn; lia|]. cbn [upto_zero]. by rewrite (proj2 (Z.eqb_neq x 0) Hx), Hr.
Qed.

(** The child of [p] in a slot that was not in use. *)
Definition child_of (p slot : proc) (me : nat) (pid kstack pgdir : Z) (name : list Z) : proc :=
  Proc (p_sz p) pgdir kstack RUNNABLE pid (Some me) ((p_tf p) <| tf_eax := 0 |>) Rforkret
    (p_chan slot) (p_killed slot) (p_ofile p) (p_cwd p) name.

(** What [fork] needs: a free slot, pages for the kernel stack, the page tables
    and the copies, and a parent with a sound address space, open files that are
    referenced, and a current directory. *)
Record can_fork (w : world) (me np : nat) (p slot : proc) (v : Z) (l : list Z) : Prop := Can_fork {
  cf_running : running w me p;
  cf_state : p_state p = RUNNING;
  cf_len : length (k_ptable (w_k w)) = NPROC;
  cf_slot : k_ptable (w_k w) !! np = Some slot;
  cf_free : first_unused (k_ptable (w_k w)) np;
  cf_locks : forall lk, lk ∈ [Lptable; Lkmem; Lftable; Licache] -> lk ∉ w_held w;
  cf_data : data_ok (k_mem (w_k w));
  cf_mem : parent_ok (k_mem (w_k w)) (v :: l) (p_pgdir p) (Z.to_nat ((p_sz p + PGSIZE - 1) / PGSIZE));
  cf_pages : kvm_pages + 2 * Z.of_nat (Z.to_nat ((p_sz p + PGSIZE - 1) / PGSIZE)) <= Z.of_nat (length l);
  cf_ofile : length (p_ofile p) = NOFILE /\ p_ofile slot = replicate NOFILE None;
  cf_files : forall f, Some f ∈ p_ofile p ->
    exists y, k_ftable (w_k w) !! f = Some y /\ 1 <= f_ref y /\ f_ref y + Z.of_nat NOFILE < 2 ^ 31;
  cf_cwd : is_Some (p_cwd p);
  cf_name : length (p_name slot) = 16%nat /\ 0 ∈ take 15 (p_name p) }.

(** The fields that [fork] stores one by one. *)
Lemma fork_stores (p : proc) (np me : nat) (d pid v : Z) name cwd (ps : list proc) slot :
  ps !! np = Some slot -> p_cwd p = Some cwd ->
  alter (fun x => x <| p_state := RUNNABLE |>) np
   (alter (fun x => x <| p_name := name |>) np
    (alter (fun x => x <| p_cwd := Some cwd |>) np
     (alter (fun x => x <| p_ofile := p_ofile p |>) np
      (alter (fun x => x <| p_tf ::= fun t => t <| tf_eax := 0 |> |>) np
       (alter (fun x => x <| p_tf := p_tf p |>) np
        (alter (fun x => x <| p_parent := Some me |>) np
         (alter (fun x => x <| p_sz := p_sz p |>) np
          (alter (fun x => x <| p_pgdir := d |>) np
           (alter (embryo pid v) np ps))))))))) =
  <[np := child_of p slot me pid v d name]> ps.
Proof.
  intros Hs Hc. assert (forall f x, alter f np (<[np := x]> ps) = <[np := f x]> ps) as Hai.
  { intros f x. rewrite (alter_as_insert f _ _ x); [by rewrite list_insert_insert_eq|].
    apply list_lookup_insert_eq. by eapply lookup_lt_Some. }
  rewrite (alter_as_insert (embryo pid v) _ _ _ Hs). destruct slot as [a1 a2 a3 a4 a5 a6 a7 a8 a9 a10 a11 a12 a13].
  unfold embryo, child_of, setter. cbn. repeat (rewrite Hai; cbn). by rewrite Hc.
Qed.

Lemma pw_idup w ps n m fs ics h ip : Licache ∉ h ->
  idup ip (pw w ps n m fs ics h) = Ok ip (pw w ps n m fs (alter (fun x => x <| i_ref ::= fun n => i32 (n + 1) |>) ip ics) h).
Proof. intros Hh. unfold idup. run (by apply pw_acquire). run apply pw_upd_inode. run apply pw_release. done. Qed.

(** [fork], its copy of the memory given. *)
Lemma fork_run w me np p slot v d m l n ps fs ics h name cwd :
  me <> np -> ps !! me = Some p -> ps !! np = Some slot -> p_cwd p = Some cwd ->
  (forall lk, lk ∈ [Lptable; Lkmem; Lftable; Licache] -> lk ∉ h) ->
  length (p_ofile p) = NOFILE -> p_ofile slot = replicate NOFILE None ->
  (forall f, Some f ∈ p_ofile p -> exists y, fs !! f = Some y /\ 1 <= f_ref y /\ f_ref y + Z.of_nat NOFILE < 2 ^ 31) ->
  Kstring.safestrcpy (p_name slot) (p_name p) 16 = Some name -> w_proc w = Some me ->
  length ps = NPROC -> first_unused ps np -> kmem_ok m (v :: l) ->
  forall mc, copyuvm (p_pgdir p) (p_sz p) (pw w (alter (embryo n v) np ps) (i32 (n + 1)) (m <| m_freelist := ptr l |>) fs ics h) =
    Ok (Some d) (pw w (alter (embryo n v) np ps) (i32 (n + 1)) mc fs ics h) ->
  fork (pw w ps n m fs ics h) = Ok n (pw w (<[np := child_of p slot me n v d name]> ps) (i32 (n + 1)) mc
    (dups (p_ofile p) fs) (alter (fun x => x <| i_ref ::= fun n => i32 (n + 1) |>) cwd ics) h).
Proof.
  intros Hne Hme Hnp Hcwd Hlk Hof Hos Hfs Hname Hpr Hlen Hfree Hm mc Hcopy.
  assert (Lptable ∉ h /\ Lkmem ∉ h /\ Lftable ∉ h /\ Licache ∉ h) as (H1 & H2 & H3 & H4) by (repeat split; apply Hlk; set_solver).
  unfold fork. run (eapply curproc_run; split; [exact Hpr|exact Hme]).
  run (by apply allocproc_run with (l := l)).
  set (ps1 := alter (embryo n v) np ps) in *.
  assert (ps1 !! me = Some p) as Hme1 by (unfold ps1; by rewrite list_lookup_alter_ne).
  assert (ps1 !! np = Some (embryo n v slot)) as Hnp1 by (unfold ps1; by rewrite list_lookup_alter, decide_True, Hnp).
  run (by apply pw_get_proc). run (exact Hcopy). do 5 (run apply pw_upd_proc).
  rewrite <- (fork_stores p np me d n v name cwd ps slot Hnp Hcwd). fold ps1.
  set (ps2 := alter _ np (alter _ np (alter _ np (alter _ np (alter _ np ps1))))).
  assert (ps2 !! me = Some p) as Hme2 by (unfold ps2; by rewrite !list_lookup_alter_ne).
  assert (exists x, ps2 !! np = Some x /\ p_ofile x = p_ofile slot /\ p_name x = p_name slot /\ p_pid x = n) as (x & Hx & Hxo & Hxn & Hxp).
  { unfold ps2. rewrite !list_lookup_alter, !decide_True, Hnp1 by done. eexists. split; [reflexivity|]. by destruct slot. }
  assert (for_each (seq 0 NOFILE) (dup_body me np) (pw w ps2 (i32 (n + 1)) mc fs ics h) =
    Ok tt (pw w (alter (fun x => x <| p_ofile := p_ofile p |>) np ps2) (i32 (n + 1)) mc (dups (p_ofile p) fs) ics h)) as Edup.
  { rewrite <- Hof. apply (dup_files_run w me np _ _ _ _ p Hne H3 (p_ofile p) [] ps2 fs x); try done.
    - by rewrite Hxo, Hos, Hof.
    - by rewrite Hof. }
  run (exact Edup). clear Edup. set (ps3 := alter _ np ps2).
  assert (ps3 !! me = Some p) as Hme3 by (unfold ps3; by rewrite list_lookup_alter_ne).
  run (by apply pw_get_proc). run (by apply deref_run). run (by apply pw_idup). run apply pw_upd_proc.
  set (ps4 := alter _ np ps3).
  assert (exists x, ps4 !! np = Some x /\ p_name x = p_name slot /\ p_pid x = n) as (y & Hy & Hyn & Hyp).
  { unfold ps4, ps3. rewrite !list_lookup_alter, !decide_True, Hx by done. eexists. split; [reflexivity|]. by destruct x. }
  run (by apply pw_get_proc). rewrite Hyn. run (by apply deref_run). run apply pw_upd_proc.
  assert (exists x, alter (fun p => p <| p_name := name |>) np ps4 !! np = Some x /\ p_pid x = n) as (z & Hz & Hzp).
  { rewrite list_lookup_alter, decide_True, Hy by done. eexists. split; [reflexivity|]. by destruct y. }
  run (by apply pw_get_proc). rewrite Hzp. run (by apply pw_acquire). run apply pw_upd_proc. run apply pw_release. done.
Qed.

(** C5. [fork] creates the child it should.  With a free slot and enough pages it
    returns the next pid, and the child is in the first free slot: runnable, with
    the parent's size, registers (but 0 in [eax]), open files, current directory
    and name, and with a kernel stack and an address space of its own that holds
    a copy of every user page of the parent.  The references of the files and of the
    directory count the child's, and the pages that are still free are the end of the
    free list, apart from the child's.  Nothing else changes: the other processes,
    files and inodes, the parent's mappings, the pages in use, and every part of the
    kernel that is not named, the disk, its cache and its log among them. *)
Theorem fork_child w me np p slot v l :
  can_fork w me np p slot v l ->
  let k := w_k w in let pid := k_nextpid k in let n := Z.to_nat ((p_sz p + PGSIZE - 1) / PGSIZE) in
  exists m' fs' ics' d cp l' name,
    fork w = Ok pid (World (k <| k_ptable := <[np := child_of p slot me pid v d name]> (k_ptable k) |>
      <| k_nextpid := i32 (pid + 1) |> <| k_mem := m' |> <| k_ftable := fs' |> <| k_icache := ics' |>)
      (w_held w) (w_proc w) (w_env w)) /\ upto_zero name = upto_zero (p_name p) /\
    length cp = n /\ NoDup cp /\ (forall u, u ∈ cp -> u ∈ l) /\
    (forall i u e, cp !! i = Some u -> upage (k_mem k) (p_pgdir p) i = Some e ->
       mapping m' d (4096 * Z.of_nat i) = Some (child_pte e u) /\ m_page m' !! u = m_page (k_mem k) !! frame_of e) /\
    (forall va, 4096 * Z.of_nat n <= va < KERNBASE -> mapping m' d va = None) /\
    (forall va, mapping m' (p_pgdir p) va = mapping (k_mem k) (p_pgdir p) va) /\
    (forall u, u ∉ v :: l -> m_page m' !! u = m_page (k_mem k) !! u) /\
    kmem_ok m' l' /\ l' `suffix_of` l /\ (forall u, u ∈ d :: cp -> u ∉ l') /\ same_pool (k_mem k) m' /\
    (forall f x, k_ftable k !! f = Some x -> fd_count (p_ofile p) f = 0 \/ 0 <= f_ref x /\ f_ref x + Z.of_nat NOFILE < 2 ^ 31 ->
       fs' !! f = Some (x <| f_ref := f_ref x + fd_count (p_ofile p) f |>)) /\ length fs' = length (k_ftable k) /\
    (forall c x, k_icache k !! c = Some x ->
       ics' !! c = Some (if decide (p_cwd p = Some c) then x <| i_ref := i32 (i_ref x + 1) |> else x)) /\ length ics' = length (k_icache k).
Proof.
  intros [[Hpr Hme] Hst Hlen Hnp Hfree Hlk Hdata Hmem Hpages [Hof Hos] Hfs [cwd Hcwd] [Hsn Hpn]]. cbv zeta.
  assert (me <> np) as Hne.
  { intros ->. destruct Hfree as (q & Hq & Hu & _). congruence. }
  destruct (safecopy_text 15 (p_name slot) (p_name p)) as (name & Hname & _ & Htext); [lia|done|].
  set (w1 := pw w (alter (embryo (k_nextpid (w_k w)) v) np (k_ptable (w_k w))) (i32 (k_nextpid (w_k w) + 1))
    ((k_mem (w_k w)) <| m_freelist := ptr l |>) (k_ftable (w_k w)) (k_icache (w_k w)) (w_held w)).
  destruct (copyuvm_run w1 l (p_pgdir p) (p_sz p)) as (d & m' & cp & l' & E & Hcop & Hcp & Hnd & Hsub & Hpg & Hup & Hpar & Hfr).
  { apply Hlk. set_solver. }
  { exact Hdata. }
  { by apply parent_take with (v := v). }
  { done. }
  destruct (mem_only_copyuvm _ _ _ _ _ E) as (m2 & E2 & Hpool). apply (f_equal (fun w => k_mem (w_k w))) in E2. cbn in E2. subst m2.
  pose proof (fork_run w me np p slot v d (k_mem (w_k w)) l (k_nextpid (w_k w)) (k_ptable (w_k w)) (k_ftable (w_k w))
    (k_icache (w_k w)) (w_held w) name cwd Hne Hme Hnp Hcwd Hlk Hof Hos Hfs Hname Hpr Hlen Hfree (vm_kmem _ _ _ (par_vm _ _ _ _ Hmem)) m' E) as Ef.
  rewrite pw_id in Ef. eexists m', _, _, d, cp, l', name. split; [exact Ef|]. split; [done|]. split; [done|]. split; [done|]. split; [done|].
  split; [exact Hpg|]. split; [exact Hup|]. split; [exact Hpar|]. split; [intros u [_ Hu]%not_elem_of_cons; by apply Hfr|].
  split; [apply Hcop|]. split; [apply Hcop|]. split; [|split; [exact Hpool|]].
  { intros u [->|Hu]%elem_of_cons; [apply Hcop|]. by destruct (cp_fresh _ _ _ _ _ _ _ Hcop u Hu) as (_ & ? & _). }
  split; [|split; [apply length_dups|split; [|by rewrite length_alter]]].
  - intros f x Hx [H0|[H0 Hb]]; [by apply dups_other|]. apply dups_lookup; [done|done|by rewrite Hof].
  - intros c x Hx. rewrite list_lookup_alter, Hx, Hcwd. case_decide as H1; case_decide as H2; cbn; simplify_eq; try done. by rewrite Hx.
Qed.

(** A process with one page, file 0 open twice and inode 0 as its directory. *)
Definition demo_forker (pgdir : Z) : proc :=
  proc0 <| p_state := RUNNING |> <| p_pid := 1 |> <| p_pgdir := pgdir |> <| p_sz := 4096 |>
    <| p_ofile := [Some O; Some O] ++ replicate 14 None |> <| p_cwd := Some O |> <| p_name := [115; 104] ++ replicate 14 0 |>.

Definition demo_forking (m : kmem) (pgdir : Z) : world :=
  World (kstate0 <| k_mem := m |> <| k_ptable := demo_forker pgdir :: replicate 63 proc0 |> <| k_nextpid := 2 |>
    <| k_ftable := [file0 <| f_ref := 2 |>] |> <| k_icache := [inode0 <| i_ref := 1 |>] |>) [] (Some O) [].

Lemma demo_can_fork m l pgdir v : parent_ok m (v :: l) pgdir 1 -> data_ok m -> 69 <= Z.of_nat (length l) ->
  can_fork (demo_forking m pgdir) 0 1 (demo_forker pgdir) proc0 v l.
Proof.
  intros Hp Hd Hl. constructor; try done.
  - exists proc0. split; [done|]. split; [done|]. intros j q Hj Hq. assert (j = O) as -> by lia. by injection Hq as <-.
  - intros lk _. apply not_elem_of_nil.
  - unfold kvm_pages. change (Z.to_nat ((p_sz (demo_forker pgdir) + PGSIZE - 1) / PGSIZE)) with 1%nat. lia.
  - intros f Hf. assert (f = O) as -> by (cbn in Hf; set_solver). eexists. split; [reflexivity|]. split; vm_compute; (discriminate || reflexivity).
  - split; [done|]. cbn. set_solver.
Qed.

Lemma fork_child_witness : exists w w', fork w = Ok 2 w' /\
  p_parent <$> k_ptable (w_k w') !! 1%nat = Some (Some O) /\ f_ref <$> k_ftable (w_k w') !! 0%nat = Some 4.
Proof.
  destruct demo_parent as (m & [|v l] & pgdir & Hp & Hd & Hl & _); [cbn in Hl; lia|].
  destruct (fork_child _ _ _ _ _ _ _ (demo_can_fork m l pgdir v Hp Hd ltac:(cbn in Hl; lia)))
    as (m' & fs' & ics' & d & cp & l' & name & E & _ & _ & _ & _ & _ & _ & _ & _ & _ & _ & _ & _ & Hf & _).
  eexists (demo_forking m pgdir), _. split; [exact E|]. split; [reflexivity|]. cbn [w_k k_ftable setter kstate_set].
  rewrite (Hf O (file0 <| f_ref := 2 |>)); [reflexivity|reflexivity|right; split; vm_compute; (discriminate || reflexivity)].
Defined.

(** ** The scheduler *)

(** A process that can be switched to has a kernel stack and a page directory. *)
Definition ptable_ok (ps : list proc) : Prop :=
  length ps = NPROC /\ forall i p, ps !! i = Some p -> p_state p = RUNNABLE -> p_kstack p <> 0 /\ p_pgdir p <> 0.

(** A turn on the CPU: the thread that runs until the next switch back to the
    scheduler leaves the table sound and the other processes that are ready to
    run as they are. *)
Definition good_turn (f : kstate -> kstate) : Prop := forall k, ptable_ok (k_ptable k) ->
  ptable_ok (k_ptable (f k)) /\
  forall j p, k_ptable k !! j = Some p -> p_state p = RUNNABLE ->
    exists p', k_ptable (f k) !! j = Some p' /\ p_state p' = RUNNABLE.

(** The body of the scheduler's loop. *)
Definition sched_body (i : nat) : M unit :=
  p ← get_proc i;
  when (bool_decide (p_state p = RUNNABLE))
    (set_cpu_proc (Some i) ;;
     switchuvm (Some i) ;;
     upd_proc i (fun p => p <| p_state := RUNNING |>) ;;
     swtch ;;
     set_cpu_proc None).

Definition start (i : nat) (ps : list proc) : list proc := alter (fun p => p <| p_state := RUNNING |>) i ps.

Lemma start_ok i ps : ptable_ok ps -> ptable_ok (start i ps).
Proof.
  intros [Hl H]. split; [unfold start; by rewrite length_alter|]. intros j p Hj Hs. unfold start in Hj.
  rewrite list_lookup_alter in Hj. case_decide; [|by eapply H]. subst. destruct (ps !! j) as [q|]; [|done].
  injection Hj as <-. done.
Qed.

Lemma start_other i j ps p : i <> j -> ps !! j = Some p -> start i ps !! j = Some p.
Proof. intros Hij Hp. unfold start. by rewrite list_lookup_alter_ne. Qed.

Lemma sched_skip i w p : k_ptable (w_k w) !! i = Some p -> p_state p <> RUNNABLE -> sched_body i w = Ok tt w.
Proof. intros Hp Hs. unfold sched_body. run (by apply get_proc_run). by rewrite bool_decide_eq_false_2. Qed.

(** The switch to process [i]. *)
Lemma sched_switch i k h pr e p : ptable_ok (k_ptable k) -> k_ptable k !! i = Some p -> p_state p = RUNNABLE ->
  sched_body i (World k h pr e) =
  (swtch ;; set_cpu_proc None) (World (k <| k_ptable ::= start i |>) h (Some i) e).
Proof.
  intros Hok Hp Hs. destruct (proj2 Hok _ _ Hp Hs) as [Hk Hg]. unfold sched_body. run (by apply get_proc_run).
  rewrite bool_decide_eq_true_2 by done. cbn [when]. run reflexivity.
  assert (switchuvm (Some i) (World k h (Some i) e) = Ok tt (World k h (Some i) e)) as E.
  { unfold switchuvm. run (by apply get_proc_run). rewrite (proj2 (Z.eqb_neq _ 0)) by done. by rewrite (proj2 (Z.eqb_neq _ 0)) by done. }
  run (exact E). run reflexivity. done.
Qed.

Lemma sched_reaches i h : forall r s k pr env p,
  (s <= i < s + r)%nat -> (s + r <= NPROC)%nat -> ptable_ok (k_ptable k) -> k_ptable k !! i = Some p -> p_state p = RUNNABLE ->
  Forall good_turn env -> (i - s <= length env)%nat ->
  exists n w', (n <= i - s)%nat /\ for_each (seq s r) sched_body (World k h pr (take n env)) = Wait w' /\
    w_proc w' = Some i /\ w_held w' = h /\ p_state <$> k_ptable (w_k w') !! i = Some RUNNING.
Proof.
  induction r as [|r IH]; intros s k pr env p Hs Hr Hok Hp Hst Hgood Hlen; [lia|]. cbn [seq for_each].
  destruct (decide (s = i)) as [->|Hsi].
  - exists O, (World (k <| k_ptable ::= start i |>) h (Some i) []). split; [lia|]. split; [|split; [done|split; [done|]]].
    + unfold mbind, M_bind at 1. by erewrite sched_switch.
    + cbn. unfold start. by rewrite list_lookup_alter, decide_True, Hp.
  - destruct (lookup_lt_is_Some_2 (k_ptable k) s) as [q Hq]; [destruct Hok; lia|].
    destruct (decide (p_state q = RUNNABLE)) as [Hqs|Hqs].
    + destruct env as [|f env]; [cbn in Hlen; lia|]. apply Forall_cons_1 in Hgood as [Hf Hgood].
      destruct (Hf (k <| k_ptable ::= start s |>)) as [Hok' Hkeep]; [by apply start_ok|].
      destruct (Hkeep i p) as (p' & Hp' & Hst'); [by apply start_other|done|].
      destruct (IH (S s) (f (k <| k_ptable ::= start s |>)) None env p') as (n & w' & Hn & E & Hrest);
        [lia|lia|done|done|done|done|cbn in Hlen; lia|].
      exists (S n), w'. split; [lia|]. split; [|done]. cbn [take]. erewrite bind_run; [exact E|]. by erewrite sched_switch.
    + destruct (IH (S s) k pr env p) as (n & w' & Hn & E & Hrest); [lia|lia|done|done|done|done|lia|].
      exists n, w'. split; [lia|]. split; [|done]. erewrite bind_run; [exact E|]. by eapply sched_skip.
Qed.

(** C6. No process that is ready to run is passed over.  In a round of the scheduler
    every runnable process gets the CPU, after at most as many other processes as
    there are slots before its own: when these have had their turns, the scheduler
    is in the switch to it, with [ptable.lock] held and the process running. *)
Theorem scheduler_round_runs w i p :
  ptable_ok (k_ptable (w_k w)) -> w_held w = [] -> k_ptable (w_k w) !! i = Some p -> p_state p = RUNNABLE ->
  Forall good_turn (w_env w) -> (i <= length (w_env w))%nat ->
  exists n w', (n <= i)%nat /\ scheduler_round (w <| w_env ::= take n |>) = Wait w' /\
    w_proc w' = Some i /\ w_held w' = [Lptable] /\ p_state <$> k_ptable (w_k w') !! i = Some RUNNING.
Proof.
  intros Hok Hh Hp Hst Hgood Hlen. destruct w as [k h pr env]. cbn in *. subst.
  apply lookup_lt_Some in Hp as Hi. rewrite (proj1 Hok) in Hi.
  destruct (sched_reaches i [Lptable] NPROC O k pr env p) as (n & w' & Hn & E & Hrest); [lia|lia|done..|lia|].
  exists n, w'. split; [lia|]. split; [|done]. unfold scheduler_round.
  erewrite bind_run by (by apply acquire_run, not_elem_of_nil).
  transitivity ((for_each procs sched_body ;; release Lptable) (World k [Lptable] pr (take n env))); [done|].
  unfold mbind, M_bind, procs. by rewrite E.
Qed.

(** The turn of a process that goes to sleep at once. *)
Definition demo_turn (k : kstate) : kstate :=
  k <| k_ptable ::= map (fun p => if bool_decide (p_state p = RUNNING) then p <| p_state := SLEEPING |> else p) |>.

Lemma demo_turn_good : good_turn demo_turn.
Proof.
  intros k [Hl Hok]. unfold demo_turn. cbn. split; [split; [by rewrite length_map|]|].
  - intros i p Hp Hs. rewrite list_lookup_fmap in Hp. apply fmap_Some in Hp as (q & Hq & ->).
    case_bool_decide as Hr; [done|]. by eapply Hok.
  - intros j p Hj Hs. rewrite list_lookup_fmap, Hj. eexists. split; [reflexivity|]. cbn. by rewrite Hs.
Qed.

Definition demo_ready : proc := proc0 <| p_state := RUNNABLE |> <| p_kstack := 1 |> <| p_pgdir := 1 |>.

Definition demo_cpu : world :=
  World (kstate0 <| k_ptable := [demo_ready; proc0; demo_ready] ++ replicate 61 proc0 |>) [] None [demo_turn; demo_turn].

Lemma scheduler_round_runs_witness : exists n w', (n <= 2)%nat /\
  scheduler_round (demo_cpu <| w_env ::= take n |>) = Wait w' /\ w_proc w' = Some 2%nat.
Proof.
  destruct (scheduler_round_runs demo_cpu 2 demo_ready) as (n & w' & Hn & E & Hp & _).
  - split; [reflexivity|]. intros i p Hp Hs. cbn in Hp. destruct i as [|[|[|i]]]; try (injection Hp as <-; done).
    change (replicate 61 proc0 !! i = Some p) in Hp. apply lookup_replicate in Hp as [-> _]. done.
  - reflexivity.
  - reflexivity.
  - reflexivity.
  - apply Forall_cons_2; [apply demo_turn_good|]. apply Forall_cons_2; [apply demo_turn_good|]. apply Forall_nil_2.
  - cbn. lia.
  - exists n, w'. split; [exact Hn|]. split; [exact E|exact Hp].
Defined.
