(* ===== verification/Exec.v ===== *)
(** Loading a program (exec.c).

    [path] and the elements of [argv] are C strings of the caller, given by
    their characters. *)

From S2P Require Import Prelude Kernel Sched Cons Str Bio Log Inode Fs Kalloc Vm.

(** ** elf.h *)

Definition ELF_MAGIC : Z := 1179403647.
Definition ELF_PROG_LOAD : Z := 1.
Definition SIZEOF_ELFHDR : Z := 52.
Definition SIZEOF_PROGHDR : Z := 32.

(** [struct elfhdr], the fields the loader reads. *)
Record elfhdr := Elf { e_magic : Z; e_entry : Z; e_phoff : Z; e_phnum : Z }.
Definition elf_decode (d : list Z) : elfhdr :=
  Elf (get32 d 0) (get32 d 24) (get32 d 28) (get16 d 44).

(** [struct proghdr], the fields the loader reads. *)
Record proghdr := Ph { ph_type : Z; ph_off : Z; ph_vaddr : Z; ph_filesz : Z; ph_memsz : Z }.
Definition ph_decode (d : list Z) : proghdr :=
  Ph (get32 d 0) (get32 d 4) (get32 d 8) (get32 d 16) (get32 d 20).

(** ** exec *)

(** The label [bad]: [pgdir] and [ip] as they are when it is reached. *)
Definition exec_bad (pgdir : option Z) (ip : option nat) : M Z :=
  (match pgdir with Some pg => freevm pg | None => mret tt end) ;;
  (match ip with Some ip => iunlockput ip ;; end_op | None => mret tt end) ;;
  mret (-1).

(** The loop over the program headers; [None] is [goto bad]. *)
Fixpoint exec_load (pgdir : Z) (ip : nat) (n : nat) (off sz : Z) : M (option Z) :=
  match n with
  | O => mret (Some sz)
  | S n =>
      r ← readi ip (u32 off) SIZEOF_PROGHDR;
      if negb (r.1 =? SIZEOF_PROGHDR) then mret None else
      let ph := ph_decode r.2 in
      if negb (ph_type ph =? ELF_PROG_LOAD) then exec_load pgdir ip n (i32 (off + SIZEOF_PROGHDR)) sz else
      if ph_memsz ph <? ph_filesz ph then mret None else
      if u32 (ph_vaddr ph + ph_memsz ph) <? ph_vaddr ph then mret None else
      sz ← allocuvm pgdir sz (u32 (ph_vaddr ph + ph_memsz ph));
      if sz =? 0 then mret None else
      if negb (ph_vaddr ph mod PGSIZE =? 0) then mret None else
      r ← loaduvm pgdir (ph_vaddr ph) ip (ph_off ph) (ph_filesz ph);
      if r <? 0 then mret None else
      exec_load pgdir ip n (i32 (off + SIZEOF_PROGHDR)) sz
  end.

(** The loop that pushes the argument strings: [ustack[3..]] and [sp]. *)
Fixpoint exec_push (pgdir : Z) (argv : list (list Z)) (argc sp : Z) (args : list Z) : M (option (list Z * Z)) :=
  match argv with
  | [] => mret (Some (args, sp))
  | s :: argv =>
      if MAXARG <=? argc then mret None else
      let len := Z.of_nat (length s) + 1 in
      let sp := Z.ldiff (u32 (sp - len)) 3 in
      r ← copyout pgdir sp (s ++ [0]) len;
      if r <? 0 then mret None else
      exec_push pgdir argv (argc + 1) sp (args ++ [sp])
  end.

(** [last], the part of [path] after its last slash. *)
Fixpoint path_last (s last : list Z) : list Z :=
  match s with
  | [] => last
  | c :: s => path_last s (if c =? slash then s else last)
  end.

(** [ustack], from the fake return address to the null that ends [argv]. *)
Definition ustack (args : list Z) (sp : Z) : list Z :=
  let argc := Z.of_nat (length args) in
  [4294967295; argc; u32 (sp - (argc + 1) * 4)] ++ args ++ [0].

Definition exec (path : list Z) (argv : list (list Z)) : M Z :=
  me ← curproc;
  begin_op ;;
  oip ← namei path;
  match oip with
  | None =>
      end_op ;;
      cprintf "exec: fail
" [] ;;
      mret (-1)
  | Some ip =>
      ilock (Some ip) ;;
      r ← readi ip 0 SIZEOF_ELFHDR;
      if negb (r.1 =? SIZEOF_ELFHDR) then exec_bad None (Some ip) else
      let elf := elf_decode r.2 in
      if negb (e_magic elf =? ELF_MAGIC) then exec_bad None (Some ip) else
      opg ← setupkvm;
      match opg with
      | None => exec_bad None (Some ip)
      | Some pgdir =>
          osz ← exec_load pgdir ip (Z.to_nat (e_phnum elf)) (i32 (e_phoff elf)) 0;
          match osz with
          | None => exec_bad (Some pgdir) (Some ip)
          | Some sz =>
              iunlockput ip ;;
              end_op ;;
              let sz := PGROUNDUP sz in
              sz ← allocuvm pgdir sz (u32 (sz + 2 * PGSIZE));
              if sz =? 0 then exec_bad (Some pgdir) None else
              clearpteu pgdir (u32 (sz - 2 * PGSIZE)) ;;
              oargs ← exec_push pgdir argv 0 sz [];
              match oargs with
              | None => exec_bad (Some pgdir) None
              | Some (args, sp) =>
                  let us := ustack args sp in
                  let size := 4 * Z.of_nat (length us) in
                  let sp := u32 (sp - size) in
                  r ← copyout pgdir sp (concat (map (le_bytes 4) us)) size;
                  if r <? 0 then exec_bad (Some pgdir) None else
                  c ← get_proc me;
                  name ← deref (Kstring.safestrcpy (p_name c) (path_last path path ++ [0]) 16);
                  upd_proc me (fun p => p <| p_name := name |>) ;;
                  let oldpgdir := p_pgdir c in
                  upd_proc me (fun p => p <| p_pgdir := pgdir |>) ;;
                  upd_proc me (fun p => p <| p_sz := sz |>) ;;
                  upd_proc me (fun p => p <| p_tf ::= fun t => t <| tf_eip := e_entry elf |>
                                                                  <| tf_esp := sp |> |>) ;;
                  switchuvm (Some me) ;;
                  freevm oldpgdir ;;
                  mret 0
              end
          end
      end
  end.
