(* ===== verification/Args.v ===== *)
(** Fetching system call arguments (the first half of syscall.c) and the
    system calls of sysproc.c.

    A pointer result [*pp] is returned next to the result; failure, the result
    -1, is [None]. *)

From S2P Require Import Prelude Kernel Sched Cons Str Bio Log Inode Fs Kalloc Vm VmSpec VmProc Umem File Proc.

(** ** syscall.c: arguments *)

Definition fetchint (addr : Z) : M (option Z) :=
  sz ← my p_sz;
  if (sz <=? addr) || (sz <? u32 (addr + 4)) then mret None else
  l ← user_loads addr 4;
  mret (Some (i32 (le_val l))).

(** The string at [addr]: its address and its length. *)
Fixpoint fetchstr_from (n : nat) (s len : Z) : M (option Z) :=
  match n with
  | O => mret None
  | S n =>
      c ← user_load s;
      if c =? 0 then mret (Some len) else fetchstr_from n (s + 1) (len + 1)
  end.

Definition fetchstr (addr : Z) : M (option (Z * Z)) :=
  sz ← my p_sz;
  if sz <=? addr then mret None else
  r ← fetchstr_from (Z.to_nat (sz - addr)) addr 0;
  mret (pair addr <$> r).

Definition argint (n : Z) : M (option Z) :=
  tf ← my p_tf;
  fetchint (u32 (tf_esp tf + 4 + 4 * n)).

Definition argptr (n size : Z) : M (option Z) :=
  sz ← my p_sz;
  o ← argint n;
  mret (match o with
        | None => None
        | Some i =>
            if (size <? 0) || (sz <=? u32 i) || (sz <? u32 (u32 i + size)) then None
            else Some (u32 i)
        end).

Definition argstr (n : Z) : M (option (Z * Z)) :=
  o ← argint n;
  match o with
  | None => mret None
  | Some addr => fetchstr (u32 addr)
  end.

(** The characters of a string that [argstr] has found. *)
Definition user_str (s : Z * Z) : M (list Z) := user_loads s.1 (Z.to_nat s.2).

(** ** sysproc.c *)

Definition sys_answer : M Z := mret 42.
Definition sys_pscnt : M Z := process_count.
Definition sys_fork : M Z := fork.
Definition sys_exit : M Z := exit.
Definition sys_wait : M Z := wait.

Definition sys_kill : M Z :=
  o ← argint 0;
  match o with
  | None => mret (-1)
  | Some pid => kill pid
  end.

Definition sys_getpid : M Z := my p_pid.

Definition sys_getppid : M Z :=
  o ← my p_parent;
  i ← deref o;
  p ← get_proc i;
  mret (p_pid p).

Definition sys_sbrk : M Z :=
  o ← argint 0;
  match o with
  | None => mret (-1)
  | Some n =>
      addr ← my p_sz;
      r ← growproc n;
      mret (if r <? 0 then -1 else i32 addr)
  end.

(** [ticks - ticks0 < n] compares as unsigned. *)
Definition sys_sleep : M Z :=
  o ← argint 0;
  match o with
  | None => mret (-1)
  | Some n =>
      acquire Ltickslock ;;
      ticks0 ← get k_ticks;
      loop_sleep (fun _ : unit =>
        ticks ← get k_ticks;
        if u32 (ticks - ticks0) <? u32 n then
          killed ← my p_killed;
          if (killed : bool) then release Ltickslock ;; mret (inr (-1))
          else sleep Cticks (Some Ltickslock) ;; mret (inl tt)
        else release Ltickslock ;; mret (inr 0)) tt
  end.

Definition sys_uptime : M Z :=
  acquire Ltickslock ;;
  xticks ← get k_ticks;
  release Ltickslock ;;
  mret (i32 xticks).

Definition sys_trace : M Z :=
  o ← argint 0;
  match o with
  | None => mret (-1)
  | Some v => modify (fun k => k <| k_trace := v |>) ;; mret 0
  end.

(** The present user pages of one page table. *)
Definition pgcnt_table (pgtab : Z) : M Z :=
  d ← get_page pgtab;
  let flag := Z.lor PTE_P PTE_U in
  mret (Z.of_nat (length (filter (fun j => Z.land (get32 d (4 * j)) flag = flag)
                                 (seq 0 (Z.to_nat NPDENTRIES))))).

Fixpoint pgcnt_from (pgdir : Z) (l : list nat) (cnt : Z) : M Z :=
  match l with
  | [] => mret cnt
  | i :: l =>
      e ← read_pte (pgdir, i);
      n ← (if hasf e PTE_P then pgcnt_table (P2V (PTE_ADDR e)) else mret 0);
      pgcnt_from pgdir l (i32 (cnt + n))
  end.

Definition sys_pgcnt : M Z :=
  pgdir ← my p_pgdir;
  pgcnt_from pgdir (seq 0 (Z.to_nat NPDENTRIES)) 0.

(** ** The kernel trusts no argument *)

Section Args.
Context (w : world) (i : nat) (p : proc) (Hrun : running w i p).
Let m := k_mem (w_k w).
Context (Hus : uspace m (p_pgdir p) (p_sz p)).

(** The bytes of user memory from [va]. *)
Definition ubytes (va : Z) (bs : list Z) : Prop :=
  forall k b, bs !! k = Some b -> ubyte m (p_pgdir p) (va + Z.of_nat k) = Some b.

Lemma user_loads_run n : forall va,
  0 <= va -> va + Z.of_nat n <= p_sz p ->
  exists bs, user_loads va n w = Ok bs w /\ length bs = n /\ ubytes va bs.
Proof.
  induction n as [|n IH]; intros va Hva Hle.
  - exists []. split; [done|]. split; [done|]. intros k b Hk. done.
  - destruct (user_load_run w i p (p_sz p) va Hrun Hus) as (b & Hb & Eb); [lia|].
    destruct (IH (va + 1)) as (bs & Ebs & Hl & Hbs); [lia..|].
    exists (b :: bs). cbn [user_loads]. erewrite bind_run by exact Eb. erewrite bind_run by exact Ebs.
    split; [done|]. split; [cbn; lia|]. intros [|k] x Hx; cbn in Hx.
    + simplify_eq. by rewrite Z.add_0_r.
    + apply Hbs in Hx. rewrite <- Hx. f_equal. lia.
Qed.

(** An integer is fetched exactly when its four bytes are in the process. *)
Lemma fetchint_run addr :
  is_u32 addr ->
  exists r, fetchint addr w = Ok r w /\
    (r = None <-> p_sz p < addr + 4) /\
    (forall v, r = Some v -> exists bs, length bs = 4%nat /\ ubytes addr bs /\ v = i32 (le_val bs)).
Proof.
  intros Ha. pose proof (us_size _ _ _ Hus) as Hsz. unfold KERNBASE, is_u32 in *. unfold fetchint.
  erewrite bind_run by (by eapply my_run).
  destruct (Z.leb_spec (p_sz p) addr) as [H1|H1]; cbn [orb].
  - exists None. split; [done|]. split; [|done]. split; [lia|done].
  - rewrite u32_id by (unfold is_u32; lia). destruct (Z.ltb_spec (p_sz p) (addr + 4)) as [H2|H2].
    + exists None. split; [done|]. split; [|done]. split; [lia|done].
    + destruct (user_loads_run 4 addr) as (bs & E & Hl & Hb); [lia..|].
      erewrite bind_run by exact E. eexists. split; [done|]. split; [split; [done|lia]|].
      intros v [= <-]. by exists bs.
Qed.

Lemma argint_run n :
  exists r, argint n w = Ok r w /\ (forall v, r = Some v -> is_i32 v).
Proof.
  unfold argint. erewrite bind_run by (by eapply my_run).
  destruct (fetchint_run (u32 (tf_esp (p_tf p) + 4 + 4 * n)) (u32_range _)) as (r & E & _ & H).
  exists r. split; [done|]. intros v Hv. destruct (H v Hv) as (bs & _ & _ & ->). unfold is_i32, i32. lia.
Qed.

(** C11. Whatever the process put on its stack, [argptr] neither faults nor
    panics, and it accepts a pointer only when the whole block of [size] bytes
    lies inside the memory of the process: 32-bit overflow cannot get a kernel
    address through. *)
Theorem argptr_safe n size :
  is_i32 size ->
  exists r, argptr n size w = Ok r w /\
    forall q, r = Some q -> 0 <= size /\ 0 <= q < p_sz p /\ q + size <= p_sz p /\ p_sz p <= KERNBASE /\
      exists v, argint n w = Ok (Some v) w /\ q = u32 v.
Proof.
  intros Hs. unfold argptr. erewrite bind_run by (by eapply my_run).
  destruct (argint_run n) as (o & E & Ho). erewrite bind_run by exact E.
  eexists. split; [done|]. intros q Hq. destruct o as [v|]; [|done].
  pose proof (us_size _ _ _ Hus) as Hsz. unfold KERNBASE, is_i32 in *.
  pose proof (u32_range v) as Hv. unfold is_u32 in Hv.
  destruct (Z.ltb_spec size 0) as [|H0]; [done|].
  destruct (Z.leb_spec (p_sz p) (u32 v)) as [|H1]; [done|]. cbn [orb] in Hq.
  rewrite (u32_id (u32 v + size)) in Hq by (unfold is_u32; lia).
  destruct (Z.ltb_spec (p_sz p) (u32 v + size)) as [|H2]; [done|].
  injection Hq as <-. repeat (split; [lia|]). by exists v.
Qed.

(** [len] characters other than the terminator, from [s]. *)
Definition unonzero (s len : Z) : Prop :=
  forall k, 0 <= k < len -> exists c, ubyte m (p_pgdir p) (s + k) = Some c /\ c <> 0.

Lemma unonzero_cons s len c :
  ubyte m (p_pgdir p) s = Some c -> c <> 0 -> unonzero (s + 1) (len - 1) -> unonzero s len.
Proof.
  intros Hc H0 H k Hk. destruct (decide (k = 0)) as [->|]; [exists c; by rewrite Z.add_0_r|].
  destruct (H (k - 1)) as (x & Hx & Hx0); [lia|]. exists x. split; [|done]. rewrite <- Hx. f_equal. lia.
Qed.

Lemma fetchstr_from_run n : forall s len,
  0 <= s -> s + Z.of_nat n <= p_sz p ->
  exists r, fetchstr_from n s len w = Ok r w /\
    match r with
    | Some r => len <= r < len + Z.of_nat n /\ ubyte m (p_pgdir p) (s + (r - len)) = Some 0 /\ unonzero s (r - len)
    | None => unonzero s (Z.of_nat n)
    end.
Proof.
  induction n as [|n IH]; intros s len Hs Hle; cbn [fetchstr_from].
  - exists None. split; [done|]. intros k Hk. lia.
  - destruct (user_load_run w i p (p_sz p) s Hrun Hus) as (c & Hc & Ec); [lia|].
    erewrite bind_run by exact Ec. destruct (Z.eqb_spec c 0) as [->|Hc0].
    + exists (Some len). split; [done|]. split; [lia|]. rewrite Z.sub_diag, Z.add_0_r. split; [done|].
      intros k Hk. lia.
    + destruct (IH (s + 1) (len + 1)) as (r & Er & Hr); [lia..|]. exists r. split; [exact Er|].
      destruct r as [r|].
      * destruct Hr as (Hr1 & Hr2 & Hr3). split; [lia|].
        split; [by replace (s + (r - len)) with (s + 1 + (r - (len + 1))) by lia|].
        eapply unonzero_cons; [done..|]. by replace (r - len - 1) with (r - (len + 1)) by lia.
      * eapply unonzero_cons; [done..|]. by replace (Z.of_nat (S n) - 1) with (Z.of_nat n) by lia.
Qed.

(** [argstr] neither faults nor panics; when it succeeds it returns the
    address and the length of a string of non-null characters that lies inside
    the process with its terminator, and when it fails there is none at the
    address given. *)
Theorem argstr_safe n :
  exists r, argstr n w = Ok r w /\
    match r with
    | Some (s, len) => 0 <= s /\ 0 <= len /\ s + len < p_sz p /\ ubyte m (p_pgdir p) (s + len) = Some 0 /\
        unonzero s len
    | None => argint n w = Ok None w \/
        exists v, argint n w = Ok (Some v) w /\ unonzero (u32 v) (p_sz p - u32 v)
    end.
Proof.
  unfold argstr. destruct (argint_run n) as (o & E & _). erewrite bind_run by exact E.
  destruct o as [v|]; [|exists None; by split; [|left]].
  unfold fetchstr. erewrite bind_run by (by eapply my_run).
  pose proof (u32_range v) as Hv. unfold is_u32 in Hv.
  destruct (Z.leb_spec (p_sz p) (u32 v)) as [H1|H1].
  { exists None. split; [done|]. right. exists v. split; [done|]. intros k Hk. lia. }
  destruct (fetchstr_from_run (Z.to_nat (p_sz p - u32 v)) (u32 v) 0) as (r & Er & Hr); [lia..|].
  erewrite bind_run by exact Er. eexists. split; [done|]. destruct r as [r|]; cbn.
  - destruct Hr as (Hr1 & Hr2 & Hr3). rewrite Z.sub_0_r in *. repeat (split; [done || lia|]). done.
  - right. exists v. split; [done|]. by rewrite Z2Nat.id in Hr by lia.
Qed.

End Args.

Lemma argptr_safe_witness :
  exists w p r, argptr 0 8 w = Ok r w /\
    forall q, r = Some q -> 0 <= 8 /\ 0 <= q < p_sz p /\ q + 8 <= p_sz p /\ p_sz p <= KERNBASE /\
      exists v, argint 0 w = Ok (Some v) w /\ q = u32 v.
Proof.
  destruct demo_uspace as (m & pg & Hu). set (p := demo_process pg 4096 4000).
  destruct (argptr_safe (demo_run m p) O p (demo_running m p) Hu 0 8) as (r & H); [done|].
  by exists (demo_run m p), p, r.
Defined.

Lemma argstr_safe_witness :
  exists w p r, argstr 0 w = Ok r w /\
    match r with
    | Some (s, len) => 0 <= s /\ 0 <= len /\ s + len < p_sz p /\
        ubyte (k_mem (w_k w)) (p_pgdir p) (s + len) = Some 0 /\ unonzero w p s len
    | None => argint 0 w = Ok None w \/
        exists v, argint 0 w = Ok (Some v) w /\ unonzero w p (u32 v) (p_sz p - u32 v)
    end.
Proof.
  destruct demo_uspace as (m & pg & Hu). set (p := demo_process pg 4096 4000).
  destruct (argstr_safe (demo_run m p) O p (demo_running m p) Hu 0) as (r & H).
  by exists (demo_run m p), p, r.
Defined.
