(* ===== verification/PipeSpec.v ===== *)
(** Pipes are queues of bytes: [pipewrite] appends, [piperead] takes from the
    front, whatever the values of the free-running counters. *)

From S2P Require Import Prelude Ring Kernel Sched Kalloc Vm VmSpec VmProc Umem File Args.

(** The pipe [x] holds the queue [q]. *)
Definition pipe_rep (x : pipe) (q : list Z) : Prop :=
  ring PIPESIZE (pi_data x) (pi_nread x) q /\
  pi_nwrite x = u32 (pi_nread x + Z.of_nat (length q)) /\ is_u32 (pi_nread x).

Lemma pipe_len x q : pipe_rep x q -> Z.of_nat (length q) <= 512.
Proof. intros (H & _). by apply ring_length in H. Qed.

Lemma pipe_full x q :
  pipe_rep x q -> (pi_nwrite x =? u32 (pi_nread x + PIPESIZE)) = (Z.of_nat (length q) =? PIPESIZE).
Proof.
  intros H. pose proof (pipe_len _ _ H) as Hl. destruct H as (_ & -> & _).
  apply eq_iff_eq_true. rewrite !Z.eqb_eq. split; [|by intros ->].
  intros E. unfold u32, PIPESIZE in *. lia.
Qed.

Lemma pipe_empty x q : pipe_rep x q -> (pi_nread x =? pi_nwrite x) = bool_decide (q = []).
Proof.
  intros H. pose proof (pipe_len _ _ H) as Hl. destruct H as (_ & -> & Hu). unfold is_u32 in Hu. destruct q as [|b q].
  - rewrite Z.add_0_r, u32_id by done. rewrite bool_decide_eq_true_2 by done. apply Z.eqb_refl.
  - rewrite bool_decide_eq_false_2 by done. apply Z.eqb_neq. unfold u32. cbn in *. lia.
Qed.

(** [p->data[p->nwrite++ % PIPESIZE] = c] and [c = p->data[p->nread++ % PIPESIZE]]. *)
Definition pipe_push (c : Z) (x : pipe) : pipe :=
  x <| pi_data ::= <[Z.to_nat (pi_nwrite x mod PIPESIZE) := c]> |> <| pi_nwrite ::= fun w => u32 (w + 1) |>.
Definition pipe_pop (x : pipe) : pipe := x <| pi_nread ::= fun r => u32 (r + 1) |>.

Lemma pipe_push_rep c x q : pipe_rep x q -> Z.of_nat (length q) < PIPESIZE -> pipe_rep (pipe_push c x) (q ++ [c]).
Proof.
  intros (Hr & Hw & Hu) Hl. split; [|split]; cbn.
  - rewrite Hw, ring_mod by (destruct Hr as (? & ? & _); done). by apply ring_push.
  - rewrite Hw, u32_add_l, length_app. cbn. f_equal. lia.
  - done.
Qed.

Lemma pipe_pop_rep c x q :
  pipe_rep x (c :: q) -> pi_data x !! Z.to_nat (pi_nread x mod PIPESIZE) = Some c /\ pipe_rep (pipe_pop x) q.
Proof.
  intros (Hr & Hw & Hu). apply ring_pop in Hr as [Hc Hr]. split; [done|]. split; [|split]; cbn.
  - by apply ring_wrap.
  - rewrite Hw, u32_add_l. cbn. f_equal. lia.
  - apply u32_range.
Qed.

(** ** The state *)

Definition with_pipe (p : Z) (x : pipe) (w : world) : world := w <| w_k ::= fun k => k <| k_pipes ::= <[p := x]> |> |>.

Lemma upd_pipe_run p f w x :
  k_pipes (w_k w) !! p = Some x -> upd_pipe p f w = Ok tt (with_pipe p (f x) w).
Proof.
  intros H. assert (alter f p (k_pipes (w_k w)) = <[p := f x]> (k_pipes (w_k w))) as E.
  { apply map_eq. intros q. destruct (decide (q = p)) as [->|Hne].
    - by rewrite lookup_insert_eq, lookup_alter_eq, H.
    - by rewrite lookup_insert_ne, lookup_alter_ne. }
  unfold upd_pipe, modify, with_pipe, setter. cbn. by rewrite E.
Qed.

Lemma with_pipe_twice p x y w : with_pipe p y (with_pipe p x w) = with_pipe p y w.
Proof. unfold with_pipe, setter. cbn. by rewrite insert_insert_eq. Qed.

Lemma with_pipe_id p x w : k_pipes (w_k w) !! p = Some x -> with_pipe p x w = w.
Proof.
  intros H. unfold with_pipe, setter. cbn. rewrite insert_id by done. destruct w as [k]. by destruct k.
Qed.

Section Pipe.
Context (pp : Z) (i : nat) (p : proc).

(** ** Writing *)

(** The wait for room, when there is room. *)
Definition wait_room : M bool :=
  loop_sleep (fun _ : unit =>
    x ← get_pipe pp;
    if pi_nwrite x =? u32 (pi_nread x + PIPESIZE) then
      killed ← my p_killed;
      if negb (pi_readopen x) || killed then
        release (Lpipe pp) ;; mret (inr false)
      else
        wakeup (Cnread pp) ;;
        sleep (Cnwrite pp) (Some (Lpipe pp)) ;;
        mret (inl tt)
    else mret (inr true)) tt.

Lemma wait_room_run w x q :
  k_pipes (w_k w) !! pp = Some x -> pipe_rep x q -> Z.of_nat (length q) < PIPESIZE -> wait_room w = Ok true w.
Proof.
  intros Hx Hq Hl. unfold wait_room, loop_sleep. apply loop_exit.
  erewrite bind_run by (by apply get_pipe_run). rewrite (pipe_full x q Hq).
  by replace (Z.of_nat (length q) =? PIPESIZE) with false by lia.
Qed.

Definition write_byte (addr j : Z) : M (option Z) :=
  ok ← wait_room;
  if negb ok then mret (Some (-1)) else
  c ← user_load (u32 (addr + j));
  upd_pipe pp (pipe_push c) ;;
  mret None.

Lemma write_bytes_run n w x q j addr :
  running w i p -> uspace (k_mem (w_k w)) (p_pgdir p) (p_sz p) ->
  k_pipes (w_k w) !! pp = Some x -> pipe_rep x q ->
  0 <= addr -> addr + Z.of_nat (j + n) <= p_sz p -> Z.of_nat (length q + n) <= PIPESIZE ->
  exists bs x', find_each (map Z.of_nat (seq j n)) (write_byte addr) w = Ok None (with_pipe pp x' w) /\
    pipe_rep x' (q ++ bs) /\ length bs = n /\ ubytes w p (addr + Z.of_nat j) bs /\
    pi_readopen x' = pi_readopen x /\ pi_writeopen x' = pi_writeopen x.
Proof.
  revert w x q j. induction n as [|n IH]; intros w x q j Hr Hu Hx Hq Ha Hle Hroom; cbn [seq map find_each].
  - exists [], x. rewrite with_pipe_id, app_nil_r by done. by repeat split; try apply Hq.
  - pose proof (us_size _ _ _ Hu) as Hsz. unfold KERNBASE in Hsz.
    destruct (user_load_run w i p (p_sz p) (addr + Z.of_nat j) Hr Hu) as (c & Hc & Ec); [lia|].
    assert (pipe_rep (pipe_push c x) (q ++ [c])) as Hq' by (apply pipe_push_rep; [done|lia]).
    destruct (IH (with_pipe pp (pipe_push c x) w) (pipe_push c x) (q ++ [c]) (S j))
      as (bs & x' & E & Hx' & Hl & Hb & Ho1 & Ho2); [done|done|cbn; apply lookup_insert_eq|done|done|lia| |].
    { rewrite length_app. cbn. lia. }
    exists (c :: bs), x'. split.
    + unfold write_byte. erewrite bind_run.
      2:{ erewrite bind_run by (eapply wait_room_run; [done..|lia]). cbn [negb].
          rewrite (u32_id (addr + Z.of_nat j)) by (unfold is_u32; lia).
          erewrite bind_run by exact Ec. erewrite bind_run by (by apply upd_pipe_run). reflexivity. }
      cbn iota. rewrite with_pipe_twice in E. exact E.
    + rewrite <- app_assoc in Hx'. split; [done|]. split; [cbn; lia|]. split; [|done].
      intros [|k] b Hk; cbn in Hk; [simplify_eq; by rewrite Z.add_0_r|].
      apply Hb in Hk. cbn in Hk. rewrite <- Hk. f_equal. lia.
Qed.

(** What a pipe operation may change: the pipe, and processes it wakes up. *)
Definition pipe_done (x : pipe) (ch : chan) (w : world) : world :=
  with_pipe pp x w <| w_k ::= fun k => k <| k_ptable ::= map (wake1 (Some ch)) |> |>.

(** C12. With room for [n] bytes in the pipe, [pipewrite] does not sleep: it
    appends the [n] bytes of the caller's memory to the queue, in order, wakes
    the readers up, and changes nothing else. *)
Theorem pipewrite_appends w x q addr n :
  running w i p -> uspace (k_mem (w_k w)) (p_pgdir p) (p_sz p) -> length (k_ptable (w_k w)) = NPROC ->
  Lpipe pp ∉ w_held w -> Lptable ∉ w_held w ->
  k_pipes (w_k w) !! pp = Some x -> pipe_rep x q ->
  0 <= addr -> 0 <= n -> addr + n <= p_sz p -> Z.of_nat (length q) + n <= PIPESIZE ->
  exists bs x', pipewrite pp addr n w = Ok n (pipe_done x' (Cnread pp) w) /\
    pipe_rep x' (q ++ bs) /\ Z.of_nat (length bs) = n /\ ubytes w p addr bs.
Proof.
  intros Hr Hu Hn Hl Hl' Hx Hq Ha H0 Hle Hroom. unfold pipewrite.
  erewrite bind_run by (by apply acquire_run). set (w0 := w <| w_held ::= cons (Lpipe pp) |>).
  destruct (write_bytes_run (Z.to_nat n) w0 x q 0 addr) as (bs & x' & E & Hx' & Hlen & Hb & _); [done..|lia|lia|].
  erewrite bind_run by exact E. cbv iota.
  erewrite bind_run by (apply wakeup_run; [done|cbn; rewrite elem_of_cons; naive_solver]).
  erewrite bind_run by (by apply (release_run _ _ (w_held w))).
  exists bs, x'. split; [by destruct w|]. split; [done|]. split; [lia|].
  intros k b Hk. apply Hb in Hk. by rewrite Z.add_0_r in Hk.
Qed.

(** C14. On a full pipe whose read end is closed, or when the writer has been
    killed, [pipewrite] gives up with -1 and leaves everything as it was. *)
Theorem pipewrite_gives_up w x q addr n :
  running w i p -> Lpipe pp ∉ w_held w -> k_pipes (w_k w) !! pp = Some x -> pipe_rep x q ->
  Z.of_nat (length q) = PIPESIZE -> pi_readopen x = false \/ p_killed p = true -> 0 < n ->
  pipewrite pp addr n w = Ok (-1) w.
Proof.
  intros Hr Hl Hx Hq Hf Hk Hn. unfold pipewrite. erewrite bind_run by (by apply acquire_run).
  destruct (Z.to_nat n) as [|k] eqn:En; [lia|]. cbn [seq map find_each].
  assert (wait_room (w <| w_held ::= cons (Lpipe pp) |>) = Ok false w) as E.
  { unfold wait_room, loop_sleep. apply loop_exit. erewrite bind_run by (by apply get_pipe_run).
    rewrite (pipe_full x q Hq), Hf, Z.eqb_refl. erewrite bind_run by (by eapply my_run).
    assert (negb (pi_readopen x) || p_killed p = true) as -> by (destruct Hk as [-> | ->]; [done|apply orb_true_r]).
    erewrite bind_run by (by apply (release_run _ _ (w_held w))). by destruct w. }
  do 2 (erewrite (bind_run _ _ _ (Some (-1)) w); [reflexivity|]). by erewrite bind_run by exact E.
Qed.

(** ** Reading *)

Definition read_byte (addr j : Z) : M (option Z) :=
  x ← get_pipe pp;
  if pi_nread x =? pi_nwrite x then mret (Some j) else
  c ← deref (pi_data x !! Z.to_nat (pi_nread x mod PIPESIZE));
  upd_pipe pp pipe_pop ;;
  user_store (u32 (addr + j)) c ;;
  mret None.

(** User memory with [bs] at [addr]. *)
Definition overwritten (m m' : kmem) (pgdir sz addr : Z) (bs : list Z) : Prop :=
  forall va, 0 <= va < sz -> ubyte m' pgdir va =
    if decide (addr <= va < addr + Z.of_nat (length bs)) then bs !! Z.to_nat (va - addr) else ubyte m pgdir va.

Lemma overwritten_cons m m' pgdir sz addr c bs :
  uspace m pgdir sz -> 0 <= addr < sz ->
  overwritten (stored m pgdir addr c) m' pgdir sz (addr + 1) bs -> overwritten m m' pgdir sz addr (c :: bs).
Proof.
  intros Hu Ha H va Hva. rewrite (H va Hva), (stored_ubyte m pgdir sz addr c Hu Ha va Hva). cbn [length].
  repeat case_decide; try lia.
  - replace (Z.to_nat (va - addr)) with (S (Z.to_nat (va - (addr + 1)))) by lia. done.
  - subst. by rewrite Z.sub_diag.
  - done.
Qed.

Lemma read_byte_run w x q c addr j :
  running w i p -> uspace (k_mem (w_k w)) (p_pgdir p) (p_sz p) ->
  k_pipes (w_k w) !! pp = Some x -> pipe_rep x (c :: q) -> 0 <= addr + j < p_sz p ->
  read_byte addr j w = Ok None (with_mem (stored (k_mem (w_k w)) (p_pgdir p) (addr + j) c) (with_pipe pp (pipe_pop x) w)).
Proof.
  intros Hr Hu Hx Hq Ha. pose proof (us_size _ _ _ Hu) as Hsz. unfold KERNBASE in Hsz.
  unfold read_byte. erewrite bind_run by (by apply get_pipe_run). rewrite (pipe_empty x _ Hq), bool_decide_eq_false_2 by done.
  destruct (pipe_pop_rep _ _ _ Hq) as [Hc _]. erewrite bind_run by (by apply deref_run).
  erewrite bind_run by (by apply upd_pipe_run). rewrite (u32_id (addr + j)) by (unfold is_u32; lia).
  by erewrite bind_run by (by apply (user_store_run _ i p (p_sz p))).
Qed.

Lemma read_bytes_run n : forall w x q j addr,
  running w i p -> uspace (k_mem (w_k w)) (p_pgdir p) (p_sz p) ->
  k_pipes (w_k w) !! pp = Some x -> pipe_rep x q -> 0 <= addr -> addr + Z.of_nat (j + n) <= p_sz p ->
  exists m' x', find_each (map Z.of_nat (seq j n)) (read_byte addr) w
      = Ok (if decide (n <= length q)%nat then None else Some (Z.of_nat (j + length q)))
           (with_mem m' (with_pipe pp x' w)) /\
    pipe_rep x' (drop n q) /\ uspace m' (p_pgdir p) (p_sz p) /\
    overwritten (k_mem (w_k w)) m' (p_pgdir p) (p_sz p) (addr + Z.of_nat j) (take n q).
Proof.
  induction n as [|n IH]; intros w x q j addr Hr Hu Hx Hq Ha Hle; cbn [seq map find_each].
  - exists (k_mem (w_k w)), x. rewrite with_pipe_id, with_mem_id by done.
    rewrite decide_True by lia. split; [done|]. split; [done|]. split; [done|].
    intros va Hva. rewrite decide_False by (rewrite take_0; cbn [length]; lia). done.
  - destruct q as [|c q].
    + exists (k_mem (w_k w)), x. rewrite with_pipe_id, with_mem_id by done.
      split; [|split; [done|split; [done|]]].
      * rewrite decide_False by (cbn; lia). rewrite Nat.add_0_r. unfold read_byte.
        erewrite bind_run; [|erewrite bind_run by (by apply get_pipe_run); rewrite (pipe_empty x _ Hq); reflexivity].
        done.
      * intros va Hva. rewrite decide_False; [done|]. cbn. lia.
    + pose proof (read_byte_run w x q c addr (Z.of_nat j) Hr Hu Hx Hq ltac:(lia)) as E1.
      set (w1 := with_mem _ _) in E1. destruct (pipe_pop_rep _ _ _ Hq) as [_ Hq'].
      destruct (IH w1 (pipe_pop x) q (S j) addr) as (m' & x' & E & Hx' & Hu' & Ho).
      { done. } { apply stored_uspace; [done|lia]. } { cbn. apply lookup_insert_eq. } { done. } { lia. } { lia. }
      exists m', x'. split; [|split; [done|split; [done|]]].
      * erewrite bind_run by exact E1. cbv iota. rewrite E. cbn [length].
        f_equal; [repeat case_decide; try lia; [done|f_equal; lia]|].
        subst w1. unfold with_mem, with_pipe, setter. cbn. by rewrite insert_insert_eq.
      * apply overwritten_cons; [done|lia|]. fold (take n q).
        replace (addr + Z.of_nat j + 1) with (addr + Z.of_nat (S j)) by lia. exact Ho.
Qed.

(** The world after a read: the reader's memory, the pipe and the writers
    woken up. *)
Definition read_done (m : kmem) (x : pipe) (w : world) : world := with_mem m (pipe_done x (Cnwrite pp) w).

(** C13. When the pipe holds bytes, or its write end is closed, [piperead] does
    not sleep: it stores the first [n] bytes of the queue, or all of it, in the
    caller's memory and nothing beyond them, returns their number, and leaves
    the rest of the queue. *)
Theorem piperead_takes w x q addr n :
  running w i p -> uspace (k_mem (w_k w)) (p_pgdir p) (p_sz p) -> length (k_ptable (w_k w)) = NPROC ->
  Lpipe pp ∉ w_held w -> Lptable ∉ w_held w ->
  k_pipes (w_k w) !! pp = Some x -> pipe_rep x q -> q <> [] \/ pi_writeopen x = false ->
  0 <= addr -> 0 <= n -> addr + n <= p_sz p ->
  exists m' x', piperead pp addr n w = Ok (Z.min n (Z.of_nat (length q))) (read_done m' x' w) /\
    pipe_rep x' (drop (Z.to_nat n) q) /\ uspace m' (p_pgdir p) (p_sz p) /\
    overwritten (k_mem (w_k w)) m' (p_pgdir p) (p_sz p) addr (take (Z.to_nat n) q).
Proof.
  intros Hr Hu Hn Hl Hl' Hx Hq Hne Ha H0 Hle. unfold piperead.
  erewrite bind_run by (by apply acquire_run). set (w0 := w <| w_held ::= cons (Lpipe pp) |>).
  erewrite (bind_run _ _ w0 true w0).
  2:{ unfold loop_sleep. apply loop_exit. erewrite bind_run by (by apply get_pipe_run).
      rewrite (pipe_empty x q Hq). assert (bool_decide (q = []) && pi_writeopen x = false) as ->; [|done].
      destruct Hne as [Hne|Hne]; [by rewrite bool_decide_eq_false_2|rewrite Hne; apply andb_false_r]. }
  cbn [negb].
  destruct (read_bytes_run (Z.to_nat n) w0 x q 0 addr) as (m' & x' & E & Hx' & Hu' & Ho); [done..|lia|].
  erewrite bind_run by exact E.
  erewrite bind_run by (apply wakeup_run; [done|cbn; rewrite elem_of_cons; naive_solver]).
  erewrite bind_run by (by apply (release_run _ _ (w_held w))).
  exists m', x'. rewrite Z.add_0_r in Ho. split; [|done].
  assert (default (Z.max 0 n) (if decide (Z.to_nat n <= length q)%nat then None else Some (Z.of_nat (0 + length q)))
          = Z.min n (Z.of_nat (length q))) as -> by (case_decide; cbn; lia).
  by destruct w.
Qed.

End Pipe.

(** ** A process and an empty pipe *)

Definition demo_pipe (q : list Z) : pipe :=
  Pipe (blit (replicate (Z.to_nat PIPESIZE) 0) 0 q) 0 (Z.of_nat (length q)) true true.

Lemma demo_pipe_rep q : Z.of_nat (length q) <= PIPESIZE -> pipe_rep (demo_pipe q) q.
Proof.
  intros Hq. unfold PIPESIZE in Hq. split; [|split; [|done]].
  - split; [done|]. split; [done|].
    assert (length (pi_data (demo_pipe q)) = Z.to_nat PIPESIZE) as Hl.
    { unfold demo_pipe. cbn [pi_data]. rewrite length_blit; rewrite length_replicate; [done|]. unfold PIPESIZE. lia. }
    split; [exact Hl|]. split; [exact Hq|]. intros j x Hj. cbn [demo_pipe pi_data pi_nread].
    apply lookup_lt_Some in Hj as Hlt. rewrite Z.add_0_l, Z.mod_small by (unfold PIPESIZE; lia).
    rewrite Nat2Z.id, lookup_blit by (rewrite length_replicate; unfold PIPESIZE; lia).
    rewrite decide_True by lia. by rewrite Nat.sub_0_r.
  - cbn [demo_pipe pi_nread pi_nwrite]. rewrite Z.add_0_l, u32_id; [done|]. unfold is_u32. lia.
Qed.

Definition demo_pipe_world (m : kmem) (pg : Z) (q : list Z) : world :=
  with_pipe 0 (demo_pipe q) (demo_run m (demo_process pg 4096 4000)).

Lemma pipewrite_appends_witness :
  exists w p bs x', pipewrite 0 100 3 w = Ok 3 (pipe_done 0 x' (Cnread 0) w) /\
    pipe_rep x' ([7] ++ bs) /\ Z.of_nat (length bs) = 3 /\ ubytes w p 100 bs.
Proof.
  destruct demo_uspace as (m & pg & Hu). set (p := demo_process pg 4096 4000).
  destruct (pipewrite_appends 0 O p (demo_pipe_world m pg [7]) (demo_pipe [7]) [7] 100 3) as (bs & x' & H); try done.
  - apply not_elem_of_nil.
  - apply not_elem_of_nil.
  - by apply demo_pipe_rep.
  - by exists (demo_pipe_world m pg [7]), p, bs, x'.
Defined.

Lemma pipewrite_gives_up_witness :
  pipewrite 0 100 3 (with_pipe 0 ((demo_pipe (replicate 512 1)) <| pi_readopen := false |>) (demo_run (Kmem ∅ 0 false 0 0) proc0))
  = Ok (-1) (with_pipe 0 ((demo_pipe (replicate 512 1)) <| pi_readopen := false |>) (demo_run (Kmem ∅ 0 false 0 0) proc0)).
Proof.
  apply (pipewrite_gives_up 0 O proc0 _ ((demo_pipe (replicate 512 1)) <| pi_readopen := false |>) (replicate 512 1)).
  - done.
  - apply not_elem_of_nil.
  - apply lookup_insert_eq.
  - apply (demo_pipe_rep (replicate 512 1)). done.
  - done.
  - by left.
  - done.
Defined.

Lemma piperead_takes_witness :
  exists w p m' x', piperead 0 100 2 w = Ok 2 (read_done 0 m' x' w) /\ pipe_rep x' [9] /\
    uspace m' (p_pgdir p) (p_sz p) /\ overwritten (k_mem (w_k w)) m' (p_pgdir p) (p_sz p) 100 [7; 8].
Proof.
  destruct demo_uspace as (m & pg & Hu). set (p := demo_process pg 4096 4000).
  destruct (piperead_takes 0 O p (demo_pipe_world m pg [7; 8; 9]) (demo_pipe [7; 8; 9]) [7; 8; 9] 100 2) as (m' & x' & H); try done.
  - apply not_elem_of_nil.
  - apply not_elem_of_nil.
  - by apply demo_pipe_rep.
  - by left.
  - by exists (demo_pipe_world m pg [7; 8; 9]), p, m', x'.
Defined.
