(* ===== verification/Sysfile.v ===== *)
(** The file system calls (sysfile.c). *)

From S2P Require Import Prelude Kernel Sched Cons Str Bio Log Inode Fs Kalloc Vm File Proc Exec Args.

Definition O_RDONLY : Z := 0.
Definition O_WRONLY : Z := 1.
Definition O_RDWR : Z := 2.
Definition O_CREATE : Z := 512.

(** ** Descriptors *)

Definition argfd (n : Z) : M (option (Z * nat)) :=
  o ← argint n;
  match o with
  | None => mret None
  | Some fd =>
      if (fd <? 0) || (Z.of_nat NOFILE <=? fd) then mret None else
      l ← my p_ofile;
      f ← deref (l !! Z.to_nat fd);
      mret (pair fd <$> f)
  end.

Definition fdalloc (f : nat) : M Z :=
  me ← curproc;
  r ← find_each (seq 0 NOFILE) (fun fd =>
    p ← get_proc me;
    o ← deref (p_ofile p !! fd);
    match o with
    | None => upd_proc me (fun p => p <| p_ofile ::= <[fd := Some f]> |>) ;; mret (Some (Z.of_nat fd))
    | Some _ => mret None
    end);
  mret (default (-1) r).

(** [myproc()->ofile[fd] = 0] *)
Definition fdclear (fd : Z) : M unit :=
  me ← curproc;
  upd_proc me (fun p => p <| p_ofile ::= <[Z.to_nat fd := None]> |>).

Definition sys_dup : M Z :=
  o ← argfd 0;
  match o with
  | None => mret (-1)
  | Some (_, f) =>
      fd ← fdalloc f;
      if fd <? 0 then mret (-1) else
      filedup f ;;
      mret fd
  end.

(** The arguments [fd, buf, n] of [read] and [write]. *)
Definition arg_io : M (option (nat * Z * Z)) :=
  o ← argfd 0;
  match o with
  | None => mret None
  | Some (_, f) =>
      on ← argint 2;
      match on with
      | None => mret None
      | Some n =>
          op ← argptr 1 n;
          mret (match op with None => None | Some p => Some (f, p, n) end)
      end
  end.

Definition sys_read : M Z :=
  o ← arg_io;
  match o with
  | None => mret (-1)
  | Some (f, p, n) => fileread f p n
  end.

Definition sys_write : M Z :=
  o ← arg_io;
  match o with
  | None => mret (-1)
  | Some (f, p, n) => filewrite f p n
  end.

Definition sys_close : M Z :=
  o ← argfd 0;
  match o with
  | None => mret (-1)
  | Some (fd, f) =>
      fdclear fd ;;
      fileclose f ;;
      mret 0
  end.

Definition SIZEOF_STAT : Z := 20.

Definition sys_fstat : M Z :=
  o ← argfd 0;
  match o with
  | None => mret (-1)
  | Some (_, f) =>
      op ← argptr 1 SIZEOF_STAT;
      match op with
      | None => mret (-1)
      | Some st => filestat f st
      end
  end.

(** ** Links *)

(** [ip->nlink += d; iupdate(ip)] *)
Definition add_nlink (ip : nat) (d : Z) : M unit :=
  upd_inode ip (fun x => x <| i_nlink ::= fun n => i16 (n + d) |>) ;;
  iupdate ip.

Definition name_buf : list Z := replicate DIRSIZ 0.

(** The label [bad] of [sys_link]. *)
Definition sys_link_bad (ip : nat) : M Z :=
  ilock (Some ip) ;;
  add_nlink ip (-1) ;;
  iunlockput ip ;;
  end_op ;;
  mret (-1).

Definition sys_link : M Z :=
  oold ← argstr 0;
  match oold with
  | None => mret (-1)
  | Some old =>
  onew ← argstr 1;
  match onew with
  | None => mret (-1)
  | Some new =>
      begin_op ;;
      old ← user_str old;
      oip ← namei old;
      match oip with
      | None => end_op ;; mret (-1)
      | Some ip =>
          ilock (Some ip) ;;
          x ← get_inode ip;
          if i_type x =? T_DIR then iunlockput ip ;; end_op ;; mret (-1) else
          add_nlink ip 1 ;;
          iunlock (Some ip) ;;
          new ← user_str new;
          r ← nameiparent new name_buf;
          match r with
          | (None, _) => sys_link_bad ip
          | (Some dp, name) =>
              ilock (Some dp) ;;
              d ← get_inode dp;
              x ← get_inode ip;
              ok ← (if negb (i_dev d =? i_dev x) then mret false
                    else r ← dirlink dp name (i_inum x); mret (negb (r <? 0)));
              iunlockput dp ;;
              if negb ok then sys_link_bad ip else
              iput ip ;;
              end_op ;;
              mret 0
          end
      end
  end
  end.

(** [for(off = 2*sizeof(de); off < dp->size; off += sizeof(de))] *)
Definition isdirempty (dp : nat) : M bool :=
  x ← get_inode dp;
  r ← find_each (drop 2 (dir_offs (i_size x))) (fun off =>
    de ← read_dirent dp off "isdirempty: readi";
    mret (if negb (de_inum de =? 0) then Some tt else None));
  mret (match r with Some _ => false | None => true end).

(** The label [bad] of [sys_unlink]. *)
Definition sys_unlink_bad (dp : nat) : M Z :=
  iunlockput dp ;;
  end_op ;;
  mret (-1).

Definition sys_unlink : M Z :=
  opath ← argstr 0;
  match opath with
  | None => mret (-1)
  | Some path =>
      begin_op ;;
      path ← user_str path;
      r ← nameiparent path name_buf;
      match r with
      | (None, _) => end_op ;; mret (-1)
      | (Some dp, name) =>
          ilock (Some dp) ;;
          c1 ← namecmp name (bytes_of "." ++ [0]);
          c2 ← namecmp name (bytes_of ".." ++ [0]);
          if (c1 =? 0) || (c2 =? 0) then sys_unlink_bad dp else
          o ← dirlookup dp name;
          match o with
          | None => sys_unlink_bad dp
          | Some (ip, off) =>
              ilock (Some ip) ;;
              x ← get_inode ip;
              if i_nlink x <? 1 then panic "unlink: nlink < 1" else
              full ← (if i_type x =? T_DIR then e ← isdirempty ip; mret (negb e) else mret false);
              if (full : bool) then iunlockput ip ;; sys_unlink_bad dp else
              r ← writei dp (replicate (Z.to_nat SIZEOF_DIRENT) 0) off SIZEOF_DIRENT;
              if negb (r =? SIZEOF_DIRENT) then panic "unlink: writei" else
              x ← get_inode ip;
              when (i_type x =? T_DIR) (add_nlink dp (-1)) ;;
              iunlockput dp ;;
              add_nlink ip (-1) ;;
              iunlockput ip ;;
              end_op ;;
              mret 0
          end
      end
  end.

(** ** Creation *)

Definition create (path : list Z) (type major minor : Z) : M (option nat) :=
  r ← nameiparent path name_buf;
  match r with
  | (None, _) => mret None
  | (Some dp, name) =>
      ilock (Some dp) ;;
      o ← dirlookup dp name;
      match o with
      | Some (ip, _) =>
          iunlockput dp ;;
          ilock (Some ip) ;;
          x ← get_inode ip;
          if (type =? T_FILE) && (i_type x =? T_FILE) then mret (Some ip) else
          iunlockput ip ;;
          mret None
      | None =>
          d ← get_inode dp;
          ip ← ialloc (i_dev d) type;
          ilock (Some ip) ;;
          upd_inode ip (fun x => x <| i_major := major |> <| i_minor := minor |> <| i_nlink := 1 |>) ;;
          iupdate ip ;;
          x ← get_inode ip;
          when (type =? T_DIR)
            (add_nlink dp 1 ;;
             r ← dirlink ip (bytes_of "." ++ [0]) (i_inum x);
             if r <? 0 then panic "create dots" else
             d ← get_inode dp;
             r ← dirlink ip (bytes_of ".." ++ [0]) (i_inum d);
             if r <? 0 then panic "create dots" else mret tt) ;;
          r ← dirlink dp name (i_inum x);
          if r <? 0 then panic "create: dirlink" else
          iunlockput dp ;;
          mret (Some ip)
      end
  end.

(** The second half of [sys_open], with [ip] locked. *)
Definition sys_open_ip (ip : nat) (omode : Z) : M Z :=
  fo ← filealloc;
  match fo with
  | None => iunlockput ip ;; end_op ;; mret (-1)
  | Some f =>
      fd ← fdalloc f;
      if fd <? 0 then fileclose f ;; iunlockput ip ;; end_op ;; mret (-1) else
      iunlock (Some ip) ;;
      end_op ;;
      upd_file f (fun x => x <| f_type := FD_INODE |> <| f_ip := ip |> <| f_off := 0 |>
        <| f_readable := negb (hasf omode O_WRONLY) |>
        <| f_writable := hasf omode O_WRONLY || hasf omode O_RDWR |>) ;;
      mret fd
  end.

Definition sys_open : M Z :=
  opath ← argstr 0;
  match opath with
  | None => mret (-1)
  | Some path =>
  om ← argint 1;
  match om with
  | None => mret (-1)
  | Some omode =>
      begin_op ;;
      path ← user_str path;
      if hasf omode O_CREATE then
        oip ← create path T_FILE 0 0;
        match oip with
        | None => end_op ;; mret (-1)
        | Some ip => sys_open_ip ip omode
        end
      else
        oip ← namei path;
        match oip with
        | None => end_op ;; mret (-1)
        | Some ip =>
            ilock (Some ip) ;;
            x ← get_inode ip;
            if (i_type x =? T_DIR) && negb (omode =? O_RDONLY) then
              iunlockput ip ;; end_op ;; mret (-1)
            else sys_open_ip ip omode
        end
  end
  end.

(** What [sys_mkdir] and [sys_mknod] do with the result of [create]. *)
Definition end_create (oip : option nat) : M Z :=
  match oip with
  | None => end_op ;; mret (-1)
  | Some ip => iunlockput ip ;; end_op ;; mret 0
  end.

Definition sys_mkdir : M Z :=
  begin_op ;;
  opath ← argstr 0;
  match opath with
  | None => end_op ;; mret (-1)
  | Some path =>
      path ← user_str path;
      oip ← create path T_DIR 0 0;
      end_create oip
  end.

Definition sys_mknod : M Z :=
  begin_op ;;
  opath ← argstr 0;
  match opath with
  | None => end_op ;; mret (-1)
  | Some path =>
  omajor ← argint 1;
  match omajor with
  | None => end_op ;; mret (-1)
  | Some major =>
  ominor ← argint 2;
  match ominor with
  | None => end_op ;; mret (-1)
  | Some minor =>
      path ← user_str path;
      oip ← create path T_DEV (i16 major) (i16 minor);
      end_create oip
  end
  end
  end.

Definition sys_chdir : M Z :=
  me ← curproc;
  begin_op ;;
  opath ← argstr 0;
  match opath with
  | None => end_op ;; mret (-1)
  | Some path =>
      path ← user_str path;
      oip ← namei path;
      match oip with
      | None => end_op ;; mret (-1)
      | Some ip =>
          ilock (Some ip) ;;
          x ← get_inode ip;
          if negb (i_type x =? T_DIR) then iunlockput ip ;; end_op ;; mret (-1) else
          iunlock (Some ip) ;;
          p ← get_proc me;
          cwd ← deref (p_cwd p);
          iput cwd ;;
          end_op ;;
          upd_proc me (fun p => p <| p_cwd := Some ip |>) ;;
          mret 0
      end
  end.

(** ** exec and pipe *)

(** The loop of [sys_exec]: the strings of [uargv], at most [n] of them with
    the null that ends it. *)
Fixpoint fetch_argv (n : nat) (uargv : Z) : M (option (list (list Z))) :=
  match n with
  | O => mret None
  | S n =>
      o ← fetchint uargv;
      match o with
      | None => mret None
      | Some uarg =>
          if uarg =? 0 then mret (Some []) else
          os ← fetchstr (u32 uarg);
          match os with
          | None => mret None
          | Some s =>
              s ← user_str s;
              rest ← fetch_argv n (u32 (uargv + 4));
              mret (cons s <$> rest)
          end
      end
  end.

Definition sys_exec : M Z :=
  opath ← argstr 0;
  match opath with
  | None => mret (-1)
  | Some path =>
  ouargv ← argint 1;
  match ouargv with
  | None => mret (-1)
  | Some uargv =>
      oargv ← fetch_argv (Z.to_nat MAXARG) (u32 uargv);
      match oargv with
      | None => mret (-1)
      | Some argv => path ← user_str path; exec path argv
      end
  end
  end.

Definition sys_pipe : M Z :=
  ofd ← argptr 0 8;
  match ofd with
  | None => mret (-1)
  | Some fd =>
  o ← pipealloc;
  match o with
  | None => mret (-1)
  | Some (rf, wf) =>
      fd0 ← fdalloc rf;
      fd1 ← (if fd0 <? 0 then mret (-1) else fdalloc wf);
      if fd1 <? 0 then
        when (0 <=? fd0) (fdclear fd0) ;;
        fileclose rf ;;
        fileclose wf ;;
        mret (-1)
      else
        user_stores fd (le_bytes 4 fd0) ;;
        user_stores (fd + 4) (le_bytes 4 fd1) ;;
        mret 0
  end
  end.
