(* ===== verification/Syscall.v ===== *)
(** System call dispatch (the second half of syscall.c), traps (trap.c) and the
    boot sequence (main.c). *)

From S2P Require Import Prelude Kernel Sched Cons Str Bio Log Inode Fs Kalloc Vm File Proc Exec Args Sysfile.

(** ** syscall.c: dispatch *)

(** The table [syscalls] with [syscalls_names]. *)
Definition syscalls : list (Z * (M Z * string)) :=
  [ (1, (sys_fork, "sys_fork")); (2, (sys_exit, "sys_exit")); (3, (sys_wait, "sys_wait"));
    (4, (sys_pipe, "sys_pipe")); (5, (sys_read, "sys_read")); (6, (sys_kill, "sys_kill"));
    (7, (sys_exec, "sys_exec")); (8, (sys_fstat, "sys_fstat")); (9, (sys_chdir, "sys_chdir"));
    (10, (sys_dup, "sys_dup")); (11, (sys_getpid, "sys_getpid"));
    (75, (sys_getppid, "sys_getppid")); (76, (sys_pscnt, "sys_pscnt"));
    (12, (sys_sbrk, "sys_sbrk")); (13, (sys_sleep, "sys_sleep"));
    (14, (sys_uptime, "sys_uptime")); (15, (sys_open, "sys_open"));
    (16, (sys_write, "sys_write")); (17, (sys_mknod, "sys_mknod"));
    (18, (sys_unlink, "sys_unlink")); (19, (sys_link, "sys_link"));
    (20, (sys_mkdir, "sys_mkdir")); (21, (sys_close, "sys_close"));
    (22, (sys_trace, "sys_trace")); (42, (sys_answer, "sys_answer"));
    (77, (sys_pgcnt, "sys_pgcnt")) ].

Fixpoint assoc {A} (n : Z) (l : list (Z * A)) : option A :=
  match l with
  | [] => None
  | (k, a) :: l => if k =? n then Some a else assoc n l
  end.

(** [curproc->tf->eax = v] *)
Definition set_eax (me : nat) (v : Z) : M unit :=
  upd_proc me (fun p => p <| p_tf ::= fun t => t <| tf_eax := u32 v |> |>).

Definition syscall : M unit :=
  me ← curproc;
  tf ← my p_tf;
  let num := i32 (tf_eax tf) in
  match assoc num syscalls with
  | Some (f, name) =>
      r ← f;
      set_eax me r ;;
      trace ← get k_trace;
      p ← get_proc me;
      when (0 <? trace)
        (cprintf "[%d] %s: %d
" [Aint num; Astr (Some (bytes_of name)); Aint (tf_eax (p_tf p))])
  | None =>
      p ← get_proc me;
      cprintf "%d %s: unknown sys call %d
" [Aint (p_pid p); Astr (Some (p_name p)); Aint num] ;;
      set_eax me (-1)
  end.

(** ** trap.c *)

Definition T_SYSCALL : Z := 64.
Definition T_IRQ0 : Z := 32.
Definition IRQ_TIMER : Z := 0.
Definition IRQ_KBD : Z := 1.
Definition IRQ_COM1 : Z := 4.
Definition IRQ_IDE : Z := 14.
Definition IRQ_SPURIOUS : Z := 31.

(** What the hardware has at the time of the trap: the number of this CPU, the
    register cr2, the characters the keyboard and the serial port deliver, and
    the stacks [procdump] would print. *)
Record machine := Machine {
  mc_cpuid : Z; mc_cr2 : Z; mc_kbd : list Z; mc_uart : list Z; mc_pcs : nat -> list Z }.

(** [if(myproc() && myproc()->killed && (tf->cs&3) == DPL_USER) exit();] *)
Definition exit_if_killed (tf : trapframe) : M unit :=
  op ← myproc;
  match op with
  | None => mret tt
  | Some i =>
      p ← get_proc i;
      when (p_killed p && (Z.land (tf_cs tf) 3 =? DPL_USER)) exit
  end.

Definition tick : M unit :=
  acquire Ltickslock ;;
  modify (fun k => k <| k_ticks ::= fun t => u32 (t + 1) |>) ;;
  wakeup Cticks ;;
  release Ltickslock.

Definition kbdintr (mc : machine) : M unit := consoleintr (mc_pcs mc) (mc_kbd mc).
Definition uartintr (mc : machine) : M unit := consoleintr (mc_pcs mc) (mc_uart mc).

(** The [default] case of the switch. *)
Definition unexpected (mc : machine) (tf : trapframe) : M unit :=
  op ← myproc;
  let in_kernel :=
    cprintf "unexpected trap %d from cpu %d eip %x (cr2=0x%x)
" [Aint (tf_trapno tf); Aint (mc_cpuid mc); Aint (tf_eip tf); Aint (mc_cr2 mc)] ;;
    panic "trap" in
  match op with
  | None => in_kernel
  | Some i =>
      if Z.land (tf_cs tf) 3 =? 0 then in_kernel else
      p ← get_proc i;
      cprintf "pid %d %s: trap %d err %d on cpu %d eip 0x%x addr 0x%x--kill proc
" [Aint (p_pid p); Astr (Some (p_name p)); Aint (tf_trapno tf); Aint (tf_err tf);
   Aint (mc_cpuid mc); Aint (tf_eip tf); Aint (mc_cr2 mc)] ;;
      upd_proc i (fun p => p <| p_killed := true |>)
  end.

(** The switch.  [ideintr] of memide.c does nothing, and nothing of the local
    APIC is modelled. *)
Definition trap_switch (mc : machine) (tf : trapframe) : M unit :=
  let n := tf_trapno tf in
  if n =? T_IRQ0 + IRQ_TIMER then when (mc_cpuid mc =? 0) tick
  else if n =? T_IRQ0 + IRQ_IDE then mret tt
  else if n =? T_IRQ0 + IRQ_IDE + 1 then mret tt
  else if n =? T_IRQ0 + IRQ_KBD then kbdintr mc
  else if n =? T_IRQ0 + IRQ_COM1 then uartintr mc
  else if (n =? T_IRQ0 + 7) || (n =? T_IRQ0 + IRQ_SPURIOUS) then
    cprintf "cpu%d: spurious interrupt at %x:%x
" [Aint (mc_cpuid mc); Aint (tf_cs tf); Aint (tf_eip tf)]
  else unexpected mc tf.

Definition trap (mc : machine) (tf : trapframe) : M unit :=
  if tf_trapno tf =? T_SYSCALL then
    killed ← my p_killed;
    if (killed : bool) then exit else
    me ← curproc;
    upd_proc me (fun p => p <| p_tf := tf |>) ;;
    syscall ;;
    killed ← my p_killed;
    when killed exit
  else
    trap_switch mc tf ;;
    exit_if_killed tf ;;
    op ← myproc;
    match op with
    | None => mret tt
    | Some i =>
        p ← get_proc i;
        when (bool_decide (p_state p = RUNNING) && (tf_trapno tf =? T_IRQ0 + IRQ_TIMER)) yield
    end ;;
    exit_if_killed tf.

(** ** main.c *)

(** [kvmalloc] of vm.c: the address space of the scheduler. *)
Definition kvmalloc : M (option Z) := setupkvm.

(** [main] on one processor, up to [scheduler]: the steps that program the
    hardware or initialise a lock leave nothing to model. *)
Definition main (initcode : list Z) : M unit :=
  m ← get k_mem;
  kinit1 (m_end m) (P2V (4 * 1024 * 1024)) ;;
  kvmalloc ;;
  consoleinit ;;
  binit ;;
  kinit2 (P2V (4 * 1024 * 1024)) (P2V PHYSTOP) ;;
  userinit initcode ;;
  cprintf "cpu%d: starting %d
" [Aint 0; Aint 0].
