(* ===== verification/Grep.v ===== *)
(** The grep program (grep.c): the regular expression matcher and the loop that
    reads the input into a buffer of 1024 bytes and prints the matching lines.

    The matcher takes C strings as the lists of their characters, without the
    terminator.  The buffer is a list of bytes; [None] is an access outside an
    object.  The input is the sequence of pieces that successive calls of [read]
    would deliver if asked for enough. *)

From S2P Require Import Prelude Str Ulib.

(** ** The matcher *)

(** [matchstar(c, re, text)], with [here] for [matchhere(re, .)]. *)
Fixpoint matchstar (here : list Z -> bool) (c : Z) (text : list Z) : bool :=
  here text ||
  match text with
  | [] => false
  | x :: text => ((x =? c) || (c =? 46)) && matchstar here c text
  end.

Fixpoint matchhere (re text : list Z) {struct re} : bool :=
  match re with
  | [] => true
  | c :: re' =>
      match re' with
      | s :: re2 =>
          if s =? 42 then matchstar (matchhere re2) c text else
          match text with
          | x :: text => ((c =? 46) || (c =? x)) && matchhere re' text
          | [] => false
          end
      | [] =>
          if c =? 36 then bool_decide (text = []) else
          match text with
          | x :: text => ((c =? 46) || (c =? x)) && matchhere re' text
          | [] => false
          end
      end
  end.

(** The [do ... while] loop of [match]. *)
Fixpoint match_any (re text : list Z) : bool :=
  matchhere re text || match text with [] => false | _ :: text => match_any re text end.

Definition match_ (re text : list Z) : bool :=
  match re with
  | c :: re' => if c =? 94 then matchhere re' text else match_any re text
  | [] => match_any re text
  end.

(** ** The reading loop *)

(** [read(fd, p, n)]: at most [n] bytes of the next piece; nothing at the end. *)
Definition read (input : list (list Z)) (n : nat) : list Z * list (list Z) :=
  match input with
  | [] => ([], [])
  | c :: input => (take n c, match drop n c with [] => input | r => r :: input end)
  end.

Fixpoint cstr (l : list Z) : option (list Z) :=
  match l with
  | [] => None
  | x :: l => if x =? 0 then Some [] else s ← cstr l; Some (x :: s)
  end.

(** The inner loop: the lines between [p] and the terminator. *)
Fixpoint grep_lines (fuel : nat) (pattern buf : list Z) (p : nat) (out : list Z) :
    option (list Z * nat * list Z) :=
  match fuel with
  | O => None
  | S fuel =>
      r ← strchr (drop p buf) 10;
      match r with
      | None => Some (buf, p, out)
      | Some d =>
          let q := (p + d)%nat in
          buf ← st buf q 0;
          line ← cstr (drop p buf);
          if match_ pattern line then
            buf ← st buf q 10;
            grep_lines fuel pattern buf (q + 1) (out ++ slice buf p (q + 1 - p))
          else grep_lines fuel pattern buf (q + 1) out
      end
  end.

(** What is written on the standard output; [sizeof_buf] is the size of [buf]. *)
Fixpoint grep_loop (sizeof_buf fuel : nat) (pattern buf : list Z) (m : nat) (input : list (list Z)) (out : list Z) :
    option (list Z) :=
  match fuel with
  | O => None
  | S fuel =>
      let (data, input) := read input (sizeof_buf - m - 1) in
      match data with
      | [] => Some out
      | _ =>
          let buf := blit buf m data in
          let m := (m + length data)%nat in
          buf ← st buf m 0;
          r ← grep_lines sizeof_buf pattern buf 0 out;
          let '(buf, p, out) := r in
          let m := if (p =? 0)%nat then 0%nat else m in
          if (0 <? m)%nat then
            let m := (m - p)%nat in
            buf ← memmove buf 0 p (Z.of_nat m);
            grep_loop sizeof_buf fuel pattern buf m input out
          else grep_loop sizeof_buf fuel pattern buf m input out
      end
  end.

Definition grep (pattern : list Z) (input : list (list Z)) : option (list Z) :=
  grep_loop 1024 (S (length (concat input))) pattern (replicate 1024 0) 0 input [].

(** ** What a pattern matches *)

Definition char_ok (c x : Z) : Prop := c = 46 \/ x = c.

(** [here re text]: a prefix of [text] matches [re]. *)
Inductive here : list Z -> list Z -> Prop :=
  | here_nil text : here [] text
  | here_star c re t1 t2 : Forall (char_ok c) t1 -> here re t2 -> here (c :: 42 :: re) (t1 ++ t2)
  | here_end : here [36] []
  | here_char c re x text :
      head re <> Some 42 -> (c = 36 -> re <> []) -> char_ok c x -> here re text -> here (c :: re) (x :: text).

(** [^] anchors the match; without it, it may start anywhere. *)
Definition matches (re text : list Z) : Prop :=
  match re with
  | 94 :: re => here re text
  | _ => exists t1 t2, text = t1 ++ t2 /\ here re t2
  end.

Lemma matchstar_spec (h : list Z -> bool) c text :
  matchstar h c text = true <->
  exists t1 t2, text = t1 ++ t2 /\ Forall (char_ok c) t1 /\ h t2 = true.
Proof.
  induction text as [|x text IH]; cbn.
  - rewrite orb_false_r. split; [by exists [], []|]. intros (t1 & t2 & E & _ & H).
    symmetry in E. apply app_nil in E as [-> ->]. done.
  - rewrite orb_true_iff, andb_true_iff, IH, orb_true_iff, !Z.eqb_eq. split.
    + intros [H|[Hx (t1 & t2 & -> & Ht & H)]]; [by exists [], (x :: text)|].
      exists (x :: t1), t2. repeat split; try done. constructor; [unfold char_ok; tauto|done].
    + intros ([|y t1] & t2 & E & Ht & H); cbn in E; [left; by subst|]. right.
      injection E as -> ->. inversion Ht as [|? ? Hy Ht']; subst.
      split; [unfold char_ok in Hy; tauto|]. by exists t1, t2.
Qed.

(** The case of an ordinary character. *)
Lemma here_char_inv c re text :
  head re <> Some 42 -> (c = 36 -> re <> []) ->
  here (c :: re) text <-> exists x t, text = x :: t /\ char_ok c x /\ here re t.
Proof.
  intros Hs He. split.
  - intros H. inversion H; subst; [by destruct Hs|by destruct He|eauto].
  - intros (x & t & -> & Hc & H). by constructor.
Qed.

Lemma char_ok_bool c x : (c =? 46) || (c =? x) = true <-> char_ok c x.
Proof. rewrite orb_true_iff, !Z.eqb_eq. unfold char_ok. naive_solver. Qed.

Lemma matchhere_char c re text :
  head re <> Some 42 -> (c = 36 -> re <> []) ->
  (forall t, matchhere re t = true <-> here re t) ->
  match text with x :: t => ((c =? 46) || (c =? x)) && matchhere re t | [] => false end = true <->
  here (c :: re) text.
Proof.
  intros Hs He IH. rewrite here_char_inv by done. destruct text as [|x t].
  - split; [done|]. by intros (? & ? & ? & _).
  - rewrite andb_true_iff, char_ok_bool, IH. naive_solver.
Qed.

Lemma matchhere_spec re : forall text, matchhere re text = true <-> here re text.
Proof.
  induction re as [re IH] using (induction_ltof1 _ length). unfold ltof in IH. intros text.
  destruct re as [|c [|s re]]; cbn [matchhere].
  - split; [constructor|done].
  - destruct (Z.eqb_spec c 36) as [->|Hc].
    + rewrite bool_decide_eq_true. split; [intros ->; constructor|].
      intros H. inversion H; subst; [done|]. naive_solver.
    + apply (matchhere_char c []); [done..|]. intros t. apply (IH []). cbn. lia.
  - destruct (Z.eqb_spec s 42) as [->|Hs].
    + rewrite matchstar_spec. split.
      * intros (t1 & t2 & -> & Ht & H). constructor; [done|]. apply IH; [cbn; lia|done].
      * intros H. inversion H; subst; [|done]. eexists _, _. split; [done|]. split; [done|].
        apply IH; [cbn; lia|done].
    + apply (matchhere_char c (s :: re)); [cbn; congruence|done|]. intros t. apply (IH (s :: re)). cbn. lia.
Qed.

Lemma match_any_spec re text :
  match_any re text = true <-> exists t1 t2, text = t1 ++ t2 /\ here re t2.
Proof.
  induction text as [|x text IH]; cbn [match_any]; rewrite orb_true_iff, matchhere_spec.
  - split; [intros [H|H]; [by exists [], []|done]|]. intros (t1 & t2 & E & H).
    symmetry in E. apply app_nil in E as [-> ->]. by left.
  - rewrite IH. split.
    + intros [H|(t1 & t2 & -> & H)]; [by exists [], (x :: text)|by exists (x :: t1), t2].
    + intros ([|y t1] & t2 & E & H); cbn in E; [left; by subst|right]. injection E as -> ->. by exists t1, t2.
Qed.

(** C20. The recursive matcher decides the declarative meaning of patterns with
    [.], [*], [^] and [$]. *)
Theorem match_correct re text : match_ re text = true <-> matches re text.
Proof.
  unfold match_, matches. destruct re as [|c re]; [apply match_any_spec|].
  destruct (Z.eqb_spec c 94) as [->|Hc]; [apply matchhere_spec|].
  rewrite match_any_spec. by repeat case_match; simplify_eq.
Qed.

(** ** Lines *)

(** The terminated lines of a text, and what follows the last newline. *)
Fixpoint lines (s : list Z) : list (list Z) * list Z :=
  match s with
  | [] => ([], [])
  | c :: s =>
      let (ls, r) := lines s in
      if c =? 10 then ([] :: ls, r)
      else match ls with [] => ([], c :: r) | l :: ls => ((c :: l) :: ls, r) end
  end.

(** What grep prints: the lines that match.  A rest without a newline is not a line. *)
Definition printed (pattern : list Z) (s : list Z) : list Z :=
  concat (map (fun l => l ++ [10]) (filter (fun l => match_ pattern l = true) (fst (lines s)))).

Lemma lines_prefix a s : 10 ∉ a ->
  lines (a ++ s) = match lines s with
                   | ([], r) => ([], a ++ r)
                   | (l :: ls, r) => ((a ++ l) :: ls, r)
                   end.
Proof.
  induction a as [|c a IH]; intros H; cbn; [by destruct (lines s) as [[] ?]|].
  rewrite not_elem_of_cons in H. destruct H as [Hc H]. rewrite IH by done.
  destruct (Z.eqb_spec c 10); [congruence|]. by destruct (lines s) as [[] ?].
Qed.

Lemma lines_line a s : 10 ∉ a -> lines (a ++ 10 :: s) = (a :: fst (lines s), snd (lines s)).
Proof. intros H. rewrite lines_prefix by done. cbn. destruct (lines s). by rewrite app_nil_r. Qed.

Lemma lines_none a : 10 ∉ a -> lines a = ([], a).
Proof. intros H. rewrite <- (app_nil_r a) at 1. rewrite lines_prefix by done. cbn. by rewrite app_nil_r. Qed.

Lemma lines_app a b :
  lines (a ++ b) = (fst (lines a) ++ fst (lines (snd (lines a) ++ b)), snd (lines (snd (lines a) ++ b))).
Proof.
  induction a as [|c a IH]; cbn; [by destruct (lines b)|]. rewrite IH.
  destruct (lines a) as [ls r]. cbn. destruct (Z.eqb_spec c 10) as [->|Hc]; [done|].
  destruct ls as [|l ls]; cbn; [|done]. apply Z.eqb_neq in Hc. rewrite Hc.
  destruct (lines (r ++ b)) as [[] ?]; done.
Qed.

Lemma printed_app pattern a b :
  printed pattern (a ++ b) = printed pattern a ++ printed pattern (snd (lines a) ++ b).
Proof. unfold printed. rewrite lines_app at 1. cbn. by rewrite filter_app, map_app, concat_app. Qed.

Lemma lines_rest_no_newline s : 10 ∉ snd (lines s).
Proof.
  induction s as [|c s IH]; cbn; [apply not_elem_of_nil|]. destruct (lines s) as [ls r]. cbn in IH.
  destruct (Z.eqb_spec c 10); [done|]. destruct ls; cbn; [|done]. rewrite not_elem_of_cons. done.
Qed.

Lemma lines_no_newline s : Forall (fun l => 10 ∉ l) (fst (lines s)).
Proof.
  induction s as [|c s IH]; cbn; [constructor|]. destruct (lines s) as [ls r]. cbn in IH.
  destruct (Z.eqb_spec c 10); cbn; [by constructor; [apply not_elem_of_nil|]|]. destruct ls as [|l ls]; cbn; [constructor|].
  apply Forall_cons in IH as [Hl IH]. constructor; [|done]. by apply not_elem_of_cons.
Qed.

Lemma lines_concat s : s = concat (map (fun l => l ++ [10]) (fst (lines s))) ++ snd (lines s).
Proof.
  induction s as [|c s IH]; cbn; [done|]. destruct (lines s) as [ls r]. cbn in IH.
  destruct (Z.eqb_spec c 10) as [->|]; [by rewrite IH at 1|].
  destruct ls; cbn in *; by rewrite IH at 1.
Qed.

(** ** The reading loop *)

Lemma st_app a (x : Z) b v : st (a ++ x :: b) (length a) v = Some (a ++ v :: b).
Proof.
  unfold st. rewrite (proj2 (Nat.ltb_lt _ _)) by (rewrite length_app; cbn; lia).
  by rewrite insert_app_r_alt, Nat.sub_diag by lia.
Qed.

Lemma strchr_from_found a r : forall i, 0 ∉ a -> 10 ∉ a -> strchr_from (a ++ 10 :: r) 10 i = Some (Some (i + length a)%nat).
Proof.
  induction a as [|x a IH]; intros i H0 H10; cbn; [by rewrite Nat.add_0_r|].
  rewrite not_elem_of_cons in H0, H10. rewrite (proj2 (Z.eqb_neq x 0)), (proj2 (Z.eqb_neq x 10)) by naive_solver.
  rewrite IH by naive_solver. do 2 f_equal. lia.
Qed.

Lemma strchr_from_none a r : forall i, 0 ∉ a -> 10 ∉ a -> strchr_from (a ++ 0 :: r) 10 i = Some None.
Proof.
  induction a as [|x a IH]; intros i H0 H10; cbn; [done|].
  rewrite not_elem_of_cons in H0, H10. rewrite (proj2 (Z.eqb_neq x 0)), (proj2 (Z.eqb_neq x 10)) by naive_solver.
  apply IH; naive_solver.
Qed.

Lemma text_app a r : 0 ∉ a -> cstr (a ++ 0 :: r) = Some a.
Proof.
  induction a as [|x a IH]; intros H; cbn; [done|]. rewrite not_elem_of_cons in H.
  rewrite (proj2 (Z.eqb_neq x 0)), IH by naive_solver. done.
Qed.

Lemma printed_line pattern a s : 10 ∉ a ->
  printed pattern (a ++ 10 :: s) = (if match_ pattern a then a ++ [10] else []) ++ printed pattern s.
Proof.
  intros H. unfold printed. rewrite lines_line by done. cbn [fst]. rewrite filter_cons.
  destruct (match_ pattern a); [by rewrite decide_True|by rewrite decide_False].
Qed.

Lemma printed_none pattern a : 10 ∉ a -> printed pattern a = [].
Proof. intros H. unfold printed. by rewrite lines_none. Qed.

(** The inner loop prints the matching lines of the text before the terminator
    and stops at the unfinished line. *)
Lemma grep_lines_run pattern junk : forall fuel pre s out,
  0 ∉ s -> (length s < fuel)%nat -> exists pre',
  grep_lines fuel pattern (pre ++ s ++ 0 :: junk) (length pre) out =
    Some (pre' ++ snd (lines s) ++ 0 :: junk, length pre', out ++ printed pattern s) /\
  (length pre' + length (snd (lines s)) = length pre + length s)%nat.
Proof.
  induction fuel as [|fuel IH]; intros pre s out H0 Hf; [lia|]. cbn [grep_lines].
  rewrite drop_app_length. unfold strchr. destruct (decide (10 ∈ s)) as [H10|H10].
  2:{ rewrite strchr_from_none by done. cbn. exists pre. rewrite lines_none, printed_none by done.
      by rewrite app_nil_r. }
  apply list_elem_of_split_l in H10 as (a & s' & -> & Ha).
  rewrite not_elem_of_app, not_elem_of_cons in H0. destruct H0 as (Ha0 & _ & Hs0).
  rewrite length_app in Hf. cbn in Hf.
  rewrite <- app_assoc. cbn [app]. rewrite strchr_from_found by done. cbn [mbind option_bind].
  replace (length pre + (0 + length a))%nat with (length (pre ++ a)) by (rewrite length_app; lia).
  rewrite app_assoc, st_app. cbn [mbind option_bind].
  rewrite <- app_assoc, drop_app_length, text_app by done. cbn [mbind option_bind].
  rewrite (app_assoc pre a), !st_app. cbn [mbind option_bind].
  assert (forall (c : Z) r, (pre ++ a) ++ c :: r = (pre ++ a ++ [c]) ++ r) as Eq by (intros; by rewrite <- !app_assoc).
  assert (forall c : Z, (length (pre ++ a) + 1)%nat = length (pre ++ a ++ [c])) as El
    by (intros; rewrite !length_app; cbn; lia).
  rewrite printed_line, lines_line by done. cbn [snd].
  destruct (match_ pattern a); rewrite Eq.
  - rewrite (El 10). destruct (IH (pre ++ a ++ [10]) s' (out ++ a ++ [10]) Hs0 ltac:(lia)) as (pre' & E & Hl).
    exists pre'. split; [|rewrite !length_app in *; cbn in *; lia].
    rewrite <- (app_assoc out) in E. etransitivity; [|exact E]. do 2 f_equal.
    rewrite <- app_assoc. unfold slice. rewrite drop_app_length, <- El, length_app.
    replace (length pre + length a + 1 - length pre)%nat with (length (a ++ [10])) by (rewrite length_app; cbn; lia).
    by rewrite take_app_length.
  - rewrite (El 0). destruct (IH (pre ++ a ++ [0]) s' out Hs0 ltac:(lia)) as (pre' & E & Hl).
    exists pre'. split; [exact E|]. rewrite !length_app in *. cbn in *. lia.
Qed.

(** A file: [read] delivers as much as it is asked for, until the end. *)
Definition input_of (s : list Z) : list (list Z) := match s with [] => [] | _ => [s] end.

Lemma read_input_of s n : read (input_of s) n = (take n s, input_of (drop n s)).
Proof. destruct s as [|c s]; cbn; [by rewrite take_nil, drop_nil|]. by destruct (drop n (c :: s)). Qed.

Lemma read_chunk s n : s <> [] -> (0 < n)%nat -> exists d ds s',
  read (input_of s) n = (d :: ds, input_of s') /\ s = (d :: ds) ++ s' /\ (length (d :: ds) <= n)%nat /\
  (length (d :: ds) = n \/ s' = []).
Proof.
  intros Hs Hn. rewrite read_input_of.
  destruct (take n s) as [|d ds] eqn:E; [destruct s, n; (done || lia)|].
  exists d, ds, (drop n s). rewrite <- E. split; [done|]. split; [by rewrite take_drop|].
  rewrite length_take. split; [lia|]. destruct (decide (n <= length s)%nat); [left; lia|right; apply drop_ge; lia].
Qed.

Section Buffer.
Context (sizeof_buf : nat).

(** Every line fits in the buffer with its newline and the terminator. *)
Definition lines_fit (s : list Z) : Prop := Forall (fun l => (length l < sizeof_buf - 1)%nat) (fst (lines s)).

(** After the inner loop, what is left in the buffer and in the file. *)
Lemma lines_fit_rest a b : lines_fit (a ++ b) -> lines_fit (snd (lines a) ++ b).
Proof. unfold lines_fit. rewrite lines_app. cbn. rewrite Forall_app. tauto. Qed.

(** A buffer without a newline can be thrown away, when it is full or it is the
    end of the file. *)
Lemma lines_fit_drop a b pattern :
  10 ∉ a -> lines_fit (a ++ b) -> (b = [] \/ (sizeof_buf - 1 <= length a)%nat) ->
  lines_fit b /\ printed pattern (a ++ b) = printed pattern b.
Proof.
  intros Ha Hl Hb. unfold lines_fit, printed in *. rewrite lines_prefix in * by done.
  destruct (lines b) as [[|l ls] r] eqn:E; [done|]. cbn in Hl. inversion Hl as [|? ? H1 H2]; subst.
  destruct Hb as [->|Hb]; [done|]. rewrite length_app in H1. lia.
Qed.

Lemma lines_rest_all s : length (snd (lines s)) = length s -> 10 ∉ s.
Proof.
  intros H. pose proof (lines_concat s) as E. apply (f_equal length) in E as El. rewrite length_app in El.
  destruct (concat _) as [|x c] eqn:Ec; cbn in El; [|lia]. cbn in E. rewrite E. apply lines_rest_no_newline.
Qed.

(** Moving the unfinished line to the start of the buffer. *)
Lemma grep_memmove pre tl junk :
  exists tl', memmove (pre ++ tl ++ junk) 0 (length pre) (Z.of_nat (length tl)) = Some (tl ++ tl') /\
  length (tl ++ tl') = length (pre ++ tl ++ junk).
Proof.
  unfold memmove. rewrite Nat2Z.id, copy_forth_blit; rewrite ?length_app; try lia.
  unfold slice. rewrite drop_app_length, take_app_length. unfold blit. rewrite take_0. cbn [app Nat.add].
  eexists. split; [done|]. rewrite !length_app, length_drop, !length_app. lia.
Qed.

(** Storing the bytes read and the terminator. *)
Lemma grep_fill part tl data :
  (length data < length tl)%nat -> exists junk,
  st (blit (part ++ tl) (length part) data) (length part + length data) 0 = Some ((part ++ data) ++ 0 :: junk) /\
  length ((part ++ data) ++ 0 :: junk) = length (part ++ tl).
Proof.
  intros H. unfold blit. rewrite take_app_length, drop_app_ge, Nat.add_comm, Nat.add_sub by lia.
  destruct (drop (length data) tl) as [|x junk] eqn:E.
  { apply (f_equal length) in E. rewrite length_drop in E. cbn in E. lia. }
  exists junk. rewrite app_assoc, (Nat.add_comm (length data)), <- length_app, st_app.
  split; [done|]. apply (f_equal length) in E. rewrite length_drop in E. rewrite !length_app. cbn in *. lia.
Qed.

Lemma grep_loop_run pattern : forall fuel part tl rest out,
  length (part ++ tl) = sizeof_buf -> (length part < sizeof_buf - 1)%nat -> 10 ∉ part ->
  0 ∉ part ++ rest -> lines_fit (part ++ rest) -> (length rest < fuel)%nat ->
  grep_loop sizeof_buf fuel pattern (part ++ tl) (length part) (input_of rest) out =
    Some (out ++ printed pattern (part ++ rest)).
Proof.
  induction fuel as [|fuel IH]; intros part tl rest out Hb Hp H10 H0 Hl Hf; [lia|].
  cbn [grep_loop]. rewrite length_app in Hb. destruct (decide (rest = [])) as [->|Hr].
  { cbn. by rewrite app_nil_r, printed_none, app_nil_r. }
  destruct (read_chunk rest (sizeof_buf - length part - 1) Hr ltac:(lia)) as (d & ds & rest' & -> & -> & Hd & Hfull).
  cbv iota. assert (0 < length (d :: ds))%nat as Hd0 by (cbn; lia). set (data := d :: ds) in *. clearbody data.
  rewrite length_app in Hf.
  destruct (grep_fill part tl data ltac:(lia)) as (junk & -> & Hj). cbn [mbind option_bind].
  rewrite !app_assoc in *. set (s := part ++ data) in *.
  rewrite not_elem_of_app in H0. destruct H0 as [H0s H0r].
  assert (length s = (length part + length data)%nat) as Hs by (unfold s; by rewrite length_app).
  destruct (grep_lines_run pattern junk sizeof_buf [] s out H0s ltac:(lia)) as (pre' & E & Hlen).
  cbn [app length Nat.add] in E. cbn [length] in Hlen. rewrite E. cbn [mbind option_bind]. clear E.
  rewrite (printed_app pattern s), (app_assoc out).
  assert (length (pre' ++ snd (lines s) ++ 0 :: junk) = sizeof_buf) as Hbuf.
  { rewrite <- Hb, <- length_app, <- Hj. rewrite !length_app in *. cbn in *. lia. }
  destruct (Nat.eqb_spec (length pre') 0) as [Hz|Hz].
  - assert (10 ∉ s) as Hns by (apply lines_rest_all; lia).
    rewrite (lines_none s) in * by done. cbn [fst snd] in *.
    destruct (lines_fit_drop s rest' pattern Hns Hl) as [Hl' ->]; [destruct Hfull; [right; lia|by left]|].
    apply (IH [] _ rest'); [done|cbn; lia|apply not_elem_of_nil|done|done|lia].
  - rewrite (proj2 (Nat.ltb_lt _ _)) by lia. rewrite <- Hs.
    replace (length s - length pre')%nat with (length (snd (lines s))) by lia.
    destruct (grep_memmove pre' (snd (lines s)) (0 :: junk)) as (tl' & -> & Htl). cbn [mbind option_bind].
    apply IH; try done.
    + congruence.
    + lia.
    + apply lines_rest_no_newline.
    + rewrite not_elem_of_app. split; [|done]. intros H. apply H0s. rewrite (lines_concat s). apply elem_of_app. by right.
    + by apply lines_fit_rest.
    + lia.
Qed.

End Buffer.

Lemma grep_run pattern s : 0 ∉ s -> lines_fit 1024 s -> grep pattern (input_of s) = Some (printed pattern s).
Proof.
  intros H0 Hl. unfold grep. apply (grep_loop_run 1024 pattern _ [] (replicate 1024 0) s []);
    [exact (length_replicate 1024 0)|cbn [length]; lia|apply not_elem_of_nil|done|done|].
  destruct s; cbn; [lia|]. rewrite app_nil_r. lia.
Qed.

(** C21. A file is a sequence of lines that end with a newline, and a rest without one.
    If it has no null bytes and its lines fit in the buffer, grep terminates without an
    access outside the buffer and prints exactly the lines that match, in order, each
    with its newline.  The rest is not a line: it is never printed, even if it matches. *)
Theorem grep_prints_matches pattern s : 0 ∉ s -> lines_fit 1024 s ->
  exists ls rest, s = concat (map (fun l => l ++ [10]) ls) ++ rest /\ Forall (fun l => 10 ∉ l) ls /\ 10 ∉ rest /\
    grep pattern (input_of s) = Some (concat (map (fun l => l ++ [10]) (filter (fun l => match_ pattern l = true) ls))).
Proof.
  intros H0 Hl. exists (fst (lines s)), (snd (lines s)). split; [apply lines_concat|]. split; [apply lines_no_newline|].
  split; [apply lines_rest_no_newline|]. by apply grep_run.
Qed.

(** ["ab\ncb\nc"] and the pattern ["^c"]: the last line is lost. *)
Lemma grep_prints_matches_witness : exists ls rest, [97; 98; 10; 99; 98; 10; 99] = concat (map (fun l => l ++ [10]) ls) ++ rest /\
  Forall (fun l => 10 ∉ l) ls /\ 10 ∉ rest /\
  Some [99; 98; 10] = Some (concat (map (fun l => l ++ [10]) (filter (fun l => match_ [94; 99] l = true) ls))).
Proof.
  apply (grep_prints_matches [94; 99] [97; 98; 10; 99; 98; 10; 99]).
  - rewrite !not_elem_of_cons. repeat split; try lia. apply not_elem_of_nil.
  - repeat (apply Forall_cons_2; [cbn [length]; lia|]). apply Forall_nil_2.
Defined.

(** A last line without a newline is not printed, although it matches. *)
Lemma grep_drops_last_line : match_ [97] [97] = true /\ grep [97] (input_of [97]) = Some [].
Proof. split; vm_compute; reflexivity. Qed.

(** A piece of input without a newline is thrown away even when the buffer is not
    full, so a line that arrives in two pieces loses the first: the line
    ["abc"] is printed for the pattern ["^c"], as ["c"]. *)
Lemma grep_loses_partial_line :
  grep [94; 99] [[97; 98]; [99; 10]] = Some [99; 10] /\
  printed [94; 99] (concat [[97; 98]; [99; 10]]) = [].
Proof. split; vm_compute; reflexivity. Qed.
