(* ===== verification/Sh.v ===== *)
(** The shell (sh.c): its parser, with the tokens as pointers into the command
    line that [nulterminate] turns into strings, and the commands it runs. *)

From S2P Require Import Prelude Ulib.

(** ** Outcomes and parsers

    A run of the shell's code ends with a value, by [panic] with the text it
    printed, by a read outside the line, or without fuel.  A parser also moves
    the position [*ps]. *)

Inductive outcome (A : Type) :=
  | Done (a : A)
  | Exits (err : list Z)
  | Fault
  | NoFuel.
Arguments Done {A} a.
Arguments Exits {A} err.
Arguments Fault {A}.
Arguments NoFuel {A}.

Definition P (A : Type) : Type := nat -> outcome (A * nat).

#[global] Instance P_ret : MRet P := fun A a p => Done (a, p).
#[global] Instance P_bind : MBind P := fun A B k c p =>
  match c p with
  | Done (a, p) => k a p
  | Exits e => Exits e
  | Fault => Fault
  | NoFuel => NoFuel
  end.

Definition die {A} (err : list Z) : P A := fun _ => Exits err.
(** [panic(s)] *)
Definition panic {A} (s : string) : P A := die (bytes_of s ++ [10]).
Definition getp : P nat := fun p => Done (p, p).
Definition setp (p : nat) : P unit := fun _ => Done (tt, p).
Definition nofuel {A} : P A := fun _ => NoFuel.

(** ** Commands

    [W] is the type of words: while parsing, the pair of pointers to the first
    character and past the last one. *)

Inductive cmd (W : Type) :=
  | Exec (argv : list W)
  | Redir (c : cmd W) (file : W) (mode fd : Z)
  | Pipe (left right : cmd W)
  | List (left right : cmd W)
  | Back (c : cmd W).
Arguments Exec {W} argv.
Arguments Redir {W} c file mode fd.
Arguments Pipe {W} left right.
Arguments List {W} left right.
Arguments Back {W} c.

Definition word : Type := nat * nat.

Definition MAXARGS : nat := 10.
Definition O_RDONLY : Z := 0.
Definition O_WRONLY : Z := 1.
Definition O_CREATE : Z := 512.

(** ** Tokens *)

Definition whitespace : list Z := [32; 9; 13; 10; 11].
Definition symbols : list Z := Eval cbv in bytes_of "<|>&;()".

(** The other sets of characters the parser looks for. *)
Definition one_char : list Z := Eval cbv in bytes_of "|();&<".
Definition t_redir : list Z := Eval cbv in bytes_of "<>".
Definition t_end : list Z := Eval cbv in bytes_of "|)&;".
Definition t_back : list Z := Eval cbv in bytes_of "&".
Definition t_list : list Z := Eval cbv in bytes_of ";".
Definition t_pipe : list Z := Eval cbv in bytes_of "|".
Definition t_open : list Z := Eval cbv in bytes_of "(".
Definition t_close : list Z := Eval cbv in bytes_of ")".

(** [strchr(set, c)] as a condition, for a character that is not null. *)
Definition is_in (set : list Z) (c : Z) : bool := existsb (Z.eqb c) set.

Section Parser.
(** The command line, without its terminator: [es] is its end. *)
Context (s : list Z).

Definition rd (p : nat) : P Z :=
  if (p <=? length s)%nat then mret (default 0 (s !! p)) else fun _ => Fault.

(** [while(s < es && f( *s)) s++], from the text that is left. *)
Fixpoint skip_while (f : Z -> bool) (rest : list Z) (p : nat) : nat :=
  match rest with
  | [] => p
  | c :: rest => if f c then skip_while f rest (S p) else p
  end.

Definition skip_ws : P unit :=
  p ← getp; setp (skip_while (is_in whitespace) (drop p s) p).

(** The token's code, and its first and last positions. *)
Definition gettoken : P (Z * word) :=
  skip_ws ;;
  q ← getp;
  c ← rd q;
  ret ← (if c =? 0 then mret 0
         else if is_in one_char c then setp (S q) ;; mret c
         else if c =? 62 then
           setp (S q) ;;
           c2 ← rd (S q);
           if c2 =? 62 then setp (S (S q)) ;; mret 43 else mret c
         else
           setp (skip_while (fun c => negb (is_in whitespace c) && negb (is_in symbols c)) (drop q s) q) ;;
           mret 97);
  eq ← getp;
  skip_ws ;;
  mret (ret, (q, eq)).

Definition peek (toks : list Z) : P bool :=
  skip_ws ;;
  p ← getp;
  c ← rd p;
  mret (negb (c =? 0) && is_in toks c).

(** ** The parser

    The loops take at least one character in each iteration. *)

(** The redirections parsed by [parseredirs], in order: file, mode and
    descriptor.  The command they apply to is the caller's. *)
Definition redirection : Type := word * Z * Z.

Fixpoint redirs_loop (fuel : nat) : P (list redirection) :=
  match fuel with
  | O => nofuel
  | S fuel =>
      b ← peek t_redir;
      if negb b then mret [] else
      t ← gettoken;
      f ← gettoken;
      if negb (fst f =? 97) then panic "missing file for redirection" else
      rs ← redirs_loop fuel;
      if fst t =? 60 then mret ((snd f, O_RDONLY, 0) :: rs)
      else if (fst t =? 62) || (fst t =? 43) then mret ((snd f, Z.lor O_WRONLY O_CREATE, 1) :: rs)
      else mret rs
  end.

Definition redir_all {W} (c : cmd W) (rs : list (W * Z * Z)) : cmd W :=
  fold_left (fun c '(f, mode, fd) => Redir c f mode fd) rs c.

Definition parseredirs : P (list redirection) := redirs_loop (S (length s)).

(** The arguments and the redirections of a command; [n] arguments so far. *)
Fixpoint args_loop (fuel : nat) (n : nat) : P (list word * list redirection) :=
  match fuel with
  | O => nofuel
  | S fuel =>
      b ← peek t_end;
      if (b : bool) then mret ([], []) else
      t ← gettoken;
      if fst t =? 0 then mret ([], []) else
      if negb (fst t =? 97) then panic "syntax" else
      if (MAXARGS <=? S n)%nat then panic "too many args" else
      rs ← parseredirs;
      r ← args_loop fuel (S n);
      mret (snd t :: fst r, rs ++ snd r)
  end.

(** [while(peek(ps, es, "&"))] *)
Fixpoint back_loop (fuel : nat) (c : cmd word) : P (cmd word) :=
  match fuel with
  | O => nofuel
  | S fuel =>
      b ← peek t_back;
      if negb b then mret c else
      gettoken ;;
      back_loop fuel (Back c)
  end.

Fixpoint parseline (fuel : nat) : P (cmd word) :=
  match fuel with
  | O => nofuel
  | S fuel =>
      c ← parsepipe fuel;
      c ← back_loop (S (length s)) c;
      b ← peek t_list;
      if negb b then mret c else
      gettoken ;;
      r ← parseline fuel;
      mret (List c r)
  end
with parsepipe (fuel : nat) : P (cmd word) :=
  match fuel with
  | O => nofuel
  | S fuel =>
      c ← parseexec fuel;
      b ← peek t_pipe;
      if negb b then mret c else
      gettoken ;;
      r ← parsepipe fuel;
      mret (Pipe c r)
  end
with parseexec (fuel : nat) : P (cmd word) :=
  match fuel with
  | O => nofuel
  | S fuel =>
      b ← peek t_open;
      if (b : bool) then parseblock fuel else
      rs ← parseredirs;
      r ← args_loop MAXARGS 0;
      mret (redir_all (Exec (fst r)) (rs ++ snd r))
  end
with parseblock (fuel : nat) : P (cmd word) :=
  match fuel with
  | O => nofuel
  | S fuel =>
      b ← peek t_open;
      if negb b then panic "parseblock" else
      gettoken ;;
      c ← parseline fuel;
      b ← peek t_close;
      if negb b then panic "syntax - missing )" else
      gettoken ;;
      rs ← parseredirs;
      mret (redir_all c rs)
  end.

(** Each level of the grammar takes one unit of fuel, and the way round from a
    line to a line in a block takes a character. *)
Definition parse_fuel (n : nat) : nat := 4 * n + 4.

Definition parsecmd : P (cmd word) :=
  c ← parseline (parse_fuel (length s));
  peek [] ;;
  p ← getp;
  if negb (p =? length s)%nat then
    die (bytes_of "leftovers: " ++ drop p s ++ [10] ++ bytes_of "syntax" ++ [10])
  else mret c.

End Parser.

(** ** Terminating the words *)

(** [nulterminate] stores a null character past each word, in the buffer that
    holds the line. *)
Definition put0 (buf : list Z) (w : word) : list Z := <[snd w := 0]> buf.

Fixpoint nulterminate (c : cmd word) (buf : list Z) : list Z :=
  match c with
  | Exec argv => fold_left put0 argv buf
  | Redir c f _ _ => put0 (nulterminate c buf) f
  | Pipe l r => nulterminate r (nulterminate l buf)
  | List l r => nulterminate r (nulterminate l buf)
  | Back c => nulterminate c buf
  end.

(** The string at a pointer into the buffer. *)
Fixpoint cstring (l : list Z) : option (list Z) :=
  match l with
  | [] => None
  | c :: l => if c =? 0 then Some [] else t ← cstring l; Some (c :: t)
  end.

(** The command with the strings its pointers stand for. *)
Fixpoint strings (buf : list Z) (c : cmd word) : option (cmd (list Z)) :=
  match c with
  | Exec argv => ws ← mapM (fun w : word => cstring (drop (fst w) buf)) argv; Some (Exec ws)
  | Redir c f mode fd => c ← strings buf c; f ← cstring (drop (fst f) buf); Some (Redir c f mode fd)
  | Pipe l r => l ← strings buf l; r ← strings buf r; Some (Pipe l r)
  | List l r => l ← strings buf l; r ← strings buf r; Some (List l r)
  | Back c => c ← strings buf c; Some (Back c)
  end.

(** [parsecmd] on a line, as [runcmd] sees its result. *)
Definition parse (s : list Z) : outcome (option (cmd (list Z))) :=
  match parsecmd s 0%nat with
  | Done (c, _) => Done (strings (nulterminate c (s ++ [0])) c)
  | Exits e => Exits e
  | Fault => Fault
  | NoFuel => NoFuel
  end.

(** ** Running commands

    What the shell asks of the kernel, in order.  The results of [open], [exec],
    [chdir] and [fork] are parameters: [exec] returns only when it fails. *)

#[warnings="-register-all"]
Inductive event :=
  | Eclose (fd : Z)
  | Eopen (file : list Z) (mode : Z)
  | Eexec (argv : list (list Z))
  | Eprint (fd : Z) (text : list Z)
  | Echdir (path : list Z)
  | Efork (child : list event)
  | Ewait.

Section Run.
Context (open_ : list Z -> Z -> Z) (exec_ : list (list Z) -> bool) (chdir_ : list Z -> Z) (fork_ : list Z -> bool).

Fixpoint runcmd (c : cmd (list Z)) : list event :=
  match c with
  | Exec [] => []
  | Exec argv => Eexec argv :: (if exec_ argv then [] else [Eprint 2 (bytes_of "Command not found" ++ [10])])
  | Redir c f mode fd =>
      Eclose fd :: Eopen f mode ::
      (if open_ f mode <? 0 then [Eprint 2 (bytes_of "Cannot open file" ++ [10])] else []) ++ runcmd c
  | List l _ => Eprint 2 (bytes_of "list not implemented" ++ [10]) :: runcmd l
  | Pipe l _ => Eprint 2 (bytes_of "pipe not implemented" ++ [10]) :: runcmd l
  | Back c => Eprint 2 (bytes_of "background not implemented" ++ [10]) :: runcmd c
  end.

(** The child of [main]: [runcmd(parsecmd(buf))]; [None] is a run that goes
    wrong. *)
Definition run_line (line : list Z) : option (list event) :=
  match parse line with
  | Done (Some c) => Some (runcmd c)
  | Exits err => Some [Eprint 2 err]
  | _ => None
  end.

Definition sizeof_line : Z := 100.

(** The line read, or nothing at the end of the input. *)
Definition getcmd (input : list Z) : option (list Z) * list Z :=
  let (line, rest) := gets sizeof_line input in
  (if line is 0 :: _ then None else cstring line, rest).

(** The loop of [main]; every iteration reads at least one character.  [fork_]
    says whether the fork for a line succeeds; the shell does not survive one that
    fails. *)
Fixpoint main_loop (fuel : nat) (input : list Z) : option (list event) :=
  match fuel with
  | O => None
  | S fuel =>
      let (line, rest) := getcmd input in
      let prompt := Eprint 2 (bytes_of "$ ") in
      match line with
      | None => Some [prompt]
      | Some buf =>
          if bool_decide (take 3 buf = bytes_of "cd ") then
            let path := removelast (drop 3 buf) in
            es ← main_loop fuel rest;
            Some (prompt :: Echdir path ::
              (if chdir_ path <? 0 then [Eprint 2 (bytes_of "cannot cd " ++ path ++ [10])] else []) ++ es)
          else if negb (fork_ buf) then Some [prompt; Eprint 2 (bytes_of "fork" ++ [10])]
          else
            child ← run_line buf;
            es ← main_loop fuel rest;
            Some (prompt :: Efork child :: Ewait :: es)
      end
  end.

End Run.
