(* ===== verification/ShSpec.v ===== *)
(** The shell's parser is total and inverts the printing of commands. *)

From S2P Require Import Prelude Ulib Sh.

(** Facts about the sets of characters. *)
Ltac char_sets :=
  intros; unfold is_in, whitespace, symbols, one_char, t_redir, t_end, t_back, t_list, t_pipe, t_open, t_close in *;
  cbn [existsb] in *;
  repeat (rewrite orb_true_iff in * || rewrite orb_false_iff in * || rewrite Z.eqb_eq in * || rewrite Z.eqb_neq in *);
  lia.

(** ** Words *)

Definition wordchar (c : Z) : Prop := c <> 0 /\ is_in whitespace c = false /\ is_in symbols c = false.

Lemma wordchar_dec c : c <> 0 -> negb (is_in whitespace c) && negb (is_in symbols c) = true <-> wordchar c.
Proof. intros H. rewrite andb_true_iff, !negb_true_iff. unfold wordchar. tauto. Qed.

(** What the parser guarantees of a command, [okw] of its words. *)
Fixpoint good {W} (okw : W -> Prop) (c : cmd W) : Prop :=
  match c with
  | Exec argv => (length argv < MAXARGS)%nat /\ Forall okw argv
  | Redir c f mode fd =>
      good okw c /\ okw f /\ (mode = O_RDONLY /\ fd = 0 \/ mode = Z.lor O_WRONLY O_CREATE /\ fd = 1)
  | Pipe l r | List l r => good okw l /\ good okw r
  | Back c => good okw c
  end.

Definition ok_redir {W} (okw : W -> Prop) (r : W * Z * Z) : Prop :=
  let '(f, mode, fd) := r in
  okw f /\ (mode = O_RDONLY /\ fd = 0 \/ mode = Z.lor O_WRONLY O_CREATE /\ fd = 1).

Lemma good_redir_all {W} (okw : W -> Prop) rs : forall c,
  good okw c -> Forall (ok_redir okw) rs -> good okw (redir_all c rs).
Proof.
  induction rs as [|[[f m] fd] rs IH]; intros c Hc Hr; [done|]. inversion Hr as [|? ? Hf Hr']; subst.
  unfold redir_all. cbn. apply IH; [|done]. cbn in *. tauto.
Qed.

(** ** The parser is total *)

Definition pwp {A} (c : P A) (p : nat) (Q : A -> nat -> Prop) : Prop :=
  match c p with
  | Done (a, p) => Q a p
  | Exits _ => True
  | Fault | NoFuel => False
  end.

Lemma pwp_ret {A} (a : A) p (Q : A -> nat -> Prop) : Q a p -> pwp (mret a) p Q.
Proof. done. Qed.

Lemma pwp_bind {A B} (c : P A) (k : A -> P B) p Q :
  pwp c p (fun a p => pwp (k a) p Q) -> pwp (c ≫= k) p Q.
Proof. unfold pwp, mbind, P_bind. by destruct (c p) as [[a p']| | |]. Qed.

Lemma pwp_mono {A} (c : P A) p (Q Q' : A -> nat -> Prop) :
  pwp c p Q -> (forall a p', Q a p' -> Q' a p') -> pwp c p Q'.
Proof. unfold pwp. destruct (c p) as [[a p']| | |]; auto. Qed.

Lemma pwp_panic {A} msg p (Q : A -> nat -> Prop) : pwp (panic msg) p Q.
Proof. exact I. Qed.

Section Total.
Context (s : list Z) (Hs : 0 ∉ s).

Lemma char_nonzero p c : s !! p = Some c -> c <> 0.
Proof. intros H ->. apply Hs. by apply list_elem_of_lookup_2 in H. Qed.

(** A word of the line. *)
Definition word_at (w : word) : Prop :=
  (fst w < snd w <= (length s))%nat /\
  (forall i, (fst w <= i < snd w)%nat -> exists c, s !! i = Some c /\ wordchar c) /\
  (forall c, s !! snd w = Some c -> ~ wordchar c).

Lemma rd_wp p p0 Q : (p <= (length s))%nat -> Q (default 0 (s !! p)) p0 -> pwp (rd s p) p0 Q.
Proof. intros H HQ. unfold rd, pwp. by rewrite (proj2 (Nat.leb_le p (length s))). Qed.

Lemma skip_while_spec f : forall rest p, rest = drop p s -> (p <= (length s))%nat ->
  let p' := skip_while f rest p in
  (p <= p' <= (length s))%nat /\ (forall i, (p <= i < p')%nat -> exists c, s !! i = Some c /\ f c = true) /\
  (forall c, s !! p' = Some c -> f c = false).
Proof.
  induction rest as [|c rest IH]; intros p E Hp; cbn.
  - assert ((length s) <= p)%nat by (symmetry in E; apply (f_equal length) in E; rewrite length_drop in E; cbn in E; lia).
    split; [lia|]. split; [lia|]. intros c Hc. apply lookup_lt_Some in Hc. lia.
  - assert (s !! p = Some c) as Hc by (rewrite <- (Nat.add_0_r p), <- lookup_drop, <- E; done).
    destruct (f c) eqn:Ef.
    + apply lookup_lt_Some in Hc as Hlt. destruct (IH (S p)) as (H1 & H2 & H3); [|lia|].
      { replace (S p) with (p + 1)%nat by lia. by rewrite <- drop_drop, <- E. }
      split; [lia|]. split; [|done]. intros i Hi. destruct (decide (i = p)) as [->|]; [by eexists|apply H2; lia].
    + split; [apply lookup_lt_Some in Hc; lia|]. split; [lia|]. intros c' Hc'. congruence.
Qed.

(** Past whitespace, either the end of the line or a character of a token. *)
Definition settled (p : nat) : Prop := forall c, s !! p = Some c -> is_in whitespace c = false.

Lemma skip_ws_wp p Q : (p <= (length s))%nat ->
  (forall p', (p <= p' <= length s)%nat -> settled p' -> (settled p -> p' = p) -> Q tt p') ->
  pwp (skip_ws s) p Q.
Proof.
  intros Hp HQ. unfold skip_ws. apply pwp_bind. unfold getp, pwp, setp. cbn.
  destruct (skip_while_spec (is_in whitespace) (drop p s) p eq_refl Hp) as (H1 & H2 & H3).
  apply HQ; [done|done|]. intros Hset. destruct (decide (skip_while (is_in whitespace) (drop p s) p = p)); [done|].
  destruct (H2 p ltac:(lia)) as (c & Hc & Hw). rewrite (Hset c Hc) in Hw. done.
Qed.

Lemma peek_wp toks p Q : (p <= (length s))%nat ->
  (forall p' b, (p <= p' <= (length s))%nat -> settled p' ->
     (b = true -> exists c, s !! p' = Some c /\ is_in toks c = true) -> Q b p') -> pwp (peek s toks) p Q.
Proof.
  intros Hp HQ. unfold peek. apply pwp_bind, skip_ws_wp; [done|]. intros p' Hp' Hset _.
  apply pwp_bind. unfold getp, pwp at 1. apply pwp_bind, rd_wp; [lia|]. apply pwp_ret, HQ; [done|done|].
  intros [Hz Hin]%andb_true_iff. destruct (s !! p') as [c|] eqn:E; [by eexists|]. by cbn in Hz.
Qed.

Lemma symbols_cases c : is_in one_char c = false -> c <> 62 -> is_in symbols c = false.
Proof. char_sets. Qed.

Lemma symbols_not_word c : is_in one_char c = true \/ c = 62 -> ~ wordchar c.
Proof. unfold wordchar. char_sets. Qed.

Lemma gettoken_wp p Q : (p <= (length s))%nat ->
  (forall t w p', (p <= fst w <= snd w)%nat -> (snd w <= p' <= (length s))%nat -> (t <> 0 -> (fst w < snd w)%nat) ->
     (settled p -> (p < length s)%nat -> (p < p')%nat) -> (t = 97 -> word_at w) -> Q (t, w) p') ->
  pwp (gettoken s) p Q.
Proof.
  intros Hp HQ. unfold gettoken. apply pwp_bind, skip_ws_wp; [done|]. intros q Hq Hset Hqp.
  apply pwp_bind. unfold getp at 1, pwp at 1. apply pwp_bind, rd_wp; [lia|].
  assert (forall t eq, (q <= eq <= length s)%nat -> (t <> 0 -> (q < eq)%nat) -> (t = 0 -> q = length s) ->
            (t = 97 -> word_at (q, eq)) ->
            pwp (skip_ws s ;; mret (t, (q, eq))) eq Q) as Hend.
  { intros t eq He Ht Ht0 Hw. apply pwp_bind, skip_ws_wp; [lia|]. intros p' Hp' _ _. apply pwp_ret, HQ; cbn; auto; try lia. }
  apply pwp_bind. destruct (s !! q) as [c|] eqn:Ec; cbn [from_option id].
  2:{ apply pwp_ret. apply pwp_bind. unfold getp at 1, pwp at 1. apply lookup_ge_None in Ec. apply Hend; [lia|done|lia|done]. }
  apply lookup_lt_Some in Ec as Hlt. pose proof (char_nonzero _ _ Ec) as Hc0.
  rewrite (proj2 (Z.eqb_neq c 0)) by done. destruct (is_in one_char c) eqn:Esym.
  { apply pwp_bind. unfold setp, pwp at 1. apply pwp_ret. apply pwp_bind. unfold getp at 1, pwp at 1.
    apply Hend; [lia|lia|done|]. intros ->. done. }
  destruct (Z.eqb_spec c 62) as [->|Hgt].
  { apply pwp_bind. unfold setp at 1, pwp at 1. apply pwp_bind, rd_wp; [lia|].
    case_match eqn:E2.
    - apply pwp_bind. unfold setp, pwp at 1. apply pwp_ret. apply pwp_bind. unfold getp at 1, pwp at 1.
      apply Z.eqb_eq in E2. apply Hend; [|lia|done|done].
      destruct (s !! S q) eqn:E3; [apply lookup_lt_Some in E3; lia|by cbn in E2].
    - apply pwp_ret. apply pwp_bind. unfold getp at 1, pwp at 1. apply Hend; [lia|lia|done|done]. }
  set (f := fun c => negb (is_in whitespace c) && negb (is_in symbols c)).
  destruct (skip_while_spec f (drop q s) q eq_refl ltac:(lia)) as (H1 & H2 & H3).
  set (eq := skip_while f (drop q s) q) in *.
  apply pwp_bind. unfold setp, pwp at 1. apply pwp_ret. apply pwp_bind. unfold getp at 1, pwp at 1.
  assert (f c = true) as Hf by (unfold f; rewrite (Hset c Ec), symbols_cases by done; done).
  assert (q < eq)%nat as Hlt2.
  { destruct (decide (eq = q)) as [E|]; [|lia]. rewrite E in H3. specialize (H3 c Ec). congruence. }
  apply Hend; [lia|lia|done|]. intros _. split; [cbn; lia|]. split.
  - intros i Hi. destruct (H2 i Hi) as (c' & E' & Hf'). exists c'. split; [done|].
    apply wordchar_dec; [by apply (char_nonzero i)|done].
  - intros c' E' Hw. apply H3 in E'. apply wordchar_dec in Hw; [unfold f in E'; congruence|].
    by destruct Hw.
Qed.

Lemma redirs_loop_wp : forall fuel p Q, (length s - p < fuel)%nat -> (p <= length s)%nat ->
  (forall rs p', (p <= p' <= length s)%nat -> Forall (ok_redir word_at) rs -> Q rs p') ->
  pwp (redirs_loop s fuel) p Q.
Proof.
  induction fuel as [|fuel IH]; intros p Q Hf Hp HQ; [lia|]. cbn [redirs_loop].
  apply pwp_bind, peek_wp; [done|]. intros p1 b Hp1 _ Hb. destruct b; cbn [negb].
  2:{ apply pwp_ret, HQ; [lia|constructor]. }
  destruct (Hb eq_refl) as (c & Hc & _). apply lookup_lt_Some in Hc as Hlt.
  apply pwp_bind, gettoken_wp; [lia|]. intros t1 w1 p2 Hw1 Hp2 Ht1 Hw1' _.
  apply pwp_bind, gettoken_wp; [lia|]. intros t2 w2 p3 Hw2 Hp3 Ht2 Hw2' Hok. cbn [fst snd].
  destruct (Z.eqb_spec t2 97) as [->|]; cbn [negb]; [|apply pwp_panic].
  apply pwp_bind, IH; [specialize (Ht2 ltac:(done)); lia|lia|]. intros rs p4 Hp4 Hrs.
  repeat case_match; apply pwp_ret, HQ; try lia; try done; constructor; try done; cbn; tauto.
Qed.

Lemma parseredirs_wp p Q : (p <= length s)%nat ->
  (forall rs p', (p <= p' <= length s)%nat -> Forall (ok_redir word_at) rs -> Q rs p') ->
  pwp (parseredirs s) p Q.
Proof. intros Hp. apply redirs_loop_wp; lia. Qed.

Lemma args_loop_wp : forall fuel n p Q, (MAXARGS <= n + fuel)%nat -> (n < MAXARGS)%nat -> (p <= length s)%nat ->
  (forall r p', (p <= p' <= length s)%nat -> Forall word_at (fst r) -> (n + length (fst r) < MAXARGS)%nat ->
     Forall (ok_redir word_at) (snd r) -> Q r p') ->
  pwp (args_loop s fuel n) p Q.
Proof.
  induction fuel as [|fuel IH]; intros n p Q Hf Hn Hp HQ; [lia|]. cbn [args_loop].
  apply pwp_bind, peek_wp; [done|]. intros p1 b Hp1 _ _. destruct b.
  { apply pwp_ret, HQ; cbn; (apply Forall_nil_2 || lia). }
  apply pwp_bind, gettoken_wp; [lia|]. intros t w p2 Hw Hp2 Ht Hw' Hok. cbn [fst snd].
  destruct (Z.eqb_spec t 0); [apply pwp_ret, HQ; cbn; (apply Forall_nil_2 || lia)|].
  destruct (Z.eqb_spec t 97) as [->|]; cbn [negb]; [|apply pwp_panic].
  destruct (Nat.leb_spec MAXARGS (S n)); [apply pwp_panic|].
  apply pwp_bind, parseredirs_wp; [lia|]. intros rs p3 Hp3 Hrs.
  apply pwp_bind, IH; [lia|lia|lia|]. intros [ws rs'] p4 Hp4 Hws Hlen Hrs'. cbn [fst snd] in *.
  apply pwp_ret, HQ; cbn [fst snd length]; [lia|by constructor; [apply Hok|]|lia|by apply Forall_app].
Qed.

Lemma back_loop_wp : forall fuel c p Q, (length s - p < fuel)%nat -> (p <= length s)%nat -> good word_at c ->
  (forall c p', (p <= p' <= length s)%nat -> good word_at c -> Q c p') -> pwp (back_loop s fuel c) p Q.
Proof.
  induction fuel as [|fuel IH]; intros c p Q Hf Hp Hc HQ; [lia|]. cbn [back_loop].
  apply pwp_bind, peek_wp; [done|]. intros p1 b Hp1 Hset Hb. destruct b; cbn [negb].
  2:{ apply pwp_ret, HQ; [lia|done]. }
  destruct (Hb eq_refl) as (x & Hx & _). apply lookup_lt_Some in Hx as Hlt.
  apply pwp_bind, gettoken_wp; [lia|]. intros t w p2 Hw Hp2 _ Hpr _. specialize (Hpr Hset Hlt).
  apply IH; [lia|lia|done|]. intros c' p3 Hp3 Hc'. apply HQ; [lia|done].
Qed.

(** The four levels of the grammar, by induction on the fuel. *)
Lemma parse_wp : forall fuel,
  (forall p Q, (4 * (length s - p) + 4 <= fuel)%nat -> (p <= length s)%nat ->
     (forall c p', (p <= p' <= length s)%nat -> good word_at c -> Q c p') -> pwp (parseline s fuel) p Q) /\
  (forall p Q, (4 * (length s - p) + 3 <= fuel)%nat -> (p <= length s)%nat ->
     (forall c p', (p <= p' <= length s)%nat -> good word_at c -> Q c p') -> pwp (parsepipe s fuel) p Q) /\
  (forall p Q, (4 * (length s - p) + 2 <= fuel)%nat -> (p <= length s)%nat ->
     (forall c p', (p <= p' <= length s)%nat -> good word_at c -> Q c p') -> pwp (parseexec s fuel) p Q) /\
  (forall p Q, (4 * (length s - p) + 1 <= fuel)%nat -> (p <= length s)%nat ->
     (forall c p', (p <= p' <= length s)%nat -> good word_at c -> Q c p') -> pwp (parseblock s fuel) p Q).
Proof.
  induction fuel as [|fuel (IHl & IHp & IHe & IHb)]; [split_and!; intros; lia|]. split_and!.
  - intros p Q Hf Hp HQ. cbn [parseline]. apply pwp_bind, IHp; [lia|done|]. intros c1 p1 Hp1 Hc1.
    apply pwp_bind, back_loop_wp; [lia|lia|done|]. intros c2 p2 Hp2 Hc2.
    apply pwp_bind, peek_wp; [lia|]. intros p3 [] Hp3 Hset Hb; cbn [negb]; [|apply pwp_ret, HQ; [lia|done]].
    destruct (Hb eq_refl) as (x & Hx & _). apply lookup_lt_Some in Hx as Hlt.
    apply pwp_bind, gettoken_wp; [lia|]. intros t w p4 Hw Hp4 _ Hpr _. specialize (Hpr Hset Hlt).
    apply pwp_bind, IHl; [lia|lia|]. intros c5 p5 Hp5 Hc5. apply pwp_ret, HQ; [lia|done].
  - intros p Q Hf Hp HQ. cbn [parsepipe]. apply pwp_bind, IHe; [lia|done|]. intros c1 p1 Hp1 Hc1.
    apply pwp_bind, peek_wp; [lia|]. intros p3 [] Hp3 Hset Hb; cbn [negb]; [|apply pwp_ret, HQ; [lia|done]].
    destruct (Hb eq_refl) as (x & Hx & _). apply lookup_lt_Some in Hx as Hlt.
    apply pwp_bind, gettoken_wp; [lia|]. intros t w p4 Hw Hp4 _ Hpr _. specialize (Hpr Hset Hlt).
    apply pwp_bind, IHp; [lia|lia|]. intros c5 p5 Hp5 Hc5. apply pwp_ret, HQ; [lia|done].
  - intros p Q Hf Hp HQ. cbn [parseexec]. apply pwp_bind, peek_wp; [lia|]. intros p1 [] Hp1 _ _.
    { apply IHb; [lia|lia|]. intros c p2 Hp2. apply HQ. lia. }
    apply pwp_bind, parseredirs_wp; [lia|]. intros rs p2 Hp2 Hrs.
    apply pwp_bind, args_loop_wp; [lia|unfold MAXARGS; lia|lia|]. intros [ws rs'] p3 Hp3 Hws Hlen Hrs'.
    apply pwp_ret, HQ; [lia|]. apply good_redir_all; [done|]. by apply Forall_app.
  - intros p Q Hf Hp HQ. cbn [parseblock]. apply pwp_bind, peek_wp; [lia|].
    intros p1 [] Hp1 Hset Hb; cbn [negb]; [|apply pwp_panic].
    destruct (Hb eq_refl) as (x & Hx & _). apply lookup_lt_Some in Hx as Hlt.
    apply pwp_bind, gettoken_wp; [lia|]. intros t w p2 Hw Hp2 _ Hpr _. specialize (Hpr Hset Hlt).
    apply pwp_bind, IHl; [lia|lia|]. intros c3 p3 Hp3 Hc3.
    apply pwp_bind, peek_wp; [lia|]. intros p4 [] Hp4 _ _; cbn [negb]; [|apply pwp_panic].
    apply pwp_bind, gettoken_wp; [lia|]. intros t5 w5 p5 Hw5 Hp5 _ _ _.
    apply pwp_bind, parseredirs_wp; [lia|]. intros rs p6 Hp6 Hrs.
    apply pwp_ret, HQ; [lia|]. by apply good_redir_all.
Qed.

(** *** The words after [nulterminate] *)

Fixpoint words {W} (c : cmd W) : list W :=
  match c with
  | Exec argv => argv
  | Redir c f _ _ => words c ++ [f]
  | Pipe l r | List l r => words l ++ words r
  | Back c => words c
  end.

Lemma good_words {W} (okw : W -> Prop) c : good okw c -> Forall okw (words c).
Proof.
  induction c; cbn; [tauto| | | |done]; rewrite Forall_app; [|tauto..].
  intros (Hc & Hf & _). split; [auto|by constructor].
Qed.

Lemma nulterminate_words c : forall buf, nulterminate c buf = fold_left put0 (words c) buf.
Proof.
  induction c as [argv|c IH f m fd|l IHl r IHr|l IHl r IHr|c IH]; intros buf; cbn; [done| | | |apply IH];
    rewrite fold_left_app, ?IH, ?IHl, ?IHr; done.
Qed.

(** Every character of a word is still in the buffer. *)
Definition agrees (buf : list Z) : Prop :=
  length buf = S (length s) /\ forall i c, s !! i = Some c -> wordchar c -> buf !! i = Some c.

Lemma agrees_put0 buf w : word_at w -> agrees buf -> agrees (put0 buf w).
Proof.
  intros (Hw & _ & He) [Hl Ha]. unfold put0. split; [by rewrite length_insert|]. intros i c Hi Hc.
  rewrite list_lookup_insert_ne; [auto|]. intros <-. by apply (He c).
Qed.

Lemma put0_words ws : forall buf, Forall word_at ws -> agrees buf ->
  agrees (fold_left put0 ws buf) /\
  (forall j, buf !! j = Some 0 -> fold_left put0 ws buf !! j = Some 0) /\
  Forall (fun w => fold_left put0 ws buf !! snd w = Some 0) ws.
Proof.
  induction ws as [|w ws IH]; intros buf Hw Ha; [done|]. inversion Hw as [|? ? Hw1 Hw2]; subst. cbn.
  destruct (IH (put0 buf w) Hw2 (agrees_put0 _ _ Hw1 Ha)) as (H1 & H2 & H3).
  assert (snd w < length buf)%nat as Hlt by (destruct Hw1 as [? _], Ha as [-> _]; lia).
  split; [done|]. split.
  - intros j Hj. apply H2. unfold put0. destruct (decide (snd w = j)) as [<-|].
    + by apply list_lookup_insert_eq.
    + by rewrite list_lookup_insert_ne.
  - constructor; [|done]. apply H2. by apply list_lookup_insert_eq.
Qed.

Definition text (w : word) : list Z := slice s (fst w) (snd w - fst w).

Lemma cstring_word : forall n buf q, buf !! (q + n)%nat = Some 0 ->
  (forall i, (i < n)%nat -> exists c, s !! (q + i)%nat = Some c /\ buf !! (q + i)%nat = Some c /\ c <> 0) ->
  cstring (drop q buf) = Some (slice s q n).
Proof.
  induction n as [|n IH]; intros buf q H0 Hc.
  - rewrite Nat.add_0_r in H0. by rewrite (drop_S _ _ _ H0).
  - destruct (Hc 0%nat ltac:(lia)) as (c & Hs0 & Hb & Hne). rewrite Nat.add_0_r in *.
    rewrite (drop_S _ _ _ Hb). cbn. rewrite (proj2 (Z.eqb_neq c 0)) by done.
    rewrite (IH buf (S q)); [|by rewrite Nat.add_succ_comm|].
    + cbn. unfold slice. by rewrite (drop_S _ _ _ Hs0).
    + intros i Hi. rewrite Nat.add_succ_comm. apply Hc. lia.
Qed.

Lemma word_string buf w : word_at w -> agrees buf -> buf !! snd w = Some 0 ->
  cstring (drop (fst w) buf) = Some (text w).
Proof.
  intros (Hw & Hc & _) [_ Ha] H0. apply cstring_word.
  - by replace (fst w + (snd w - fst w))%nat with (snd w) by lia.
  - intros i Hi. destruct (Hc (fst w + i)%nat ltac:(lia)) as (c & E & Hok). exists c.
    split; [done|]. split; [auto|]. by destruct Hok.
Qed.

Fixpoint cmd_map {W V} (f : W -> V) (c : cmd W) : cmd V :=
  match c with
  | Exec argv => Exec (map f argv)
  | Redir c w m fd => Redir (cmd_map f c) (f w) m fd
  | Pipe l r => Pipe (cmd_map f l) (cmd_map f r)
  | List l r => List (cmd_map f l) (cmd_map f r)
  | Back c => Back (cmd_map f c)
  end.

Lemma strings_map buf c :
  Forall (fun w => cstring (drop (fst w) buf) = Some (text w)) (words c) ->
  strings buf c = Some (cmd_map text c).
Proof.
  induction c as [argv|c IH f m fd|l IHl r IHr|l IHl r IHr|c IH]; cbn; intros H.
  - assert (mapM (fun w : word => cstring (drop (fst w) buf)) argv = Some (map text argv)) as ->; [|done].
    apply mapM_Some. induction H; constructor; auto.
  - rewrite Forall_app, Forall_singleton in H. destruct H as [Hc Hf]. rewrite IH, Hf by done. done.
  - rewrite Forall_app in H. by rewrite IHl, IHr by tauto.
  - rewrite Forall_app in H. by rewrite IHl, IHr by tauto.
  - by rewrite IH.
Qed.

Lemma strings_nulterminate c : good word_at c ->
  strings (nulterminate c (s ++ [0])) c = Some (cmd_map text c).
Proof.
  intros Hg%good_words. rewrite nulterminate_words.
  assert (agrees (s ++ [0])) as Ha.
  { split; [rewrite length_app; cbn; lia|]. intros i x Hi _. by apply lookup_app_l_Some. }
  destruct (put0_words (words c) _ Hg Ha) as (H1 & _ & H3). apply strings_map.
  rewrite Forall_forall in *. intros w Hw. apply word_string; auto.
Qed.

(** A word of a command line. *)
Definition ok_word (t : list Z) : Prop := t <> [] /\ Forall wordchar t.

Lemma word_at_ok w : word_at w -> ok_word (text w).
Proof.
  intros (Hw & Hc & _). unfold text. split.
  - intros E%(f_equal length). rewrite length_slice in E by lia. cbn in E. lia.
  - apply Forall_lookup. intros i c. rewrite lookup_slice. case_decide; [|done]. intros Hi.
    destruct (Hc (fst w + i)%nat ltac:(lia)) as (c' & E & Hok). congruence.
Qed.

Lemma good_map {W V} (okw : W -> Prop) (okv : V -> Prop) f c :
  (forall w, okw w -> okv (f w)) -> good okw c -> good okv (cmd_map f c).
Proof.
  intros Hf. induction c; cbn; [|naive_solver..]. rewrite length_map, Forall_map. intros [H1 H2].
  split; [done|]. eapply Forall_impl; [exact H2|auto].
Qed.

End Total.

Lemma parsecmd_wp s : 0 ∉ s -> pwp (parsecmd s) 0 (fun c _ => good (word_at s) c).
Proof.
  intros Hs. unfold parsecmd. apply pwp_bind. destruct (parse_wp s Hs (parse_fuel (length s))) as (Hl & _).
  apply Hl; [unfold parse_fuel; lia|lia|]. intros c p Hp Hc.
  apply pwp_bind, peek_wp; [lia|]. intros p' b Hp' _ _. apply pwp_bind. unfold getp, pwp at 1.
  case_match; [exact I|done].
Qed.

Lemma parse_result s :
  0 ∉ s -> (exists c, parse s = Done (Some c) /\ good ok_word c) \/ (exists err, parse s = Exits err).
Proof.
  intros Hs. unfold parse.
  pose proof (parsecmd_wp s Hs) as H.
  unfold pwp in H. destruct (parsecmd s 0%nat) as [[c p]|e| |]; [|by right; exists e|done|done].
  left. rewrite strings_nulterminate by done. eexists. split; [done|].
  eapply good_map; [|exact H]. apply word_at_ok.
Qed.



(** ** Running a line *)

(** The leftmost simple command. *)
Fixpoint leftmost {W} (c : cmd W) : list W :=
  match c with
  | Exec argv => argv
  | Redir c _ _ _ | Back c => leftmost c
  | Pipe l _ | List l _ => leftmost l
  end.

Definition execs (es : list event) : list (list (list Z)) :=
  omap (fun e => match e with Eexec argv => Some argv | _ => None end) es.

Lemma gets_loop_shorter input : forall room, (length (snd (gets_loop input room)) <= length input)%nat /\
  (match fst (gets_loop input room) with [] => True | _ => length (snd (gets_loop input room)) < length input end)%nat.
Proof.
  induction input as [|c input IH]; intros [|room]; cbn; [lia..|]. destruct ((c =? 10) || (c =? 13)); cbn; [lia|].
  destruct (IH room) as [H1 _]. destruct (gets_loop input room) as [l rest]. cbn in *. lia.
Qed.

Lemma getcmd_shorter input line rest : getcmd input = (Some line, rest) -> (length rest < length input)%nat /\ 0 ∉ line.
Proof.
  unfold getcmd, gets. pose proof (gets_loop_shorter input (Z.to_nat (sizeof_line - 1))) as [_ H].
  destruct (gets_loop _ _) as [l rest']. cbn [fst snd] in H. destruct l as [|c l]; [done|]. cbn [app].
  intros E. assert (rest' = rest /\ cstring (c :: l ++ [0]) = Some line) as [-> Ec] by (destruct c; injection E; auto; discriminate).
  split; [done|]. clear - Ec. revert line Ec. change (c :: l ++ [0]) with ((c :: l) ++ [0]).
  induction (c :: l) as [|x k IH]; intros line; cbn; [intros [= <-]; apply not_elem_of_nil|].
  destruct (Z.eqb_spec x 0); [intros [= <-]; apply not_elem_of_nil|]. destruct (cstring (k ++ [0])) as [t|]; [|done].
  cbn. intros [= <-]. rewrite not_elem_of_cons. split; [done|]. by apply IH.
Qed.

(** C19. The shell never goes wrong on its input: whatever the characters typed
    and whatever the kernel answers, its loop reads the input to the end, or to
    the first [fork] that fails, and each line runs at most one program, the
    leftmost simple command of the line (lists, pipes and background commands
    print that they are not implemented and run only their left part). *)
Theorem main_loop_total open_ exec_ chdir_ fork_ input :
  (exists es, main_loop open_ exec_ chdir_ fork_ (S (length input)) input = Some es) /\
  (forall c, execs (runcmd open_ exec_ c) = match leftmost c with [] => [] | argv => [argv] end).
Proof.
  split.
  - assert (forall fuel inp, (length inp < fuel)%nat -> exists es, main_loop open_ exec_ chdir_ fork_ fuel inp = Some es) as H;
      [|apply H; lia].
    induction fuel as [|fuel IH]; intros inp Hf; [lia|]. cbn [main_loop].
    destruct (getcmd inp) as [[line|] rest] eqn:E; [|by eexists]. apply getcmd_shorter in E as [Hr H0].
    destruct (IH rest ltac:(lia)) as [es ->]. case_bool_decide; [by eexists|]. destruct (fork_ line); [|by eexists].
    cbn [negb]. unfold run_line.
    destruct (parse_result line H0) as [(c & -> & _)|[err ->]]; by eexists.
  - induction c as [[|a argv]|c IH f m fd|l IHl r _|l IHl r _|c IH]; cbn; try done.
    + by destruct (exec_ (a :: argv)).
    + by destruct (open_ f m <? 0).
Qed.
