(* ===== verification/ShPrint.v ===== *)
(** Printing a command and parsing it again (sh.c). *)

From S2P Require Import Prelude Ulib Sh ShSpec.

(** ** Printing *)

Definition show_word (w : list Z) : list Z := w ++ [32].

Definition show_redir (r : list Z * Z * Z) : list Z :=
  let '(f, mode, fd) := r in (if fd =? 0 then 60 else 62) :: show_word f.

Definition show_redirs (rs : list (list Z * Z * Z)) : list Z := concat (map show_redir rs).

Definition paren (b : bool) (t : list Z) : list Z := if b then 40 :: t ++ [41] else t.

(** The command at a level of the grammar: 0 for [parseexec], 1 for [parsepipe],
    2 for a pipe with its ampersands, 3 for [parseline].  A command that does not
    belong to the level is in parentheses. *)
Fixpoint show (lvl : nat) (c : cmd (list Z)) : list Z :=
  match c with
  | Exec argv => concat (map show_word argv)
  | Redir c f mode fd => show 0 c ++ show_redir (f, mode, fd)
  | Pipe l r => paren (lvl <? 1)%nat (show 0 l ++ 124 :: show 1 r)
  | Back c => paren (lvl <? 2)%nat (show 2 c ++ [38])
  | List l r => paren (lvl <? 3)%nat (show 2 l ++ 59 :: show 3 r)
  end.

(** What may follow a parsed text: not whitespace. *)
Definition clean (rest : list Z) : Prop :=
  match rest with [] => True | c :: _ => c <> 0 /\ is_in whitespace c = false end.

(** The end, or one of the characters of [set]. *)
Definition follows (set rest : list Z) : Prop :=
  match rest with [] => True | c :: _ => is_in set c = true end.

Lemma wordchar_clean w rest : ok_word w -> clean (w ++ rest).
Proof. intros [Hne Hw]. destruct w; [done|]. inversion Hw as [|? ? (H0 & Hws & _) _]; subst. done. Qed.

Lemma clean_redirs rs rest : clean rest -> clean (show_redirs rs ++ rest).
Proof.
  intros H. destruct rs as [|[[f m] fd] rs]; [done|]. unfold show_redirs. cbn. by destruct (fd =? 0).
Qed.

Lemma clean_args args rest : Forall ok_word args -> clean rest -> clean (concat (map show_word args) ++ rest).
Proof.
  intros Ha Hr. destruct Ha as [|w args Hw Ha]; [done|]. cbn. unfold show_word. rewrite <- !app_assoc.
  by apply wordchar_clean.
Qed.

Lemma clean_show c : forall lvl rest, good ok_word c -> clean rest -> clean (show lvl c ++ rest).
Proof.
  induction c as [argv|c IH f m fd|l IHl r IHr|l IHl r IHr|c IH]; intros lvl rest Hg Hr; cbn in Hg |- *.
  - by apply clean_args; [tauto|].
  - rewrite <- app_assoc. apply IH; [tauto|]. cbn. by destruct (fd =? 0).
  - unfold paren. case_match; [done|]. rewrite <- app_assoc. by apply IHl; [tauto|].
  - unfold paren. case_match; [done|]. rewrite <- app_assoc. by apply IHl; [tauto|].
  - unfold paren. case_match; [done|]. rewrite <- app_assoc. by apply IH.
Qed.

Lemma follows_clean set rest : (forall c, is_in set c = true -> is_in symbols c = true) -> follows set rest -> clean rest.
Proof. destruct rest as [|c rest]; [done|]. cbn. intros H Hc%H. revert Hc. clear. char_sets. Qed.

(** ** Reading what was printed *)

Section Read.
Context (s : list Z).

(** The text that is left at a position. *)
Definition cur (p : nat) (rest : list Z) : Prop := drop p s = rest /\ (p <= length s)%nat.

Lemma cur_app p a rest : cur p (a ++ rest) -> cur (p + length a) rest.
Proof.
  intros [E Hp]. apply (f_equal length) in E as El. rewrite length_drop, length_app in El.
  split; [|lia]. by rewrite <- drop_drop, E, drop_app_length.
Qed.

Lemma cur_cons p c rest : cur p (c :: rest) -> cur (S p) rest.
Proof. intros H. apply (cur_app p [c]) in H. cbn in H. by rewrite Nat.add_1_r in H. Qed.

Lemma cur_len p rest : cur p rest -> (length s - p = length rest)%nat.
Proof. intros [E _]. apply (f_equal length) in E. by rewrite length_drop in E. Qed.

Lemma cur_rd p rest p0 : cur p rest -> rd s p p0 = Done (default 0 (head rest), p0).
Proof.
  intros [E Hp]. unfold rd. rewrite (proj2 (Nat.leb_le _ _)) by done. unfold mret, P_ret.
  do 2 f_equal. rewrite <- (Nat.add_0_r p), <- lookup_drop, E. by destruct rest.
Qed.

Lemma skip_while_app f w rest : forall p, Forall (fun c => f c = true) w ->
  match rest with [] => True | c :: _ => f c = false end ->
  skip_while f (w ++ rest) p = (p + length w)%nat.
Proof.
  induction w as [|c w IH]; intros p Hw Hr; cbn.
  - destruct rest as [|c rest]; cbn; [lia|]. rewrite Hr. lia.
  - inversion Hw as [|? ? Hc Hw']; subst. rewrite Hc, IH by done. lia.
Qed.

Lemma skip_ws_run p rest : cur p rest -> clean rest -> skip_ws s p = Done (tt, p).
Proof.
  intros [E Hp] Hr. unfold skip_ws, mbind, P_bind, getp, setp. rewrite E.
  rewrite (skip_while_app _ [] rest) by (done || (destruct rest; cbn in *; tauto)). by rewrite Nat.add_0_r.
Qed.

Lemma skip_ws_space p rest : cur p (32 :: rest) -> clean rest -> skip_ws s p = Done (tt, S p).
Proof.
  intros [E Hp] Hr. unfold skip_ws, mbind, P_bind, getp, setp. rewrite E.
  rewrite (skip_while_app _ [32] rest) by (repeat constructor || (destruct rest; cbn in *; tauto)).
  cbn. do 2 f_equal. lia.
Qed.

Lemma P_bind_run {A B} (c : P A) (k : A -> P B) p a p' : c p = Done (a, p') -> (c ≫= k) p = k a p'.
Proof. intros E. unfold mbind, P_bind. by rewrite E. Qed.

Lemma peek_run toks p rest : cur p rest -> clean rest ->
  peek s toks p = Done (match rest with [] => false | c :: _ => is_in toks c end, p).
Proof.
  intros Hc Hr. unfold peek. erewrite P_bind_run by (by eapply skip_ws_run).
  erewrite P_bind_run by done. erewrite P_bind_run by (by apply cur_rd).
  unfold mret, P_ret. do 2 f_equal. destruct rest as [|c rest]; [done|]. cbn.
  destruct Hr as [H0 _]. by rewrite (proj2 (Z.eqb_neq c 0)).
Qed.

Lemma gettoken_end p : cur p [] -> gettoken s p = Done (0, (p, p), p).
Proof.
  intros H. unfold gettoken. erewrite P_bind_run by (by eapply skip_ws_run).
  erewrite P_bind_run by done. erewrite P_bind_run by (by apply cur_rd). cbn [head default from_option].
  erewrite P_bind_run by done. erewrite P_bind_run by done. by erewrite P_bind_run by (by eapply skip_ws_run).
Qed.

Lemma gettoken_sym p c rest : cur p (c :: rest) -> is_in one_char c = true -> clean rest ->
  gettoken s p = Done (c, (p, S p), S p).
Proof.
  intros H Hc Hr. assert (clean (c :: rest)) as Hcl by (cbn; revert Hc; clear; char_sets).
  unfold gettoken. erewrite P_bind_run by (by eapply skip_ws_run).
  erewrite P_bind_run by done. erewrite P_bind_run by (by apply cur_rd). cbn [head from_option id].
  destruct Hcl as [H0 _]. rewrite (proj2 (Z.eqb_neq c 0)), Hc by done.
  erewrite P_bind_run by done. erewrite P_bind_run by done.
  by erewrite P_bind_run by (by eapply skip_ws_run; [eapply cur_cons|]).
Qed.

Lemma gettoken_gt p rest : cur p (62 :: rest) -> head rest <> Some 62 -> clean rest ->
  gettoken s p = Done (62, (p, S p), S p).
Proof.
  intros H Hg Hr. pose proof (cur_cons _ _ _ H) as H'.
  unfold gettoken. erewrite P_bind_run by (by eapply skip_ws_run).
  erewrite P_bind_run by done. erewrite P_bind_run by (by apply cur_rd). cbn [head from_option id].
  change (62 =? 0) with false. change (is_in one_char 62) with false. change (62 =? 62) with true. cbv iota.
  erewrite P_bind_run.
  2:{ erewrite P_bind_run by done. erewrite P_bind_run by (by apply cur_rd).
      assert (default 0 (head rest) =? 62 = false) as -> by (apply Z.eqb_neq; destruct rest; cbn in *; congruence).
      done. }
  erewrite P_bind_run by done. by erewrite P_bind_run by (by eapply skip_ws_run).
Qed.

Lemma gettoken_word p w rest : cur p (w ++ 32 :: rest) -> ok_word w -> clean rest ->
  gettoken s p = Done (97, (p, (p + length w)%nat), S (p + length w)).
Proof.
  intros H Hw Hr. pose proof (wordchar_clean w (32 :: rest) Hw) as Hcl. pose proof (cur_app _ _ _ H) as H2.
  unfold gettoken. erewrite P_bind_run by (by eapply skip_ws_run).
  erewrite P_bind_run by done. erewrite P_bind_run by (by apply cur_rd).
  destruct H as [E Hp]. rewrite E. rewrite (skip_while_app _ w (32 :: rest)); [|apply (Forall_impl _ _ _ (proj2 Hw))|done].
  2:{ intros c (H0 & Hws & Hsy). by rewrite Hws, Hsy. }
  destruct Hw as [Hne Hw]. destruct w as [|c w]; [done|]. cbn [head app from_option id].
  inversion Hw as [|? ? (H0 & Hws & Hsy) _]; subst.
  rewrite (proj2 (Z.eqb_neq c 0)) by done.
  assert (is_in one_char c = false) as -> by (revert Hsy; clear; char_sets).
  assert (c =? 62 = false) as -> by (revert Hsy; clear; char_sets).
  erewrite P_bind_run by done. erewrite P_bind_run by done. by erewrite P_bind_run by (by eapply skip_ws_space).
Qed.

Lemma cur_text p w rest : cur p (w ++ rest) -> text s (p, (p + length w)%nat) = w.
Proof.
  intros [E _]. unfold text, slice. cbn. rewrite E. replace (p + length w - p)%nat with (length w) by lia.
  by rewrite take_app_length.
Qed.

(** *** Redirections and arguments *)

Definition redir_text (r : redirection) : list Z * Z * Z := (text s (fst (fst r)), snd (fst r), snd r).

Lemma length_show_redirs rs : (length rs <= length (show_redirs rs))%nat.
Proof.
  induction rs as [|[[f m] fd] rs IH]; [done|]. unfold show_redirs in *. cbn. rewrite length_app. cbn in *. lia.
Qed.

Lemma redirs_loop_run rs : forall fuel p rest,
  Forall (ok_redir ok_word) rs -> cur p (show_redirs rs ++ rest) -> clean rest ->
  (match rest with [] => True | c :: _ => is_in t_redir c = false end) -> (length rs < fuel)%nat ->
  exists rs' p', redirs_loop s fuel p = Done (rs', p') /\ map redir_text rs' = rs /\ cur p' rest.
Proof.
  induction rs as [|[[f m] fd] rs IH]; intros fuel p rest Hok Hc Hcl Hr Hf; (destruct fuel as [|fuel]; [cbn in Hf; lia|]);
    cbn [redirs_loop].
  - cbn in Hc. erewrite P_bind_run by (by apply peek_run). exists [], p. split; [|done].
    destruct rest as [|c rest]; [done|]. by rewrite Hr.
  - inversion Hok as [|? ? Hx Hok']; subst. cbn in Hx. destruct Hx as [Hw Hm]. pose proof (clean_redirs rs rest Hcl) as Hcl'.
    change (show_redirs ((f, m, fd) :: rs)) with (show_redir (f, m, fd) ++ show_redirs rs) in Hc.
    cbn [show_redir] in Hc. unfold show_word in Hc. rewrite <- app_assoc in Hc. cbn [app] in Hc.
    rewrite <- app_assoc in Hc. cbn [app] in Hc.
    set (sym := if fd =? 0 then 60 else 62) in Hc.
    assert (sym = 60 /\ m = O_RDONLY /\ fd = 0 \/ sym = 62 /\ m = Z.lor O_WRONLY O_CREATE /\ fd = 1) as Hsym.
    { unfold sym. destruct Hm as [[-> ->]|[-> ->]]; cbn; tauto. }
    assert (clean (f ++ 32 :: show_redirs rs ++ rest)) as Hcf by by apply wordchar_clean.
    assert (clean (sym :: f ++ 32 :: show_redirs rs ++ rest)) as Hcs by (cbn; destruct Hsym as [[-> _]|[-> _]]; done).
    erewrite P_bind_run by (by apply peek_run). cbv iota.
    assert (is_in t_redir sym = true) as -> by (destruct Hsym as [[-> _]|[-> _]]; done). cbn [negb].
    assert (gettoken s p = Done (sym, (p, S p), S p)) as Et.
    { destruct Hsym as [[Es _]|[Es _]]; rewrite Es in *; [by eapply gettoken_sym|]. eapply gettoken_gt; [done| |done].
      destruct Hw as [Hne Hw]. destruct f as [|c f]; [done|]. inversion Hw as [|? ? (_ & _ & H) _]; subst.
      cbn. intros [= ->]. done. }
    erewrite P_bind_run by done. apply cur_cons in Hc.
    erewrite P_bind_run by (by eapply gettoken_word). cbn [fst snd]. change (97 =? 97) with true. cbn [negb].
    pose proof (cur_text _ _ _ Hc) as Htext. apply cur_app, cur_cons in Hc.
    destruct (IH fuel _ rest Hok' Hc Hcl Hr ltac:(cbn in Hf; lia)) as (rs' & p' & E & Ers & Hc').
    erewrite P_bind_run by done. destruct Hsym as [(-> & -> & ->)|(-> & -> & ->)].
    + eexists (_ :: rs'), p'. split; [done|]. cbn [map]. unfold redir_text at 1. cbn [fst snd]. by rewrite Htext, Ers.
    + eexists (_ :: rs'), p'. split; [done|]. cbn [map]. unfold redir_text at 1. cbn [fst snd]. by rewrite Htext, Ers.
Qed.

Lemma parseredirs_run rs p rest :
  Forall (ok_redir ok_word) rs -> cur p (show_redirs rs ++ rest) -> clean rest ->
  (match rest with [] => True | c :: _ => is_in t_redir c = false end) ->
  exists rs' p', parseredirs s p = Done (rs', p') /\ map redir_text rs' = rs /\ cur p' rest.
Proof.
  intros Hok Hc Hcl Hr. apply redirs_loop_run; try done. apply cur_len in Hc. rewrite length_app in Hc.
  pose proof (length_show_redirs rs). lia.
Qed.

Lemma wordchar_head set w rest : ok_word w -> (forall c, is_in set c = true -> is_in symbols c = true) ->
  match w ++ rest with [] => True | c :: _ => is_in set c = false end.
Proof.
  intros [Hne Hw] Hset. destruct w as [|c w]; [done|]. inversion Hw as [|? ? (_ & _ & H) _]; subst. cbn.
  apply not_true_iff_false. intros Hc%Hset. congruence.
Qed.

Lemma end_not_redir rest : follows t_end rest -> match rest with [] => True | c :: _ => is_in t_redir c = false end.
Proof. destruct rest as [|c rest]; [done|]. cbn [follows]. char_sets. Qed.

Lemma end_clean rest : follows t_end rest -> clean rest.
Proof. apply follows_clean. intros c. char_sets. Qed.

(** The words of a command, then its redirections. *)
Lemma args_loop_run args : forall fuel n p rs rest,
  Forall ok_word args -> Forall (ok_redir ok_word) rs -> (n + length args < MAXARGS)%nat -> (length args < fuel)%nat ->
  cur p (concat (map show_word args) ++ (if args is [] then [] else show_redirs rs) ++ rest) -> follows t_end rest ->
  exists ws rs' p', args_loop s fuel n p = Done ((ws, rs'), p') /\ map (text s) ws = args /\
  map redir_text rs' = (if args is [] then [] else rs) /\ cur p' rest.
Proof.
  induction args as [|a args IH]; intros fuel n p rs rest Ha Hrs Hn Hf Hc Hend;
    (destruct fuel as [|fuel]; [cbn in Hf; lia|]); cbn [args_loop]; pose proof (end_clean _ Hend) as Hcl.
  - cbn in Hc. erewrite P_bind_run by (by apply peek_run). exists [], [], p. destruct rest as [|c rest].
    + erewrite P_bind_run by (by apply gettoken_end). done.
    + cbn [follows] in Hend. by rewrite Hend.
  - inversion Ha as [|? ? Hw Ha']; subst. cbn [map concat] in Hc. unfold show_word at 1 in Hc.
    rewrite <- !app_assoc in Hc. cbn [app] in Hc.
    set (tl := concat (map show_word args) ++ show_redirs rs ++ rest) in *.
    assert (clean tl) as Hct by (by apply clean_args, clean_redirs).
    erewrite P_bind_run by (apply peek_run; [done|by apply wordchar_clean]).
    pose proof (wordchar_head t_end a (32 :: tl) Hw ltac:(intros c; char_sets)) as Hnp.
    destruct (a ++ 32 :: tl) as [|c x] eqn:Ex; [by destruct a|]. rewrite Hnp, <- Ex in *. clear Hnp c x Ex.
    erewrite P_bind_run by (by eapply gettoken_word). cbn [fst snd].
    change (97 =? 0) with false. change (97 =? 97) with true. cbn [negb].
    cbn [length] in Hn, Hf. rewrite (proj2 (Nat.leb_gt MAXARGS (S n))) by lia.
    pose proof (cur_text _ _ _ Hc) as Htext. apply cur_app, cur_cons in Hc. unfold tl in Hc, Hct.
    destruct args as [|b args].
    + cbn [map concat app] in Hc.
      destruct (parseredirs_run rs _ rest Hrs Hc Hcl (end_not_redir _ Hend)) as (rs' & p1 & E1 & Er & Hc1).
      erewrite P_bind_run by done.
      destruct (IH fuel (S n) p1 rs rest Ha' Hrs ltac:(lia) ltac:(lia) Hc1 Hend) as (ws & rs2 & p2 & E2 & Ew & Er2 & Hc2).
      erewrite P_bind_run by done. eexists _, _, _. split; [done|]. cbn [fst snd map].
      rewrite map_app, Ew, Er, Er2, Htext, app_nil_r. done.
    + inversion Ha' as [|? ? Hb _]; subst.
      destruct (parseredirs_run [] _ _ (Forall_nil_2 _) Hc Hct) as (rs' & p1 & E1 & Er & Hc1).
      { cbn [map concat]. unfold show_word at 1. rewrite <- !app_assoc. apply wordchar_head; [done|]. intros c. char_sets. }
      erewrite P_bind_run by done.
      destruct (IH fuel (S n) p1 rs rest Ha' Hrs ltac:(lia) ltac:(lia) Hc1 Hend) as (ws & rs2 & p2 & E2 & Ew & Er2 & Hc2).
      erewrite P_bind_run by done. eexists _, _, _. split; [done|]. cbn [fst snd map].
      rewrite map_app, Ew, Er, Er2, Htext. done.
Qed.

(** *** The levels of the grammar *)

Lemma cmd_map_redir_all rs : forall c,
  cmd_map (text s) (redir_all c rs) = redir_all (cmd_map (text s) c) (map redir_text rs).
Proof. induction rs as [|[[f m] fd] rs IH]; intros c; [done|]. unfold redir_all in *. cbn. apply IH. Qed.

(** A command under its redirections. *)
Fixpoint spine (t : cmd (list Z)) : cmd (list Z) * list (list Z * Z * Z) :=
  match t with
  | Redir c f m fd => let (b, rs) := spine c in (b, rs ++ [(f, m, fd)])
  | t => (t, [])
  end.

Definition bare (t : cmd (list Z)) : Prop := match t with Redir _ _ _ _ => False | _ => True end.
Definition simple (t : cmd (list Z)) : Prop := match t with Exec _ => True | _ => False end.

Lemma spine_spec t b rs : good ok_word t -> spine t = (b, rs) ->
  bare b /\ t = redir_all b rs /\ show 0 t = show 0 b ++ show_redirs rs /\
  good ok_word b /\ Forall (ok_redir ok_word) rs.
Proof.
  revert rs. induction t as [argv|c IH f m fd|l _ r _|l _ r _|c _]; intros rs Hg E; cbn in E.
  2:{ destruct (spine c) as [b0 rs0] eqn:Ec. injection E as -> <-. cbn in Hg.
      destruct (IH rs0) as (Hb & -> & Hs & Hgb & Hrs); [tauto|done|]. split; [done|]. split.
      { unfold redir_all. by rewrite fold_left_app. }
      split; [|split; [done|]].
      - cbn [show]. rewrite Hs. unfold show_redirs. by rewrite map_app, concat_app, <- app_assoc; cbn; rewrite app_nil_r.
      - rewrite Forall_app, Forall_singleton. split; [done|]. cbn. tauto. }
  all: injection E as <- <-; unfold show_redirs; cbn [map concat]; by rewrite app_nil_r.
Qed.

Definition reads (c : P (cmd word)) (p : nat) (t : cmd (list Z)) (rest : list Z) : Prop :=
  exists c' p', c p = Done (c', p') /\ cmd_map (text s) c' = t /\ cur p' rest.

Definition after_pipe : list Z := [41; 38; 59].

Definition reads_exec (t : cmd (list Z)) : Prop := forall fuel p rest,
  (4 * (length s - p) + 2 <= fuel)%nat -> cur p (show 0 t ++ rest) -> follows t_end rest ->
  reads (parseexec s fuel) p t rest.
Definition reads_pipe (t : cmd (list Z)) : Prop := forall fuel p rest,
  (4 * (length s - p) + 3 <= fuel)%nat -> cur p (show 1 t ++ rest) -> follows after_pipe rest ->
  reads (parsepipe s fuel) p t rest.
(** The loop over the ampersands has reached the end of [t], with fuel left. *)
Definition reads_back (t : cmd (list Z)) : Prop := forall fuel p rest,
  (4 * (length s - p) + 3 <= fuel)%nat -> cur p (show 2 t ++ rest) -> follows after_pipe rest ->
  exists c' p' n, (parsepipe s fuel ≫= back_loop s (S (length s))) p = back_loop s n c' p' /\
  cmd_map (text s) c' = t /\ cur p' rest /\ (length s - p' < n)%nat.
Definition reads_line (t : cmd (list Z)) : Prop := forall fuel p rest,
  (4 * (length s - p) + 4 <= fuel)%nat -> cur p (show 3 t ++ rest) -> follows t_close rest ->
  reads (parseline s fuel) p t rest.

Lemma pipe_end rest : follows after_pipe rest -> follows t_end rest.
Proof. unfold after_pipe. destruct rest as [|c rest]; [done|]. cbn [follows]. char_sets. Qed.

Lemma close_pipe rest : follows t_close rest -> follows after_pipe rest.
Proof. unfold after_pipe. destruct rest as [|c rest]; [done|]. cbn [follows]. char_sets. Qed.

(** A simple command with its redirections. *)
Lemma reads_simple argv rs fuel p rest :
  good ok_word (Exec argv) -> Forall (ok_redir ok_word) rs ->
  cur p (concat (map show_word argv) ++ show_redirs rs ++ rest) -> follows t_end rest ->
  reads (parseexec s (S fuel)) p (redir_all (Exec argv) rs) rest.
Proof.
  intros [Hn Ha] Hrs Hc Hend. unfold reads. cbn [parseexec]. pose proof (end_clean _ Hend) as Hcl.
  assert (clean (concat (map show_word argv) ++ show_redirs rs ++ rest)) as Hct by by apply clean_args, clean_redirs.
  erewrite P_bind_run by (by apply peek_run). destruct argv as [|a argv].
  - cbn [map concat app] in *.
    assert (match show_redirs rs ++ rest with [] => false | c :: _ => is_in t_open c end = false) as ->.
    { destruct rs as [|[[f m] fd] rs]; cbn; [|by destruct (fd =? 0)]. destruct rest as [|c rest]; [done|].
      revert Hend. cbn [follows]. char_sets. }
    destruct (parseredirs_run rs p rest Hrs Hc Hcl (end_not_redir _ Hend)) as (rs' & p1 & E1 & Er & Hc1).
    erewrite P_bind_run by done.
    destruct (args_loop_run [] MAXARGS 0 p1 [] rest Ha (Forall_nil_2 _) Hn Hn Hc1 Hend) as (ws & rs2 & p2 & E2 & Ew & Er2 & Hc2).
    erewrite P_bind_run by done. eexists _, _. split; [done|]. split; [|done].
    rewrite cmd_map_redir_all. apply f_equal2; [cbn; by rewrite Ew|].
    etransitivity; [apply map_app|]. rewrite <- (app_nil_r rs). by apply f_equal2.
  - inversion Ha as [|? ? Hw _]; subst.
    assert (forall set, (forall c, is_in set c = true -> is_in symbols c = true) ->
      match concat (map show_word (a :: argv)) ++ show_redirs rs ++ rest with [] => True | c :: _ => is_in set c = false end) as Hhd.
    { intros set Hset. cbn [map concat]. unfold show_word at 1. rewrite <- !app_assoc. by apply wordchar_head. }
    assert (match concat (map show_word (a :: argv)) ++ show_redirs rs ++ rest with [] => false | c :: _ => is_in t_open c end = false) as ->.
    { pose proof (Hhd t_open ltac:(intros c; char_sets)) as H. by destruct (concat _ ++ _ ++ _). }
    destruct (parseredirs_run [] p _ (Forall_nil_2 _) Hc Hct (Hhd t_redir ltac:(intros c; char_sets))) as (rs' & p1 & E1 & Er & Hc1).
    erewrite P_bind_run by done.
    destruct (args_loop_run (a :: argv) MAXARGS 0 p1 rs rest Ha Hrs Hn Hn Hc1 Hend) as (ws & rs2 & p2 & E2 & Ew & Er2 & Hc2).
    erewrite P_bind_run by done. eexists _, _. split; [done|]. split; [|done].
    rewrite cmd_map_redir_all. apply f_equal2; [cbn [cmd_map fst]; by rewrite Ew|].
    etransitivity; [apply map_app|]. by apply (f_equal2 app Er Er2).
Qed.

(** A command in parentheses with its redirections. *)
Lemma reads_block t rs fuel p rest :
  good ok_word t -> reads_line t -> Forall (ok_redir ok_word) rs ->
  (4 * (length s - p) + 2 <= fuel)%nat ->
  cur p (40 :: show 3 t ++ 41 :: show_redirs rs ++ rest) -> follows t_end rest ->
  reads (parseexec s fuel) p (redir_all t rs) rest.
Proof.
  intros Hg Ht Hrs Hf Hc Hend. pose proof (end_clean _ Hend) as Hcl. pose proof (clean_redirs rs rest Hcl) as Hcr.
  assert (clean (show 3 t ++ 41 :: show_redirs rs ++ rest)) as Hct by by apply clean_show.
  pose proof (cur_len _ _ Hc) as Hlen. cbn in Hlen.
  destruct fuel as [|[|fuel]]; [lia|lia|]. unfold reads. cbn [parseexec].
  erewrite P_bind_run by (by apply peek_run). cbv iota. change (is_in t_open 40) with true. cbn [parseblock].
  erewrite P_bind_run by (by apply peek_run). cbv iota. change (is_in t_open 40) with true. cbn [negb].
  erewrite P_bind_run by (by eapply gettoken_sym). apply cur_cons in Hc. pose proof (cur_len _ _ Hc) as Hlen'.
  destruct (Ht fuel (S p) (41 :: show_redirs rs ++ rest) ltac:(lia) Hc ltac:(done)) as (c' & p1 & E1 & Ec & Hc1).
  erewrite P_bind_run by done. erewrite P_bind_run by (by apply peek_run). cbv iota.
  change (is_in t_close 41) with true. cbn [negb].
  erewrite P_bind_run by (by eapply gettoken_sym). apply cur_cons in Hc1.
  destruct (parseredirs_run rs _ rest Hrs Hc1 Hcl (end_not_redir _ Hend)) as (rs' & p2 & E2 & Er & Hc2).
  erewrite P_bind_run by done. eexists _, _. split; [done|]. split; [|done].
  by rewrite cmd_map_redir_all, Ec, Er.
Qed.

Lemma show_paren b : bare b -> ~ simple b -> show 0 b = 40 :: show 3 b ++ [41].
Proof. by destruct b. Qed.

Lemma exec_of t : good ok_word t ->
  (forall b rs, spine t = (b, rs) -> ~ simple b -> reads_line b) -> reads_exec t.
Proof.
  intros Hg Hb fuel p rest Hf Hc Hend. destruct (spine t) as [b rs] eqn:E.
  destruct (spine_spec t b rs Hg E) as (Hbare & Et & Hs & Hgb & Hrs).
  rewrite Hs, <- app_assoc in Hc. rewrite Et. assert (simple b \/ ~ simple b) as [Hsim|Hsim] by (destruct b; cbn; tauto).
  - destruct b as [argv| | | |]; try done. destruct fuel as [|fuel]; [lia|]. by apply reads_simple.
  - rewrite show_paren in Hc by done. cbn [app] in Hc. rewrite <- app_assoc in Hc. cbn [app] in Hc.
    apply reads_block; try done. by apply (Hb b rs).
Qed.

Lemma pipe_of_exec t : show 1 t = show 0 t -> reads_exec t -> reads_pipe t.
Proof.
  intros Es Ht fuel p rest Hf Hc Hend. rewrite Es in Hc. destruct fuel as [|fuel]; [lia|]. unfold reads. cbn [parsepipe].
  destruct (Ht fuel p rest ltac:(lia) Hc (pipe_end _ Hend)) as (c' & p1 & E1 & Ec & Hc1).
  erewrite P_bind_run by done. pose proof (end_clean _ (pipe_end _ Hend)) as Hcl.
  erewrite P_bind_run by (by apply peek_run).
  assert (match rest with [] => false | c :: _ => is_in t_pipe c end = false) as ->; [|by eexists _, _].
  destruct rest as [|c rest]; [done|]. revert Hend. unfold after_pipe. cbn [follows]. char_sets.
Qed.

Lemma pipe_of_pipe l r : good ok_word l -> good ok_word r ->
  reads_exec l -> reads_pipe r -> reads_pipe (Pipe l r).
Proof.
  intros Hgl Hgr Hl Hr fuel p rest Hf Hc Hend. cbn [show paren Nat.ltb Nat.leb] in Hc.
  rewrite <- app_assoc in Hc. cbn [app] in Hc. pose proof (end_clean _ (pipe_end _ Hend)) as Hcl.
  assert (clean (show 1 r ++ rest)) as Hcr by by apply clean_show.
  destruct fuel as [|fuel]; [lia|]. unfold reads. cbn [parsepipe].
  destruct (Hl fuel p _ ltac:(lia) Hc ltac:(done)) as (c1 & p1 & E1 & Ec1 & Hc1).
  erewrite P_bind_run by done. erewrite P_bind_run by (by apply peek_run). cbv iota. change (is_in t_pipe 124) with true.
  cbn [negb]. erewrite P_bind_run by (by eapply gettoken_sym). apply cur_len in Hc1 as Hlen1. apply cur_len in Hc as Hlen.
  rewrite length_app in Hlen. apply cur_cons in Hc1. apply cur_len in Hc1 as Hlen2. cbn [length] in *.
  destruct (Hr fuel (S p1) rest ltac:(lia) Hc1 Hend) as (c2 & p2 & E2 & Ec2 & Hc2).
  erewrite P_bind_run by done. eexists _, _. split; [done|]. split; [cbn; by rewrite Ec1, Ec2|done].
Qed.

Lemma back_of_pipe t : show 2 t = show 1 t -> reads_pipe t -> reads_back t.
Proof.
  intros Es Ht fuel p rest Hf Hc Hend. rewrite Es in Hc. destruct (Ht fuel p rest Hf Hc Hend) as (c' & p1 & E1 & Ec & Hc1).
  exists c', p1, (S (length s)). erewrite P_bind_run by done. split; [done|]. split; [done|]. split; [done|]. lia.
Qed.

Lemma back_of_back t : reads_back t -> reads_back (Back t).
Proof.
  intros Ht fuel p rest Hf Hc Hend. cbn [show paren Nat.ltb Nat.leb] in Hc. rewrite <- app_assoc in Hc. cbn [app] in Hc.
  destruct (Ht fuel p (38 :: rest) Hf Hc ltac:(done)) as (c' & p1 & n & E & Ec & Hc1 & Hn).
  pose proof (end_clean _ (pipe_end _ Hend)) as Hcl. destruct n as [|n]; [lia|].
  exists (Back c'), (S p1), n. rewrite E. cbn [back_loop].
  erewrite P_bind_run by (by apply peek_run). cbv iota. change (is_in t_back 38) with true. cbn [negb].
  erewrite P_bind_run by (by eapply gettoken_sym). apply cur_len in Hc1 as Hl1. apply cur_cons in Hc1 as Hc2.
  apply cur_len in Hc2 as Hl2. cbn [length] in *. split; [done|]. split; [cbn; by rewrite Ec|]. split; [done|]. lia.
Qed.

(** The loop over the ampersands ends. *)
Lemma back_loop_end n c p rest : cur p rest -> clean rest ->
  (match rest with [] => True | c :: _ => is_in t_back c = false end) -> (0 < n)%nat ->
  back_loop s n c p = Done (c, p).
Proof.
  intros Hc Hcl Hr Hn. destruct n as [|n]; [lia|]. cbn [back_loop]. erewrite P_bind_run by (by apply peek_run).
  assert (match rest with [] => false | c :: _ => is_in t_back c end = false) as -> by by destruct rest. done.
Qed.

Lemma parseline_run fuel p c' p' n :
  (parsepipe s fuel ≫= back_loop s (S (length s))) p = back_loop s n c' p' ->
  forall rest, cur p' rest -> clean rest -> (match rest with [] => True | c :: _ => is_in t_back c = false end) ->
  (0 < n)%nat ->
  parseline s (S fuel) p =
  (b ← peek s t_list; if negb b then mret c' else gettoken s ;; r ← parseline s fuel; mret (List c' r)) p'.
Proof.
  intros E rest Hc Hcl Hr Hn. rewrite (back_loop_end n c' p' rest Hc Hcl Hr Hn) in E. cbn [parseline].
  unfold mbind, P_bind in E |- *. destruct (parsepipe s fuel p) as [[a p1]|e| |]; try done. by rewrite E.
Qed.

Lemma line_of_back t : show 3 t = show 2 t -> reads_back t -> reads_line t.
Proof.
  intros Es Ht fuel p rest Hf Hc Hend. rewrite Es in Hc. destruct fuel as [|fuel]; [lia|].
  destruct (Ht fuel p rest ltac:(lia) Hc (close_pipe _ Hend)) as (c' & p1 & n & E & Ec & Hc1 & Hn).
  pose proof (end_clean _ (pipe_end _ (close_pipe _ Hend))) as Hcl. unfold reads.
  rewrite (parseline_run _ _ _ _ _ E rest Hc1 Hcl); [|destruct rest; [done|]; revert Hend; cbn [follows]; char_sets|lia].
  erewrite P_bind_run by (by apply peek_run).
  assert (match rest with [] => false | c :: _ => is_in t_list c end = false) as ->; [|by eexists _, _].
  destruct rest as [|c rest]; [done|]. revert Hend. cbn [follows]. char_sets.
Qed.

Lemma line_of_list l r : good ok_word l -> good ok_word r ->
  reads_back l -> reads_line r -> reads_line (List l r).
Proof.
  intros Hgl Hgr Hl Hr fuel p rest Hf Hc Hend. cbn [show paren Nat.ltb Nat.leb] in Hc.
  rewrite <- app_assoc in Hc. cbn [app] in Hc. pose proof (end_clean _ (pipe_end _ (close_pipe _ Hend))) as Hcl.
  assert (clean (show 3 r ++ rest)) as Hcr by by apply clean_show. destruct fuel as [|fuel]; [lia|].
  destruct (Hl fuel p (59 :: show 3 r ++ rest) ltac:(lia) Hc ltac:(done)) as (c1 & p1 & n & E & Ec1 & Hc1 & Hn).
  unfold reads. rewrite (parseline_run _ _ _ _ _ E _ Hc1) by (done || lia).
  erewrite P_bind_run by (by apply peek_run). cbv iota. change (is_in t_list 59) with true. cbn [negb].
  erewrite P_bind_run by (by eapply gettoken_sym). apply cur_len in Hc1 as Hlen1. apply cur_len in Hc as Hlen.
  rewrite length_app in Hlen. apply cur_cons in Hc1. apply cur_len in Hc1 as Hlen2. cbn [length] in *.
  destruct (Hr fuel (S p1) rest ltac:(lia) Hc1 Hend) as (c2 & p2 & E2 & Ec2 & Hc2).
  erewrite P_bind_run by done. eexists _, _. split; [done|]. split; [cbn; by rewrite Ec1, Ec2|done].
Qed.

Lemma reads_all t : good ok_word t ->
  (forall b rs, spine t = (b, rs) -> ~ simple b -> reads_line b) /\
  reads_exec t /\ reads_pipe t /\ reads_back t /\ reads_line t.
Proof.
  induction t as [argv|c IH f m fd|l IHl r IHr|l IHl r IHr|c IH]; intros Hg.
  - assert (reads_exec (Exec argv)) as He by (apply exec_of; [done|]; intros b rs [= <- <-] []; done).
    split; [intros b rs [= <- <-] []; done|].
    eauto 10 using pipe_of_exec, back_of_pipe, line_of_back.
  - destruct (IH ltac:(cbn in Hg; tauto)) as (Hb & _).
    assert (forall b rs, spine (Redir c f m fd) = (b, rs) -> ~ simple b -> reads_line b) as Hb'.
    { intros b rs E Hs. cbn in E. destruct (spine c) as [b0 rs0] eqn:Ec. injection E as -> _. by eapply Hb. }
    pose proof (exec_of _ Hg Hb'). split; [done|]. eauto 10 using pipe_of_exec, back_of_pipe, line_of_back.
  - cbn in Hg. destruct Hg as [Hgl Hgr]. destruct (IHl Hgl) as (_ & El & _). destruct (IHr Hgr) as (_ & _ & Pr & _).
    assert (reads_pipe (Pipe l r)) as Hp by by apply pipe_of_pipe.
    assert (reads_back (Pipe l r)) as Hb by by apply back_of_pipe.
    assert (reads_line (Pipe l r)) as Hl by by apply line_of_back.
    assert (forall b rs, spine (Pipe l r) = (b, rs) -> ~ simple b -> reads_line b) as Hs by (intros b rs [= <- <-] _; done).
    split; [done|]. split; [by apply exec_of|done].
  - cbn in Hg. destruct Hg as [Hgl Hgr]. destruct (IHl Hgl) as (_ & _ & _ & Bl & _). destruct (IHr Hgr) as (_ & _ & _ & _ & Lr).
    assert (reads_line (List l r)) as Hl by by apply line_of_list.
    assert (forall b rs, spine (List l r) = (b, rs) -> ~ simple b -> reads_line b) as Hs by (intros b rs [= <- <-] _; done).
    assert (reads_exec (List l r)) as He by by apply exec_of.
    split; [done|]. eauto 10 using pipe_of_exec, back_of_pipe.
  - destruct (IH Hg) as (_ & _ & _ & Bc & _).
    assert (reads_back (Back c)) as Hb by by apply back_of_back.
    assert (reads_line (Back c)) as Hl by by apply line_of_back.
    assert (forall b rs, spine (Back c) = (b, rs) -> ~ simple b -> reads_line b) as Hs by (intros b rs [= <- <-] _; done).
    assert (reads_exec (Back c)) as He by by apply exec_of.
    split; [done|]. eauto 10 using pipe_of_exec.
Qed.

End Read.

(** No null characters are printed. *)
Lemma show_no_null c : forall lvl, good ok_word c -> 0 ∉ show lvl c.
Proof.
  assert (forall w, ok_word w -> 0 ∉ show_word w) as Hw.
  { intros w [_ Hw] H. unfold show_word in H. rewrite elem_of_app, list_elem_of_singleton in H.
    destruct H as [H|H]; [|done]. rewrite Forall_forall in Hw. by destruct (Hw 0 H). }
  induction c as [argv|c IH f m fd|l IHl r IHr|l IHl r IHr|c IH]; intros lvl Hg; cbn [show] in *; unfold paren.
  - destruct Hg as [_ Hg]. induction Hg as [|w argv Hw1 _ IH]; cbn; [apply not_elem_of_nil|].
    rewrite not_elem_of_app. auto.
  - destruct Hg as (Hg & Hf & _). rewrite not_elem_of_app. split; [auto|]. cbn. rewrite not_elem_of_cons.
    split; [by destruct (fd =? 0)|auto].
  - destruct Hg. case_match; repeat (rewrite not_elem_of_cons || rewrite not_elem_of_app); repeat split; auto using not_elem_of_nil; done.
  - destruct Hg. case_match; repeat (rewrite not_elem_of_cons || rewrite not_elem_of_app); repeat split; auto using not_elem_of_nil; done.
  - case_match; repeat (rewrite not_elem_of_cons || rewrite not_elem_of_app); repeat split; auto using not_elem_of_nil; done.
Qed.

(** C17. Parsing inverts printing: for every command, with any nesting of lists,
    pipes, background commands and redirections, the shell parses the text of the
    command back to the command itself, after [nulterminate] has turned the
    pointers into strings. *)
Theorem parse_show c : good ok_word c -> parse (show 3 c) = Done (Some c).
Proof.
  intros Hg. set (s := show 3 c). assert (0 ∉ s) as Hs by by apply show_no_null.
  destruct (reads_all s c Hg) as (_ & _ & _ & _ & Hl).
  destruct (Hl (parse_fuel (length s)) 0%nat []) as (c' & p & E & Ec & Hc).
  - unfold parse_fuel. lia.
  - rewrite app_nil_r. split; [done|lia].
  - done.
  - assert (parsecmd s 0%nat = Done (c', p)) as Ep.
    { unfold parsecmd. erewrite P_bind_run by done. erewrite P_bind_run by (by apply peek_run).
      erewrite P_bind_run by done. apply cur_len in Hc as Hlen. destruct Hc as [_ Hp]. cbn in Hlen.
      by rewrite (proj2 (Nat.eqb_eq p (length s))) by lia. }
    pose proof (parsecmd_wp s Hs) as Hw. unfold pwp in Hw. rewrite Ep in Hw. unfold parse. rewrite Ep.
    by rewrite strings_nulterminate, Ec.
Qed.

(** [(ls >a;echo x y &)|wc] *)
Definition demo_cmd : cmd (list Z) :=
  Pipe (List (Redir (Exec [bytes_of "ls"]) (bytes_of "a") 513 1) (Back (Exec [bytes_of "echo"; bytes_of "x"; bytes_of "y"])))
       (Exec [bytes_of "wc"]).

Lemma parse_show_witness : parse (bytes_of "(ls >a ;echo x y &)|wc ") = Done (Some demo_cmd).
Proof.
  change (bytes_of "(ls >a ;echo x y &)|wc ") with (show 3 demo_cmd). apply (parse_show demo_cmd).
  repeat match goal with
  | |- _ \/ 513 = _ /\ _ => right
  | |- _ => done || split || constructor || (cbn; lia)
  end.
Defined.
