(* ===== verification/Umalloc.v ===== *)
(** The user memory allocator (umalloc.c), after Kernighan and Ritchie: a circular
    list of free blocks in address order, each with a header of 8 bytes. *)

From S2P Require Import Prelude.

(** ** State *)

(** [union header]: the next free block and the size in headers. *)
Record header := Header { s_ptr : Z; s_size : Z }.
#[global] Instance header_set : Settable header := fun h => Header (s_ptr h) (s_size h).

Definition sizeof_header : Z := 8.

(** The headers in memory, by address; [freep], 0 for null; and the process's
    break with the limit the kernel grants. *)
Record heap := Heap { h_mem : gmap Z header; h_freep : Z; h_brk : Z; h_limit : Z }.
#[global] Instance heap_set : Settable heap := fun h => Heap (h_mem h) (h_freep h) (h_brk h) (h_limit h).

Definition load (h : heap) (p : Z) : option header := h_mem h !! p.
Definition store (h : heap) (p : Z) (x : header) : heap := h <| h_mem ::= <[p := x]> |>.

Section Malloc.
(** The address of the static header [base]. *)
Context (base : Z).

(** The loop of [free]: the free block after which [bp] belongs. *)
Fixpoint find_place (fuel : nat) (h : heap) (bp p : Z) : option Z :=
  match fuel with
  | O => None
  | S fuel =>
      x ← load h p;
      if (p <? bp) && (bp <? s_ptr x) then Some p
      else if (s_ptr x <=? p) && ((p <? bp) || (bp <? s_ptr x)) then Some p
      else find_place fuel h bp (s_ptr x)
  end.

Definition free (h : heap) (ap : Z) : option heap :=
  let bp := ap - sizeof_header in
  p ← find_place (S (size (h_mem h))) h bp (h_freep h);
  xp ← load h p;
  xb ← load h bp;
  xb ← (if bp + s_size xb * sizeof_header =? s_ptr xp then
          xn ← load h (s_ptr xp);
          Some (Header (s_ptr xn) (u32 (s_size xb + s_size xn)))
        else Some (xb <| s_ptr := s_ptr xp |>));
  let h := store h bp xb in
  let xp := if p + s_size xp * sizeof_header =? bp then
              Header (s_ptr xb) (u32 (s_size xp + s_size xb))
            else xp <| s_ptr := bp |> in
  let h := store h p xp in
  Some (h <| h_freep := p |>).

(** [sbrk(n)]: the old break, or -1; the argument is an [int]. *)
Definition sbrk (h : heap) (n : Z) : Z * heap :=
  if (0 <=? h_brk h + i32 n) && (h_brk h + i32 n <=? h_limit h) then
    (h_brk h, h <| h_brk := h_brk h + i32 n |>)
  else (-1, h).

(** The new [freep], or 0. *)
Definition morecore (h : heap) (nu : Z) : option (Z * heap) :=
  let nu := if nu <? 4096 then 4096 else nu in
  let (p, h) := sbrk h (u32 (nu * sizeof_header)) in
  if p =? -1 then Some (0, h) else
  let h := store h p (Header (default 0 (s_ptr <$> load h p)) nu) in
  h ← free h (p + sizeof_header);
  Some (h_freep h, h).

Fixpoint malloc_loop (fuel : nat) (h : heap) (nunits prevp p : Z) : option (Z * heap) :=
  match fuel with
  | O => None
  | S fuel =>
      x ← load h p;
      if nunits <=? s_size x then
        y ← (if s_size x =? nunits then
               xv ← load h prevp;
               Some (p, store h prevp (xv <| s_ptr := s_ptr x |>))
             else
               let h := store h p (x <| s_size := s_size x - nunits |>) in
               let q := p + (s_size x - nunits) * sizeof_header in
               Some (q, store h q (Header (default 0 (s_ptr <$> load h q)) nunits)));
        let '(p, h) := y in
        Some (p + sizeof_header, h <| h_freep := prevp |>)
      else if p =? h_freep h then
        r ← morecore h nunits;
        let '(p, h) := r in
        if p =? 0 then Some (0, h) else
        x ← load h p;
        malloc_loop fuel h nunits p (s_ptr x)
      else malloc_loop fuel h nunits p (s_ptr x)
  end.

Definition units (nbytes : Z) : Z := u32 (u32 (nbytes + sizeof_header - 1) / sizeof_header + 1).

(** Twice round the list at most: [morecore] adds a block that is large enough. *)
Definition malloc (h : heap) (nbytes : Z) : option (Z * heap) :=
  let nunits := units nbytes in
  let h := if h_freep h =? 0 then
             store (h <| h_freep := base |>) base (Header base 0)
           else h in
  let prevp := h_freep h in
  x ← load h prevp;
  malloc_loop (2 * size (h_mem h) + 4) h nunits prevp (s_ptr x).

End Malloc.
