(* ===== verification/UmallocSpec.v ===== *)
(** The user memory allocator hands out disjoint blocks (umalloc.c).

    The free list is a list of blocks, address and size in headers, in address
    order after the static header [base]; the headers in memory link it into a
    circle.  The blocks in use are a second list. *)

From S2P Require Import Prelude Umalloc.

(** The address of the first block of [l], [d] if there is none. *)
Definition first (l : list (Z * Z)) (d : Z) : Z := match l with (a, _) :: _ => a | [] => d end.

(** The headers of [l] are in memory, each pointing to the next, the last to [d]. *)
Fixpoint linked (m : gmap Z header) (l : list (Z * Z)) (d : Z) : Prop :=
  match l with
  | [] => True
  | (a, n) :: l => m !! a = Some (Header (first l d) n) /\ linked m l d
  end.

Definition circ (m : gmap Z header) (l : list (Z * Z)) : Prop := linked m l (first l 0).

(** Blocks one after the other, between [lo] and [hi]. *)
Fixpoint ordered (lo : Z) (l : list (Z * Z)) (hi : Z) : Prop :=
  match l with
  | [] => lo <= hi
  | (a, n) :: l => lo <= a /\ 1 <= n /\ ordered (a + 8 * n) l hi
  end.

(** Blocks that do not overlap. *)
Definition apart (x y : Z * Z) : Prop := fst x + 8 * snd x <= fst y \/ fst y + 8 * snd y <= fst x.

Fixpoint separate (l : list (Z * Z)) : Prop :=
  match l with [] => True | x :: l => Forall (apart x) l /\ separate l end.

(** ** Lists of blocks *)

Lemma first_app l1 l2 d : first (l1 ++ l2) d = first l1 (first l2 d).
Proof. by destruct l1 as [|[]]. Qed.

Lemma linked_app m l1 l2 d : linked m (l1 ++ l2) d <-> linked m l1 (first l2 d) /\ linked m l2 d.
Proof.
  induction l1 as [|[a n] l1 IH]; cbn; [tauto|]. rewrite IH, first_app. tauto.
Qed.

Lemma linked_insert m l d a x : a ∉ map fst l -> linked m l d -> linked (<[a := x]> m) l d.
Proof.
  induction l as [|[b n] l IH]; cbn; [done|]. rewrite not_elem_of_cons. intros [Hne Hni] [Hb Hl].
  rewrite lookup_insert_ne by congruence. auto.
Qed.

Lemma circ_rot m l1 l2 : circ m (l1 ++ l2) -> circ m (l2 ++ l1).
Proof.
  unfold circ. rewrite !linked_app, !first_app. destruct l1 as [|[a n] l1], l2 as [|[b k] l2]; cbn; tauto.
Qed.

Lemma ordered_weaken lo lo' l hi : lo' <= lo -> ordered lo l hi -> ordered lo' l hi.
Proof. destruct l as [|[a n] l]; cbn; [lia|]. intros ? (? & ? & ?). split; [lia|auto]. Qed.

Lemma ordered_bounds lo l hi : ordered lo l hi -> lo <= hi /\
  Forall (fun x : Z * Z => lo <= fst x /\ 1 <= snd x /\ fst x + 8 * snd x <= hi) l.
Proof.
  revert lo. induction l as [|[a n] l IH]; intros lo; cbn; [done|]. intros (H1 & H2 & H3).
  destruct (IH _ H3) as [H4 H5]. split; [lia|]. constructor; [cbn; lia|].
  eapply Forall_impl; [exact H5|]. cbn. intros x ?. lia.
Qed.

Lemma ordered_app lo l1 l2 hi : ordered lo (l1 ++ l2) hi <->
  exists mid, ordered lo l1 mid /\ ordered mid l2 hi.
Proof.
  revert lo. induction l1 as [|[a n] l1 IH]; intros lo; cbn.
  - split; [intros H; by exists lo|]. intros (mid & Hm & H). by eapply ordered_weaken.
  - rewrite IH. naive_solver.
Qed.

Lemma ordered_addr lo l hi : ordered lo l hi -> Forall (fun a => lo <= a < hi) (map fst l).
Proof.
  intros H. apply ordered_bounds in H as [_ H]. apply Forall_map. eapply Forall_impl; [exact H|]. cbn. intros x ?. lia.
Qed.

Lemma ordered_not_in lo l hi a : ordered lo l hi -> a < lo \/ hi <= a -> a ∉ map fst l.
Proof. intros H Ha Hi. apply ordered_addr in H. rewrite Forall_forall in H. specialize (H a Hi). lia. Qed.

Lemma ordered_NoDup lo l hi : ordered lo l hi -> NoDup (map fst l).
Proof.
  revert lo. induction l as [|[a n] l IH]; intros lo; cbn; [constructor|]. intros (H1 & H2 & H3).
  constructor; [|by eapply IH]. eapply ordered_not_in; [exact H3|lia].
Qed.

Lemma apart_sym x y : apart x y -> apart y x.
Proof. unfold apart. tauto. Qed.

Lemma separate_app l1 l2 : separate (l1 ++ l2) <-> separate l1 /\ separate l2 /\ Forall (fun x => Forall (apart x) l2) l1.
Proof.
  induction l1 as [|x l1 IH]; cbn; [split; [intros; repeat split; auto|tauto]|].
  rewrite IH, Forall_app, Forall_cons. tauto.
Qed.

Lemma ordered_separate lo l hi : ordered lo l hi -> separate l.
Proof.
  revert lo. induction l as [|[a n] l IH]; intros lo; cbn; [done|]. intros (H1 & H2 & H3).
  split; [|by eapply IH]. apply ordered_bounds in H3 as [_ H]. eapply Forall_impl; [exact H|].
  cbn. intros x ?. unfold apart. cbn. lia.
Qed.

(** Two blocks that do not overlap start at different addresses. *)
Lemma apart_addr x y : 1 <= snd x -> 1 <= snd y -> apart x y -> fst x <> fst y.
Proof. unfold apart. lia. Qed.

(** A block apart from the others has its place between them. *)
Lemma ordered_split lo l hi b : ordered lo l hi -> 1 <= snd b -> Forall (apart b) l ->
  exists l1 l2, l = l1 ++ l2 /\ Forall (fun x => fst x + 8 * snd x <= fst b) l1 /\
  Forall (fun x => fst b + 8 * snd b <= fst x) l2.
Proof.
  revert lo. induction l as [|[a n] l IH]; intros lo Ho Hb Ha; [by exists [], []|].
  cbn in Ho. destruct Ho as (H1 & H2 & H3). inversion Ha as [|? ? Hx Ha']; subst.
  destruct (decide (a + 8 * n <= fst b)) as [Hle|Hgt].
  - destruct (IH _ H3 Hb Ha') as (l1 & l2 & -> & Hl1 & Hl2). exists ((a, n) :: l1), l2. repeat split; [constructor|]; done.
  - exists [], ((a, n) :: l). split; [done|]. split; [constructor|]. unfold apart in Hx. cbn in Hx.
    constructor; [cbn; lia|]. apply ordered_bounds in H3 as [_ H]. eapply Forall_impl; [exact H|]. cbn. intros x ?. lia.
Qed.

Lemma ordered_hi lo l hi hi' : ordered lo l hi -> lo <= hi' ->
  Forall (fun x => fst x + 8 * snd x <= hi') l -> ordered lo l hi'.
Proof.
  revert lo. induction l as [|[a n] l IH]; intros lo Ho Hlo Hf; [done|]. cbn [ordered] in *.
  inversion Hf as [|? ? H1 H2]; subst. cbn in H1. destruct Ho as (? & ? & ?). split; [done|]. split; [done|]. by apply IH.
Qed.

Lemma ordered_lo lo l hi lo' : ordered lo l hi -> lo' <= hi -> Forall (fun x => lo' <= fst x) l -> ordered lo' l hi.
Proof. destruct l as [|[a n] l]; cbn; [done|]. intros (? & ? & ?) _ Hf. inversion Hf; subst. cbn in *. tauto. Qed.

Lemma apart_merge x a n m : 1 <= snd x -> apart x (a, n) -> apart x (a + 8 * n, m) -> apart x (a, n + m).
Proof. unfold apart. cbn [fst snd]. lia. Qed.

(** A list in memory is no longer than the memory. *)
Lemma linked_size m l d : linked m l d -> NoDup (map fst l) -> (length l <= size m)%nat.
Proof.
  intros Hl Hn. rewrite <- (length_map fst l), <- (size_list_to_set (C := gset Z) _ Hn), <- (size_dom (D := gset Z) m).
  apply subseteq_size. intros a. rewrite elem_of_list_to_set, list_elem_of_fmap. intros ([b n] & -> & Hin).
  apply elem_of_dom. clear Hn. induction l as [|[c k] l IH]; [by apply not_elem_of_nil in Hin|].
  cbn in Hl. destruct Hl as [Hc Hl]. apply elem_of_cons in Hin as [[= <- <-]|Hin]; [by eexists|auto].
Qed.

(** ** [free] *)

Section Spec.
Context (base : Z) (Hbase : 0 < base).

(** Each block of [l] is below the next one, the last below [d]. *)
Fixpoint rising (l : list (Z * Z)) (d : Z) : Prop :=
  match l with [] => True | (a, _) :: l => a < first l d /\ rising l d end.

Lemma rising_first l d : rising l d -> first l d <= d.
Proof. induction l as [|[a n] l IH]; cbn; [lia|]. intros [H1 H2]. specialize (IH H2). lia. Qed.

Lemma rising_app l1 l2 d : rising (l1 ++ l2) d <-> rising l1 (first l2 d) /\ rising l2 d.
Proof. induction l1 as [|[a n] l1 IH]; cbn; [tauto|]. rewrite IH, first_app. tauto. Qed.

Lemma ordered_rising lo l hi d : ordered lo l hi -> hi <= d -> rising l d.
Proof.
  revert lo. induction l as [|[a n] l IH]; intros lo; cbn; [done|]. intros (H1 & H2 & H3) Hd.
  split; [|by eapply IH]. destruct l as [|[b k] l]; cbn [first ordered] in *; lia.
Qed.

(** From a block before the place of [bp] to that place. *)
Lemma find_place_below h bp p m nxt : forall L fuel,
  rising L p -> p < bp -> linked (h_mem h) L p -> h_mem h !! p = Some (Header nxt m) ->
  bp < nxt \/ nxt <= p -> (length L < fuel)%nat -> find_place fuel h bp (first L p) = Some p.
Proof.
  induction L as [|[a n] L IH]; intros fuel Hr Hp Hl Hm Hn Hf; (destruct fuel as [|fuel]; [cbn in Hf; lia|]); cbn [find_place first].
  - unfold load. rewrite Hm. cbn. rewrite (proj2 (Z.ltb_lt p bp)) by lia. cbn.
    destruct (Z.ltb_spec bp nxt); [done|]. by rewrite (proj2 (Z.leb_le nxt p)) by lia.
  - cbn in Hr, Hl. destruct Hr as [Ha Hr], Hl as [Hma Hl]. unfold load. rewrite Hma. cbn.
    pose proof (rising_first _ _ Hr). rewrite (proj2 (Z.ltb_ge bp (first L p))) by lia.
    rewrite andb_false_r. rewrite (proj2 (Z.leb_gt (first L p) a)) by lia. cbn.
    apply IH; try done. cbn in Hf. lia.
Qed.

(** From a block after the place of [bp] round to [base]. *)
Lemma find_place_above h bp hi : forall l lo fuel,
  ordered lo l hi -> bp < lo -> base < bp -> linked (h_mem h) l base ->
  find_place (length l + fuel) h bp (first l base) = find_place fuel h bp base.
Proof.
  induction l as [|[a n] l IH]; intros lo fuel Ho Hlo Hb Hl; [done|]. cbn in Ho, Hl.
  destruct Ho as (H1 & H2 & H3), Hl as [Hma Hl]. cbn [length Nat.add find_place first]. unfold load. rewrite Hma. cbn.
  rewrite (proj2 (Z.ltb_ge a bp)) by lia. cbn.
  assert (bp <? first l base = negb (if l is [] then true else false)) as ->.
  { destruct l as [|[b k] l]; cbn [first ordered negb] in *; [apply Z.ltb_ge|apply Z.ltb_lt]; lia. }
  assert (first l base <=? a = if l is [] then true else false) as ->.
  { destruct l as [|[b k] l]; cbn [first ordered] in *; [apply Z.leb_le|apply Z.leb_gt]; lia. }
  assert ((if l is [] then true else false) && negb (if l is [] then true else false) = false) as -> by by destruct l.
  eapply (IH _ fuel H3); [lia|done|done].
Qed.

Lemma find_place_run h bp L p m l2 hi fuel :
  rising (L ++ [(p, m)]) bp -> ordered (bp + 1) l2 hi -> first (L ++ [(p, m)]) 0 = base -> base < bp ->
  linked (h_mem h) (L ++ (p, m) :: l2) base -> h_freep h ∈ map fst (L ++ (p, m) :: l2) ->
  (length (L ++ (p, m) :: l2) <= fuel)%nat -> find_place fuel h bp (h_freep h) = Some p.
Proof.
  intros Hr Ho Hfirst Hb Hl Hin Hf. rewrite rising_app in Hr. cbn in Hr. destruct Hr as (HrL & Hp & _).
  rewrite linked_app in Hl. cbn in Hl. destruct Hl as (HlL & Hm & Hl2).
  assert (bp < first l2 base \/ first l2 base <= p) as Hn.
  { destruct l2 as [|[b k] l2]; cbn [first ordered] in *; [right|left; lia].
    pose proof (rising_first L p HrL) as Hx. rewrite first_app in Hfirst. cbn in Hfirst. destruct L as [|[]]; cbn in *; lia. }
  rewrite map_app, elem_of_app in Hin. cbn in Hin. rewrite elem_of_cons in Hin. rewrite length_app in Hf. cbn in Hf.
  destruct Hin as [Hin|[->|Hin]].
  - apply list_elem_of_fmap in Hin as ([a n] & Ea & Hin). cbn in Ea. subst a.
    apply list_elem_of_split in Hin as (L1 & L2 & ->). rewrite rising_app in HrL. rewrite linked_app in HlL.
    rewrite length_app in Hf. cbn in Hf. change (h_freep h) with (first ((h_freep h, n) :: L2) p).
    eapply find_place_below; [apply HrL|lia|apply HlL|exact Hm|done|cbn; lia].
  - change p with (first [] p) at 1. eapply find_place_below; [done|lia|done|exact Hm|done|cbn; lia].
  - apply list_elem_of_fmap in Hin as ([a n] & Ea & Hin). cbn in Ea. subst a.
    apply list_elem_of_split in Hin as (B1 & B2 & ->). rewrite linked_app in Hl2. rewrite length_app in Hf. cbn in Hf.
    apply ordered_app in Ho as (mid & Ho1 & Ho2). apply ordered_bounds in Ho1 as [Ho1 _].
    change (h_freep h) with (first ((h_freep h, n) :: B2) base).
    replace fuel with (length ((h_freep h, n) :: B2) + (fuel - length ((h_freep h, n) :: B2)))%nat by (cbn; lia).
    rewrite (find_place_above h bp hi _ mid _ Ho2) by (tauto || lia).
    rewrite <- Hfirst, first_app. cbn [first].
    eapply find_place_below; [done|lia|done|exact Hm|done|cbn; lia].
Qed.

(** The free list of a heap. *)
Record free_ok (h : heap) (bs : list (Z * Z)) : Prop := Free_ok {
  fo_freep : h_freep h ∈ base :: map fst bs;
  fo_circ : linked (h_mem h) ((base, 0) :: bs) base;
  fo_ord : ordered (base + 8) bs (h_brk h);
  fo_lim : h_brk h <= h_limit h <= 2147483648 }.

(** Merging the block with the one above it. *)
Lemma free_up h bp n q l2 :
  h_mem h !! bp = Some (Header q n) -> base < bp -> 1 <= n -> h_brk h <= 2147483648 ->
  ordered (bp + 8 * n) l2 (h_brk h) -> linked (h_mem h) l2 base -> exists k rest,
  (if bp + n * sizeof_header =? first l2 base then
     xn ← load h (first l2 base); Some (Header (s_ptr xn) (u32 (n + s_size xn)))
   else Some ((Header q n) <| s_ptr := first l2 base |>)) = Some (Header (first rest base) k) /\
  n <= k /\ ordered (bp + 8 * k) rest (h_brk h) /\ linked (h_mem h) rest base /\ (length rest <= length l2)%nat /\
  (forall x, 1 <= snd x -> apart x (bp, n) -> Forall (apart x) l2 -> apart x (bp, k) /\ Forall (apart x) rest).
Proof.
  intros Hm Hb Hn Hlim Ho Hl. unfold sizeof_header. destruct (Z.eqb_spec (bp + n * 8) (first l2 base)) as [E|E].
  - destruct l2 as [|[a m] l2]; cbn [first] in *; [lia|]. cbn [ordered linked] in Ho, Hl.
    destruct Ho as (H1 & H2 & H3), Hl as [Hma Hl]. exists (n + m), l2. unfold load. rewrite Hma. cbn.
    pose proof (proj1 (ordered_bounds _ _ _ H3)).
    rewrite u32_id by (unfold is_u32; lia). split; [done|]. split; [lia|].
    split; [eapply ordered_weaken; [|exact H3]; lia|]. split; [done|]. split; [lia|].
    intros x Hx Ha Hf. inversion Hf as [|? ? Hf1 Hf2]; subst. split; [|done].
    apply apart_merge; [done|done|]. by replace (bp + 8 * n) with (bp + n * 8) by lia.
  - exists n, l2. repeat split; try done; try lia. 
Qed.

(** Where [free] puts the block. *)
Lemma free_place h bs bp n :
  free_ok h bs -> base + 8 <= bp -> 1 <= n -> bp + 8 * n <= h_brk h -> Forall (apart (bp, n)) bs ->
  exists l1 l2 L p m, bs = l1 ++ l2 /\ (base, 0) :: l1 = L ++ [(p, m)] /\
  ordered (base + 8) l1 bp /\ ordered (bp + 8 * n) l2 (h_brk h) /\
  find_place (S (size (h_mem h))) h bp (h_freep h) = Some p /\
  linked (h_mem h) L p /\ h_mem h !! p = Some (Header (first l2 base) m) /\ linked (h_mem h) l2 base.
Proof.
  intros [Hfp Hc Ho Hlim] Hbp Hn Hend Hap.
  destruct (ordered_split _ _ _ (bp, n) Ho Hn Hap) as (l1 & l2 & -> & Hl1 & Hl2). cbn [fst snd] in Hl1, Hl2.
  assert (NoDup (map fst ((base, 0) :: l1 ++ l2))) as Hnd.
  { cbn. constructor; [eapply ordered_not_in; [exact Ho|lia]|by eapply ordered_NoDup]. }
  apply ordered_app in Ho as (mid & Ho1 & Ho2).
  apply (ordered_hi _ _ _ bp) in Ho1; [|lia|done]. apply (ordered_lo _ _ _ (bp + 8 * n)) in Ho2; [|lia|done].
  assert (rising ((base, 0) :: l1) bp) as Hr.
  { cbn. split; [destruct l1 as [|[a k] l1]; cbn [first ordered] in *; lia|]. eapply ordered_rising; [exact Ho1|lia]. }
  pose proof (linked_size _ _ _ Hc Hnd) as Hsz. clear Hnd.
  destruct (@exists_last _ ((base, 0) :: l1) ltac:(done)) as (L & [p m] & EL).
  assert ((base, 0) :: l1 ++ l2 = L ++ (p, m) :: l2) as EF
    by (change ((base, 0) :: l1 ++ l2) with (((base, 0) :: l1) ++ l2); by rewrite EL, <- app_assoc).
  assert (map fst (L ++ (p, m) :: l2) = base :: map fst (l1 ++ l2)) as Em by (by rewrite <- EF).
  rewrite EF in Hc, Hsz. rewrite EL in Hr. exists l1, l2, L, p, m.
  do 4 (split; [done|]). split; [|by rewrite linked_app in Hc].
  eapply (find_place_run h bp L p m l2 (h_brk h)); [done|eapply ordered_weaken; [|exact Ho2]; lia|by rewrite <- EL|lia|done|by rewrite Em|lia].
Qed.

(** Merging with the block below, and linking the result. *)
Lemma free_down mem l1 L p m bp k rest hi xp :
  (base, 0) :: l1 = L ++ [(p, m)] -> ordered (base + 8) l1 bp -> base + 8 <= bp -> 1 <= k -> hi <= 2147483648 ->
  ordered (bp + 8 * k) rest hi -> linked mem L p -> linked mem rest base -> s_size xp = m ->
  exists bs',
  linked (<[p := if p + m * sizeof_header =? bp then Header (first rest base) (u32 (m + k))
                 else xp <| s_ptr := bp |>]> (<[bp := Header (first rest base) k]> mem)) ((base, 0) :: bs') base /\
  ordered (base + 8) bs' hi /\ p ∈ base :: map fst bs' /\ Exists (fun x => k <= snd x) bs' /\
  (length bs' <= S (length l1 + length rest))%nat /\
  (forall x, 1 <= snd x -> Forall (apart x) l1 -> apart x (bp, k) -> Forall (apart x) rest -> Forall (apart x) bs').
Proof.
  intros EL Ho1 Hbp Hk Hhi Hor HlL Hlr <-.
  assert (NoDup (map fst ((base, 0) :: l1))) as Hnd.
  { cbn. constructor; [|by eapply ordered_NoDup]. eapply ordered_not_in; [exact Ho1|lia]. }
  assert (Forall (fun a => a < bp) (map fst ((base, 0) :: l1))) as Hlt.
  { cbn. constructor; [lia|]. eapply Forall_impl; [by eapply ordered_addr|]. cbn. intros; lia. }
  rewrite EL, map_app in Hnd, Hlt. cbn in Hnd, Hlt. rewrite Forall_app, Forall_singleton in Hlt. destruct Hlt as [HLlt Hplt].
  apply NoDup_app in Hnd as (_ & HpL & _). assert (p ∉ map fst L) as HpL' by (intros H; apply (HpL p H), list_elem_of_singleton; done).
  assert (bp ∉ map fst L) as HbL by (intros H; rewrite Forall_forall in HLlt; specialize (HLlt bp H); lia).
  assert (p ∉ map fst rest /\ bp ∉ map fst rest) as [Hpr Hbr] by (split; eapply ordered_not_in; (exact Hor || lia)).
  assert (p ∈ base :: map fst l1) as Hpin.
  { change (base :: map fst l1) with (map fst ((base, 0) :: l1)). rewrite EL, map_app. apply elem_of_app. right. by apply list_elem_of_singleton. }
  pose proof (ordered_bounds _ _ _ Hor) as [Hb1 _]. unfold sizeof_header.
  destruct (Z.eqb_spec (p + s_size xp * 8) bp) as [E|E].
  - destruct L as [|[b z] L]; [cbn in EL; injection EL as Ep Em _; lia|]. injection EL as <- <- ->.
    apply ordered_app in Ho1 as (mid & Ho1 & Ho1'). cbn [ordered] in Ho1'.
    pose proof (proj1 (ordered_bounds _ _ _ Ho1)) as Hmid.
    exists (L ++ (p, s_size xp + k) :: rest). split_and!.
    + change ((base, 0) :: L ++ (p, s_size xp + k) :: rest) with (((base, 0) :: L) ++ (p, s_size xp + k) :: rest).
      rewrite linked_app. split; [by apply linked_insert, linked_insert|]. cbn [linked]. rewrite lookup_insert_eq.
      rewrite u32_id by (unfold is_u32; lia). split; [done|]. by apply linked_insert, linked_insert.
    + apply ordered_app. exists mid. split; [done|]. cbn [ordered]. split; [lia|]. split; [lia|].
      by replace (p + 8 * (s_size xp + k)) with (bp + 8 * k) by lia.
    + rewrite map_app. cbn. set_solver.
    + apply Exists_app. right. constructor. cbn. lia.
    + rewrite !length_app. cbn. lia.
    + intros x Hx H1 H2 H3. rewrite Forall_app, Forall_singleton in H1. rewrite Forall_app, Forall_cons. destruct H1 as [H1 Hp].
      split; [done|]. split; [|done]. apply apart_merge; [done|done|]. by replace (p + 8 * s_size xp) with bp by lia.
  - exists (l1 ++ (bp, k) :: rest). split_and!.
    + replace ((base, 0) :: l1 ++ (bp, k) :: rest) with (L ++ (p, s_size xp) :: (bp, k) :: rest).
      2:{ change ((base, 0) :: l1 ++ (bp, k) :: rest) with (((base, 0) :: l1) ++ (bp, k) :: rest). by rewrite EL, <- app_assoc. }
      rewrite linked_app. split; [by apply linked_insert, linked_insert|]. cbn [linked]. rewrite lookup_insert_eq.
      rewrite lookup_insert_ne, lookup_insert_eq by lia. split; [done|]. split; [done|]. by apply linked_insert, linked_insert.
    + apply ordered_app. exists bp. split; [done|]. cbn [ordered]. split; [lia|]. split; [lia|done].
    + rewrite map_app. set_solver.
    + apply Exists_app. right. constructor. cbn. lia.
    + rewrite length_app. cbn. lia.
    + intros x Hx H1 H2 H3. rewrite Forall_app, Forall_cons. done.
Qed.

Lemma free_run h bs bp n q :
  free_ok h bs -> h_mem h !! bp = Some (Header q n) -> base + 8 <= bp -> 1 <= n -> bp + 8 * n <= h_brk h ->
  Forall (apart (bp, n)) bs -> exists h' bs', free h (bp + 8) = Some h' /\ free_ok h' bs' /\
  h_brk h' = h_brk h /\ h_limit h' = h_limit h /\ Exists (fun x => n <= snd x) bs' /\
  (length bs' <= S (length bs))%nat /\
  (forall x, 1 <= snd x -> base + 8 <= fst x -> apart x (bp, n) -> Forall (apart x) bs ->
     Forall (apart x) bs' /\ h_mem h' !! fst x = h_mem h !! fst x).
Proof.
  intros Hok Hm Hbp Hn Hend Hap. pose proof (fo_lim _ _ Hok) as Hlim.
  destruct (free_place h bs bp n Hok Hbp Hn Hend Hap) as (l1 & l2 & L & p & m & -> & EL & Ho1 & Ho2 & Hfind & HlL & Hmp & Hl2).
  destruct (free_up h bp n q l2 Hm ltac:(lia) Hn ltac:(lia) Ho2 Hl2) as (k & rest & Eup & Hk & Hor & Hlr & Hlen & Hapr).
  destruct (free_down (h_mem h) l1 L p m bp k rest (h_brk h) (Header (first l2 base) m) EL Ho1 Hbp ltac:(lia) ltac:(lia) Hor HlL Hlr eq_refl)
    as (bs' & Hlink & Hord & Hpin & Hex & Hlen' & Hap').
  unfold free. replace (bp + 8 - sizeof_header) with bp by (unfold sizeof_header; lia).
  rewrite Hfind. cbn [mbind option_bind]. rewrite (Hmp : load h p = _). cbn [mbind option_bind].
  rewrite (Hm : load h bp = _). cbn [mbind option_bind s_size s_ptr]. rewrite Eup. cbn [mbind option_bind s_size s_ptr].
  eexists _, bs'. split; [reflexivity|]. split; [by constructor|]. split; [done|]. split; [done|].
  split; [eapply Exists_impl; [exact Hex|]; cbn; intros; lia|]. split; [rewrite length_app; lia|].
  intros x Hx Hxb Hxa Hxf. rewrite Forall_app in Hxf. destruct Hxf as [Hx1 Hx2]. destruct (Hapr x Hx Hxa Hx2) as [Hxk Hxr].
  split; [by apply Hap'|]. cbn. rewrite !lookup_insert_ne; [done| |].
  - intros Eb. unfold apart in Hxa. cbn [fst snd] in Hxa. lia.
  - intros Ep. assert (p ∈ map fst ((base, 0) :: l1)) as Hin by (rewrite EL, map_app; apply elem_of_app; right; by apply list_elem_of_singleton).
    cbn in Hin. apply elem_of_cons in Hin as [Hin|Hin]; [lia|]. apply list_elem_of_fmap in Hin as (y & Ey & Hy).
    rewrite Forall_forall in Hx1. specialize (Hx1 y Hy). apply ordered_bounds in Ho1 as [_ Ho1]. rewrite Forall_forall in Ho1.
    specialize (Ho1 y Hy). cbn beta in Ho1. unfold apart in Hx1. lia.
Qed.

(** ** [malloc] *)

(** The address of the last block of [l], [d] if there is none. *)
Definition last_addr (l : list (Z * Z)) (d : Z) : Z := default d (fst <$> last l).

Lemma last_addr_snoc l a n d : last_addr (l ++ [(a, n)]) d = a.
Proof. unfold last_addr. by rewrite last_snoc. Qed.

Lemma last_addr_cons x l d : last_addr (x :: l) d = last_addr l (fst x).
Proof. unfold last_addr. rewrite last_cons. by destruct (last l). Qed.

Lemma last_addr_app l1 l2 d : last_addr (l1 ++ l2) d = last_addr l2 (last_addr l1 d).
Proof. revert d. induction l1 as [|x l1 IH]; intros d; [done|]. cbn [app]. by rewrite !last_addr_cons, IH. Qed.

(** The loop passes over blocks that are too small. *)
Lemma malloc_skip h nu d : forall l prev k,
  linked (h_mem h) l d -> Forall (fun x => snd x < nu) l -> h_freep h ∉ map fst l ->
  malloc_loop (length l + k) h nu prev (first l d) = malloc_loop k h nu (last_addr l prev) d.
Proof.
  induction l as [|[a n] l IH]; intros prev k Hl Hf Hn; [done|]. cbn in Hl, Hn. destruct Hl as [Hm Hl].
  inversion Hf as [|? ? H1 H2]; subst. cbn in H1. rewrite not_elem_of_cons in Hn. destruct Hn as [Hn1 Hn2].
  cbn [length Nat.add malloc_loop first]. rewrite (Hm : load h a = _). cbn [mbind option_bind s_size s_ptr].
  rewrite (proj2 (Z.leb_gt nu n)), (proj2 (Z.eqb_neq a (h_freep h))) by (done || congruence).
  rewrite last_addr_cons. by apply IH.
Qed.

Lemma first_fit nu (l : list (Z * Z)) : Forall (fun x => snd x < nu) l \/
  exists l1 p n l2, l = l1 ++ (p, n) :: l2 /\ Forall (fun x => snd x < nu) l1 /\ nu <= n.
Proof.
  induction l as [|[p n] l IH]; [by left|]. destruct (decide (snd (p, n) < nu)) as [H|H].
  - destruct IH as [IH|(l1 & q & m & l2 & -> & Hl & Hm)]; [left; by constructor|].
    right. exists ((p, n) :: l1), q, m, l2. split; [done|]. split; [by constructor|done].
  - right. exists [], p, n, l. split; [done|]. split; [constructor|cbn in H; lia].
Qed.

Lemma free_ok_nodup h bs : free_ok h bs -> NoDup (map fst ((base, 0) :: bs)).
Proof.
  intros [_ _ Ho _]. cbn. constructor; [eapply ordered_not_in; [exact Ho|lia]|by eapply ordered_NoDup].
Qed.

(** One round of the loop, from the block after [freep]: it stops at a block
    that is large enough, or comes back to [freep] having seen none. *)
Lemma malloc_round h bs nu x fuel :
  free_ok h bs -> 1 <= nu -> h_mem h !! h_freep h = Some x -> (length bs + 1 < fuel)%nat ->
  (exists b1 p n b2 k, bs = b1 ++ (p, n) :: b2 /\ nu <= n /\
     malloc_loop fuel h nu (h_freep h) (s_ptr x) = malloc_loop (S k) h nu (last_addr b1 base) p) \/
  (Forall (fun x => snd x < nu) bs /\ exists prev k, (fuel <= S k + length bs + 1)%nat /\
     malloc_loop fuel h nu (h_freep h) (s_ptr x) = malloc_loop (S k) h nu prev (h_freep h)).
Proof.
  intros Hok Hnu Hx Hf. pose proof (free_ok_nodup _ _ Hok) as Hnd. destruct Hok as [Hfp Hl _ _].
  change (base :: map fst bs) with (map fst ((base, 0) :: bs)) in Hfp. apply list_elem_of_fmap in Hfp as ([f m] & Ef & Hin).
  cbn in Ef. apply list_elem_of_split in Hin as (A & B & EF). rewrite EF in Hl, Hnd.
  rewrite map_app in Hnd. cbn in Hnd. apply NoDup_app in Hnd as (_ & HA & HB). apply NoDup_cons in HB as [HfB _].
  assert (f ∉ map fst A) as HfA by (intros H; apply (HA f H); set_solver). clear HA.
  rewrite linked_app in Hl. cbn [linked first] in Hl. destruct Hl as (HlA & Hm & HlB).
  rewrite Ef, Hm in Hx. injection Hx as <-. cbn [s_ptr]. rewrite Ef.
  assert (length A + length B = length bs)%nat as Hlen by (apply (f_equal length) in EF; rewrite length_app in EF; cbn in EF; lia).
  destruct (first_fit nu B) as [HnB|(B1 & p & n & B2 & -> & HB1 & Hn)].
  2:{ (* a block after freep *)
      left. rewrite linked_app in HlB. destruct HlB as [HlB1 _]. rewrite map_app, not_elem_of_app in HfB. rewrite length_app in Hlen. cbn in Hlen.
      rewrite first_app. cbn [first]. replace fuel with (length B1 + S (fuel - length B1 - 1))%nat by lia.
      rewrite malloc_skip by (done || rewrite Ef; tauto).
      destruct A as [|a A]; cbn in EF.
      - injection EF as -> _ ->. by exists B1, p, n, B2, (fuel - length B1 - 1)%nat.
      - injection EF as _ ->. exists (A ++ (f, m) :: B1), p, n, B2, (fuel - length B1 - 1)%nat. rewrite <- app_assoc.
        split; [done|]. split; [done|]. by rewrite last_addr_app, last_addr_cons. }
  assert (base = first A f) as EA by (destruct A as [|[b z] A]; cbn in *; congruence).
  replace fuel with (length B + (fuel - length B))%nat by lia. rewrite malloc_skip by (done || by rewrite Ef).
  replace (malloc_loop (fuel - length B) h nu (last_addr B f) base)
    with (malloc_loop (fuel - length B) h nu (last_addr B f) (first A f)) by (by rewrite <- EA).
  destruct (first_fit nu A) as [HnA|(A1 & p & n & A2 & -> & HA1 & Hn)].
  2:{ (* a block before freep *)
      left. rewrite linked_app in HlA. destruct HlA as [HlA1 _]. rewrite map_app, not_elem_of_app in HfA. rewrite length_app in Hlen. cbn in Hlen.
      rewrite first_app. cbn [first]. replace (fuel - length B)%nat with (length A1 + S (fuel - length B - length A1 - 1))%nat by lia.
      rewrite malloc_skip by (done || rewrite Ef; tauto).
      destruct A1 as [|a A1]; cbn in EF; [injection EF; lia|]. injection EF as <- ->.
      eexists A1, p, n, _, _. split; [by rewrite <- app_assoc|]. split; [done|]. by rewrite last_addr_cons. }
  replace (fuel - length B)%nat with (length A + S (fuel - length B - length A - 1))%nat by lia.
  rewrite malloc_skip by (done || by rewrite Ef). destruct (decide (nu <= m)) as [Hn|Hn].
  - left. destruct A as [|a A]; cbn in EF; [injection EF; lia|]. injection EF as <- ->.
    eexists A, f, m, B, _. split; [done|]. split; [done|]. by rewrite last_addr_cons.
  - right. split.
    + assert (Forall (fun x => snd x < nu) ((base, 0) :: bs)) as H by (rewrite EF; apply Forall_app; split; [done|constructor; [cbn; lia|done]]).
      by inversion H.
    + eexists _, _. split; [|done]. lia.
Qed.

Lemma pred_split b1 : exists L m, (base, 0) :: b1 = L ++ [(last_addr b1 base, m)].
Proof.
  destruct (@exists_last _ ((base, 0) :: b1) ltac:(done)) as (L & [p m] & E). exists L, m. rewrite E. do 3 f_equal.
  change base with (fst (base, 0)). by rewrite <- (last_addr_cons (base, 0) b1 0), E, last_addr_snoc.
Qed.

(** What an allocation does to the heap: block [(q, nu)] leaves the free list. *)
Definition taken (h h' : heap) (bs bs' : list (Z * Z)) (q nu : Z) : Prop :=
  free_ok h' bs' /\ h_brk h' = h_brk h /\ h_limit h' = h_limit h /\
  (exists z, h_mem h' !! q = Some (Header z nu)) /\ base + 8 <= q /\ q + 8 * nu <= h_brk h /\
  Forall (apart (q, nu)) bs' /\
  (forall x, 1 <= snd x -> base + 8 <= fst x -> Forall (apart x) bs ->
     apart x (q, nu) /\ Forall (apart x) bs' /\ h_mem h' !! fst x = h_mem h !! fst x).

(** A block of the free list is apart from the others. *)
Lemma ordered_apart lo b1 p n b2 hi : ordered lo (b1 ++ (p, n) :: b2) hi -> Forall (apart (p, n)) (b1 ++ b2).
Proof.
  intros H%ordered_separate. rewrite separate_app in H. cbn in H. destruct H as (_ & (H2 & _) & H3).
  apply Forall_app. split; [|done]. eapply Forall_impl; [exact H3|]. cbn. intros x Hx. inversion Hx; subst. by apply apart_sym.
Qed.

Lemma apart_part x p n a k : p <= a -> a + 8 * k <= p + 8 * n -> apart x (p, n) -> apart x (a, k).
Proof. unfold apart. cbn [fst snd]. lia. Qed.

Lemma not_elem_apart x (l : list (Z * Z)) : 1 <= snd x -> Forall (fun y => 1 <= snd y) l -> Forall (apart x) l -> fst x ∉ map fst l.
Proof.
  intros Hx Hl Ha Hin. apply list_elem_of_fmap in Hin as (y & Ey & Hy). rewrite Forall_forall in Hl, Ha.
  specialize (Hl y Hy). specialize (Ha y Hy). unfold apart in Ha. lia.
Qed.

Lemma free_ok_sizes h bs : free_ok h bs -> Forall (fun y => 1 <= snd y) bs.
Proof. intros [_ _ Ho _]. apply ordered_bounds in Ho as [_ H]. eapply Forall_impl; [exact H|]. cbn. intros; lia. Qed.

(** The whole block. *)
Lemma take_whole h b1 p n b2 :
  free_ok h (b1 ++ (p, n) :: b2) -> exists xv, load h (last_addr b1 base) = Some xv /\
  taken h ((store h (last_addr b1 base) (xv <| s_ptr := first b2 base |>)) <| h_freep := last_addr b1 base |>)
    (b1 ++ (p, n) :: b2) (b1 ++ b2) p n.
Proof.
  intros Hok. pose proof (free_ok_nodup _ _ Hok) as Hnd. pose proof (free_ok_sizes _ _ Hok) as Hsz. destruct Hok as [_ Hl Ho Hlim].
  pose proof (ordered_apart _ _ _ _ _ _ Ho) as Hap. destruct (pred_split b1) as (L & m & EL). set (v := last_addr b1 base) in *.
  change ((base, 0) :: b1 ++ (p, n) :: b2) with (((base, 0) :: b1) ++ (p, n) :: b2) in Hl, Hnd. rewrite EL in Hl, Hnd.
  rewrite <- app_assoc in Hl, Hnd. cbn [app] in Hl, Hnd. rewrite linked_app in Hl. cbn [linked first] in Hl.
  destruct Hl as (HlL & Hv & Hp & Hl2). exists (Header p m). split; [done|]. cbn.
  rewrite map_app in Hnd. cbn in Hnd. apply NoDup_app in Hnd as (_ & HL & Hr). apply NoDup_cons in Hr as [Hvr _].
  rewrite not_elem_of_cons in Hvr. destruct Hvr as [Hvp Hvb].
  assert (v ∉ map fst L) as HvL by (intros H; apply (HL v H); set_solver).
  assert (v ∈ base :: map fst b1) as Hvin.
  { change (base :: map fst b1) with (map fst ((base, 0) :: b1)). rewrite EL, map_app. cbn. set_solver. }
  pose proof (ordered_bounds _ _ _ Ho) as [_ Hb]. rewrite Forall_app, Forall_cons in Hb. destruct Hb as (Hb1 & (Hb2 & Hb3 & Hb4) & _).
  cbn [fst snd] in Hb2, Hb3, Hb4. split_and!; try done.
  - constructor; [|..|done].
    + cbn. rewrite map_app. set_solver.
    + change ((base, 0) :: b1 ++ b2) with (((base, 0) :: b1) ++ b2). rewrite EL, <- app_assoc. cbn [app]. rewrite linked_app.
      split; [by apply (linked_insert (h_mem h))|]. split; [cbn; by rewrite lookup_insert_eq|].
      by apply (linked_insert (h_mem h)).
    + cbn. apply ordered_app in Ho as (mid & Ho1 & Ho2). cbn [ordered] in Ho2. apply ordered_app. exists mid. split; [done|].
      eapply ordered_weaken; [|apply Ho2]. lia.
  - exists (first b2 base). cbn. by rewrite lookup_insert_ne.
  - intros x Hx Hxb Hxa. rewrite Forall_app, Forall_cons in Hxa. destruct Hxa as (Hx1 & Hxp & Hx2).
    split; [done|]. split; [by apply Forall_app|]. cbn. rewrite lookup_insert_ne; [done|]. intros E.
    rewrite E in Hvin. apply elem_of_cons in Hvin as [Hvin|Hvin]; [lia|]. revert Hvin. apply not_elem_apart; [done| |done].
    apply Forall_app in Hsz. tauto.
Qed.

(** The end of a larger block. *)
Lemma take_tail h b1 p n b2 nu z :
  free_ok h (b1 ++ (p, n) :: b2) -> 1 <= nu < n ->
  taken h ((store (store h p (Header (first b2 base) (n - nu))) (p + (n - nu) * 8) (Header z nu)) <| h_freep := last_addr b1 base |>)
    (b1 ++ (p, n) :: b2) (b1 ++ (p, n - nu) :: b2) (p + (n - nu) * 8) nu.
Proof.
  intros Hok Hnu. pose proof (free_ok_nodup _ _ Hok) as Hnd. pose proof (free_ok_sizes _ _ Hok) as Hsz. destruct Hok as [_ Hl Ho Hlim].
  pose proof (ordered_apart _ _ _ _ _ _ Ho) as Hap. set (q := p + (n - nu) * 8) in *.
  change ((base, 0) :: b1 ++ (p, n) :: b2) with (((base, 0) :: b1) ++ (p, n) :: b2) in Hl, Hnd. rewrite linked_app in Hl. cbn [linked first] in Hl.
  destruct Hl as (HlL & Hp & Hl2). rewrite map_app in Hnd. cbn [map fst] in Hnd. apply NoDup_app in Hnd as (_ & HL & Hr).
  apply NoDup_cons in Hr as [Hpb _].
  assert (p ∉ base :: map fst b1) as HpL by (intros H; apply (HL p H); set_solver).
  pose proof (ordered_bounds _ _ _ Ho) as [_ Hb]. rewrite Forall_app, Forall_cons in Hb. destruct Hb as (Hb1 & (Hb2 & Hb3 & Hb4) & _).
  cbn [fst snd] in Hb2, Hb3, Hb4. rewrite Forall_app, Forall_cons in Hsz. destruct Hsz as (Hs1 & _ & Hs2).
  assert (Forall (apart (q, nu)) (b1 ++ b2)) as Hqa.
  { eapply Forall_impl; [exact Hap|]. intros y Hy. apply apart_sym, (apart_part y p n); [lia|lia|]. by apply apart_sym. }
  assert (q ∉ map fst (b1 ++ b2)) as Hqn.
  { apply (not_elem_apart (q, nu)); [cbn; lia| |done]. by apply Forall_app. }
  rewrite map_app, not_elem_of_app in Hqn. destruct Hqn as [Hq1 Hq2].
  assert (last_addr b1 base ∈ base :: map fst b1) as Hvin.
  { destruct (pred_split b1) as (L & m & EL). change (base :: map fst b1) with (map fst ((base, 0) :: b1)). rewrite EL, map_app. cbn. set_solver. }
  split_and!; try done; try lia.
  - constructor; [|..|done].
    + cbn. rewrite map_app. set_solver.
    + change ((base, 0) :: b1 ++ (p, n - nu) :: b2) with (((base, 0) :: b1) ++ (p, n - nu) :: b2). rewrite linked_app.
      split; [apply (linked_insert (<[p := _]> (h_mem h))); [cbn; rewrite not_elem_of_cons; split; [lia|done]|]; by apply linked_insert|].
      split; [cbn; by rewrite lookup_insert_ne, lookup_insert_eq by lia|].
      by apply (linked_insert (<[p := _]> (h_mem h))), linked_insert.
    + cbn. apply ordered_app in Ho as (mid & Ho1 & Ho2). cbn [ordered] in Ho2. apply ordered_app. exists mid. split; [done|].
      cbn [ordered]. split; [lia|]. split; [lia|]. eapply ordered_weaken; [|apply Ho2]. lia.
  - exists z. cbn. by rewrite lookup_insert_eq.
  - rewrite Forall_app, Forall_cons in *. destruct Hqa as [Hqa1 Hqa2]. split; [done|]. split; [|done]. unfold apart. cbn [fst snd]. lia.
  - intros x Hx Hxb Hxa. rewrite Forall_app, Forall_cons in Hxa. destruct Hxa as (Hx1 & Hxp & Hx2).
    split; [apply (apart_part x p n); [lia|lia|done]|]. split.
    + rewrite Forall_app, Forall_cons. split; [done|]. split; [apply (apart_part x p n); [lia|lia|done]|done].
    + cbn. unfold apart in Hxp. cbn [fst snd] in Hxp. rewrite !lookup_insert_ne by lia. done.
Qed.

Lemma malloc_take h b1 p n b2 nu k :
  free_ok h (b1 ++ (p, n) :: b2) -> 1 <= nu <= n -> exists q h' bs',
  malloc_loop (S k) h nu (last_addr b1 base) p = Some (q + 8, h') /\
  taken h h' (b1 ++ (p, n) :: b2) bs' q nu.
Proof.
  intros Hok Hnu. assert (load h p = Some (Header (first b2 base) n)) as Hp.
  { destruct Hok as [_ Hl _ _]. change ((base, 0) :: b1 ++ (p, n) :: b2) with (((base, 0) :: b1) ++ (p, n) :: b2) in Hl.
    rewrite linked_app in Hl. by destruct Hl as (_ & Hp & _). }
  cbn [malloc_loop]. rewrite Hp. cbn [mbind option_bind s_size s_ptr]. rewrite (proj2 (Z.leb_le nu n)) by lia.
  destruct (Z.eqb_spec n nu) as [->|Hne].
  - destruct (take_whole _ _ _ _ _ Hok) as (xv & Hv & Ht). rewrite Hv. by eexists p, _, _.
  - eexists _, _, _. split; [done|]. apply take_tail; [done|lia].
Qed.

Lemma free_ok_freep h bs : free_ok h bs -> 0 < h_freep h /\ exists x, load h (h_freep h) = Some x.
Proof.
  intros [Hin Hl Ho _]. split.
  - apply elem_of_cons in Hin as [->|Hin]; [done|]. apply ordered_addr in Ho. rewrite Forall_forall in Ho. specialize (Ho _ Hin). lia.
  - change (base :: map fst bs) with (map fst ((base, 0) :: bs)) in Hin. apply list_elem_of_fmap in Hin as ([a n] & -> & Hin).
    apply list_elem_of_split in Hin as (A & B & EF). rewrite EF in Hl. rewrite linked_app in Hl. cbn in Hl.
    destruct Hl as (_ & Ha & _). by eexists.
Qed.

(** The heap grows by a free block large enough, or not at all. *)
Lemma morecore_run h bs nu :
  free_ok h bs -> 1 <= nu -> 8 * nu < 2147483648 ->
  morecore h nu = Some (0, h) \/
  exists h' bs', morecore h nu = Some (h_freep h', h') /\ free_ok h' bs' /\ h_brk h <= h_brk h' /\ h_limit h' = h_limit h /\
  Exists (fun x => nu <= snd x) bs' /\ (length bs' <= S (length bs))%nat /\
  (forall x, 1 <= snd x -> base + 8 <= fst x -> fst x + 8 * snd x <= h_brk h -> Forall (apart x) bs ->
     Forall (apart x) bs' /\ h_mem h' !! fst x = h_mem h !! fst x).
Proof.
  intros Hok Hnu Hlt. unfold morecore. set (n := if nu <? 4096 then 4096 else nu).
  assert (nu <= n /\ 8 * n < 2147483648) as [Hn1 Hn2] by (unfold n; destruct (Z.ltb_spec nu 4096); lia).
  assert (i32 (u32 (n * sizeof_header)) = 8 * n) as En.
  { rewrite i32_of_u32. unfold sizeof_header. rewrite i32_id by (unfold is_i32; lia). lia. }
  destruct Hok as [Hfp Hl Ho Hlim]. pose proof (ordered_bounds _ _ _ Ho) as [Hbb Hbs].
  unfold sbrk. rewrite En. destruct ((0 <=? h_brk h + 8 * n) && (h_brk h + 8 * n <=? h_limit h)) eqn:E; [|by left].
  apply andb_true_iff in E as [E1 E2]. apply Z.leb_le in E1, E2. right.
  rewrite (proj2 (Z.eqb_neq (h_brk h) (-1))) by lia.
  set (h1 := store (h <| h_brk := h_brk h + 8 * n |>) (h_brk h) _).
  assert (free_ok h1 bs) as Hok1.
  { constructor; [done| | |cbn; lia].
    - apply (linked_insert (h_mem h)); [|done]. cbn. rewrite not_elem_of_cons. split; [lia|]. eapply ordered_not_in; [exact Ho|lia].
    - cbn. replace bs with (bs ++ []) by apply app_nil_r. apply ordered_app. exists (h_brk h). split; [done|]. cbn. lia. }
  assert (exists z, h_mem h1 !! h_brk h = Some (Header z n)) as [z Hz] by (eexists; cbn; by rewrite lookup_insert_eq).
  assert (Forall (apart (h_brk h, n)) bs) as Hap.
  { eapply Forall_impl; [exact Hbs|]. cbn. intros y Hy. right. cbn. lia. }
  destruct (free_run h1 bs (h_brk h) n z Hok1 Hz ltac:(lia) ltac:(lia) ltac:(cbn; lia) Hap) as (h' & bs' & Ef & Hok' & Hbrk & Hlim' & Hex & Hlen & Hpr).
  unfold sizeof_header. rewrite Ef. cbn [mbind option_bind]. exists h', bs'. split; [done|]. split; [done|].
  split; [rewrite Hbrk; cbn; lia|]. split; [by rewrite Hlim'|]. split; [eapply Exists_impl; [exact Hex|]; cbn; intros; lia|]. split; [done|].
  intros x Hx Hxb Hxe Hxa. destruct (Hpr x Hx Hxb) as [H1 H2]; [left; cbn; lia|done|]. split; [done|].
  rewrite H2. cbn. by rewrite lookup_insert_ne by lia.
Qed.

(** The free list and the blocks in use. *)
Record live (h : heap) (bs al : list (Z * Z)) : Prop := Live {
  lv_free : free_ok h bs;
  lv_used : Forall (fun x => base + 8 <= fst x /\ 1 <= snd x /\ fst x + 8 * snd x <= h_brk h /\
                      (exists z, h_mem h !! fst x = Some (Header z (snd x))) /\ Forall (apart x) bs) al;
  lv_sep : separate al }.

Lemma live_taken h h' bs bs' al q nu : live h bs al -> 1 <= nu -> taken h h' bs bs' q nu -> live h' bs' ((q, nu) :: al).
Proof.
  intros [Hf Hu Hs] Hnu (Hf' & Hb & _ & Hq & Hq1 & Hq2 & Hqa & Hpr). constructor; [done| |].
  - constructor; [cbn; rewrite Hb; done|]. eapply Forall_impl; [exact Hu|]. cbn. intros x (H1 & H2 & H3 & [z Hz] & H5).
    destruct (Hpr x H2 H1 H5) as (_ & H6 & ->). rewrite Hb. eauto 10.
  - cbn. split; [|done]. eapply Forall_impl; [exact Hu|]. cbn. intros x (H1 & H2 & H3 & _ & H5). apply apart_sym.
    by apply (Hpr x H2 H1 H5).
Qed.

Lemma live_more h h' bs bs' al : live h bs al -> free_ok h' bs' -> h_brk h <= h_brk h' ->
  (forall x, 1 <= snd x -> base + 8 <= fst x -> fst x + 8 * snd x <= h_brk h -> Forall (apart x) bs ->
     Forall (apart x) bs' /\ h_mem h' !! fst x = h_mem h !! fst x) -> live h' bs' al.
Proof.
  intros [Hf Hu Hs] Hf' Hb Hpr. constructor; [done| |done]. eapply Forall_impl; [exact Hu|].
  cbn. intros x (H1 & H2 & H3 & [z Hz] & H5). destruct (Hpr x H2 H1 H3 H5) as [H6 ->].
  split; [done|]. split; [done|]. split; [lia|]. eauto.
Qed.

Lemma malloc_loop_run h bs al nu x fuel :
  live h bs al -> 1 <= nu -> 8 * nu < 2147483648 -> load h (h_freep h) = Some x ->
  (2 * length bs + 5 <= fuel)%nat -> exists r h',
  malloc_loop fuel h nu (h_freep h) (s_ptr x) = Some (r, h') /\
  ((r = 0 /\ live h' bs al) \/ (r <> 0 /\ exists bs', live h' bs' ((r - 8, nu) :: al))).
Proof.
  intros Hlv Hnu Hlt Hx Hf. pose proof (lv_free _ _ _ Hlv) as Hok.
  assert (forall q, base + 8 <= q -> q + 8 <> 0) as Hnz by (intros; lia).
  destruct (malloc_round h bs nu x fuel Hok Hnu Hx ltac:(lia)) as [(b1 & p & n & b2 & k & -> & Hn & ->)|(Hno & prev & k & Hk & ->)].
  { destruct (malloc_take h b1 p n b2 nu k Hok ltac:(lia)) as (q & h' & bs' & -> & Ht). exists (q + 8), h'. split; [done|]. right.
    split; [apply Hnz, Ht|]. exists bs'. replace (q + 8 - 8) with q by lia. by eapply live_taken. }
  cbn [malloc_loop]. rewrite Hx. cbn [mbind option_bind].
  assert (s_size x < nu) as Hsx.
  { destruct Hok as [Hin Hl _ _]. change (base :: map fst bs) with (map fst ((base, 0) :: bs)) in Hin.
    apply list_elem_of_fmap in Hin as ([a n] & Ea & Hin). apply list_elem_of_split in Hin as (A & B & EF). cbn in Ea.
    assert (Forall (fun x => snd x < nu) ((base, 0) :: bs)) as Hall by (constructor; [cbn; lia|done]).
    rewrite EF in Hl, Hall. rewrite linked_app in Hl. destruct Hl as (_ & Ha & _). rewrite Forall_app, Forall_cons in Hall.
    unfold load in Hx. rewrite Ea, Ha in Hx. injection Hx as <-. cbn in *. lia. }
  rewrite (proj2 (Z.leb_gt nu (s_size x))), Z.eqb_refl by done.
  destruct (morecore_run h bs nu Hok Hnu Hlt) as [->|(h1 & bs1 & -> & Hok1 & Hb1 & _ & Hex & Hlen & Hpr)].
  { cbn. exists 0, h. split; [done|]. by left. }
  cbn [mbind option_bind]. destruct (free_ok_freep _ _ Hok1) as [Hpos [y Hy]].
  rewrite (proj2 (Z.eqb_neq (h_freep h1) 0)) by lia. rewrite Hy. cbn [mbind option_bind].
  pose proof (live_more _ _ _ _ _ Hlv Hok1 Hb1 Hpr) as Hlv1.
  destruct (malloc_round h1 bs1 nu y k Hok1 Hnu Hy ltac:(lia)) as [(b1 & p & n & b2 & k' & -> & Hn & ->)|(Hno1 & _)].
  - destruct (malloc_take h1 b1 p n b2 nu k' Hok1 ltac:(lia)) as (q & h' & bs' & -> & Ht). exists (q + 8), h'. split; [done|]. right.
    split; [apply Hnz, Ht|]. exists bs'. replace (q + 8 - 8) with q by lia. by eapply live_taken.
  - exfalso. apply Exists_exists in Hex as (z & Hz & Hzn). rewrite Forall_forall in Hno1. specialize (Hno1 z Hz). cbn in *. lia.
Qed.

End Spec.

(** ** The allocator's contract *)

(** Before the first call the free list does not exist; afterwards the blocks in
    use, [al], are within the heap, with their headers intact, and overlap
    neither each other nor the free blocks. *)
Definition heap_ok (base : Z) (h : heap) (al : list (Z * Z)) : Prop :=
  0 < base /\
  ((h_freep h = 0 /\ al = [] /\ base + 8 <= h_brk h <= h_limit h /\ h_limit h <= 2147483648) \/
   exists bs, live base h bs al).

Lemma units_bytes n : 0 <= n <= 2147483632 -> 1 <= units n /\ 8 * units n < 2147483648 /\ n <= 8 * (units n - 1).
Proof.
  intros H. unfold units, sizeof_header. rewrite (u32_id (n + 8 - 1)) by (unfold is_u32; lia).
  rewrite u32_id by (unfold is_u32; lia). lia.
Qed.

(** C15. [malloc] is safe for requests of at most 2^31 - 16 bytes, the largest whose block,
    with its header, has a size that is a positive [int]: in any state of the heap that earlier
    calls can leave, it returns, either 0 with the heap still in order, or a block of
    its own: at least the bytes asked for, within the heap, apart from every block in
    use and from the free list.  Beyond that bound the size may wrap around, as
    [malloc_overflow] shows. *)
Theorem malloc_safe base h al nbytes :
  heap_ok base h al -> 0 <= nbytes <= 2147483632 -> exists r h', malloc base h nbytes = Some (r, h') /\
  ((r = 0 /\ heap_ok base h' al) \/
   (r <> 0 /\ heap_ok base h' ((r - 8, units nbytes) :: al) /\ nbytes <= 8 * (units nbytes - 1))).
Proof.
  intros [Hb Hh] Hn. destruct (units_bytes nbytes Hn) as (Hu1 & Hu2 & Hu3).
  assert (forall h1 bs, live base h1 bs al -> exists r h',
    (x ← load h1 (h_freep h1); malloc_loop (2 * size (h_mem h1) + 4) h1 (units nbytes) (h_freep h1) (s_ptr x)) = Some (r, h') /\
    ((r = 0 /\ heap_ok base h' al) \/
     (r <> 0 /\ heap_ok base h' ((r - 8, units nbytes) :: al) /\ nbytes <= 8 * (units nbytes - 1)))) as Hrun.
  { intros h1 bs Hlv. pose proof (lv_free _ _ _ _ Hlv) as Hok. destruct (free_ok_freep base Hb _ _ Hok) as [_ [x Hx]].
    pose proof (linked_size _ _ _ (fo_circ _ _ _ Hok) (free_ok_nodup _ _ _ Hok)) as Hsz. cbn in Hsz. rewrite Hx. cbn [mbind option_bind].
    destruct (malloc_loop_run base Hb h1 bs al (units nbytes) x (2 * size (h_mem h1) + 4) Hlv Hu1 Hu2 Hx) as (r & h' & E & Hr); [lia|].
    exists r, h'. split; [exact E|]. destruct Hr as [[-> Hl]|[Hr [bs' Hl]]]; [left|right]; unfold heap_ok; eauto 10. }
  unfold malloc. destruct Hh as [(Hf & -> & Hbrk & Hlim)|[bs Hlv]].
  - rewrite Hf. cbn [Z.eqb]. eapply (Hrun _ []). constructor; [|constructor|done]. constructor; cbn; [set_solver| |lia|lia].
    by rewrite lookup_insert_eq.
  - pose proof (free_ok_freep base Hb _ _ (lv_free _ _ _ _ Hlv)) as [Hpos _].
    rewrite (proj2 (Z.eqb_neq (h_freep h) 0)) by lia. by eapply Hrun.
Qed.


(** A fresh process: the heap starts at 12288. *)
Definition demo_heap : heap := Heap ∅ 0 12288 1000000.

Lemma malloc_safe_witness : exists r h', malloc 4000 demo_heap 100 = Some (r, h') /\ r <> 0 /\
  heap_ok 4000 h' [(r - 8, 14)].
Proof.
  destruct (malloc_safe 4000 demo_heap [] 100) as (r & h' & E & H).
  - split; [lia|]. left. cbn. repeat split; lia.
  - lia.
  - exists r, h'. split; [exact E|]. destruct H as [[-> _]|(Hr & Hok & _)]; [|split; [exact Hr|exact Hok]].
    exfalso. vm_compute in E. discriminate E.
Defined.



(** The sum in the computation of the size wraps around: a request for almost the
    whole address space is granted with a block that has room for nothing. *)
Lemma malloc_overflow : exists r h', malloc 4000 demo_heap 4294967295 = Some (r, h') /\ r <> 0 /\ units 4294967295 = 1.
Proof. eexists _, _. split; [vm_compute; reflexivity|]. split; [lia|reflexivity]. Qed.
