(* ===== verification/Sim.v ===== *)
(** The paging simulators of lab-07: sim.c, and simulador_memoria.c, an earlier
    version of it with smaller memories and more messages.

    The second one is in Simulador.v.  Both read pairs of a process and a page, and keep a physical memory and a
    secondary storage of page frames with FIFO or LRU replacement.  The code they
    share is written once, over the sizes and [charla], the messages that only the
    second one prints.  A run goes on, leaves with [exit(EXIT_FAILURE)], or
    indexes an array out of its bounds. *)

From stdpp Require Import pretty.
From S2P Require Import Prelude.

Record Pagina := Pag { numero : Z; pid : Z; timestamp : Z }.
#[export] Instance Pagina_set : Settable Pagina := fun r => Pag (numero r) (pid r) (timestamp r).

(** [memoria]: 'F' physical, 'D' disk; [paginas]: the page, or -1. *)
Record Proceso := Pro { pr_pid : Z; memoria : list Z; paginas : list Z }.
#[export] Instance Proceso_set : Settable Proceso := fun r => Pro (pr_pid r) (memoria r) (paginas r).

(** The globals, and what has been printed. *)
Record sim := Sim {
  falsoTimestamp : Z; posActualMemoria : Z; posActualDisco : Z; tablaProcesos : list Proceso;
  mem_fisica : list Pagina; mem_secundaria : list Pagina; salida : string }.
#[export] Instance sim_set : Settable sim :=
  fun r => Sim (falsoTimestamp r) (posActualMemoria r) (posActualDisco r) (tablaProcesos r)
               (mem_fisica r) (mem_secundaria r) (salida r).

Inductive fin := Sigue (s : sim) | Sale (s : sim) | Falla.

Definition PROCESOS : Z := 20.
Definition charF : Z := 70.
Definition charD : Z := 68.
Definition charNo : Z := 45.

Definition imprime (m : string) (s : sim) : sim := s <| salida ::= fun o => o +:+ m |>.
Definition linea (m : string) : string := m +:+ String (Ascii.ascii_of_nat 10) EmptyString.
Definition caracter (c : Z) : string := String (Ascii.ascii_of_nat (Z.to_nat c)) EmptyString.

(** [a[i]] with a C index. *)
Definition en {A} (l : list A) (i : Z) : option A := if i <? 0 then None else l !! Z.to_nat i.

Section Paginacion.
(** The number of pages of each memory, the messages, and the indeterminate value
    of a variable that is not initialised. *)
Context (NV NF ND : nat) (charla : bool) (basura : Z -> Z).

Definition vaciarTablaProcesos (s : sim) : sim :=
  s <| tablaProcesos := replicate (Z.to_nat PROCESOS) (Pro (-1) (replicate NV charNo) (replicate NV (-1))) |>.

Definition vaciarDisco (s : sim) : sim :=
  s <| mem_secundaria ::= map (fun p => p <| numero := -1 |> <| pid := -1 |>) |>.

Definition vaciarMemoria (s : sim) : sim :=
  s <| mem_fisica ::= map (fun p => p <| numero := -1 |> <| pid := -1 |> <| timestamp := -1 |>) |>.

Definition imprimirMemoriaFisica (s : sim) : sim :=
  let marcos := map (fun p => if negb (numero p =? -1)
    then pretty (pid p) +:+ "." +:+ pretty (numero p) +:+ "." +:+ pretty (timestamp p) +:+ " " else "- ") (mem_fisica s) in
  imprime ("Memoria fisica: " +:+ linea (String.concat "" marcos)) s.

Definition imprimirMemoriaSecundaria (s : sim) : sim :=
  let marcos := map (fun p => if negb (numero p =? -1)
    then pretty (pid p) +:+ "." +:+ pretty (numero p) +:+ " " else "- ") (mem_secundaria s) in
  imprime ("Memoria secundaria: " +:+ linea (String.concat "" marcos)) s.

Definition imprimirTablaProcesos (s : sim) : sim :=
  let lineas := imap (fun i p => if negb (pr_pid p =? -1)
    then "Proceso " +:+ pretty (Z.of_nat i + 1) +:+ ": " +:+
      linea (String.concat "" (zip_with (fun q m => if negb (q =? -1)
        then "[" +:+ pretty q +:+ "," +:+ caracter m +:+ "] " else "- ") (paginas p) (memoria p)))
    else EmptyString) (tablaProcesos s) in
  imprime (String.concat "" lineas) s.

(** The page [v] that leaves is marked in the table of its process: the first
    process with its pid, the first entry with its number. *)
Fixpoint primero {A} (f : A -> bool) (l : list A) (i : nat) : option nat :=
  match l with [] => None | x :: l => if f x then Some i else primero f l (S i) end.

Definition marcarDisco (v : Pagina) (s : sim) : sim :=
  match primero (fun p => negb (pr_pid p =? -1) && (pr_pid p =? pid v)) (tablaProcesos s) 0 with
  | None => s
  | Some i => s <| tablaProcesos ::= alter (fun p =>
      match primero (fun q => q =? numero v) (paginas p) 0 with
      | None => p
      | Some j => p <| memoria ::= <[j := charD]> |>
      end) i |>
  end.

(** [tablaProcesos[pid - 1].paginas[pagina - 1] = pagina; ... = 'F'] *)
Definition asignar (pid pagina : Z) (s : sim) : fin :=
  match en (tablaProcesos s) (pid - 1) with
  | None => Falla
  | Some p =>
      match en (paginas p) (pagina - 1) with
      | None => Falla
      | Some _ =>
          let j := Z.to_nat (pagina - 1) in
          Sigue (s <| tablaProcesos ::= <[Z.to_nat (pid - 1) :=
            p <| paginas ::= <[j := pagina]> |> <| memoria ::= <[j := charF]> |>]> |>)
      end
  end.

(** The page in frame [u] goes to the disk. *)
Definition desalojar (u : nat) (s : sim) : sim :=
  match mem_fisica s !! u with
  | None => s
  | Some v =>
      let s := s <| mem_secundaria ::= <[Z.to_nat (posActualDisco s) := v]> |> in
      let s := marcarDisco v s in
      s <| posActualDisco ::= fun n => n + 1 |>
  end.

Definition disco_lleno (s : sim) : bool := Z.of_nat ND <=? posActualDisco s.

Definition ubicacion (s : sim) : nat := Z.to_nat (posActualMemoria s mod Z.of_nat NF).

Definition fifo (pid pagina : Z) (s : sim) : fin :=
  let u := ubicacion s in
  let r := if Z.of_nat NF <=? posActualMemoria s then
      let s := imprime ("Memoria llena, reemplazo " +:+ linea (pretty (Z.of_nat u))) s in
      if disco_lleno s then Sale (imprime (linea "Disco lleno, capo.") s) else Sigue (desalojar u s)
    else Sigue s in
  match r with
  | Sigue s => asignar pid pagina (s <| mem_fisica ::= <[u := Pag pagina pid (basura (posActualMemoria s))]> |>)
  | r => r
  end.

(** The loop that looks for the smallest timestamp, from [u]. *)
Fixpoint masChico (l : list Pagina) (i : nat) (t : Z) (u : nat) : nat :=
  match l with
  | [] => u
  | p :: l => if timestamp p <? t then masChico l (S i) (timestamp p) i else masChico l (S i) t u
  end.

Definition buscarMasChico (s : sim) (u : nat) : nat :=
  match mem_fisica s with [] => u | p :: _ => masChico (mem_fisica s) 0 (timestamp p) u end.

Definition lru (pid pagina : Z) (s : sim) : fin :=
  let u := ubicacion s in
  let r := if Z.of_nat NF <=? posActualMemoria s then
      let s := imprime ("Memoria llena, reemplazo " +:+ pretty (Z.of_nat u) +:+ linea " usando LRU ") s in
      if disco_lleno s then Sale (imprime (linea "Disco lleno, capo.") s) else
      let v := buscarMasChico s 0 in
      let s := if charla then imprime ("Reemplazando " +:+ linea (pretty (Z.of_nat v))) s else s in
      Sigue (desalojar v s)
    else Sigue s in
  match r with
  | Sigue s =>
      let s := if charla then imprime ("Aunque no lo creas, esta es la ubicacionMemoria " +:+ linea (pretty (Z.of_nat u))) s else s in
      let u := buscarMasChico s u in
      asignar pid pagina (s <| mem_fisica ::= <[u := Pag pagina pid (falsoTimestamp s)]> |>)
  | r => r
  end.

Definition usage (programa : string) (s : sim) : fin := Sale (imprime ("Uso: " +:+ programa +:+ linea " -f | -l ") s).

(** The position of the page in memory. *)
Definition enMemoria (pid' pagina : Z) (s : sim) : option nat :=
  primero (fun p => (pid p =? pid') && (numero p =? pagina)) (mem_fisica s) 0.

(** One turn of the loop of [main], once the pair has been read. *)
Definition paso (programa : string) (modo : Z) (r : Z * Z) (s : sim) : fin :=
  let (pid, pagina) := r in
  let s := s <| falsoTimestamp ::= fun n => n + 1 |> in
  if (pid <? 0) || (PROCESOS <? pid) then
    Sale (imprime ("El pid tiene que estar entre 1 y " +:+ linea (pretty PROCESOS)) s)
  else
  match en (tablaProcesos s) (pid - 1) with
  | None => Falla
  | Some p =>
      let reemplazo (s : sim) :=
        match (if modo =? 102 then fifo pid pagina s else if modo =? 108 then lru pid pagina s else usage programa s) with
        | Sigue s => Sigue (s <| posActualMemoria ::= fun n => n + 1 |>)
        | r => r
        end in
      if pr_pid p =? -1 then
        let s := if charla then imprime ("No existe el proceso. Creando proceso " +:+ linea (pretty pid)) s else s in
        reemplazo (s <| tablaProcesos ::= <[Z.to_nat (pid - 1) := p <| pr_pid := pid |> <| memoria ::= <[O := charF]> |>]> |>)
      else
        match enMemoria pid pagina s with
        | Some i =>
            let s := s <| mem_fisica ::= alter (fun q => q <| timestamp := falsoTimestamp s |>) i |> in
            Sigue (if charla then
              imprimirMemoriaFisica (imprime ("La página " +:+ pretty pagina +:+ " del proceso " +:+ pretty pid +:+
                linea " ya está en memoria física.") s) else s)
        | None => reemplazo s
        end
  end.

Fixpoint bucle (programa : string) (modo : Z) (rs : list (Z * Z)) (s : sim) : fin :=
  match rs with
  | [] => Sigue s
  | r :: rs => match paso programa modo r s with Sigue s => bucle programa modo rs s | f => f end
  end.

(** The globals when the program starts. *)
Definition sim0 : sim :=
  Sim 0 0 0 (replicate (Z.to_nat PROCESOS) (Pro 0 (replicate NV 0) (replicate NV 0)))
    (replicate NF (Pag 0 0 0)) (replicate ND (Pag 0 0 0)) EmptyString.

Definition vaciar (s : sim) : sim := vaciarTablaProcesos (vaciarDisco (vaciarMemoria s)).

Definition imprimir (s : sim) : sim := imprimirTablaProcesos (imprimirMemoriaSecundaria (imprimirMemoriaFisica s)).

(** The loop and the reports at the end. *)
Definition correr (programa : string) (modo : Z) (rs : list (Z * Z)) (s : sim) : fin :=
  match bucle programa modo rs s with Sigue s => Sigue (imprimir s) | f => f end.

End Paginacion.

(** ** sim.c *)

Definition MEMORIA_VIRTUAL : nat := 16.
Definition MEMORIA_FISICA : nat := 8.
Definition MEMORIA_SECUNDARIA : nat := 16.

Definition main (basura : Z -> Z) (argv : list string) (rs : list (Z * Z)) : fin :=
  let s := sim0 MEMORIA_VIRTUAL MEMORIA_FISICA MEMORIA_SECUNDARIA in
  match argv with
  | [programa; arg] =>
      match bytes_of arg with
      | 45 :: opcion =>
          let s := vaciar MEMORIA_VIRTUAL s in
          let modo := default 0 (head opcion) in
          if negb (modo =? 102) && negb (modo =? 108) then usage programa s
          else correr MEMORIA_FISICA MEMORIA_SECUNDARIA false basura programa modo rs s
      | _ => usage programa s
      end
  | _ => usage (default EmptyString (head argv)) s
  end.
