(* ===== verification/Simulador.v ===== *)
(** The memory simulator of lab-07/simulador_memoria.c: the code of Sim.v over its
    own sizes, with its messages, and its [main]. *)

From stdpp Require Import pretty.
From S2P Require Import Prelude Sim.

Definition MEMORIA_VIRTUAL : nat := 8.
Definition MEMORIA_FISICA : nat := 4.
Definition MEMORIA_SECUNDARIA : nat := 8.

Definition vaciarTablaProcesos : sim -> sim := Sim.vaciarTablaProcesos MEMORIA_VIRTUAL.
Definition vaciarDisco : sim -> sim := Sim.vaciarDisco.
Definition vaciarMemoria : sim -> sim := Sim.vaciarMemoria.
Definition imprimirMemoriaFisica : sim -> sim := Sim.imprimirMemoriaFisica.
Definition imprimirMemoriaSecundaria : sim -> sim := Sim.imprimirMemoriaSecundaria.
Definition imprimirTablaProcesos : sim -> sim := Sim.imprimirTablaProcesos.
Definition usage : string -> sim -> fin := Sim.usage.
Definition fifo (basura : Z -> Z) : Z -> Z -> sim -> fin := Sim.fifo MEMORIA_FISICA MEMORIA_SECUNDARIA basura.
Definition lru : Z -> Z -> sim -> fin := Sim.lru MEMORIA_FISICA MEMORIA_SECUNDARIA true.
Definition paso (basura : Z -> Z) : string -> Z -> Z * Z -> sim -> fin := Sim.paso MEMORIA_FISICA MEMORIA_SECUNDARIA true basura.

Definition main (basura : Z -> Z) (argv : list string) (rs : list (Z * Z)) : fin :=
  let s := sim0 MEMORIA_VIRTUAL MEMORIA_FISICA MEMORIA_SECUNDARIA in
  match argv with
  | [programa; arg] =>
      match bytes_of arg with
      | 45 :: opcion =>
          correr MEMORIA_FISICA MEMORIA_SECUNDARIA true basura programa (default 0 (head opcion)) rs (vaciar MEMORIA_VIRTUAL s)
      | _ => usage programa s
      end
  | _ => usage (default EmptyString (head argv)) s
  end.
