(* ===== verification/SimSpec.v ===== *)
(** FIFO replacement in the simulators of lab-07 is a queue, and their LRU
    replacement is not what it says. *)

From stdpp Require Import pretty.
From S2P Require Import Prelude Simulador Sim.

(** ** The specification

    The pages in memory, oldest first, and the pages that have left, in the order
    in which they did. *)

Record cola := Cola { c_mem : list (Z * Z); c_disco : list (Z * Z) }.

Section Cola.
Context (NF ND : nat).

Definition cola_paso (x : Z * Z) (c : cola) : option cola :=
  if decide (x ∈ c_mem c) then Some c
  else if (length (c_mem c) <? NF)%nat then Some (Cola (c_mem c ++ [x]) (c_disco c))
  else match c_mem c with
       | v :: mem => if (length (c_disco c) <? ND)%nat then Some (Cola (mem ++ [x]) (c_disco c ++ [v])) else None
       | [] => None
       end.

Fixpoint cola_run (xs : list (Z * Z)) (c : cola) : option cola :=
  match xs with
  | [] => Some c
  | x :: xs => c ← cola_paso x c; cola_run xs c
  end.
End Cola.

(** ** Searching *)

Lemma primero_Some {A} (f : A -> bool) l : forall i k, primero f l i = Some k ->
  (i <= k)%nat /\ exists x, l !! (k - i)%nat = Some x /\ f x = true.
Proof.
  induction l as [|x l IH]; intros i k; cbn; [done|]. destruct (f x) eqn:E.
  - intros [= <-]. split; [lia|]. exists x. by rewrite Nat.sub_diag.
  - intros H. destruct (IH _ _ H) as (Hk & y & Hy & Hf). split; [lia|]. exists y. split; [|done].
    by replace (k - i)%nat with (S (k - S i)) by lia.
Qed.

Lemma primero_None {A} (f : A -> bool) l : forall i, primero f l i = None -> forall x, x ∈ l -> f x = false.
Proof.
  induction l as [|x l IH]; intros i; cbn; [intros _ x Hx; by apply not_elem_of_nil in Hx|].
  destruct (f x) eqn:E; [done|]. intros H y Hy. apply elem_of_cons in Hy as [->|Hy]; [done|by eapply IH].
Qed.

(** A unique element is the one found. *)
Lemma primero_at {A} (f : A -> bool) l x j : l !! j = Some x -> f x = true ->
  (forall i y, l !! i = Some y -> f y = true -> i = j) -> primero f l 0 = Some j.
Proof.
  intros Hx Hf Hu. destruct (primero f l 0) as [k|] eqn:E.
  - apply primero_Some in E as (_ & y & Hy & Hfy). rewrite Nat.sub_0_r in Hy. f_equal. by eapply Hu.
  - eapply primero_None in E; [by rewrite Hf in E|]. by eapply list_elem_of_lookup_2.
Qed.

(** ** The state and the queue *)

Definition clave (p : Pagina) : Z * Z := (pid p, numero p).

Definition ids (s : sim) : list (Z * Z) := map clave (mem_fisica s).

Section Refina.
Context (NV NF ND : nat) (charla : bool) (basura : Z -> Z) (programa : string) (Hpos : (0 < NF)%nat).

Definition valida (x : Z * Z) : Prop := 1 <= x.1 <= PROCESOS /\ 1 <= x.2 <= Z.of_nat NV.

(** The frames in the order of the queue, the next one to use first. *)
Definition frames (s : sim) (c : cola) : Prop :=
  if posActualMemoria s <? Z.of_nat NF
  then take (Z.to_nat (posActualMemoria s)) (ids s) = c_mem c /\
       drop (Z.to_nat (posActualMemoria s)) (ids s) = replicate (NF - Z.to_nat (posActualMemoria s)) (-1, -1)
  else drop (ubicacion NF s) (ids s) ++ take (ubicacion NF s) (ids s) = c_mem c.

(** The page table of process [t + 1] says of each page where it is. *)
Record proc_refleja (c : cola) (t : nat) (p : Proceso) : Prop := Proc_refleja {
  pf_mem : length (memoria p) = NV;
  pf_pag : length (paginas p) = NV;
  pf_pid : pr_pid p = Z.of_nat t + 1 \/ pr_pid p = -1 /\ forall j, (Z.of_nat t + 1, j) ∉ c_mem c ++ c_disco c;
  pf_page : forall j, (j < NV)%nat -> let x := (Z.of_nat t + 1, Z.of_nat j + 1) in
    if decide (x ∈ c_mem c ++ c_disco c)
    then paginas p !! j = Some (Z.of_nat j + 1) /\ memoria p !! j = Some (if decide (x ∈ c_mem c) then charF else charD)
    else paginas p !! j = Some (-1) }.

Definition tabla_ok (c : cola) (ps : list Proceso) : Prop :=
  length ps = 20%nat /\ forall t p, ps !! t = Some p -> proc_refleja c t p.

(** Everything but the frames. *)
Record resto (s : sim) (c : cola) : Prop := Resto {
  rf_pos : 0 <= posActualMemoria s;
  rf_len : length (mem_fisica s) = NF;
  rf_sec : length (mem_secundaria s) = ND;
  rf_dpos : posActualDisco s = Z.of_nat (length (c_disco c));
  rf_disco : take (length (c_disco c)) (map clave (mem_secundaria s)) = c_disco c;
  rf_dmax : (length (c_disco c) <= ND)%nat;
  rf_nodup : NoDup (c_mem c);
  rf_valid : Forall valida (c_mem c);
  rf_tabla : tabla_ok c (tablaProcesos s) }.

Definition refleja (s : sim) (c : cola) : Prop := resto s c /\ frames s c.

(** Updates that the queue does not see. *)
Lemma refleja_same s s' c : refleja s c -> posActualMemoria s' = posActualMemoria s -> posActualDisco s' = posActualDisco s ->
  ids s' = ids s -> mem_secundaria s' = mem_secundaria s -> tabla_ok c (tablaProcesos s') -> refleja s' c.
Proof.
  intros [[H1 H2 H3 H4 H5 H6 H7 H8 H9] H10] E1 E2 E3 E4 E5.
  assert (length (mem_fisica s') = length (mem_fisica s)) as L1.
  { transitivity (length (ids s')); [symmetry; apply length_map|]. rewrite E3. apply length_map. }
  split; [constructor; rewrite ?E1, ?E2, ?E4, ?L1; done|]. unfold frames, ubicacion in *. by rewrite E1, E3.
Qed.

Lemma frames_len s c : refleja s c -> length (c_mem c) = Nat.min (Z.to_nat (posActualMemoria s)) NF.
Proof.
  intros [H Hf]. pose proof (rf_len _ _ H) as Hl. pose proof (rf_pos _ _ H).
  assert (length (ids s) = NF) as Hi by (unfold ids; by rewrite length_map). unfold frames in Hf.
  destruct (Z.ltb_spec (posActualMemoria s) (Z.of_nat NF)).
  - destruct Hf as [<- _]. rewrite length_take. lia.
  - rewrite <- Hf, length_app, length_take, length_drop. assert (ubicacion NF s < NF)%nat.
    { unfold ubicacion. pose proof (Z.mod_pos_bound (posActualMemoria s) (Z.of_nat NF) ltac:(lia)). lia. } lia.
Qed.

(** A page in memory is one of the frames. *)
Lemma frames_elem s c x : refleja s c -> 0 <= x.1 -> x ∈ ids s <-> x ∈ c_mem c.
Proof.
  intros [H Hf] Hx. unfold frames in Hf. destruct (posActualMemoria s <? Z.of_nat NF).
  - destruct Hf as [<- Hd]. rewrite <- (take_drop (Z.to_nat (posActualMemoria s)) (ids s)) at 1. rewrite Hd, elem_of_app. split; [|by left].
    intros [Hi|Hi]; [done|]. apply elem_of_replicate in Hi as [-> _]. cbn in Hx. lia.
  - rewrite <- Hf, elem_of_app. rewrite <- (take_drop (ubicacion NF s) (ids s)) at 1. rewrite elem_of_app. tauto.
Qed.

(** ** The page tables *)

(** The table of a process depends on its own pages only. *)
Lemma proc_refleja_ext c c' t p : (forall j, (Z.of_nat t + 1, j) ∈ c_mem c' <-> (Z.of_nat t + 1, j) ∈ c_mem c) ->
  (forall j, (Z.of_nat t + 1, j) ∈ c_mem c' ++ c_disco c' <-> (Z.of_nat t + 1, j) ∈ c_mem c ++ c_disco c) ->
  proc_refleja c t p -> proc_refleja c' t p.
Proof.
  intros Hm Ha [H1 H2 H3 H4]. constructor; [done|done| |].
  - destruct H3 as [H3|[H3 H5]]; [by left|right]. split; [done|]. intros j. by rewrite Ha.
  - intros j Hj x. specialize (H4 j Hj). cbn in H4. subst x. specialize (Hm (Z.of_nat j + 1)). specialize (Ha (Z.of_nat j + 1)).
    repeat case_decide; tauto.
Qed.

(** A new process has no pages yet. *)
Lemma tabla_crear c ps t p : tabla_ok c ps -> ps !! t = Some p -> pr_pid p = -1 ->
  tabla_ok c (<[t := p <| pr_pid := Z.of_nat t + 1 |> <| memoria ::= <[O := charF]> |>]> ps).
Proof.
  intros [Hl H] Hp Hn. split; [by rewrite length_insert|]. intros t' p' Hp'.
  apply list_lookup_insert_Some in Hp' as [(<- & <- & _)|[_ Hp']]; [|by apply H].
  destruct (H _ _ Hp) as [H1 H2 H3 H4]. destruct H3 as [H3|[_ H3]]; [lia|]. constructor; cbn.
  - by rewrite length_insert.
  - done.
  - by left.
  - intros j Hj. specialize (H4 j Hj). cbn in H4. rewrite decide_False in * by apply H3. done.
Qed.

(** A page that enters memory. *)
Lemma tabla_asignar c ps t p j : let x := (Z.of_nat t + 1, Z.of_nat j + 1) in
  tabla_ok c ps -> ps !! t = Some p -> pr_pid p = Z.of_nat t + 1 -> (j < NV)%nat ->
  tabla_ok (Cola (c_mem c ++ [x]) (c_disco c))
    (<[t := p <| paginas ::= <[j := Z.of_nat j + 1]> |> <| memoria ::= <[j := charF]> |>]> ps).
Proof.
  intros x [Hl H] Hp Hn Hj. split; [by rewrite length_insert|]. intros t' p' Hp'.
  apply list_lookup_insert_Some in Hp' as [(<- & <- & _)|[Hne Hp']].
  2:{ eapply proc_refleja_ext; [..|by apply H]; intros i; cbn; rewrite !elem_of_app, !list_elem_of_singleton;
      subst x; split; intuition (simplify_eq; lia). }
  destruct (H _ _ Hp) as [H1 H2 H3 H4]. constructor; cbn; rewrite ?length_insert; [done|done|by left|].
  intros i Hi. specialize (H4 i Hi). cbn in H4. destruct (decide (i = j)) as [->|Hij].
  - rewrite decide_True by set_solver. rewrite !list_lookup_insert_eq by lia. split; [done|].
    by rewrite decide_True by set_solver.
  - rewrite !list_lookup_insert_ne by lia. subst x.
    assert ((Z.of_nat t + 1, Z.of_nat i + 1) <> (Z.of_nat t + 1, Z.of_nat j + 1)) by (intros [= E]; lia).
    repeat case_decide; set_solver.
Qed.

(** A page that leaves it. *)
Lemma proc_marcar t p j mem d : let x := (Z.of_nat t + 1, Z.of_nat j + 1) in
  proc_refleja (Cola (x :: mem) d) t p -> pr_pid p = Z.of_nat t + 1 -> (j < NV)%nat -> x ∉ mem ->
  proc_refleja (Cola mem (d ++ [x])) t (p <| memoria ::= <[j := charD]> |>).
Proof.
  intros x [H1 H2 H3 H4] Hn Hj Hx. constructor; cbn; rewrite ?length_insert; [done|done|by left|].
  intros i Hi. specialize (H4 i Hi). cbn in H4. destruct (decide (i = j)) as [->|Hij].
  - rewrite decide_True in H4 by set_solver. rewrite decide_True by set_solver. rewrite list_lookup_insert_eq by lia.
    split; [tauto|]. by rewrite decide_False.
  - rewrite list_lookup_insert_ne by lia. subst x.
    assert ((Z.of_nat t + 1, Z.of_nat i + 1) <> (Z.of_nat t + 1, Z.of_nat j + 1)) by (intros [= E]; lia).
    repeat case_decide; set_solver.
Qed.

Lemma proc_marcar_otro t p x mem d : x.1 <> Z.of_nat t + 1 ->
  proc_refleja (Cola (x :: mem) d) t p -> proc_refleja (Cola mem (d ++ [x])) t p.
Proof.
  intros Hx. assert (forall j, (Z.of_nat t + 1, j) <> x) as Hj by (intros j <-; done).
  apply proc_refleja_ext; intros j; specialize (Hj j); cbn; set_solver.
Qed.

Lemma tabla_marcar s v mem d : tabla_ok (Cola (clave v :: mem) d) (tablaProcesos s) ->
  valida (clave v) -> clave v ∉ mem -> tabla_ok (Cola mem (d ++ [clave v])) (tablaProcesos (marcarDisco v s)).
Proof.
  intros [Hl H] Hv Hnot. destruct v as [n q ts], Hv as [Hq Hn]. unfold clave in *. cbn in *.
  set (t := Z.to_nat (q - 1)). set (j := Z.to_nat (n - 1)).
  destruct (lookup_lt_is_Some_2 (tablaProcesos s) t) as [p Hp]; [unfold t, PROCESOS in *; lia|].
  assert (q = Z.of_nat t + 1) as Eq by lia. assert (n = Z.of_nat j + 1) as En by lia.
  clearbody t j.
  assert (forall i y, tablaProcesos s !! i = Some y -> negb (pr_pid y =? -1) && (pr_pid y =? q) = true -> i = t) as Hu.
  { intros i y Hy [Hy1 Hy2]%andb_true_iff. apply negb_true_iff, Z.eqb_neq in Hy1. apply Z.eqb_eq in Hy2.
    destruct (pf_pid _ _ _ (H _ _ Hy)) as [E|[E _]]; lia. }
  destruct (H _ _ Hp) as [H1 H2 H3 H4].
  assert (pr_pid p = q) as Hpid.
  { destruct H3 as [->|[_ H3]]; [done|]. exfalso. apply (H3 n). rewrite <- Eq. set_solver. }
  pose proof (H4 j ltac:(lia)) as Hj. cbn in Hj. rewrite <- Eq, <- En in Hj. rewrite decide_True in Hj by set_solver.
  destruct Hj as [Hj _].
  assert (primero (fun z => z =? n) (paginas p) 0 = Some j) as Ej.
  { eapply primero_at; [exact Hj|by apply Z.eqb_eq|]. intros i y Hy E. apply Z.eqb_eq in E as ->.
    assert (i < NV)%nat as Hi by (rewrite <- H2; by eapply lookup_lt_Some).
    specialize (H4 i Hi). cbn in H4. rewrite Hy in H4. case_decide; [destruct H4 as [[= E] _]; lia|simplify_eq; lia]. }
  unfold marcarDisco. cbn. erewrite primero_at; [|exact Hp|lia|done]. cbn. split; [by rewrite length_alter|].
  intros t' p' Hp'. destruct (decide (t' = t)) as [->|Hne].
  - rewrite list_lookup_alter_eq, Hp in Hp'. cbn in Hp'. rewrite Ej in Hp'. injection Hp' as <-. subst q n.
    apply proc_marcar; [by apply H|done|lia|done].
  - rewrite list_lookup_alter_ne in Hp' by done. apply proc_marcar_otro; [cbn; lia|by apply H].
Qed.

(** ** The frames *)

Lemma take_insert_S {A} (l : list A) u x : (u < length l)%nat -> take (S u) (<[u := x]> l) = take u l ++ [x].
Proof.
  intros H. erewrite take_S_r by by apply list_lookup_insert_eq. by rewrite take_insert_ge by lia.
Qed.

Lemma giro_insert {A} (l : list A) u x v mem : drop u l ++ take u l = v :: mem -> (u < length l)%nat ->
  l !! u = Some v /\ drop (S u) (<[u := x]> l) ++ take (S u) (<[u := x]> l) = mem ++ [x].
Proof.
  intros H Hu. destruct (lookup_lt_is_Some_2 l u Hu) as [w Hw]. rewrite (drop_S _ _ _ Hw) in H.
  injection H as -> <-. split; [done|]. rewrite take_insert_S by done. rewrite drop_insert_lt by lia. by rewrite app_assoc.
Qed.

(** The next frame after a frame that is used. *)
Lemma ubicacion_S s : 0 <= posActualMemoria s ->
  ubicacion NF (s <| posActualMemoria ::= fun n => n + 1 |>) = if decide (S (ubicacion NF s) = NF) then O else S (ubicacion NF s).
Proof.
  intros H. unfold ubicacion. cbn. pose proof (Z.mod_pos_bound (posActualMemoria s) (Z.of_nat NF) ltac:(lia)).
  rewrite <- Zplus_mod_idemp_l. case_decide.
  - replace (_ + 1) with (Z.of_nat NF) by lia. rewrite Z_mod_same_full. done.
  - rewrite Z.mod_small by lia. lia.
Qed.

Lemma ubicacion_lt s : (ubicacion NF s < NF)%nat.
Proof. unfold ubicacion. pose proof (Z.mod_pos_bound (posActualMemoria s) (Z.of_nat NF) ltac:(lia)). lia. Qed.

(** ** A page fault *)

Lemma marcarDisco_rest v s : posActualMemoria (marcarDisco v s) = posActualMemoria s /\ posActualDisco (marcarDisco v s) = posActualDisco s /\
  mem_fisica (marcarDisco v s) = mem_fisica s /\ mem_secundaria (marcarDisco v s) = mem_secundaria s.
Proof. unfold marcarDisco. by destruct primero. Qed.

Lemma desalojar_refleja s u v mem d : resto s (Cola (clave v :: mem) d) -> (length d < ND)%nat -> mem_fisica s !! u = Some v ->
  resto (desalojar u s) (Cola mem (d ++ [clave v])).
Proof.
  intros [H1 H2 H3 H4 H5 H6 H7 H8 H9] Hd Hv. cbn in *. apply NoDup_cons in H7 as [Hnot H7]. apply Forall_cons in H8 as [Hval H8].
  unfold desalojar. rewrite Hv. cbn zeta.
  set (s1 := s <| mem_secundaria ::= <[Z.to_nat (posActualDisco s) := v]> |>).
  destruct (marcarDisco_rest v s1) as (E1 & E2 & E3 & E4).
  assert (tabla_ok (Cola mem (d ++ [clave v])) (tablaProcesos (marcarDisco v s1))) by by apply tabla_marcar.
  constructor; cbn; rewrite ?E1, ?E2, ?E3, ?E4; cbn; rewrite ?length_app, ?length_insert; cbn; try done; try lia.
  rewrite list_fmap_insert, H4, Nat2Z.id, Nat.add_1_r, take_insert_S by (rewrite length_map; lia).
  exact (f_equal (.++ [clave v]) H5).
Qed.

Lemma asignar_refleja s c x : resto s c -> valida x -> x ∉ c_mem c ->
  pr_pid <$> tablaProcesos s !! Z.to_nat (x.1 - 1) = Some x.1 ->
  exists s', asignar x.1 x.2 s = Sigue s' /\ resto s' (Cola (c_mem c ++ [x]) (c_disco c)) /\
    posActualMemoria s' = posActualMemoria s /\ mem_fisica s' = mem_fisica s.
Proof.
  intros [H1 H2 H3 H4 H5 H6 H7 H8 H9] [Hx1 Hx2] Hnot (p & Hp & Hpid)%fmap_Some. destruct x as [q n]. cbn in *.
  pose proof (proj2 H9 _ _ Hp) as Hr. unfold asignar, en. rewrite (proj2 (Z.ltb_ge _ _)) by lia. rewrite Hp.
  rewrite (proj2 (Z.ltb_ge _ _)) by lia.
  destruct (lookup_lt_is_Some_2 (paginas p) (Z.to_nat (n - 1))) as [y ->]; [rewrite (pf_pag _ _ _ Hr); lia|].
  eexists. split; [done|]. split; [|done]. constructor; cbn; try done.
  - apply NoDup_app. split; [done|]. split; [set_solver|apply NoDup_singleton].
  - apply Forall_app. split; [done|]. apply Forall_singleton. by split.
  - pose proof (tabla_asignar c (tablaProcesos s) (Z.to_nat (q - 1)) p (Z.to_nat (n - 1)) H9 Hp ltac:(lia) ltac:(lia)) as Ht.
    by rewrite !Z2Nat.id, !Z.sub_add in Ht by lia.
Qed.

Lemma ids_insert s u q : ids (s <| mem_fisica ::= <[u := q]> |>) = <[u := clave q]> (ids s).
Proof. apply list_fmap_insert. Qed.

Lemma entra_refleja s mem d x ts : resto s (Cola mem d) -> valida x -> x ∉ mem ->
  pr_pid <$> tablaProcesos s !! Z.to_nat (x.1 - 1) = Some x.1 ->
  let s1 := s <| mem_fisica ::= <[ubicacion NF s := Pag x.2 x.1 ts]> |> in
  frames (s1 <| posActualMemoria ::= fun n => n + 1 |>) (Cola (mem ++ [x]) d) ->
  exists s', asignar x.1 x.2 s1 = Sigue s' /\ refleja (s' <| posActualMemoria ::= fun n => n + 1 |>) (Cola (mem ++ [x]) d).
Proof.
  intros Hr Hx Hnot Hp s1 Hf.
  assert (resto s1 (Cola mem d)) as Hr1 by (destruct Hr; constructor; cbn in *; rewrite ?length_insert; done).
  destruct (asignar_refleja s1 _ _ Hr1 Hx Hnot Hp) as (s' & E & Hr' & Ep & Em). exists s'. split; [done|]. split.
  - destruct Hr'. constructor; cbn in *; try done. lia.
  - unfold frames, ubicacion, ids in *. cbn in *. by rewrite Ep, Em.
Qed.

(** A frame that is free. *)
Lemma frames_libre s c x ts : refleja s c -> posActualMemoria s < Z.of_nat NF ->
  frames (s <| mem_fisica ::= <[ubicacion NF s := Pag x.2 x.1 ts]> |> <| posActualMemoria ::= fun n => n + 1 |>) (Cola (c_mem c ++ [x]) (c_disco c)).
Proof.
  intros [Hr Hf] Hlt. pose proof (rf_pos _ _ Hr). unfold frames in *. rewrite (proj2 (Z.ltb_lt _ _)) in Hf by lia.
  assert (length (ids s) = NF) as Hi by (unfold ids; rewrite length_map; apply (rf_len _ _ Hr)).
  destruct Hf as [Ht Hd]. set (s' := _ <| posActualMemoria ::= _ |>).
  assert (ids s' = <[Z.to_nat (posActualMemoria s) := x]> (ids s)) as ->.
  { subst s'. destruct x as [q n]. unfold ids, ubicacion. cbn. rewrite Z.mod_small by lia.
    apply (list_fmap_insert clave _ _ (Pag n q ts)). }
  subst s'. cbn. set (u := Z.to_nat (posActualMemoria s)) in *.
  destruct (Z.ltb_spec (posActualMemoria s + 1) (Z.of_nat NF)).
  - replace (Z.to_nat _) with (S u) by lia. rewrite take_insert_S, Ht by lia. split; [done|]. rewrite drop_insert_lt by lia.
    replace (S u) with (u + 1)%nat by lia. rewrite <- drop_drop, Hd, drop_replicate. f_equal. lia.
  - unfold ubicacion. cbn. replace (posActualMemoria s + 1) with (Z.of_nat NF) by lia. rewrite Z_mod_same_full. cbn.
    rewrite app_nil_r. rewrite <- (take_ge (<[u := x]> (ids s)) (S u)) by (rewrite length_insert; lia).
    by rewrite take_insert_S, Ht by lia.
Qed.

(** The frame of the oldest page. *)
Lemma frames_llena s v mem d x ts s' : resto s (Cola (v :: mem) d) -> frames s (Cola (v :: mem) d) -> Z.of_nat NF <= posActualMemoria s ->
  posActualMemoria s' = posActualMemoria s -> mem_fisica s' = mem_fisica s ->
  frames (s' <| mem_fisica ::= <[ubicacion NF s' := Pag x.2 x.1 ts]> |> <| posActualMemoria ::= fun n => n + 1 |>) (Cola (mem ++ [x]) (d ++ [v])).
Proof.
  intros Hr Hf Hge Ep Em. pose proof (rf_pos _ _ Hr). unfold frames in *. rewrite (proj2 (Z.ltb_ge _ _)) in Hf by lia.
  assert (length (ids s) = NF) as Hi by (unfold ids; rewrite length_map; apply (rf_len _ _ Hr)).
  pose proof (ubicacion_lt s) as Hu. apply (giro_insert _ _ x) in Hf as [_ Hf]; [|lia].
  set (s2 := _ <| posActualMemoria ::= _ |>).
  assert (ids s2 = <[ubicacion NF s := x]> (ids s)) as ->.
  { subst s2. destruct x as [q n]. unfold ids, ubicacion. cbn. rewrite Em, Ep. apply (list_fmap_insert clave _ _ (Pag n q ts)). }
  assert (ubicacion NF s2 = if decide (S (ubicacion NF s) = NF) then O else S (ubicacion NF s)) as ->.
  { rewrite <- ubicacion_S by lia. subst s2. unfold ubicacion. cbn. by rewrite Ep. }
  rewrite (proj2 (Z.ltb_ge _ _)) by (subst s2; cbn; lia). rewrite <- Hf. cbn. case_decide as E; [|done].
  rewrite (drop_ge _ (S _)), (take_ge _ (S _)) by (rewrite length_insert; lia). apply app_nil_r.
Qed.

Lemma desalojar_rest u s : posActualMemoria (desalojar u s) = posActualMemoria s /\ mem_fisica (desalojar u s) = mem_fisica s /\
  forall i, pr_pid <$> tablaProcesos (desalojar u s) !! i = pr_pid <$> tablaProcesos s !! i.
Proof.
  unfold desalojar. destruct (mem_fisica s !! u) as [v|]; [|done]. cbn zeta. unfold marcarDisco. cbn. destruct primero as [k|]; [|done].
  split; [done|]. split; [done|]. intros i. cbn. destruct (decide (i = k)) as [->|]; [|by rewrite list_lookup_alter_ne].
  rewrite list_lookup_alter_eq. destruct (tablaProcesos s !! k); [|done]. cbn. by destruct primero.
Qed.

(** [fifo] and the increment that follows it, on a page that is not in memory. *)
Lemma fifo_refleja s c x : refleja s c -> valida x -> x ∉ c_mem c ->
  pr_pid <$> tablaProcesos s !! Z.to_nat (x.1 - 1) = Some x.1 ->
  match cola_paso NF ND x c with
  | Some c' => exists s', fifo NF ND basura x.1 x.2 s = Sigue s' /\ refleja (s' <| posActualMemoria ::= fun n => n + 1 |>) c'
  | None => exists s', fifo NF ND basura x.1 x.2 s = Sale s'
  end.
Proof.
  intros Hr Hx Hnot Hp. pose proof (frames_len _ _ Hr) as Hlen. pose proof Hr as [Hre Hf].
  pose proof (rf_pos _ _ Hre). pose proof (ubicacion_lt s) as Hu. pose proof (rf_dpos _ _ Hre) as Hd.
  destruct c as [mem d]. unfold cola_paso, fifo. rewrite decide_False by done. cbn [c_mem c_disco] in *.
  destruct (Z.leb_spec (Z.of_nat NF) (posActualMemoria s)) as [Hfull|Hfull].
  2:{ rewrite (proj2 (Nat.ltb_lt _ _)) by lia. apply entra_refleja; [done..|]. by apply (frames_libre _ (Cola mem d)). }
  rewrite (proj2 (Nat.ltb_ge _ _)) by lia. destruct mem as [|v mem]; [cbn in Hlen; lia|].
  assert (forall m, disco_lleno ND (imprime m s) = (Z.of_nat ND <=? Z.of_nat (length d))) as Hlleno by (intros; by rewrite <- Hd).
  rewrite Hlleno. destruct (Nat.ltb_spec (length d) ND) as [Hnd|Hnd].
  2:{ rewrite (proj2 (Z.leb_le _ _)) by lia. eexists. reflexivity. }
  rewrite (proj2 (Z.leb_gt _ _)) by lia. set (s1 := imprime _ s).
  unfold frames in Hf. rewrite (proj2 (Z.ltb_ge _ _)) in Hf by lia. cbn in Hf.
  apply (giro_insert _ _ x) in Hf as [Hv _]; [|unfold ids; rewrite length_map, (rf_len _ _ Hre); lia].
  apply list_lookup_fmap_Some in Hv as (v' & -> & Hv).
  assert (resto s1 (Cola (clave v' :: mem) d)) as Hre1 by (by destruct Hre; constructor).
  pose proof (desalojar_refleja s1 _ _ _ _ Hre1 Hnd Hv) as Hre2.
  destruct (desalojar_rest (ubicacion NF s) s1) as (Ep & Em & Epid).
  set (s2 := desalojar (ubicacion NF s) s1) in *.
  assert (ubicacion NF s = ubicacion NF s2) as -> by (unfold ubicacion; by rewrite Ep).
  apply entra_refleja; [done|done|set_solver|by rewrite Epid|].
  apply (frames_llena s); [done|apply Hr|done|done|done].
Qed.

(** Whether the page is in memory. *)
Lemma enMemoria_refleja s c x : refleja s c -> valida x ->
  match enMemoria x.1 x.2 s with Some _ => x ∈ c_mem c | None => x ∉ c_mem c end.
Proof.
  intros Hr [Hx _]. pose proof (frames_elem s c x Hr ltac:(lia)) as Hc. unfold enMemoria, ids in *.
  destruct primero as [i|] eqn:E; rewrite <- Hc.
  - apply primero_Some in E as (_ & p & Hp & Hf). apply list_elem_of_lookup_2 in Hp. apply andb_true_iff in Hf as [E1 E2].
    apply list_elem_of_fmap. exists p. split; [|done]. destruct x. unfold clave. cbn in *. f_equal; lia.
  - intros (p & -> & Hp)%list_elem_of_fmap. eapply primero_None in E; [|exact Hp]. cbn in E. by rewrite !Z.eqb_refl in E.
Qed.

(** One reference to a page. *)
Lemma paso_refleja s c x : refleja s c -> valida x ->
  match cola_paso NF ND x c with
  | Some c' => exists s', paso NF ND charla basura programa 102 x s = Sigue s' /\ refleja s' c'
  | None => exists s', paso NF ND charla basura programa 102 x s = Sale s'
  end.
Proof.
  intros Hr Hx. pose proof Hx as [Hx1 Hx2]. destruct x as [q n]. cbn [fst snd] in *. unfold paso.
  rewrite (proj2 (Z.ltb_ge q 0)), (proj2 (Z.ltb_ge PROCESOS q)) by lia. cbn [orb].
  set (s1 := s <| falsoTimestamp ::= _ |>). assert (refleja s1 c) as Hr1 by (by apply (refleja_same s); [..|apply Hr]).
  pose proof (rf_tabla _ _ (proj1 Hr1)) as Ht. clearbody s1. unfold en. rewrite (proj2 (Z.ltb_ge _ _)) by lia.
  destruct (lookup_lt_is_Some_2 (tablaProcesos s1) (Z.to_nat (q - 1))) as [p Hp]; [rewrite (proj1 Ht); unfold PROCESOS in *; lia|].
  rewrite Hp. pose proof (pf_pid _ _ _ (proj2 Ht _ _ Hp)) as Hpid. rewrite Z2Nat.id, Z.sub_add in Hpid by lia.
  change (102 =? 102) with true. cbv iota.
  assert (forall s2, refleja s2 c -> (q, n) ∉ c_mem c -> pr_pid <$> tablaProcesos s2 !! Z.to_nat (q - 1) = Some q ->
    match cola_paso NF ND (q, n) c with
    | Some c' => exists s', match fifo NF ND basura q n s2 with
        | Sigue s => Sigue (s <| posActualMemoria ::= fun n => n + 1 |>) | r => r end = Sigue s' /\ refleja s' c'
    | None => exists s', match fifo NF ND basura q n s2 with
        | Sigue s => Sigue (s <| posActualMemoria ::= fun n => n + 1 |>) | r => r end = Sale s' end) as Hfifo.
  { intros s2 Hr2 Hn Hp2. pose proof (fifo_refleja s2 c (q, n) Hr2 Hx Hn Hp2) as H. cbn [fst snd] in H.
    destruct cola_paso as [c'|]; destruct H as [s' H]; [destruct H as [-> H]|rewrite H]; eauto. }
  destruct (Z.eqb_spec (pr_pid p) (-1)) as [E|E].
  - destruct Hpid as [Hpid|[_ Hno]]; [lia|]. apply Hfifo.
    + apply (refleja_same s1); [done|by destruct charla..|]. destruct charla; cbn.
      all: pose proof (tabla_crear c _ _ p Ht Hp E) as Hc; by rewrite Z2Nat.id, Z.sub_add in Hc by lia.
    + intros Hin. apply (Hno n). set_solver.
    + destruct charla; cbn; by rewrite list_lookup_insert_eq by (by eapply lookup_lt_Some).
  - destruct Hpid as [Hpid|[Hpid _]]; [|lia].
    pose proof (enMemoria_refleja s1 c (q, n) Hr1 Hx) as Hm. cbn [fst snd] in Hm.
    destruct enMemoria as [i|]; [|apply Hfifo; [done|done|by rewrite Hp; cbn; rewrite Hpid]].
    unfold cola_paso. rewrite decide_True by done. eexists. split; [done|]. 
    apply (refleja_same s1); [done|by destruct charla|by destruct charla| |by destruct charla|by destruct charla].
    transitivity (map clave (alter (fun r => r <| timestamp := falsoTimestamp s1 |>) i (mem_fisica s1))); [by destruct charla|].
    rewrite <- (list_alter_id (fun y => y) (ids s1) i) by done. apply list_fmap_alter. by apply Forall_true.
Qed.

(** ** The whole run *)

Lemma bucle_refleja xs : forall s c, refleja s c -> Forall valida xs ->
  match cola_run NF ND xs c with
  | Some c' => exists s', bucle NF ND charla basura programa 102 xs s = Sigue s' /\ refleja s' c'
  | None => exists s', bucle NF ND charla basura programa 102 xs s = Sale s'
  end.
Proof.
  induction xs as [|x xs IH]; intros s c Hr Hv; cbn; [eauto|]. apply Forall_cons in Hv as [Hx Hv].
  pose proof (paso_refleja s c x Hr Hx) as H. destruct (cola_paso NF ND x c) as [c1|].
  - destruct H as (s1 & -> & Hr1). by apply IH.
  - destruct H as [s1 ->]. by exists s1.
Qed.

Lemma vaciar_refleja : refleja (vaciar NV (sim0 NV NF ND)) (Cola [] []).
Proof.
  split.
  - constructor; cbn; rewrite ?length_map, ?length_replicate; try done; try lia; [constructor|].
    split; [by rewrite length_replicate|]. intros t p [-> _]%lookup_replicate.
    constructor; cbn; rewrite ?length_replicate; [done|done| |].
    + right. split; [done|]. intros j. apply not_elem_of_nil.
    + intros j Hj. rewrite decide_False by apply not_elem_of_nil. by apply lookup_replicate.
  - unfold frames. cbn. rewrite (proj2 (Z.ltb_lt _ _)) by lia. split; [done|]. rewrite Nat.sub_0_r. unfold ids. cbn.
    rewrite map_map. apply (fmap_replicate (fun _ : Pagina => (-1, -1))).
Qed.
End Refina.

(** C29. [sim -f] is a FIFO queue.  On references with a pid between 1 and 20 and a
    page between 1 and 16, the program ends with the physical memory, the disk and
    the page tables of the queue of 8 pages over the same references, and leaves
    with [Disco lleno] when the queue gives up more than 16 pages. *)
Theorem fifo_cola basura xs : Forall (valida MEMORIA_VIRTUAL) xs ->
  match cola_run MEMORIA_FISICA MEMORIA_SECUNDARIA xs (Cola [] []) with
  | Some c => exists s, main basura ["./sim"; "-f"] xs = Sigue (imprimir s) /\
      refleja MEMORIA_VIRTUAL MEMORIA_FISICA MEMORIA_SECUNDARIA s c
  | None => exists s, main basura ["./sim"; "-f"] xs = Sale s
  end.
Proof.
  intros Hv. pose proof (bucle_refleja MEMORIA_VIRTUAL MEMORIA_FISICA MEMORIA_SECUNDARIA false basura "./sim" ltac:(unfold MEMORIA_FISICA; lia)
    xs _ _ (vaciar_refleja MEMORIA_VIRTUAL MEMORIA_FISICA MEMORIA_SECUNDARIA ltac:(unfold MEMORIA_FISICA; lia)) Hv) as H.
  change (main basura ["./sim"; "-f"] xs) with
    (correr MEMORIA_FISICA MEMORIA_SECUNDARIA false basura "./sim" 102 xs (vaciar MEMORIA_VIRTUAL
      (sim0 MEMORIA_VIRTUAL MEMORIA_FISICA MEMORIA_SECUNDARIA))).
  unfold correr. destruct cola_run as [c|].
  - destruct H as (s & -> & Hr). eauto.
  - destruct H as [s ->]. eauto.
Qed.

Definition demo_refs : list (Z * Z) := map (fun i => (Z.of_nat (i mod 3) + 1, Z.of_nat i + 1)) (seq 0 11) ++ [(3, 9); (1, 1)].

Lemma fifo_cola_witness :
  cola_run MEMORIA_FISICA MEMORIA_SECUNDARIA demo_refs (Cola [] []) =
    Some (Cola [(2, 5); (3, 6); (1, 7); (2, 8); (3, 9); (1, 10); (2, 11); (1, 1)] [(1, 1); (2, 2); (3, 3); (1, 4)]) /\
  exists s, main (fun _ => 0) ["./sim"; "-f"] demo_refs = Sigue (imprimir s) /\
    refleja MEMORIA_VIRTUAL MEMORIA_FISICA MEMORIA_SECUNDARIA s
      (Cola [(2, 5); (3, 6); (1, 7); (2, 8); (3, 9); (1, 10); (2, 11); (1, 1)] [(1, 1); (2, 2); (3, 3); (1, 4)]).
Proof.
  assert (cola_run MEMORIA_FISICA MEMORIA_SECUNDARIA demo_refs (Cola [] []) =
    Some (Cola [(2, 5); (3, 6); (1, 7); (2, 8); (3, 9); (1, 10); (2, 11); (1, 1)] [(1, 1); (2, 2); (3, 3); (1, 4)])) as E
    by (vm_compute; reflexivity).
  split; [exact E|]. assert (Forall (valida MEMORIA_VIRTUAL) demo_refs) as Hv.
  { unfold demo_refs, valida, PROCESOS, MEMORIA_VIRTUAL. cbn. repeat constructor; cbn; lia. }
  pose proof (fifo_cola (fun _ => 0) demo_refs Hv) as H. rewrite E in H. exact H.
Defined.

(** The earlier version of the program is the same queue over its sizes. *)
Lemma simulador_cola basura xs : Forall (valida Simulador.MEMORIA_VIRTUAL) xs ->
  match cola_run Simulador.MEMORIA_FISICA Simulador.MEMORIA_SECUNDARIA xs (Cola [] []) with
  | Some c => exists s, Simulador.main basura ["./sim"; "-f"] xs = Sigue (imprimir s) /\
      refleja Simulador.MEMORIA_VIRTUAL Simulador.MEMORIA_FISICA Simulador.MEMORIA_SECUNDARIA s c
  | None => exists s, Simulador.main basura ["./sim"; "-f"] xs = Sale s
  end.
Proof.
  intros Hv. pose proof (bucle_refleja Simulador.MEMORIA_VIRTUAL Simulador.MEMORIA_FISICA Simulador.MEMORIA_SECUNDARIA true basura "./sim"
    ltac:(unfold Simulador.MEMORIA_FISICA; lia) xs _ _ (vaciar_refleja Simulador.MEMORIA_VIRTUAL Simulador.MEMORIA_FISICA Simulador.MEMORIA_SECUNDARIA
      ltac:(unfold Simulador.MEMORIA_FISICA; lia)) Hv) as H.
  change (Simulador.main basura ["./sim"; "-f"] xs) with
    (correr Simulador.MEMORIA_FISICA Simulador.MEMORIA_SECUNDARIA true basura "./sim" 102 xs (vaciar Simulador.MEMORIA_VIRTUAL
      (sim0 Simulador.MEMORIA_VIRTUAL Simulador.MEMORIA_FISICA Simulador.MEMORIA_SECUNDARIA))).
  unfold correr. destruct cola_run as [c|].
  - destruct H as (s & -> & Hr). eauto.
  - destruct H as [s ->]. eauto.
Qed.

(** ** LRU *)

Definition lru_refs : list (Z * Z) :=
  map (fun i => (1, Z.of_nat i)) (seq 1 8) ++ [(1, 1)] ++ map (fun i => (1, Z.of_nat i)) (seq 9 8).

(** The second search for the least recent page starts from the frame of the FIFO
    turn, and does not move from it when the page is in frame 0: the page that goes
    to the disk is the one in frame 0, and the one that is overwritten is another
    one, which is then nowhere although the page table says it is in memory. *)
Theorem lru_pierde_pagina : exists s, main (fun _ => 0) ["./sim"; "-l"] lru_refs = Sigue s /\
  (1, 1) ∈ map clave (mem_fisica s) /\ (1, 1) ∈ map clave (mem_secundaria s) /\
  (1, 15) ∉ map clave (mem_fisica s ++ mem_secundaria s) /\
  (p ← tablaProcesos s !! O; memoria p !! 14%nat) = Some charF.
Proof.
  eexists. split; [vm_compute; reflexivity|]. split; [|split; [|split; [|reflexivity]]].
  all: first [apply (bool_decide_unpack _)|apply (bool_decide_unpack (~ _))]; vm_compute; exact I.
Qed.
