(* ===== verification/Libc.v ===== *)
(** The functions of the host's C library that the programs of the labs use. *)

From S2P Require Import Prelude.

Definition isspace (c : Z) : bool := (c =? 32) || ((9 <=? c) && (c <=? 13)).
Definition isdigit (c : Z) : bool := (48 <=? c) && (c <=? 57).

Fixpoint skip_spaces (s : list Z) : list Z :=
  match s with c :: s' => if isspace c then skip_spaces s' else s | [] => [] end.

Fixpoint digits (s : list Z) (n : Z) : Z :=
  match s with c :: s => if isdigit c then digits s (n * 10 + (c - 48)) else n | [] => n end.

(** [atoi] is [strtol] in base 10, which stops at the limits of a [long], cut to
    an [int]. *)
Definition strtol (s : list Z) : Z :=
  let n := match skip_spaces s with
           | 45 :: s => - digits s 0
           | 43 :: s => digits s 0
           | s => digits s 0
           end in
  Z.max (- 2 ^ 63) (Z.min (2 ^ 63 - 1) n).

Definition atoi (s : string) : Z := i32 (strtol (bytes_of s)).

Lemma digits_app ds n : Forall (fun c => isdigit c = true) ds -> forall rest, digits (ds ++ rest) n = digits rest (digits ds n).
Proof.
  intros H. revert n. induction H as [|c ds Hc _ IH]; intros n rest; [done|]. cbn. rewrite Hc. apply IH.
Qed.

(** The string at the head of some memory. *)
Fixpoint string_at (l : list Z) : option (list Z) :=
  match l with [] => None | c :: l => if c =? 0 then Some [] else s ← string_at l; Some (c :: s) end.

Lemma string_at_app s r : Forall (fun c => c <> 0) s -> string_at (s ++ 0 :: r) = Some s.
Proof.
  induction 1 as [|c s Hc _ IH]; cbn; [done|]. rewrite (proj2 (Z.eqb_neq _ _)) by done. by rewrite IH.
Qed.

(** What follows the string does not matter. *)
Lemma string_at_more l s r : string_at l = Some s -> string_at (l ++ r) = Some s.
Proof.
  revert s. induction l as [|c l IH]; intros s; cbn; [done|]. destruct (c =? 0); [done|].
  destruct (string_at l) as [s'|]; cbn; [|done]. intros [= <-]. by rewrite (IH s').
Qed.

(** ** Sums over the threads of a program *)

Definition total {A} (f : A -> Z) (l : list A) : Z := foldr Z.add 0 (map f l).
#[global] Arguments total : simpl never.

Lemma total_cons {A} (f : A -> Z) x l : total f (x :: l) = f x + total f l.
Proof. done. Qed.

Lemma total_insert {A} (f : A -> Z) l n x y : l !! n = Some x -> total f (<[n := y]> l) = total f l - f x + f y.
Proof.
  revert n. induction l as [|z l IH]; intros [|n] H; try done.
  - injection H as ->. change (<[O := y]> (x :: l)) with (y :: l). rewrite !total_cons. lia.
  - change (<[S n := y]> (z :: l)) with (z :: <[n := y]> l). rewrite !total_cons, (IH n H). lia.
Qed.

Lemma total_nonneg {A} (f : A -> Z) l : (forall x, 0 <= f x) -> 0 <= total f l.
Proof. intros H. induction l as [|x l IH]; [done|]. rewrite total_cons. pose proof (H x). lia. Qed.

Lemma total_elem {A} (f : A -> Z) l n x : (forall x, 0 <= f x) -> l !! n = Some x -> f x <= total f l.
Proof.
  intros H. revert n. induction l as [|y l IH]; intros [|n] E; try done; rewrite total_cons.
  - injection E as ->. pose proof (total_nonneg f l H). lia.
  - pose proof (IH _ E). pose proof (H y). lia.
Qed.

Lemma total_zero {A} (f : A -> Z) l : (forall x, x ∈ l -> f x = 0) -> total f l = 0.
Proof.
  intros H. induction l as [|x l IH]; [done|]. rewrite total_cons, (H x), IH; [done| |set_solver].
  intros y Hy. apply H. set_solver.
Qed.
