(* ===== verification/Buf.v ===== *)
(** The bounded buffer of lab-05/buf.c: a producer and a consumer that share a ring
    of integers, with a mutex and two semaphores, and the thread that creates them
    and destroys the mutex and the semaphores without waiting for them.

    Each call on the mutex and on the semaphores is one step of its thread, and so
    is each access to the ring, in the order in which a schedule chooses the
    threads.  A call on an object that has been destroyed is undefined.

    [salida] is the line that the consumer prints at its end.  The random number that it
    prints in each round (the value of [rand() % wait_prod], which nothing reads) and the
    pauses of [usleep] are left out, and the [malloc] of [reader_results], whose result
    the code does not test, is taken to succeed. *)

From S2P Require Import Prelude Libc.

Record params := Params { size : Z; items : Z; wait_prod : Z; wait_cons : Z }.

(** Where a thread is in its loop, with the index of the loop. *)
Inductive pc :=
  | Antes | Esperar (i : Z) | Bloquear (i : Z) | Acceso (i : Z) | Desbloquear (i : Z) | Avisar (i : Z) | Imprimir | Fin.

Inductive mpc := CreaProd | CreaCons | DestMutex | DestProd | DestCons | Sale.

Inductive hilo := Productor | Consumidor | Principal.
#[export] Instance hilo_eq : EqDecision hilo.
Proof. solve_decision. Defined.

Record estado := Estado {
  mutex : option hilo; sem_prod : Z; sem_cons : Z; vive_mutex : bool; vive_prod : bool; vive_cons : bool;
  buf : list Z; prod : pc; cons : pc; main_pc : mpc; reader_results : list Z; salida : list Z }.
#[export] Instance estado_set : Settable estado := fun r =>
  Estado (mutex r) (sem_prod r) (sem_cons r) (vive_mutex r) (vive_prod r) (vive_cons r)
         (buf r) (prod r) (cons r) (main_pc r) (reader_results r) (salida r).

(** What a thread can do: go on, wait, nothing more, or something undefined. *)
Inductive turno := Avanza (s : estado) | Espera | Nada | Indefinido.

Section Hilos.
Context (p : params).

Definition vuelta (i : Z) (fin : pc) : pc := if i <? items p then Esperar i else fin.
Definition celda (i : Z) : nat := Z.to_nat (i mod size p).

Definition producer (s : estado) : turno :=
  match prod s with
  | Esperar i =>
      if negb (vive_prod s) then Indefinido
      else if sem_prod s <=? 0 then Espera else Avanza (s <| sem_prod ::= fun n => n - 1 |> <| prod := Bloquear i |>)
  | Bloquear i =>
      if negb (vive_mutex s) then Indefinido
      else match mutex s with Some _ => Espera | None => Avanza (s <| mutex := Some Productor |> <| prod := Acceso i |>) end
  | Acceso i => Avanza (s <| buf ::= <[celda i := i]> |> <| prod := Desbloquear i |>)
  | Desbloquear i =>
      if negb (vive_mutex s) then Indefinido else Avanza (s <| mutex := None |> <| prod := Avisar i |>)
  | Avisar i =>
      if negb (vive_cons s) then Indefinido
      else Avanza (s <| sem_cons ::= fun n => n + 1 |> <| prod := vuelta (i + 1) Fin |>)
  | _ => Nada
  end.

Definition consumer (s : estado) : turno :=
  match cons s with
  | Esperar i =>
      if negb (vive_cons s) then Indefinido
      else if sem_cons s <=? 0 then Espera else Avanza (s <| sem_cons ::= fun n => n - 1 |> <| cons := Bloquear i |>)
  | Bloquear i =>
      if negb (vive_mutex s) then Indefinido
      else match mutex s with Some _ => Espera | None => Avanza (s <| mutex := Some Consumidor |> <| cons := Acceso i |>) end
  | Acceso i =>
      match buf s !! celda i with
      | Some x => Avanza (s <| reader_results ::= fun l => l ++ [x] |> <| cons := Desbloquear i |>)
      | None => Indefinido
      end
  | Desbloquear i =>
      if negb (vive_mutex s) then Indefinido else Avanza (s <| mutex := None |> <| cons := Avisar i |>)
  | Avisar i =>
      if negb (vive_prod s) then Indefinido
      else Avanza (s <| sem_prod ::= fun n => n + 1 |> <| cons := vuelta (i + 1) Imprimir |>)
  | Imprimir => Avanza (s <| salida := reader_results s |> <| cons := Fin |>)
  | _ => Nada
  end.

Definition principal (s : estado) : turno :=
  match main_pc s with
  | CreaProd => Avanza (s <| prod := vuelta 0 Fin |> <| main_pc := CreaCons |>)
  | CreaCons => Avanza (s <| cons := vuelta 0 Imprimir |> <| main_pc := DestMutex |>)
  | DestMutex => Avanza (s <| vive_mutex := false |> <| main_pc := DestProd |>)
  | DestProd => Avanza (s <| vive_prod := false |> <| main_pc := DestCons |>)
  | DestCons => Avanza (s <| vive_cons := false |> <| main_pc := Sale |>)
  | Sale => Nada
  end.

Definition paso (h : hilo) : estado -> turno :=
  match h with Productor => producer | Consumidor => consumer | Principal => principal end.

(** A schedule in which every turn goes on. *)
Fixpoint corre (hs : list hilo) (s : estado) : option estado :=
  match hs with
  | [] => Some s
  | h :: hs => match paso h s with Avanza s => corre hs s | _ => None end
  end.

(** [main], once the parameters are read: the ring has what [malloc] left in it. *)
Definition inicio (basura : list Z) : estado :=
  Estado None (size p) 0 true true true basura Antes Antes CreaProd [] [].

End Hilos.

(** The arguments of [main], where [malloc] can fail. *)
Definition leer_params (malloc : Z -> bool) (argv : list string) : params + list string :=
  match argv with
  | [_; a1; a2; a3; a4] =>
      if negb (malloc 16) then inr ["malloc"] else
      if atoi a1 <=? 0 then inr ["bufsize tiene que ser mayor que cero."] else
      if negb (malloc (4 * atoi a1)) then inr ["malloc"] else
      if negb (malloc 24) then inr ["malloc"] else
      if atoi a2 <=? 0 then inr ["counter tiene que ser mayor que cero."] else
      if atoi a3 <=? 0 then inr ["wait-prod tiene que ser mayor que cero."] else
      if atoi a4 <=? 0 then inr ["cons-wait tiene que ser mayor que cero."] else
      inl (Params (atoi a1) (atoi a2) (atoi a3) (atoi a4))
  | _ => inr ["Uso: " +:+ default EmptyString (head argv) +:+ " size items wait-prod wait-cons rand"; "	size:	tamaño del buffer.";
             "	items:	número de items a producir/consumir."; "	waitp:	número de microsegundos que espera el productor.";
             "	waitc:	número de microsegundos que espera el consumidor."]
  end.

(** ** The invariant *)

Section Invariante.
Context (p : params) (Hsize : 0 < size p) (Hitems : 0 < items p).

(** How many items a thread has finished with; whether it has one in hand, has
    touched the ring for it, and has the mutex. *)
Definition hechos (c : pc) : Z :=
  match c with
  | Antes => 0
  | Esperar i | Bloquear i | Acceso i | Desbloquear i | Avisar i => i
  | Imprimir | Fin => items p
  end.
Definition en_curso (c : pc) : Z :=
  match c with Bloquear _ | Acceso _ | Desbloquear _ | Avisar _ => 1 | _ => 0 end.
Definition accedido (c : pc) : Z := match c with Desbloquear _ | Avisar _ => 1 | _ => 0 end.
Definition tiene (c : pc) : bool := match c with Acceso _ | Desbloquear _ => true | _ => false end.

(** An index of a thread that is in its loop. *)
Definition pc_ok (c : pc) : Prop :=
  match c with
  | Esperar i | Bloquear i | Acceso i | Desbloquear i | Avisar i => 0 <= i < items p
  | _ => True
  end.

Definition leidos (s : estado) : Z := hechos (cons s) + accedido (cons s).
Definition escritos (s : estado) : Z := hechos (prod s) + accedido (prod s).

Record inv (s : estado) : Prop := Inv {
  i_prod : pc_ok (prod s);
  i_noimp : prod s <> Imprimir;
  i_cons : pc_ok (cons s);
  i_sp : sem_prod s = size p - (hechos (prod s) + en_curso (prod s)) + hechos (cons s);
  i_sp0 : 0 <= sem_prod s;
  i_sc : sem_cons s = hechos (prod s) - (hechos (cons s) + en_curso (cons s));
  i_sc0 : 0 <= sem_cons s;
  i_mutex : mutex s = if tiene (prod s) then Some Productor else if tiene (cons s) then Some Consumidor else None;
  i_excl : tiene (prod s) && tiene (cons s) = false;
  i_len : length (buf s) = Z.to_nat (size p);
  i_ring : forall k, leidos s <= k < escritos s -> buf s !! celda p k = Some k;
  i_leidos : reader_results s = seqZ 0 (leidos s);
  i_salida : salida s = match cons s with Fin => reader_results s | _ => [] end;
  i_main : match main_pc s with
           | CreaProd => prod s = Antes /\ cons s = Antes
           | CreaCons => prod s <> Antes /\ cons s = Antes
           | _ => prod s <> Antes /\ cons s <> Antes
           end }.

Lemma hechos_nonneg c : pc_ok c -> 0 <= hechos c.
Proof. destruct c; cbn; lia. Qed.

Lemma vuelta_hechos i fin : 0 <= i < items p -> hechos fin = items p -> en_curso fin = 0 -> accedido fin = 0 -> tiene fin = false -> pc_ok fin ->
  hechos (vuelta p (i + 1) fin) = i + 1 /\ en_curso (vuelta p (i + 1) fin) = 0 /\ accedido (vuelta p (i + 1) fin) = 0 /\
  tiene (vuelta p (i + 1) fin) = false /\ pc_ok (vuelta p (i + 1) fin).
Proof. intros Hi H1 H2 H3 H4 H5. unfold vuelta. destruct (Z.ltb_spec (i + 1) (items p)); [cbn|]; repeat split; try done; lia. Qed.

(** Two items less than the size apart have different cells. *)
Lemma celda_ne i k : 0 <= k < i -> i - k < size p -> celda p k <> celda p i.
Proof.
  intros Hk Hd E. unfold celda in E. apply Z2Nat.inj in E; try (by apply Z.mod_pos_bound; lia).
  rewrite (Z.mod_eq k (size p)), (Z.mod_eq i (size p)) in E by lia.
  assert (i - k = size p * (i / size p - k / size p)) as E' by lia. set (q := i / size p - k / size p) in E'.
  destruct (decide (q <= 0)); nia.
Qed.

Lemma celda_lt s i : inv s -> (celda p i < length (buf s))%nat.
Proof. intros H. rewrite (i_len _ H). unfold celda. pose proof (Z.mod_pos_bound i (size p) Hsize). lia. Qed.

Lemma vuelta_ne i fin : fin <> Antes -> vuelta p i fin <> Antes.
Proof. unfold vuelta. by destruct (_ <? _). Qed.

Lemma producer_inv s s' : inv s -> producer p s = Avanza s' -> inv s'.
Proof.
  intros H. pose proof (fun i => celda_lt s i H) as Hlt. pose proof (hechos_nonneg _ (i_cons _ H)) as Hc.
  destruct H as [H1 H0 H2 H3 H4 H5 H6 H7 H8 H9 H10 H11 H12 H13]. destruct s as [m sp sc vm vp vc b pr co mp rr sa].
  unfold producer, leidos, escritos in *. cbn in *. destruct pr as [|i|i|i|i|i| |]; cbn in *; try done.
  - destruct vp; [|done]. destruct (Z.leb_spec sp 0); [done|]. intros [= <-].
    constructor; unfold leidos, escritos in *; cbn; try done; try lia; try (by destruct mp; intuition congruence).
  - destruct vm; [|done]. destruct m; [done|]. intros [= <-]. destruct (tiene co) eqn:Et; [done|].
    constructor; unfold leidos, escritos in *; cbn; rewrite ?Et; try done; try lia; try (by destruct mp; intuition congruence).
  - intros [= <-]. constructor; unfold leidos, escritos in *; cbn; try done; try lia; try (by destruct mp; intuition congruence); [by rewrite length_insert|].
    intros k Hk. destruct (decide (k = i)) as [->|Hne]; [by apply list_lookup_insert_eq|].
    assert (0 <= accedido co) by (destruct co; cbn; lia).
    rewrite list_lookup_insert_ne by (apply not_eq_sym, celda_ne; lia). apply H10. lia.
  - destruct vm; [|done]. intros [= <-]. destruct (tiene co) eqn:Et; [done|].
    constructor; unfold leidos, escritos in *; cbn; rewrite ?Et; try done; try lia; try (by destruct mp; intuition congruence).
  - destruct vc; [|done]. intros [= <-].
    destruct (vuelta_hechos i Fin) as (E1 & E2 & E3 & E4 & E5); try done.
    pose proof (vuelta_ne (i + 1) Fin ltac:(done)).
    assert (vuelta p (i + 1) Fin <> Imprimir) by (unfold vuelta; by destruct (i + 1 <? items p)).
    constructor; unfold leidos, escritos in *; cbn; rewrite ?E1, ?E2, ?E3, ?E4; try done; try lia; try (by destruct mp; intuition congruence).
    intros k Hk. apply H10. lia.
Qed.

Lemma consumer_inv s s' : inv s -> consumer p s = Avanza s' -> inv s'.
Proof.
  intros H. pose proof (hechos_nonneg _ (i_cons _ H)) as Hc.
  destruct H as [H1 H0 H2 H3 H4 H5 H6 H7 H8 H9 H10 H11 H12 H13]. destruct s as [m sp sc vm vp vc b pr co mp rr sa].
  unfold consumer, leidos, escritos in *. cbn in *. assert (0 <= accedido pr) by (destruct pr; cbn; lia).
  destruct co as [|i|i|i|i|i| |]; cbn in *; try done.
  - destruct vc; [|done]. destruct (Z.leb_spec sc 0); [done|]. intros [= <-].
    constructor; unfold leidos, escritos in *; cbn; try done; try lia; try (by destruct mp; intuition congruence).
  - destruct vm; [|done]. destruct m; [done|]. intros [= <-]. destruct (tiene pr) eqn:Et; [done|].
    constructor; unfold leidos, escritos in *; cbn; rewrite ?Et; try done; try lia; try (by destruct mp; intuition congruence).
  - rewrite H10 by lia. intros [= <-]. constructor; unfold leidos, escritos in *; cbn; try done; try lia; try (by destruct mp; intuition congruence).
    + intros k Hk. apply H10. lia.
    + by rewrite H11, Z.add_0_r, (seqZ_app 0 i 1), (seqZ_cons _ 1) by lia.
  - destruct vm; [|done]. intros [= <-]. destruct (tiene pr) eqn:Et; [done|].
    constructor; unfold leidos, escritos in *; cbn; rewrite ?Et; try done; try lia; try (by destruct mp; intuition congruence).
  - destruct vp; [|done]. intros [= <-].
    destruct (vuelta_hechos i Imprimir) as (E1 & E2 & E3 & E4 & E5); try done.
    pose proof (vuelta_ne (i + 1) Imprimir ltac:(done)).
    constructor; unfold leidos, escritos in *; cbn; rewrite ?E1, ?E2, ?E3, ?E4, ?Z.add_0_r; try done; try lia; try (by destruct mp; intuition congruence).
    unfold vuelta. by destruct (_ <? _).
  - intros [= <-]. constructor; cbn; try done. destruct mp; intuition congruence.
Qed.

Lemma principal_inv s s' : inv s -> principal p s = Avanza s' -> inv s'.
Proof.
  intros [H1 H0 H2 H3 H4 H5 H6 H7 H8 H9 H10 H11 H12 H13] E. destruct s as [m sp sc vm vp vc b pr co mp rr sa]. cbn in *.
  assert (vuelta p 0 Fin = Esperar 0 /\ vuelta p 0 Imprimir = Esperar 0) as [V1 V2].
  { unfold vuelta. by rewrite (proj2 (Z.ltb_lt _ _)) by lia. }
  unfold principal in E. cbn in E. destruct mp; try done; injection E as <-; rewrite ?V1, ?V2.
  1,2: destruct H13 as [E1 ->]; subst; constructor; cbn in *; try done; lia.
  all: by constructor.
Qed.

Lemma paso_inv h s s' : inv s -> paso p h s = Avanza s' -> inv s'.
Proof. destruct h; [apply producer_inv|apply consumer_inv|apply principal_inv]. Qed.

Lemma corre_buf hs : forall s s', inv s -> corre p hs s = Some s' -> inv s'.
Proof.
  induction hs as [|h hs IH]; cbn; intros s s' H; [congruence|]. destruct (paso p h s) as [s1| | |] eqn:E; try done.
  apply IH. by eapply paso_inv.
Qed.

Lemma inicio_buf basura : length basura = Z.to_nat (size p) -> inv (inicio p basura).
Proof. intros H. constructor; cbn; try done; try lia. intros k. unfold leidos, escritos. cbn. lia. Qed.

(** ** Every turn is one step less *)

Definition resto_pc (c : pc) : Z :=
  match c with
  | Antes => 5 * items p
  | Esperar i => 5 * (items p - i)
  | Bloquear i => 5 * (items p - i) - 1
  | Acceso i => 5 * (items p - i) - 2
  | Desbloquear i => 5 * (items p - i) - 3
  | Avisar i => 5 * (items p - i) - 4
  | Imprimir | Fin => 0
  end.

Definition resto_cons (c : pc) : Z := resto_pc c + match c with Fin => 0 | _ => 1 end.

Definition resto_main (m : mpc) : Z :=
  match m with CreaProd => 5 | CreaCons => 4 | DestMutex => 3 | DestProd => 2 | DestCons => 1 | Sale => 0 end.

Definition resto (s : estado) : Z := resto_pc (prod s) + resto_cons (cons s) + resto_main (main_pc s).

Lemma paso_resto h s s' : inv s -> paso p h s = Avanza s' -> resto s' = resto s - 1.
Proof.
  intros [H1 _ H2 _ _ _ _ _ _ _ _ _ _ H13]. destruct s as [m sp sc vm vp vc b pr co mp rr sa]. unfold resto. cbn in *.
  destruct h; cbn; unfold producer, consumer, principal; cbn.
  - clear H13. destruct pr; try done; repeat case_match; intros [= <-]; cbn in *; try lia. unfold vuelta. case_match; cbn in *; lia.
  - clear H13. destruct co; try done; repeat case_match; intros [= <-]; unfold resto_cons; cbn in *; try lia.
    unfold vuelta. case_match; cbn in *; lia.
  - destruct mp; try done; intros [= <-]; cbn in *; try lia.
    all: destruct H13 as [E1 ->]; subst; unfold vuelta; rewrite (proj2 (Z.ltb_lt _ _)) by lia; cbn; unfold resto_cons; cbn; lia.
Qed.

Lemma resto_nonneg s : inv s -> 0 <= resto s.
Proof.
  intros H. pose proof (i_prod _ H). pose proof (i_cons _ H). unfold resto, resto_cons.
  destruct (prod s), (cons s), (main_pc s); cbn in *; lia.
Qed.

Lemma corre_resto hs : forall s s', inv s -> corre p hs s = Some s' -> Z.of_nat (length hs) = resto s - resto s'.
Proof.
  induction hs as [|h hs IH]; cbn; intros s s' H; [intros [= ->]; lia|].
  destruct (paso p h s) as [s1| | |] eqn:E; try done. intros H1. apply IH in H1; [|by eapply paso_inv].
  pose proof (paso_resto _ _ _ H E). lia.
Qed.

(** ** No deadlock while the mutex and the semaphores are there *)

Definition vivo (s : estado) : Prop := vive_mutex s = true /\ vive_prod s = true /\ vive_cons s = true.

Definition puede (s : estado) : Prop := exists h s', paso p h s = Avanza s' /\ vivo s'.

Lemma puede_prod s : inv s -> vivo s ->
  match prod s with
  | Acceso _ | Desbloquear _ | Avisar _ => True
  | Bloquear _ => tiene (cons s) = false
  | Esperar _ => 0 < sem_prod s
  | _ => False
  end -> puede s.
Proof.
  intros H (V1 & V2 & V3) Hc. exists Productor. cbn. unfold producer, vivo. rewrite V1, V2, V3. cbn.
  pose proof (i_mutex _ H) as Hm. destruct (prod s); try done; cbn in Hm.
  - rewrite (proj2 (Z.leb_gt _ _)) by lia. by eexists.
  - rewrite Hm, Hc. by eexists.
  - by eexists.
  - by eexists.
  - by eexists.
Qed.

Lemma puede_cons s : inv s -> vivo s ->
  match cons s with
  | Acceso _ | Desbloquear _ | Avisar _ | Imprimir => True
  | Bloquear _ => tiene (prod s) = false
  | Esperar _ => 0 < sem_cons s
  | _ => False
  end -> puede s.
Proof.
  intros H (V1 & V2 & V3) Hc. exists Consumidor. cbn. unfold consumer, vivo. rewrite V1, V2, V3. cbn.
  pose proof (i_mutex _ H) as Hm. pose proof (i_sc _ H). pose proof (i_sc0 _ H). pose proof (i_ring _ H) as Hr.
  unfold leidos, escritos in Hr. destruct (cons s) as [|i|i|i|i|i| |]; try done; cbn in *.
  - rewrite (proj2 (Z.leb_gt _ _)) by lia. by eexists.
  - rewrite Hm, Hc. by eexists.
  - rewrite Hr; [by eexists|]. assert (0 <= accedido (prod s)) by (destruct (prod s); cbn; lia). lia.
  - by eexists.
  - by eexists.
  - by eexists.
Qed.

Lemma sin_bloqueo s : inv s -> vivo s -> puede s \/ prod s = Fin /\ cons s = Fin.
Proof.
  intros H V. pose proof (puede_prod s H V) as P. pose proof (puede_cons s H V) as C.
  pose proof H as [H1 H0 H2 H3 H4 H5 H6 H7 H8 _ _ _ _ H13].
  assert (main_pc s = CreaProd \/ main_pc s = CreaCons -> puede s) as M.
  { intros M. exists Principal. cbn. unfold principal. destruct V as (? & ? & ?). destruct M as [-> | ->]; by eexists. }
  assert (prod s <> Antes /\ cons s <> Antes \/ puede s) as [[N1 N2]|Q]; [|clear M|by left].
  { destruct (main_pc s); first [by left|right; apply M; by (left + right)]. }
  clear H13. destruct (prod s) as [|i|i|i|i|i| |] eqn:Ep; try done; try (left; by apply P).
  all: destruct (cons s) as [|j|j|j|j|j| |] eqn:Ec; try done; try (left; by apply C); try (left; by apply P); cbn in *.
  - left. destruct (decide (0 < sem_prod s)); [by apply P|]. apply C. lia.
  - left. apply P. lia.
  - left. apply C. lia.
  - by right.
Qed.

Lemma salida_final s : inv s -> cons s = Fin -> salida s = seqZ 0 (items p).
Proof.
  intros H Hc. rewrite (i_salida _ H), Hc, (i_leidos _ H). unfold leidos. rewrite Hc. cbn. by rewrite Z.add_0_r.
Qed.
End Invariante.

(** C30. The consumer reads the items in the order of production, without loss or
    repetition, under every schedule, and reads an item only after it is written
    and before its cell is reused; never more than [size] items are in the ring,
    and producer and consumer are never both in the ring. *)
Theorem buf_orden p basura hs s : 0 < size p -> 0 < items p -> length basura = Z.to_nat (size p) ->
  corre p hs (inicio p basura) = Some s ->
  reader_results s = seqZ 0 (leidos p s) /\ leidos p s <= escritos p s <= leidos p s + size p /\
  (forall k, leidos p s <= k < escritos p s -> buf s !! celda p k = Some k) /\
  tiene (prod s) && tiene (cons s) = false.
Proof.
  intros Hs Hi Hb E. pose proof (corre_buf p Hs Hi _ _ _ (inicio_buf p Hs _ Hb) E) as H.
  split; [apply (i_leidos _ _ H)|]. split; [|split; [apply (i_ring _ _ H)|apply (i_excl _ _ H)]].
  pose proof (i_sp _ _ H). pose proof (i_sp0 _ _ H). pose proof (i_sc _ _ H). pose proof (i_sc0 _ _ H). unfold leidos, escritos in *.
  destruct (prod s), (cons s); cbn in *; lia.
Qed.

Definition demo_params : params := Params 2 3 1 1.
Definition demo_hilos : list hilo :=
  [Principal; Productor; Productor; Principal; Productor; Productor; Productor; Consumidor; Productor; Consumidor; Consumidor;
   Consumidor; Productor; Consumidor; Productor].

Lemma buf_orden_witness : exists s, corre demo_params demo_hilos (inicio demo_params [7; 7]) = Some s /\ reader_results s = [0].
Proof.
  destruct (corre demo_params demo_hilos (inicio demo_params [7; 7])) as [s|] eqn:E; [|vm_compute in E; discriminate].
  exists s. split; [reflexivity|].
  destruct (buf_orden demo_params [7; 7] demo_hilos s) as [H _]; [reflexivity|reflexivity|reflexivity|exact E|].
  rewrite H. vm_compute in E. injection E as <-. vm_compute. reflexivity.
Defined.

(** C31. While [main] has not destroyed them, the mutex and the semaphores never
    deadlock the two threads: in every state that a schedule reaches, some thread
    can take a step or both threads have ended and the consumer has printed every
    item in order; and every schedule ends after at most [10 * items + 6] steps. *)
Theorem buf_termina p basura hs s : 0 < size p -> 0 < items p -> length basura = Z.to_nat (size p) ->
  corre p hs (inicio p basura) = Some s -> vivo s ->
  (puede p s \/ prod s = Fin /\ cons s = Fin /\ salida s = seqZ 0 (items p)) /\ Z.of_nat (length hs) <= 10 * items p + 6.
Proof.
  intros Hs Hi Hb E V. pose proof (inicio_buf p Hs _ Hb) as H0. pose proof (corre_buf p Hs Hi _ _ _ H0 E) as H. split.
  - destruct (sin_bloqueo p Hs s H V) as [?|[H1 H2]]; [by left|right]. split; [done|]. split; [done|]. by apply salida_final.
  - rewrite (corre_resto p Hs Hi _ _ _ H0 E). pose proof (resto_nonneg p Hi s H).
    change (resto p (inicio p basura)) with (5 * items p + (5 * items p + 1) + 5). lia.
Qed.

Lemma buf_termina_witness : exists s, corre demo_params demo_hilos (inicio demo_params [7; 7]) = Some s /\
  (puede demo_params s \/ prod s = Fin /\ cons s = Fin /\ salida s = seqZ 0 (items demo_params)).
Proof.
  destruct (corre demo_params demo_hilos (inicio demo_params [7; 7])) as [s|] eqn:E; [|vm_compute in E; discriminate].
  exists s. split; [reflexivity|]. apply (buf_termina demo_params [7; 7] demo_hilos s); [reflexivity|reflexivity|reflexivity|exact E|].
  vm_compute in E. injection E as <-. split; [reflexivity|split; reflexivity].
Defined.

(** [main] destroys the mutex before the threads have used it: there is a schedule
    in which the producer locks a mutex that has been destroyed. *)
Lemma main_destruye_en_uso : exists s, corre demo_params [Principal; Principal; Principal; Productor] (inicio demo_params [7; 7]) = Some s /\
  paso demo_params Productor s = Indefinido.
Proof. eexists. split; reflexivity. Qed.
