(* ===== verification/Wordheap.v ===== *)
(** The stack of words of lab-05/wordheap.c, in shared memory: processes that push
    ([-w]), pop ([-r]) and print ([-p]), each one a run of [main] on the same heap,
    in any interleaving of their calls on the mutex and the semaphores and of their
    accesses to the shared fields.

    Here the mutex works between processes.  That is an assumption: the code initialises
    it without the attribute PTHREAD_PROCESS_SHARED, and POSIX leaves undefined what the
    mutex then does between processes. *)

From S2P Require Import Prelude Libc.

Definition ITEMS : Z := 15.
Definition MAX_WORD : Z := 50.

(** [heap] is the 750 bytes of the rows one after the other. *)
Record wordheap := Wh {
  free : Z; items : Z; max_word : Z; heap : list Z; mutex : option nat; full : Z; empty : Z }.
#[export] Instance wordheap_set : Settable wordheap :=
  fun r => Wh (free r) (items r) (max_word r) (heap r) (mutex r) (full r) (empty r).

(** Where a process is in its case of [main]. *)
Inductive pc :=
  | WLibre (w : list Z) | WEspera (w : list Z) | WBloquea (w : list Z) | WCopia (w : list Z) | WItems (w : list Z)
  | WFree (w : list Z) | WDesbloquea (w : list Z) | WAvisa (w : list Z)
  | RVacia | REspera | RBloquea | RItems | RFree | RDesbloquea | RAvisa
  | PVacia | PBloquea | PVacia2 | PImprime | PDesbloquea (out : list (list Z))
  | Fin (out : list (list Z)).

Inductive turno := Avanza (wh : wordheap) (p : pc) | Espera | Nada | Falla.

(** [strcpy(wordheap->heap[i], w)], which must stay in the heap. *)
Definition strcpy_heap (i : Z) (w : list Z) (h : list Z) : option (list Z) :=
  let off := i * MAX_WORD in
  if (off <? 0) || (Z.of_nat (length h) <? off + Z.of_nat (length w) + 1) then None
  else Some (blit h (Z.to_nat off) (w ++ [0])).

(** [printf("%s\n", wordheap->heap[i])] *)
Definition palabra (h : list Z) (i : nat) : option (list Z) := string_at (drop (i * Z.to_nat MAX_WORD) h).

Definition palabras (wh : wordheap) : option (list (list Z)) :=
  mapM (palabra (heap wh)) (seq 0 (Z.to_nat (items wh))).

(** One step of process [me] on the stack of name [pila]. *)
Definition paso (pila : string) (me : nat) (p : pc) (wh : wordheap) : turno :=
  match p with
  (* -w *)
  | WLibre w => if free wh =? 0 then Avanza wh (Fin [bytes_of "Pila llena."]) else Avanza wh (WEspera w)
  | WEspera w => if empty wh <=? 0 then Espera else Avanza (wh <| empty ::= fun n => n - 1 |>) (WBloquea w)
  | WBloquea w => match mutex wh with Some _ => Espera | None => Avanza (wh <| mutex := Some me |>) (WCopia w) end
  | WCopia w => match strcpy_heap (items wh) w (heap wh) with Some h => Avanza (wh <| heap := h |>) (WItems w) | None => Falla end
  | WItems w => Avanza (wh <| items ::= fun n => n + 1 |>) (WFree w)
  | WFree w => Avanza (wh <| free ::= fun n => n - 1 |>) (WDesbloquea w)
  | WDesbloquea w => Avanza (wh <| mutex := None |>) (WAvisa w)
  | WAvisa w => Avanza (wh <| full ::= fun n => n + 1 |>) (Fin [bytes_of "Palabra " ++ w ++ bytes_of (" agregada a la pila " +:+ pila +:+ ".")])
  (* -r *)
  | RVacia => if items wh =? 0 then Avanza wh (Fin [bytes_of "Pila vacía."]) else Avanza wh REspera
  | REspera => if full wh <=? 0 then Espera else Avanza (wh <| full ::= fun n => n - 1 |>) RBloquea
  | RBloquea => match mutex wh with Some _ => Espera | None => Avanza (wh <| mutex := Some me |>) RItems end
  | RItems => Avanza (wh <| items ::= fun n => n - 1 |>) RFree
  | RFree => Avanza (wh <| free ::= fun n => n + 1 |>) RDesbloquea
  | RDesbloquea => Avanza (wh <| mutex := None |>) RAvisa
  | RAvisa => Avanza (wh <| empty ::= fun n => n + 1 |>) (Fin [bytes_of ("Palabra eliminada de la pila " +:+ pila +:+ ".")])
  (* -p *)
  | PVacia => if items wh =? 0 then Avanza wh (Fin [bytes_of "Pila vacía."]) else Avanza wh PBloquea
  | PBloquea => match mutex wh with Some _ => Espera | None => Avanza (wh <| mutex := Some me |>) PVacia2 end
  | PVacia2 => if items wh =? 0 then Avanza wh (PDesbloquea [bytes_of "Pila vacía."]) else Avanza wh PImprime
  | PImprime => match palabras wh with Some ws => Avanza wh (PDesbloquea ws) | None => Falla end
  | PDesbloquea out => Avanza (wh <| mutex := None |>) (Fin out)
  | Fin _ => Nada
  end.

(** [-c]: the object keeps the bytes it had, zeros when it is new. *)
Definition crear (viejo : list Z) : wordheap := Wh (ITEMS - 1) 0 MAX_WORD viejo None 0 ITEMS.

(** [-d]: the name and its object go away; the message. *)
Definition destruir (pila : string) (objetos : gmap string wordheap) : gmap string wordheap * string :=
  (delete pila objetos, "Pila " +:+ pila +:+ " eliminada.").

(** The command line, on a name that [shm_open] finds or not; [Nulo] when an
    argument is missing, and the null pointer after the last one is used. *)
Inductive orden := Corre (p : pc) | Crea | Destruye | Sale (ok : bool) (err : string) | Nulo.

Definition main (existe : bool) (argv : list string) : orden :=
  match argv with
  | _ :: opt :: args =>
      match bytes_of opt with
      | 45 :: o =>
          let abre (x : orden) := if existe then x else Sale false "Error al abrir la memoria compartida." in
          match default 0 (head o), args with
          | 119, _ :: w :: _ => abre (Corre (WLibre (bytes_of w)))
          | 114, _ :: _ => abre (Corre RVacia)
          | 112, _ :: _ => abre (Corre PVacia)
          | 99, _ :: _ => Crea
          | 100, _ :: _ => abre Destruye
          | 119, _ | 114, _ | 112, _ | 99, _ | 100, _ => Nulo
          | 104, _ => Sale true "Uso"
          | _, _ => Sale false "opción desconocida."
          end
      | _ => Sale false "Uso"
      end
  | _ => Sale false "Uso"
  end.

(** ** Interleavings *)

Record mundo := Mundo { wh : wordheap; procs : list pc }.

Section Intercala.
Context (pila : string).

Definition avanza (n : nat) (m : mundo) : option mundo :=
  p ← procs m !! n;
  match paso pila n p (wh m) with Avanza w p' => Some (Mundo w (<[n := p']> (procs m))) | _ => None end.

Fixpoint corre (ns : list nat) (m : mundo) : option mundo :=
  match ns with [] => Some m | n :: ns => m ← avanza n m; corre ns m end.

End Intercala.
