(* ===== verification/WordheapSpec.v ===== *)
(** The stack of words is a stack: whatever the interleaving of its processes, it
    never leaves its 15 rows, and each push and pop takes effect at one step. *)

From S2P Require Import Prelude Libc Wordheap.

#[local] Arguments bytes_of : simpl never.

(** ** The counts

    What each process has taken from a semaphore and not given back to the other. *)

Definition va_a_poner (p : pc) : Z := match p with WBloquea _ | WCopia _ | WItems _ => 1 | _ => 0 end.
Definition ha_puesto (p : pc) : Z := match p with WFree _ | WDesbloquea _ | WAvisa _ => 1 | _ => 0 end.
Definition va_a_sacar (p : pc) : Z := match p with RBloquea | RItems => 1 | _ => 0 end.
Definition ha_sacado (p : pc) : Z := match p with RFree | RDesbloquea | RAvisa => 1 | _ => 0 end.
Definition falta_free (p : pc) : Z := match p with WFree _ => 1 | RFree => -1 | _ => 0 end.

Record cuentas (m : mundo) : Prop := Cuentas {
  c_empty : empty (wh m) + items (wh m) + total va_a_poner (procs m) + total ha_sacado (procs m) = ITEMS;
  c_empty0 : 0 <= empty (wh m);
  c_full : full (wh m) + total va_a_sacar (procs m) + total ha_puesto (procs m) = items (wh m);
  c_full0 : 0 <= full (wh m);
  c_free : free (wh m) = ITEMS - 1 - items (wh m) + total falta_free (procs m) }.

Ltac sums := repeat (erewrite total_insert by eassumption); cbn [va_a_poner ha_puesto va_a_sacar ha_sacado falta_free].

Section Pila.
Context (pila : string).

Lemma avanza_Some n m m' : avanza pila n m = Some m' -> exists p w p', procs m !! n = Some p /\ paso pila n p (wh m) = Avanza w p' /\
  m' = Mundo w (<[n := p']> (procs m)).
Proof.
  unfold avanza. destruct (procs m !! n) as [p|] eqn:Hp; [|done]. cbn. destruct (paso pila n p (wh m)) eqn:E; try done.
  intros [= <-]. eauto 7.
Qed.

Lemma avanza_cuentas n m m' : cuentas m -> avanza pila n m = Some m' -> cuentas m'.
Proof.
  intros [H1 H2 H3 H4 H5] (p & w & p' & Hp & E & ->)%avanza_Some. destruct m as [wh ps]. cbn in *.
  destruct p; cbn in E; repeat case_match; try done; injection E as <- <-.
  all: constructor; cbn; sums; try lia.
Qed.

(** ** The rows *)

Definition dentro (p : pc) : bool :=
  match p with
  | WCopia _ | WItems _ | WFree _ | WDesbloquea _ | RItems | RFree | RDesbloquea | PVacia2 | PImprime | PDesbloquea _ => true
  | _ => false
  end.

Definition word_ok (w : list Z) : Prop := Z.of_nat (length w) < MAX_WORD /\ Forall (fun c => c <> 0) w.

Definition pc_ok (p : pc) : Prop :=
  match p with
  | WLibre w | WEspera w | WBloquea w | WCopia w | WItems w => word_ok w
  | _ => True
  end.

(** Row [k] has the word [w]. *)
Definition fila (h : list Z) (k : nat) : option (list Z) := string_at (slice h (k * 50) 50).

Record filas (m : mundo) : Prop := Filas {
  f_len : length (heap (wh m)) = 750%nat;
  f_rows : forall k, Z.of_nat k < items (wh m) -> is_Some (fila (heap (wh m)) k);
  f_mutex : forall n p, procs m !! n = Some p -> dentro p = true <-> mutex (wh m) = Some n;
  f_item : forall n w, procs m !! n = Some (WItems w) -> fila (heap (wh m)) (Z.to_nat (items (wh m))) = Some w;
  f_pc : forall n p, procs m !! n = Some p -> pc_ok p }.

(** [strcpy] writes its row and no other. *)
Lemma strcpy_heap_row h i w : length h = 750%nat -> (i < 15)%nat -> word_ok w ->
  exists h', strcpy_heap (Z.of_nat i) w h = Some h' /\ length h' = 750%nat /\ fila h' i = Some w /\
    forall k, (k < 15)%nat -> k <> i -> fila h' k = fila h k.
Proof.
  intros Hl Hi [Hw Hz]. unfold strcpy_heap, MAX_WORD in *.
  assert (length (w ++ [0]) = S (length w)) as Hlw by (rewrite length_app; cbn; lia).
  rewrite (proj2 (orb_false_iff _ _)) by (split; apply Z.ltb_ge; lia). eexists. split; [done|].
  replace (Z.to_nat (Z.of_nat i * 50)) with (i * 50)%nat by lia.
  split; [rewrite length_blit; lia|]. unfold fila. split.
  - assert (slice (blit h (i * 50) (w ++ [0])) (i * 50) 50 = (w ++ [0]) ++ slice h (i * 50 + S (length w)) (50 - S (length w))) as ->.
    { apply list_eq. intros j. rewrite lookup_slice. case_decide.
      - rewrite lookup_blit by lia. case_decide.
        + replace (i * 50 + j - i * 50)%nat with j by lia. symmetry. apply lookup_app_l. lia.
        + rewrite (lookup_app_r (w ++ [0])) by lia. rewrite Hlw, lookup_slice, decide_True by lia. f_equal. lia.
      - symmetry. apply lookup_ge_None_2. rewrite length_app, length_slice by lia. lia. }
    rewrite <- app_assoc. by apply string_at_app.
  - intros k Hk Hne. f_equal. apply slice_blit_ne; [lia|]. rewrite Hlw. lia.
Qed.

Definition mutex_ok (ps : list pc) (mx : option nat) : Prop := forall n p, ps !! n = Some p -> dentro p = true <-> mx = Some n.

(** The mutex is kept, taken or given back. *)
Definition cambio (n : nat) (p p' : pc) (mx mx' : option nat) : Prop :=
  dentro p' = dentro p /\ mx' = mx \/
  mx = None /\ mx' = Some n /\ dentro p' = true \/
  dentro p = true /\ mx' = None /\ dentro p' = false.

Lemma mutex_step ps mx n p p' mx' : mutex_ok ps mx -> ps !! n = Some p -> cambio n p p' mx mx' -> mutex_ok (<[n := p']> ps) mx'.
Proof.
  intros H Hp Hc k q Hq. pose proof (H _ _ Hp) as Hn.
  apply list_lookup_insert_Some in Hq as [(-> & <- & _)|[Hne Hq]].
  - destruct Hc as [[-> ->]|[(_ & -> & ->)|(_ & -> & ->)]]; [done|done|]. split; done.
  - pose proof (H _ _ Hq) as Hk. destruct Hc as [[_ ->]|[(-> & -> & _)|(Hd & -> & _)]]; [done| |].
    + split; [intros Hd; apply Hk in Hd; done|congruence].
    + split; [|done]. intros Hd'. apply Hk in Hd'. apply Hn in Hd. congruence.
Qed.

(** A step that leaves the words alone. *)
Lemma filas_same m n p w p' : filas m -> procs m !! n = Some p -> heap w = heap (wh m) -> items w = items (wh m) ->
  pc_ok p' -> match p' with WItems _ => False | _ => True end -> cambio n p p' (mutex (wh m)) (mutex w) ->
  filas (Mundo w (<[n := p']> (procs m))).
Proof.
  intros [H1 H2 H3 H4 H5] Hp Eh Ei Hok Hni Hc. constructor; cbn; rewrite ?Eh, ?Ei; [done|done| | |].
  - by apply (mutex_step _ (mutex (wh m)) _ p).
  - intros k v [(<- & -> & _)|[_ Hq]]%list_lookup_insert_Some; [done|by eapply H4].
  - intros k q [(<- & <- & _)|[_ Hq]]%list_lookup_insert_Some; [done|by eapply H5].
Qed.

(** Only one process is past the mutex. *)
Lemma filas_unico m n p k q : filas m -> procs m !! n = Some p -> dentro p = true -> procs m !! k = Some q -> dentro q = true -> k = n.
Proof.
  intros H Hp Hd Hq Hd'. apply (f_mutex _ H _ _ Hp) in Hd. apply (f_mutex _ H _ _ Hq) in Hd'. congruence.
Qed.

Lemma cuentas_items m : cuentas m -> 0 <= items (wh m) <= ITEMS /\
  (forall n p, procs m !! n = Some p -> va_a_poner p <= ITEMS - items (wh m)) /\ (forall n p, procs m !! n = Some p -> va_a_sacar p <= items (wh m)).
Proof.
  intros [H1 H2 H3 H4 H5].
  pose proof (total_nonneg va_a_poner (procs m) ltac:(by intros [])). pose proof (total_nonneg ha_sacado (procs m) ltac:(by intros [])).
  pose proof (total_nonneg va_a_sacar (procs m) ltac:(by intros [])). pose proof (total_nonneg ha_puesto (procs m) ltac:(by intros [])).
  split; [lia|]. split; intros n p Hp.
  - pose proof (total_elem va_a_poner _ _ _ ltac:(by intros []) Hp). lia.
  - pose proof (total_elem va_a_sacar _ _ _ ltac:(by intros []) Hp). lia.
Qed.

Lemma avanza_filas n m m' : cuentas m -> filas m -> avanza pila n m = Some m' -> filas m'.
Proof.
  intros Hc Hf (p & w & p' & Hp & E & ->)%avanza_Some. destruct (cuentas_items m Hc) as (Hi & Hpon & Hsac).
  specialize (Hpon _ _ Hp). specialize (Hsac _ _ Hp). pose proof (f_pc _ Hf _ _ Hp) as Hok. pose proof (f_mutex _ Hf _ _ Hp) as Hm.
  pose proof (fun k q => filas_unico m n p k q Hf Hp) as Hu.
  destruct p; cbn in E, Hpon, Hsac, Hok, Hm, Hu; repeat case_match; try done; injection E as <- <-.
  all: try (eapply filas_same; [done|exact Hp|done|done|done|done|]; unfold cambio; cbn; tauto).
  - destruct (strcpy_heap_row (heap (wh m)) (Z.to_nat (items (wh m))) w0) as (h & Eh & Hl & Hr & Ho);
      [apply (f_len _ Hf)|unfold ITEMS in *; lia|done|]. rewrite Z2Nat.id in Eh by lia. assert (l = h) as -> by congruence.
    pose proof Hf as [_ H2 H3 H4 H5]. constructor; cbn; [done| | | |].
    + intros k Hk. rewrite Ho by (unfold ITEMS in *; lia). by apply H2.
    + apply (mutex_step _ (mutex (wh m)) _ (WCopia w0)); [done|done|]. by left.
    + intros k v [(<- & [= ->] & _)|[Hne Hq]]%list_lookup_insert_Some; [done|]. by pose proof (Hu _ _ eq_refl Hq eq_refl).
    + intros k q [(<- & <- & _)|[_ Hq]]%list_lookup_insert_Some; [done|by eapply H5].
  - pose proof Hf as [H1 H2 H3 H4 H5]. constructor; cbn; [done| | | |].
    + intros k Hk. destruct (decide (Z.of_nat k = items (wh m))) as [E|]; [|apply H2; lia].
      replace k with (Z.to_nat (items (wh m))) by lia. eexists. by eapply H4.
    + apply (mutex_step _ (mutex (wh m)) _ (WItems w0)); [done|done|]. by left.
    + intros k v [(<- & [=] & _)|[Hne Hq]]%list_lookup_insert_Some. by pose proof (Hu _ _ eq_refl Hq eq_refl).
    + intros k q [(<- & <- & _)|[_ Hq]]%list_lookup_insert_Some; [done|by eapply H5].
  - pose proof Hf as [H1 H2 H3 H4 H5]. constructor; cbn; [done| | | |].
    + intros k Hk. apply H2. lia.
    + apply (mutex_step _ (mutex (wh m)) _ RItems); [done|done|]. by left.
    + intros k v [(<- & [=] & _)|[Hne Hq]]%list_lookup_insert_Some. by pose proof (Hu _ _ eq_refl Hq eq_refl).
    + intros k q [(<- & <- & _)|[_ Hq]]%list_lookup_insert_Some; [done|by eapply H5].
Qed.

(** ** The words of the stack *)

Lemma string_at_slice l k s : string_at (slice l k 50) = Some s -> string_at (drop k l) = Some s.
Proof.
  intros H. rewrite <- (take_drop 50 (drop k l)). by apply string_at_more.
Qed.

Lemma palabra_fila h k s : fila h k = Some s -> palabra h k = Some s.
Proof. apply string_at_slice. Qed.

(** The words, one for each row in use. *)
Lemma palabras_lookup w st : (forall k, Z.of_nat k < items w -> is_Some (fila (heap w) k)) -> 0 <= items w ->
  palabras w = Some st <-> Z.of_nat (length st) = items w /\ forall k s, st !! k = Some s -> fila (heap w) k = Some s.
Proof.
  intros Hr Hi. unfold palabras. rewrite mapM_Some, Forall2_lookup. split.
  - intros H. assert (length st = Z.to_nat (items w)) as Hl.
    { apply Forall2_lookup, Forall2_length in H. rewrite length_seq in H. lia. }
    split; [lia|]. intros k s Hk. pose proof (lookup_lt_Some _ _ _ Hk).
    specialize (H k). rewrite Hk, lookup_seq_lt in H by lia. inversion H as [x y Hxy|]; subst. cbn in Hxy.
    destruct (Hr k ltac:(lia)) as [s' Hs']. rewrite (palabra_fila _ _ _ Hs') in Hxy. congruence.
  - intros [Hl H] k. destruct (st !! k) as [s|] eqn:Hk.
    + pose proof (lookup_lt_Some _ _ _ Hk). rewrite lookup_seq_lt by lia. constructor. cbn. by apply palabra_fila, H.
    + apply lookup_ge_None in Hk. rewrite lookup_ge_None_2 by (rewrite length_seq; lia). constructor.
Qed.

Definition inicial (p : pc) : Prop := match p with WLibre w => word_ok w | RVacia | PVacia => True | _ => False end.

Lemma inicial_inv viejo ps : length viejo = 750%nat -> Forall inicial ps ->
  cuentas (Mundo (crear viejo) ps) /\ filas (Mundo (crear viejo) ps).
Proof.
  intros Hl Hps. rewrite Forall_forall in Hps. split.
  - constructor; cbn; rewrite ?total_zero; try done; intros x Hx; specialize (Hps x Hx); by destruct x.
  - constructor; cbn; try done; [lia|..].
    + intros n p Hp%list_elem_of_lookup_2. specialize (Hps _ Hp). by destruct p.
    + intros n w Hp%list_elem_of_lookup_2. by specialize (Hps _ Hp).
    + intros n p Hp%list_elem_of_lookup_2. specialize (Hps _ Hp). by destruct p.
Qed.

Lemma corre_pila ns : forall m m', cuentas m -> filas m -> corre pila ns m = Some m' -> cuentas m' /\ filas m'.
Proof.
  induction ns as [|n ns IH]; cbn; intros m m' Hc Hf; [by intros [= <-]|].
  destruct (avanza pila n m) as [m1|] eqn:E; [|done]. cbn. apply IH; [by eapply avanza_cuentas|by eapply avanza_filas].
Qed.

(** The stack of a state. *)
Lemma filas_palabras m : cuentas m -> filas m -> exists st, palabras (wh m) = Some st.
Proof.
  intros Hc Hf. destruct (cuentas_items m Hc) as [Hi _]. unfold palabras. apply mapM_is_Some, Forall_forall. intros k Hk%elem_of_seq.
  destruct (f_rows _ Hf k) as [s Hs]; [lia|]. exists s. by apply palabra_fila.
Qed.

(** What the step of a process does to the stack. *)
Definition efecto (p : pc) (st : list (list Z)) : option (list (list Z)) :=
  match p with
  | WItems w => Some (st ++ [w])
  | RItems => match st with [] => None | _ => Some (removelast st) end
  | _ => Some st
  end.

Lemma paso_no_falla m n p : cuentas m -> filas m -> procs m !! n = Some p -> paso pila n p (wh m) <> Falla.
Proof.
  intros Hc Hf Hp. destruct (cuentas_items m Hc) as (Hi & Hpon & _). specialize (Hpon _ _ Hp). pose proof (f_pc _ Hf _ _ Hp) as Hok.
  destruct p; cbn in *; repeat case_match; try done.
  - destruct (strcpy_heap_row (heap (wh m)) (Z.to_nat (items (wh m))) w) as (h & Eh & _);
      [apply (f_len _ Hf)|unfold ITEMS in *; lia|done|]. rewrite Z2Nat.id in Eh by lia. congruence.
  - destruct (filas_palabras m Hc Hf). congruence.
Qed.

Lemma removelast_take {A} (l : list A) : removelast l = take (length l - 1) l.
Proof.
  induction l as [|x [|y l] IH]; [done|done|]. change (removelast (x :: y :: l)) with (x :: removelast (y :: l)).
  rewrite IH. cbn [length]. by replace (S (S (length l)) - 1)%nat with (S (S (length l) - 1)) by lia.
Qed.

Lemma avanza_efecto n m m' p st : cuentas m -> filas m -> palabras (wh m) = Some st -> procs m !! n = Some p -> avanza pila n m = Some m' ->
  palabras (wh m') = efecto p st.
Proof.
  intros Hc Hf Hst Hp E. pose proof (avanza_cuentas _ _ _ Hc E) as Hc'. pose proof (avanza_filas _ _ _ Hc Hf E) as Hf'.
  destruct (cuentas_items _ Hc) as (Hi & Hpon & Hsac). destruct (cuentas_items _ Hc') as (Hi' & _).
  specialize (Hpon _ _ Hp). specialize (Hsac _ _ Hp). pose proof (f_pc _ Hf _ _ Hp) as Hok.
  pose proof (f_rows _ Hf') as Hr'. pose proof (proj1 (palabras_lookup _ _ (f_rows _ Hf) (proj1 Hi)) Hst) as [Hl Hst'].
  apply avanza_Some in E as (p0 & w & p' & Hp0 & E & ->). assert (p0 = p) as -> by congruence. cbn in Hr', Hi'.
  destruct p; cbn in E, Hpon, Hsac, Hok; repeat case_match; try done; injection E as <- <-; cbn [efecto]; try exact Hst.
  - destruct (strcpy_heap_row (heap (wh m)) (Z.to_nat (items (wh m))) w0) as (h & Eh & _ & _ & Ho);
      [apply (f_len _ Hf)|unfold ITEMS in *; lia|done|]. rewrite Z2Nat.id in Eh by lia. assert (l = h) as -> by congruence.
    apply palabras_lookup; [done|apply Hi'|]. split; [done|]. intros k s Hk. pose proof (lookup_lt_Some _ _ _ Hk). cbn.
    rewrite Ho by (unfold ITEMS in *; lia). by apply Hst'.
  - apply palabras_lookup; [done|apply Hi'|]. cbn. split; [rewrite length_app; cbn; lia|].
    intros k s [Hk|[Hk Hs]]%lookup_app_Some; [by apply Hst'|]. apply list_lookup_singleton_Some in Hs as [Hk0 <-].
    replace k with (Z.to_nat (items (wh m))) by lia. by apply (f_item _ Hf _ _ Hp).
  - destruct st as [|s0 st0] eqn:Est; [cbn in Hl; lia|]. rewrite <- Est in *. apply palabras_lookup; [done|apply Hi'|]. cbn.
    rewrite removelast_take. split; [rewrite length_take; lia|]. intros k s [Hk _]%lookup_take_Some. by apply Hst'.
  - cbn [wh]. congruence.
Qed.
End Pila.

(** C32. The stack of words, under every interleaving of processes that push words
    of less than 50 characters, pop and print: it always has between 0 and 15
    words, no process leaves its rows, and each step is either the push of the word
    of a writer, the pop of a reader on a stack that is not empty, or leaves the
    stack as it was. *)
Theorem wordheap_pila pila viejo ps ns m : length viejo = 750%nat -> Forall inicial ps ->
  corre pila ns (Mundo (crear viejo) ps) = Some m ->
  0 <= items (wh m) <= ITEMS /\ (forall n p, procs m !! n = Some p -> paso pila n p (wh m) <> Falla) /\
  exists st, palabras (wh m) = Some st /\
    forall n p m', procs m !! n = Some p -> avanza pila n m = Some m' -> palabras (wh m') = efecto p st.
Proof.
  intros Hl Hps E. destruct (inicial_inv viejo ps Hl Hps) as [Hc0 Hf0]. destruct (corre_pila _ _ _ _ Hc0 Hf0 E) as [Hc Hf].
  split; [apply (cuentas_items _ Hc)|]. split; [intros n p; by apply paso_no_falla|].
  destruct (filas_palabras m Hc Hf) as [st Hst]. exists st. split; [done|]. intros n p m' Hp Ha. by eapply avanza_efecto.
Qed.

Definition demo_procs : list pc := [WLibre (bytes_of "hola"); WLibre (bytes_of "mundo"); RVacia].
Definition demo_turnos : list nat := [0; 0; 1; 1; 1; 1; 1; 1; 1; 1; 0; 0; 2; 2]%nat.

Lemma wordheap_pila_witness : exists m, corre "p" demo_turnos (Mundo (crear (replicate 750 0)) demo_procs) = Some m /\
  0 <= items (wh m) <= ITEMS /\ palabras (wh m) = Some [bytes_of "mundo"].
Proof.
  destruct (corre "p" demo_turnos (Mundo (crear (replicate 750 0)) demo_procs)) as [m|] eqn:E; [|vm_compute in E; discriminate].
  assert (Forall inicial demo_procs) as Hps.
  { unfold demo_procs. constructor; [|constructor; [|constructor; [exact I|constructor]]].
    all: split; [vm_compute; reflexivity|]. all: apply (bool_decide_unpack _); vm_compute; exact I. }
  exists m. split; [reflexivity|]. destruct (wordheap_pila "p" (replicate 750 0) demo_procs demo_turnos m) as (H1 & _ & _);
    [reflexivity|exact Hps|exact E|]. split; [exact H1|]. vm_compute in E. injection E as <-. vm_compute. reflexivity.
Defined.

(** The length of a word is not checked: 60 characters in row 0 run into row 1, and the
    next word cuts the first one; in the last row they run over the mutex. *)
Lemma palabra_larga : let w := replicate 60 97 in
  (exists h, strcpy_heap 0 w (replicate 750 0) = Some h /\ strcpy_heap 1 [98] h = Some (blit h 50 [98; 0]) /\
    palabra h 0 = Some w /\ palabra (blit h 50 [98; 0]) 0 = Some (replicate 50 97 ++ [98])) /\
  paso "p" 0 (WCopia w) (Wh 0 14 50 (replicate 750 0) (Some O) 14 0) = Falla.
Proof. cbv zeta. split; [eexists; split; [reflexivity|]; repeat split|]; vm_compute; reflexivity. Qed.

(** The heap has 15 rows, and [free] starts at 14: with 14 words the next writer is
    told that the stack is full. *)
Lemma llena_con_catorce :
  let ps := replicate 15 (WLibre (bytes_of "w")) in
  exists m, corre "p" (concat (map (fun k => replicate 8 k) (seq 0 14)) ++ [14%nat]) (Mundo (crear (replicate 750 0)) ps) = Some m /\
    items (wh m) = 14 /\ procs m !! 14%nat = Some (Fin [bytes_of "Pila llena."]).
Proof. eexists. split; [vm_compute; reflexivity|]. split; reflexivity. Qed.
