(* ===== verification/Canvas.v ===== *)
(** The shared canvas of lab-05/canvas.c: 25 rows of 25 characters in a shared
    memory object, on which the program writes messages, horizontally or
    vertically, and which it prints. *)

From stdpp Require Import pretty.
From S2P Require Import Prelude Libc.

Definition HEIGHT : Z := 25.
Definition WIDTH : Z := 25.

(** Additions of an [int] that is not negative and a [size_t]. *)
Definition u64 (n : Z) : Z := n mod 2 ^ 64.

(** The shared memory objects by name. *)
Abbreviation store := (gmap string (list Z)).

(** How a run ends: with a status, what it printed and its messages, or with a
    null pointer or an index out of bounds. *)
Inductive fin := Sale (ok : bool) (out err : list string) (st : store) | Falla.

Definition usage (argv0 : string) : list string :=
  ["Uso: " +:+ argv0 +:+ " comando parametro"; "Comandos:";
   "	-w canvas mensaje x y [h|v]: escribe el mensaje en el canvas indicado en la posición (x,y) de manera [h]orizontal o [v]ertical.";
   "	-p canvas: imprime el canvas indicado.";
   "	-c canvas: crea un canvas con el nombre indicado.";
   "	-d canvas: elimina el canvas indicado.";
   "	-h imprime este mensaje."].

(** [canvas->canvas[i] = c] *)
Definition poner (i c : Z) (cv : list Z) : option (list Z) :=
  if (i <? 0) || (Z.of_nat (length cv) <=? i) then None else Some (<[Z.to_nat i := c]> cv).

(** The loops over the message: the cell of character [i] is [pos i]. *)
Fixpoint poner_todos (pos : Z -> Z) (m : list Z) (i : Z) (cv : list Z) : option (list Z) :=
  match m with
  | [] => Some cv
  | c :: m => cv ← poner (pos i) c cv; poner_todos pos m (i + 1) cv
  end.

(** The writing of [-w], with its message when it is out of range. *)
Definition escribe (m : list Z) (x y : Z) (dir : Z) (cv : list Z) : option (list Z * list string) :=
  let len := Z.of_nat (length m) in
  let fuera := Some (cv, ["Error: coordenadas fuera de rango."]) in
  if dir =? 104 then
    if (0 <=? x) && (x <? HEIGHT) && (0 <=? y) && (u64 (y + len) <=? WIDTH)
    then cv ← poner_todos (fun i => x * WIDTH + y + i) m 0 cv; Some (cv, [])
    else fuera
  else if dir =? 118 then
    if (0 <=? x) && (u64 (x + len) <? HEIGHT) && (0 <=? y) && (y <? WIDTH)
    then cv ← poner_todos (fun i => (x + i) * WIDTH + y) m 0 cv; Some (cv, [])
    else fuera
  else Some (cv, ["Error: dirección desconocida '" +:+ String (Ascii.ascii_of_nat (Z.to_nat dir)) EmptyString +:+
         "'. Use 'h' para horizontal o 'v' para vertical."]).

(** The rows that [-p] prints. *)
Definition filas (cv : list Z) : list (list Z) :=
  map (fun i => slice cv (i * Z.to_nat WIDTH) (Z.to_nat WIDTH)) (seq 0 (Z.to_nat HEIGHT)).

Definition texto (l : list Z) : string := fold_right (fun c s => String (Ascii.ascii_of_nat (Z.to_nat c)) s) EmptyString l.

Definition main (argv : list string) (st : store) : fin :=
  let argc := length argv in
  let uso := Sale false [] (usage (default EmptyString (head argv))) st in
  match argv with
  | argv0 :: opt :: args =>
      match bytes_of opt with
      | 45 :: o =>
          match default 0 (head o) with
          | 119 =>
              match args with
              | nombre :: mensaje :: ax :: ay :: resto =>
                  let out := ["Escribe " +:+ mensaje +:+ " en el canvas " +:+ nombre +:+ " en la posición (" +:+
                    pretty (atoi ax) +:+ ", " +:+ pretty (atoi ay) +:+ ")."] in
                  if negb (argc =? 7)%nat then Sale false out (usage argv0) st else
                  match st !! nombre with
                  | None => Sale false out ["shm_open"] st
                  | Some cv =>
                      match escribe (bytes_of mensaje) (atoi ax) (atoi ay) (default 0 (head (bytes_of (default EmptyString (head resto))))) cv with
                      | Some (cv, err) => Sale true out err (<[nombre := cv]> st)
                      | None => Falla
                      end
                  end
              | _ => Falla
              end
          | 112 =>
              match args with
              | [nombre] =>
                  match st !! nombre with
                  | None => Sale false ["Imprime canvas."] ["shm_open"] st
                  | Some cv => Sale true ("Imprime canvas." :: map texto (filas cv)) [] st
                  end
              | _ => Sale false ["Imprime canvas."] (usage argv0) st
              end
          | 99 =>
              match args with
              | [nombre] => Sale true ["Crea canvas."] [] (<[nombre := replicate (Z.to_nat (HEIGHT * WIDTH)) 32]> st)
              | _ => Sale false ["Crea canvas."] (usage argv0) st
              end
          | 100 =>
              match args with
              | [nombre] => if decide (is_Some (st !! nombre)) then Sale true ["Borra canvas."] [] (delete nombre st)
                            else Sale false ["Borra canvas."] ["shm_unlink"] st
              | _ => Sale false ["Borra canvas."] (usage argv0) st
              end
          | 104 => Sale true [] (usage argv0) st
          | _ => Sale false [] ["Comando desconocido"] st
          end
      | _ => uso
      end
  | _ => uso
  end.

(** ** What [-w] writes *)

Lemma poner_todos_spec pos m : forall i cv, (forall k, i <= k < i + Z.of_nat (length m) -> 0 <= pos k < Z.of_nat (length cv)) ->
  (forall j k, i <= j < k -> k < i + Z.of_nat (length m) -> pos j <> pos k) ->
  exists cv', poner_todos pos m i cv = Some cv' /\ length cv' = length cv /\
    (forall k c, m !! k = Some c -> cv' !! Z.to_nat (pos (i + Z.of_nat k)) = Some c) /\
    (forall n, (forall k, i <= k < i + Z.of_nat (length m) -> pos k <> Z.of_nat n) -> cv' !! n = cv !! n).
Proof.
  induction m as [|c m IH]; intros i cv Hin Hinj; cbn [poner_todos length] in *; [by exists cv|].
  pose proof (Hin i ltac:(lia)). unfold poner. rewrite (proj2 (orb_false_iff _ _)) by (split; [apply Z.ltb_ge|apply Z.leb_gt]; lia). cbn.
  destruct (IH (i + 1) (<[Z.to_nat (pos i) := c]> cv)) as (cv' & E & Hl & Hm & Ho).
  { intros k Hk. rewrite length_insert. apply Hin. lia. }
  { intros j k Hj Hk. apply Hinj; lia. }
  exists cv'. split; [done|]. split; [by rewrite Hl, length_insert|]. split.
  - intros [|k] x Hk; cbn in Hk.
    + injection Hk as ->. rewrite Z.add_0_r, Ho, list_lookup_insert_eq; [done|lia|]. intros k Hk.
      rewrite Z2Nat.id by lia. apply not_eq_sym, Hinj; lia.
    + rewrite <- (Hm _ _ Hk). do 3 f_equal. lia.
  - intros n Hn. rewrite Ho by (intros k Hk; apply Hn; lia). apply list_lookup_insert_ne. pose proof (Hn i ltac:(lia)). lia.
Qed.

(** Whether the message fits, as the program tests it, and the character that it
    puts in column [c] of row [r]. *)
Definition cabe (m : list Z) (x y dir : Z) : bool :=
  let len := Z.of_nat (length m) in
  if dir =? 104 then (0 <=? x) && (x <? HEIGHT) && (0 <=? y) && (y + len <=? WIDTH)
  else if dir =? 118 then (0 <=? x) && (x + len <? HEIGHT) && (0 <=? y) && (y <? WIDTH)
  else false.

Definition caracter (m : list Z) (x y dir r c : Z) : option Z :=
  if dir =? 104 then if (r =? x) && (y <=? c) then m !! Z.to_nat (c - y) else None
  else if (c =? y) && (x <=? r) then m !! Z.to_nat (r - x) else None.

Lemma u64_small n : 0 <= n < 2 ^ 64 -> u64 n = n.
Proof. apply Z.mod_small. Qed.

(** A message whose character [k] is in the cell of row [rk k] and column [ck k]. *)
Lemma poner_celda rk ck m cv : length cv = 625%nat ->
  (forall k, 0 <= k < Z.of_nat (length m) -> 0 <= rk k < HEIGHT /\ 0 <= ck k < WIDTH) ->
  (forall j k, 0 <= j < k -> rk j <> rk k \/ ck j <> ck k) ->
  exists cv', poner_todos (fun k => rk k * WIDTH + ck k) m 0 cv = Some cv' /\ length cv' = 625%nat /\
    (forall k c, m !! k = Some c -> cv' !! Z.to_nat (rk (Z.of_nat k) * WIDTH + ck (Z.of_nat k)) = Some c) /\
    (forall r c, 0 <= r < HEIGHT -> 0 <= c < WIDTH -> (forall k, 0 <= k < Z.of_nat (length m) -> rk k <> r \/ ck k <> c) ->
      cv' !! Z.to_nat (r * WIDTH + c) = cv !! Z.to_nat (r * WIDTH + c)).
Proof.
  intros Hl Hin Hinj. unfold HEIGHT, WIDTH in *.
  destruct (poner_todos_spec (fun k => rk k * 25 + ck k) m 0 cv) as (cv' & E & Hl' & Hm & Ho).
  - intros k Hk. destruct (Hin k ltac:(lia)). lia.
  - intros j k Hj Hk. destruct (Hin j ltac:(lia)), (Hin k ltac:(lia)). destruct (Hinj j k Hj); lia.
  - exists cv'. split; [done|]. split; [lia|]. split; [apply Hm|]. intros r c Hr Hc Hne. apply Ho. intros k Hk.
    destruct (Hin k ltac:(lia)). destruct (Hne k ltac:(lia)); lia.
Qed.

(** What is in a cell after the writing. *)
Definition despues (m : list Z) (x y dir r c : Z) (viejo : option Z) : option Z :=
  if cabe m x y dir then match caracter m x y dir r c with Some a => Some a | None => viejo end else viejo.

Definition escrito (m : list Z) (x y dir : Z) (cv cv' : list Z) : Prop :=
  length cv' = 625%nat /\ forall r c, 0 <= r < HEIGHT -> 0 <= c < WIDTH ->
    cv' !! Z.to_nat (r * WIDTH + c) = despues m x y dir r c (cv !! Z.to_nat (r * WIDTH + c)).

Lemma escribe_h m x y cv : length cv = 625%nat -> cabe m x y 104 = true ->
  exists cv', poner_todos (fun i => x * WIDTH + y + i) m 0 cv = Some cv' /\ escrito m x y 104 cv cv'.
Proof.
  intros Hl Hc. unfold escrito, despues. rewrite Hc. unfold cabe in Hc. cbn in Hc. rewrite !andb_true_iff in Hc.
  destruct (poner_celda (fun _ => x) (fun i => y + i) m cv Hl) as (cv' & E & Hl' & Hm & Ho); [intros; lia..|].
  cbv beta in *.
  assert (poner_todos (fun i => x * WIDTH + y + i) m 0 cv = Some cv') as E'.
  { rewrite <- E. clear -E. generalize 0. clear. revert cv. induction m as [|c m IH]; intros cv i; cbn [poner_todos]; [done|].
    rewrite Z.add_assoc. destruct poner; cbn; [apply IH|done]. }
  exists cv'. split; [done|]. split; [done|]. intros r c Hr Hcc. unfold caracter. cbn [Z.eqb Pos.eqb].
  destruct (Z.eqb_spec r x) as [->|Hne]; cbn; [|apply Ho; [done|done|intros; lia]].
  destruct (Z.leb_spec y c); [|apply Ho; [done|done|intros; lia]].
  destruct (m !! Z.to_nat (c - y)) as [a|] eqn:Ea.
  - rewrite <- (Hm _ _ Ea). do 2 f_equal. lia.
  - apply lookup_ge_None in Ea. apply Ho; [done|done|intros; lia].
Qed.

Lemma escribe_v m x y cv : length cv = 625%nat -> cabe m x y 118 = true ->
  exists cv', poner_todos (fun i => (x + i) * WIDTH + y) m 0 cv = Some cv' /\ escrito m x y 118 cv cv'.
Proof.
  intros Hl Hc. unfold escrito, despues. rewrite Hc. unfold cabe in Hc. cbn in Hc. rewrite !andb_true_iff in Hc.
  destruct (poner_celda (fun i => x + i) (fun _ => y) m cv Hl) as (cv' & E & Hl' & Hm & Ho); [intros; lia..|].
  cbv beta in *.
  exists cv'. split; [done|]. split; [done|]. intros r c Hr Hcc. unfold caracter. cbn [Z.eqb Pos.eqb].
  destruct (Z.eqb_spec c y) as [->|Hne]; cbn; [|apply Ho; [done|done|intros; lia]].
  destruct (Z.leb_spec x r); [|apply Ho; [done|done|intros; lia]].
  destruct (m !! Z.to_nat (r - x)) as [a|] eqn:Ea.
  - rewrite <- (Hm _ _ Ea). do 2 f_equal. unfold WIDTH. lia.
  - apply lookup_ge_None in Ea. apply Ho; [done|done|intros; lia].
Qed.

Lemma escribe_spec m x y dir cv : length cv = 625%nat -> -2 ^ 31 <= x < 2 ^ 31 -> -2 ^ 31 <= y < 2 ^ 31 -> Z.of_nat (length m) < 2 ^ 32 ->
  exists cv' err, escribe m x y dir cv = Some (cv', err) /\ escrito m x y dir cv cv'.
Proof.
  intros Hl Hx Hy Hm.
  assert (cabe m x y dir = false -> escrito m x y dir cv cv) as Hno by (intros E; split; [done|]; unfold despues; by rewrite E).
  unfold escribe. destruct (Z.eqb_spec dir 104) as [->|Hd]; [|destruct (Z.eqb_spec dir 118) as [->|Hd2]].
  - assert ((0 <=? x) && (x <? HEIGHT) && (0 <=? y) && (u64 (y + Z.of_nat (length m)) <=? WIDTH) = cabe m x y 104) as ->.
    { unfold cabe. cbn. destruct (Z.leb_spec 0 y); [by rewrite u64_small by lia|]. by rewrite !andb_false_r. }
    destruct (cabe m x y 104) eqn:Hc; [|by eexists _, _; split; [done|apply Hno]].
    destruct (escribe_h m x y cv Hl Hc) as (cv' & E & H). rewrite E. by eexists _, _.
  - assert ((0 <=? x) && (u64 (x + Z.of_nat (length m)) <? HEIGHT) && (0 <=? y) && (y <? WIDTH) = cabe m x y 118) as ->.
    { unfold cabe. cbn. destruct (Z.leb_spec 0 x); [by rewrite u64_small by lia|done]. }
    destruct (cabe m x y 118) eqn:Hc; [|by eexists _, _; split; [done|apply Hno]].
    destruct (escribe_v m x y cv Hl Hc) as (cv' & E & H). rewrite E. by eexists _, _.
  - eexists _, _. split; [done|]. apply Hno. unfold cabe. by rewrite !(proj2 (Z.eqb_neq _ _)).
Qed.

Lemma atoi_range s : -2 ^ 31 <= atoi s < 2 ^ 31.
Proof. unfold atoi, i32. pose proof (Z.mod_pos_bound (strtol (bytes_of s) + 2 ^ 31) (2 ^ 32) ltac:(lia)). lia. Qed.

(** [canvas -w] puts the message in the cells of a row (h) or of a column (v)
    from the coordinates given, when it fits, leaves every other cell and every
    other canvas as it was, and leaves them all as they were when it does not fit;
    no character is written outside of the canvas. *)
Theorem canvas_escribe st prog nombre mensaje ax ay d dir cv : st !! nombre = Some cv -> length cv = 625%nat ->
  Z.of_nat (length (bytes_of mensaje)) < 2 ^ 32 -> bytes_of d = [dir] ->
  exists out err cv', main [prog; "-w"; nombre; mensaje; ax; ay; d] st = Sale true out err (<[nombre := cv']> st) /\
    length cv' = 625%nat /\ forall r c, 0 <= r < HEIGHT -> 0 <= c < WIDTH ->
      cv' !! Z.to_nat (r * WIDTH + c) = despues (bytes_of mensaje) (atoi ax) (atoi ay) dir r c (cv !! Z.to_nat (r * WIDTH + c)).
Proof.
  intros Hst Hl Hm Hd.
  destruct (escribe_spec (bytes_of mensaje) (atoi ax) (atoi ay) dir cv Hl (atoi_range ax) (atoi_range ay) Hm) as (cv' & err & E & H1 & H2).
  eexists _, err, cv'. split; [|done]. cbn [main length Nat.eqb negb]. change (bytes_of "-w") with [45; 119]. cbn [head default].
  rewrite Hst. unfold id. rewrite Hd. cbn [head default]. unfold id. by rewrite E.
Qed.

Definition demo_canvas : list Z := replicate 625 32.

Lemma canvas_escribe_witness : exists out err cv',
  main ["./canvas"; "-w"; "c"; "hola"; "2"; "3"; "v"] {["c" := demo_canvas]} = Sale true out err (<["c" := cv']> {["c" := demo_canvas]}) /\
  cv' !! Z.to_nat (4 * WIDTH + 3) = Some 108.
Proof.
  destruct (canvas_escribe {["c" := demo_canvas]} "./canvas" "c" "hola" "2" "3" "v" 118 demo_canvas) as (out & err & cv' & E & _ & H);
    [reflexivity|reflexivity|reflexivity|reflexivity|].
  exists out, err, cv'. split; [exact E|]. rewrite (H 4 3); [vm_compute; reflexivity|unfold HEIGHT; lia|unfold WIDTH; lia].
Defined.

(** The two directions do not agree on the last cell: a message can reach the last
    column, but not the last row. *)
Lemma canvas_ultima_fila : cabe (bytes_of "hola") 0 21 104 = true /\ cabe (bytes_of "hola") 21 0 118 = false.
Proof. done. Qed.

(** With less arguments than it needs, [-w] uses null pointers before it checks
    their number. *)
Lemma canvas_w_sin_argumentos : main ["./canvas"; "-w"; "c"; "hola"] ∅ = Falla.
Proof. done. Qed.
