(* ===== verification/Msgbox.v ===== *)
(** The message queues of lab-05/msgbox.c.

    The queues of the system are named lists of messages of at most [mq_maxmsg]
    messages each; a program that sends to a full queue, or receives from an empty
    one, waits. *)

From stdpp Require Import pretty.
From S2P Require Import Prelude Libc.

Definition USERNAME_MAXSIZE : Z := 15.
Definition TXT_SIZE : Z := 100.

(** [sender] and [text] up to their end; the bytes of [sender] after it are the
    ones that were on the stack, and nobody reads them. *)
Record msg := Msg { sender : list Z; text : list Z }.

Record mqueue := Mq { mq_maxmsg : Z; mq_msgsize : Z; msgs : list msg }.
#[export] Instance mqueue_set : Settable mqueue := fun r => Mq (mq_maxmsg r) (mq_msgsize r) (msgs r).

Abbreviation queues := (gmap string mqueue).

(** How a run ends, or that it waits, with its output and the queues. *)
Inductive fin := Sale (ok : bool) (out : list (list Z)) (err : list string) (q : queues) | Bloquea (out : list (list Z)) (q : queues).

Definition SIZEOF_MSG : Z := USERNAME_MAXSIZE + TXT_SIZE.

Definition usage (argv0 : string) : list string :=
  ["Uso: " +:+ argv0 +:+ " comando parametro"; "Comandos:"; "	-s queue mensaje: escribe el mensaje en queue.";
   "	-r queue: imprime el primer mensaje en queue."; "	-a queue: imprime todos los mensaje en queue.";
   "	-l queue: vigila por mensajes en queue."; "	-c queue: crea una cola de mensaje queue.";
   "	-d queue: elimina la cola de mensajes queue."; "	-h imprime este mensaje."].

(** [printf("%s: %s\n", msg.sender, msg.text)] *)
Definition linea (m : msg) : list Z := sender m ++ bytes_of ": " ++ text m.

(** [mq_open] with [O_CREAT] keeps a queue that exists. *)
Definition crearColaMensaje (name : string) (out : list (list Z)) (q : queues) : fin :=
  match q !! name with
  | Some _ => Sale true out [] q
  | None => Sale true out [] (<[name := Mq 10 SIZEOF_MSG []]> q)
  end.

(** [login] is what [getlogin_r] finds; it fails when the name and its end do not
    fit in the sender's field. *)
Definition enviarMensaje (login : option (list Z)) (colaNombre : string) (mensaje : list Z) (out : list (list Z)) (q : queues) : fin :=
  match q !! colaNombre with
  | None => Sale false out ["mq_open"] q
  | Some cola =>
      match login with
      | None => Sale false out ["getlogin_r"] q
      | Some user =>
          if USERNAME_MAXSIZE <=? Z.of_nat (length user) then Sale false out ["getlogin_r"] q else
          let m := Msg user (take (Z.to_nat (TXT_SIZE - 1)) mensaje) in
          if mq_msgsize cola <? SIZEOF_MSG then Sale false out ["mq_send"] q else
          if mq_maxmsg cola <=? Z.of_nat (length (msgs cola)) then Bloquea out q
          else Sale true out [] (<[colaNombre := cola <| msgs ::= fun l => l ++ [m] |>]> q)
      end
  end.

Definition recibirMensaje (colaNombre : string) (out : list (list Z)) (q : queues) : fin :=
  match q !! colaNombre with
  | None => Sale false out ["mq_open"] q
  | Some cola =>
      if SIZEOF_MSG <? mq_msgsize cola then Sale false out ["mq_receive"] q else
      match msgs cola with
      | [] => Bloquea out q
      | m :: l => Sale true (out ++ [linea m]) [] (<[colaNombre := cola <| msgs := l |>]> q)
      end
  end.

Definition eliminarColaMensaje (colaNombre : string) (out : list (list Z)) (q : queues) : fin :=
  match q !! colaNombre with
  | None => Sale false out ["mq_unlink"] q
  | Some _ => Sale true out [] (delete colaNombre q)
  end.

(** The loop over the messages that there were at the start. *)
Fixpoint recibirVarios (n : nat) (cola : mqueue) (out : list (list Z)) : option (mqueue * list (list Z)) :=
  match n with
  | O => Some (cola, out)
  | S n => match msgs cola with [] => None | m :: l => recibirVarios n (cola <| msgs := l |>) (out ++ [linea m]) end
  end.

Definition imrimirTodosLosMensajes (colaNombre : string) (out : list (list Z)) (q : queues) : fin :=
  match q !! colaNombre with
  | None => Sale false out ["mq_open"] q
  | Some cola =>
      match recibirVarios (length (msgs cola)) cola out with
      | Some (cola, out) => Sale true out [] (<[colaNombre := cola]> q)
      | None => Bloquea out q
      end
  end.

Definition infoColaMensajes (colaNombre : string) (out : list (list Z)) (q : queues) : fin :=
  match q !! colaNombre with
  | None => Sale false out ["mq_open"] q
  | Some cola =>
      Sale true (out ++ [bytes_of ("Cantidad maxima de mensajes admitidos: " +:+ pretty (mq_maxmsg cola));
        bytes_of ("Tamanio maximo del mensaje: " +:+ pretty (mq_msgsize cola));
        bytes_of ("Cantidad actual de mensajes: " +:+ pretty (length (msgs cola)))]) [] q
  end.

(** It prints what is there and waits for more. *)
Definition escuchaActivaCola (colaNombre : string) (out : list (list Z)) (q : queues) : fin :=
  match q !! colaNombre with
  | None => Sale false out ["mq_open"] q
  | Some cola =>
      if SIZEOF_MSG <? mq_msgsize cola then Sale false out ["mq_receive"] q else
      Bloquea (out ++ map linea (msgs cola)) (<[colaNombre := cola <| msgs := [] |>]> q)
  end.

Definition main (login : option (list Z)) (argv : list string) (q : queues) : fin :=
  let uso := Sale false [] (usage (default EmptyString (head argv))) q in
  match argv with
  | argv0 :: opt :: cola :: args =>
      match bytes_of opt with
      | 45 :: o =>
          match default 0 (head o) with
          | 115 => match args with mensaje :: _ => enviarMensaje login cola (bytes_of mensaje) [] q | [] => uso end
          | 114 => recibirMensaje cola [bytes_of ("Recibe el primer mensaje en " +:+ cola)] q
          | 97 => imrimirTodosLosMensajes cola [bytes_of ("Imprimer todos los mensajes en " +:+ cola)] q
          | 108 => escuchaActivaCola cola [bytes_of "Escucha indefinidamente por mensajes"] q
          | 99 => crearColaMensaje cola [] q
          | 100 => eliminarColaMensaje cola [bytes_of ("Borra la cola de mensajes " +:+ cola)] q
          | 104 => Sale true [] (usage argv0) q
          | 105 => infoColaMensajes cola [bytes_of ("Información de la cola de mensajes " +:+ cola)] q
          | _ => Sale false [] ["Comando desconocido: " +:+ opt] q
          end
      | _ => uso
      end
  | _ => uso
  end.

(** ** Messages arrive in order *)

Lemma recibirVarios_all l : forall c out, msgs c = l -> recibirVarios (length l) c out = Some (c <| msgs := [] |>, out ++ map linea l).
Proof.
  induction l as [|m l IH]; intros c out E; cbn.
  - rewrite app_nil_r. destruct c; cbn in *; by subst.
  - rewrite E, IH by done. by rewrite <- app_assoc.
Qed.

(** Sends of several messages, one run of the program each. *)
Fixpoint enviar_todos (user : list Z) (cola : string) (ms : list (list Z)) (q : queues) : option queues :=
  match ms with
  | [] => Some q
  | m :: ms => match enviarMensaje (Some user) cola m [] q with Sale true _ _ q => enviar_todos user cola ms q | _ => None end
  end.

Lemma enviar_todos_run user cola ms : forall q c, q !! cola = Some c -> Z.of_nat (length user) < USERNAME_MAXSIZE -> mq_msgsize c = SIZEOF_MSG ->
  Z.of_nat (length (msgs c) + length ms) <= mq_maxmsg c ->
  enviar_todos user cola ms q = Some (<[cola := c <| msgs ::= fun l => l ++ map (fun m => Msg user (take 99 m)) ms |>]> q).
Proof.
  induction ms as [|m ms IH]; intros q c Hq Hu Hs Hl; cbn [enviar_todos length map] in *.
  - rewrite insert_id; [done|]. rewrite Hq. destruct c. unfold setter. cbn. by rewrite app_nil_r.
  - unfold enviarMensaje. rewrite Hq, (proj2 (Z.leb_gt _ _)), Hs, Z.ltb_irrefl, (proj2 (Z.leb_gt _ _)) by lia.
    rewrite (IH _ (c <| msgs ::= fun l => l ++ [Msg user (take 99 m)] |>)); cbn; try done.
    + rewrite insert_insert_eq. do 2 f_equal. unfold setter. cbn. by rewrite <- app_assoc.
    + by rewrite lookup_insert_eq.
    + rewrite length_app. cbn. lia.
Qed.

(** [msgbox -a] prints the messages that were sent to a new queue in the order in
    which they were sent, each one cut to 99 characters after its sender, and empties
    the queue. *)
Theorem msgbox_fifo user cola ms q : q !! cola = None -> Z.of_nat (length user) < USERNAME_MAXSIZE -> (length ms <= 10)%nat ->
  exists q1 q2 q3, crearColaMensaje cola [] q = Sale true [] [] q1 /\ enviar_todos user cola ms q1 = Some q2 /\
    imrimirTodosLosMensajes cola [] q2 = Sale true (map (fun m => user ++ bytes_of ": " ++ take 99 m) ms) [] q3 /\
    q3 !! cola = Some (Mq 10 SIZEOF_MSG []).
Proof.
  intros Hq Hu Hm. unfold crearColaMensaje. rewrite Hq. eexists _, _, _. split; [done|].
  split; [apply enviar_todos_run; [apply lookup_insert_eq|done|done|cbn; lia]|].
  unfold imrimirTodosLosMensajes. rewrite lookup_insert_eq. cbn [msgs]. rewrite recibirVarios_all by done. cbn.
  rewrite map_map. split; [done|]. by rewrite lookup_insert_eq.
Qed.
