(* ===== verification/Printf.v ===== *)
(** The formatted output of user programs, printf.c: what [printf] writes to its
    file descriptor, one byte at a time. *)

From S2P Require Import Prelude Libc.

(** A variadic argument: a number, or a string ([None] is a null pointer). *)
Inductive varg := Vint (v : Z) | Vstr (s : option (list Z)).

Definition hexdigits : list Z := bytes_of "0123456789ABCDEF".

(** The loop that divides, least significant digit first. *)
Fixpoint digit_values (fuel : nat) (x base : Z) : option (list Z) :=
  match fuel with
  | O => None
  | S fuel =>
      let d := x mod base in
      let x := x / base in
      if negb (x =? 0) then l ← digit_values fuel x base; Some (d :: l) else Some [d]
  end.

(** [buf] has 16 cells, for the digits and the sign. *)
Definition printint (xx base : Z) (sgn : bool) : option (list Z) :=
  let neg := sgn && (xx <? 0) in
  let x := if neg then u32 (- xx) else u32 xx in
  ds ← digit_values 16 x base;
  l ← mapM (fun d => hexdigits !! Z.to_nat d) ds;
  let buf := if neg then l ++ [45] else l in
  if (16 <? length buf)%nat then None else Some (rev buf).

(** The loop over the format, with the [state] of the code: whether the last
    character was a percent sign. *)
Fixpoint printf_loop (fmt : list Z) (args : list varg) (state : bool) : option (list Z) :=
  match fmt with
  | [] => Some []
  | c :: fmt =>
      if negb state then
        if c =? 37 then printf_loop fmt args true
        else l ← printf_loop fmt args false; Some (c :: l)
      else
        if c =? 100 then
          match args with
          | Vint v :: args => d ← printint (i32 v) 10 true; l ← printf_loop fmt args false; Some (d ++ l)
          | _ => None
          end
        else if (c =? 120) || (c =? 112) then
          match args with
          | Vint v :: args => d ← printint (i32 v) 16 false; l ← printf_loop fmt args false; Some (d ++ l)
          | _ => None
          end
        else if c =? 115 then
          match args with
          | Vstr s :: args => l ← printf_loop fmt args false; Some (default (bytes_of "(null)") s ++ l)
          | _ => None
          end
        else if c =? 99 then
          match args with
          | Vint v :: args => l ← printf_loop fmt args false; Some (u8 v :: l)
          | _ => None
          end
        else if c =? 37 then l ← printf_loop fmt args false; Some (37 :: l)
        else l ← printf_loop fmt args false; Some (37 :: c :: l)
  end.

Definition printf (fmt : string) (args : list varg) : option (list Z) := printf_loop (bytes_of fmt) args false.

(** ** Numbers *)

(** The value of digits, the most significant first. *)
Definition value (base : Z) (ds : list Z) : Z := foldl (fun v d => v * base + d) 0 ds.

Lemma value_snoc base ds d : value base (ds ++ [d]) = value base ds * base + d.
Proof. unfold value. by rewrite foldl_app. Qed.

Lemma div_lt_pow x base k : 2 <= base -> 0 <= x < base ^ Z.of_nat (S k) -> 0 <= x / base < base ^ Z.of_nat k.
Proof.
  intros Hb Hx. split; [apply Z.div_pos; lia|]. apply Z.div_lt_upper_bound; [lia|]. rewrite <- Z.pow_succ_r, <- Nat2Z.inj_succ by lia. lia.
Qed.

Lemma digit_values_S base fuel x : digit_values (S fuel) x base =
  if negb (x / base =? 0) then l ← digit_values fuel (x / base) base; Some (x mod base :: l) else Some [x mod base].
Proof. done. Qed.

Lemma digit_values_spec base fuel : forall x, 2 <= base -> 0 <= x < base ^ Z.of_nat (S fuel) ->
  exists ds, digit_values (S fuel) x base = Some ds /\ value base (rev ds) = x /\ Forall (fun d => 0 <= d < base) ds /\
    (forall k, x < base ^ Z.of_nat (S k) -> (length ds <= S k)%nat) /\ (last ds = Some 0 -> ds = [0]).
Proof.
  induction fuel as [|fuel IH]; intros x Hb Hx; rewrite digit_values_S; pose proof (Z.mod_pos_bound x base ltac:(lia)) as Hm;
    pose proof (Z.div_mod x base ltac:(lia)) as Hdm; destruct (Z.eqb_spec (x / base) 0) as [E|E]; cbn [negb].
  2:{ rewrite Z.div_small in E by (cbn in Hx; lia). done. }
  1,2: exists [x mod base]; repeat split; [unfold value; cbn; lia|by constructor|intros k _; cbn; lia|by intros [= ->]].
  destruct (IH (x / base)) as (ds & -> & Hv & Hf & Hl & Hz); [done|by apply div_lt_pow|].
  exists (x mod base :: ds). cbn [mbind option_bind]. repeat split; [|by constructor| |].
  - cbn [rev]. rewrite value_snoc, Hv. lia.
  - intros [|k] Hk; [rewrite Z.div_small in E by (cbn in Hk; lia); done|]. cbn [length].
    pose proof (Hl k ltac:(apply div_lt_pow; [done|lia])). lia.
  - destruct ds as [|d ds]; [cbn in Hv; lia|]. intros Hlast. rewrite (Hz Hlast) in Hv. cbn in Hv. lia.
Qed.

(** [printint] fits its buffer, and writes the digits of the number, without
    leading zeros, after its sign. *)
Lemma printint_spec xx base sgn : is_i32 xx -> base = 10 \/ base = 16 ->
  let neg := sgn && (xx <? 0) in
  exists ds, printint xx base sgn = Some ((if neg then [45] else []) ++ map (fun d => default 0 (hexdigits !! Z.to_nat d)) ds) /\
    Forall (fun d => 0 <= d < base) ds /\ value base ds = (if neg then - xx else u32 xx) /\ (head ds = Some 0 -> ds = [0]).
Proof.
  intros Hx Hb neg. unfold printint. fold neg. set (x := if neg then u32 (- xx) else u32 xx).
  assert (0 <= x < 2 ^ 32) as Hr by (subst x; destruct neg; apply u32_range).
  assert (x = if neg then - xx else u32 xx) as Ex.
  { subst x neg. destruct sgn; cbn; [|done]. destruct (Z.ltb_spec xx 0); [|done]. apply u32_id. unfold is_i32, is_u32 in *. lia. }
  assert (2 ^ 32 <= base ^ Z.of_nat 10) by (destruct Hb as [-> | ->]; vm_compute; discriminate).
  assert (base ^ Z.of_nat 10 <= base ^ Z.of_nat 16) by (apply Z.pow_le_mono_r; lia).
  destruct (digit_values_spec base 15 x) as (ds & -> & Hv & Hf & Hl & Hz); [lia|lia|]. cbn [mbind option_bind].
  assert (mapM (fun d => hexdigits !! Z.to_nat d) ds = Some (map (fun d => default 0 (hexdigits !! Z.to_nat d)) ds)) as ->.
  { apply mapM_Some, Forall2_fmap_r, Forall_Forall2_diag, (Forall_impl _ _ _ Hf). intros d Hd. cbv beta in *.
    destruct (lookup_lt_is_Some_2 hexdigits (Z.to_nat d)) as [y Hy]; [cbn; lia|]. unfold compose. by rewrite Hy. }
  cbn [mbind option_bind]. pose proof (Hl 9%nat ltac:(lia)) as Hlen.
  rewrite (proj2 (Nat.ltb_ge _ _)) by (destruct neg; rewrite ?length_app, ?length_map; cbn; lia).
  exists (rev ds). split; [|split; [by apply Forall_rev|split; [lia|]]].
  - destruct neg; rewrite ?rev_app_distr, <- map_rev; done.
  - destruct ds as [|d ds _] using rev_ind; [done|]. rewrite rev_app_distr. intros [= ->]. rewrite last_snoc in Hz. specialize (Hz eq_refl). by destruct ds as [|? []].
Qed.
