(* ===== verification/Uthread.v ===== *)
(** The user-level threads of uthreadlib.c and the program uthread.c that tests
    them.

    The switch of uthread_switch.S saves the registers of a thread on its own stack
    and restores those of the next one, so that a thread goes on after its call:
    here each thread has the point of [mythread] where it is. *)

From S2P Require Import Prelude Libc Ulib Printf.

Inductive tstate := FREE | RUNNING | RUNNABLE.
#[export] Instance tstate_eq : EqDecision tstate.
Proof. solve_decision. Defined.

Definition MAX_THREAD : nat := 8.

(** The table of threads and the indices of the last one chosen and of the current
    one; [next_thread] is null between calls. *)
Record uthreads := Uthreads { all_thread : list tstate; lastIndex : nat; current_thread : nat }.
#[export] Instance uthreads_set : Settable uthreads := fun r => Uthreads (all_thread r) (lastIndex r) (current_thread r).

Definition uthreads0 : uthreads := Uthreads (replicate MAX_THREAD FREE) 0 0.

Definition thread_init (s : uthreads) : uthreads := s <| current_thread := O |> <| all_thread ::= <[O := RUNNING]> |>.

(** The search: the last thread looked at, and the one that is found. *)
Fixpoint search (ids : list nat) (t : nat) (s : uthreads) : nat * option nat :=
  match ids with
  | [] => (t, None)
  | i :: ids =>
      let currIndex := ((lastIndex s + i) mod MAX_THREAD)%nat in
      if bool_decide (all_thread s !! currIndex = Some RUNNABLE) && negb (currIndex =? current_thread s)%nat
      then (currIndex, Some currIndex)
      else search ids currIndex s
  end.

(** [thread_schedule] exits, returns to the same thread, or switches. *)
Inductive schedule := NoThreads | Same (s : uthreads) | Switch (s : uthreads).

Definition thread_schedule (s : uthreads) : schedule :=
  let (t, found) := search (seq 1 7) 0 s in
  let s := match found with Some i => s <| lastIndex := i |> | None => s end in
  let next := if (MAX_THREAD <=? t)%nat && bool_decide (all_thread s !! current_thread s = Some RUNNABLE)
              then Some (current_thread s) else found in
  match next with
  | None => NoThreads
  | Some n =>
      if (current_thread s =? n)%nat then Same s
      else Switch (s <| all_thread ::= <[n := RUNNING]> |> <| current_thread := n |>)
  end.

(** [None]: no slot is free, and the code writes past the table. *)
Definition thread_create (s : uthreads) : option uthreads :=
  i ← fst <$> list_find (fun t => t = FREE) (all_thread s);
  Some (s <| all_thread ::= <[i := RUNNABLE]> |>).

Definition thread_yield (s : uthreads) : schedule :=
  thread_schedule (s <| all_thread ::= <[current_thread s := RUNNABLE]> |>).

Definition thread_exit (s : uthreads) : schedule :=
  thread_schedule (s <| all_thread ::= <[current_thread s := FREE]> |>).

(** ** uthread.c *)

Inductive event := Started (k : nat) | Iter (k : nat) (i : Z) | Ended (k : nat) | AllEnded | NoRunnable | Usage (argv0 : list Z).

(** The text of an event, where the table is at [base] and [thread_id] is the
    address of the current thread. *)
Definition thread_id (base : Z) (k : nat) : Z := base + Z.of_nat k * 8200.

Definition render (base : Z) (e : event) : option (list Z) :=
  match e with
  | Started k => printf "Thread 0x%x started!
" [Vint (thread_id base k)]
  | Iter k i => printf "Thread 0x%x: %d
" [Vint (thread_id base k); Vint i]
  | Ended k => printf "Thread 0x%x ended!
" [Vint (thread_id base k)]
  | AllEnded => printf "all threads ended.
" []
  | NoRunnable => printf "thread_schedule: no runnable threads
" []
  | Usage argv0 => printf "%s numthreads numexecs
" [Vstr (Some argv0)]
  end.

(** Where a thread is: [main] in its call of [thread_schedule], at the start of
    [mythread], or in the call of [thread_yield] of iteration [i]. *)
Inductive where_ := Unborn | InMain | New | InYield (i : Z).

Record run := Run { lib : uthreads; threads : list where_; out : list event }.
#[export] Instance run_set : Settable run := fun r => Run (lib r) (threads r) (out r).

Inductive outcome := Goes (r : run) | Exits (r : run) | Overrun.

Section Program.
Context (numexecs : Z).

Definition emit (e : event) (r : run) : run := r <| out ::= fun l => l ++ [e] |>.

Definition after (c : schedule) (r : run) : outcome :=
  match c with
  | NoThreads => Exits (emit NoRunnable r)
  | Same s | Switch s => Goes (r <| lib := s |>)
  end.

(** The loop of [mythread] from iteration [i]. *)
Definition mythread_from (i : Z) (r : run) : outcome :=
  let k := current_thread (lib r) in
  if i <? numexecs
  then after (thread_yield (lib r)) (emit (Iter k i) r <| threads ::= <[k := InYield i]> |>)
  else after (thread_exit (lib r)) (emit (Ended k) r).

(** The current thread, until it calls the library again. *)
Definition turn (r : run) : outcome :=
  let k := current_thread (lib r) in
  match threads r !! k with
  | Some New => mythread_from 0 (emit (Started k) r)
  | Some (InYield i) => mythread_from (i + 1) r
  | Some InMain => Exits (emit AllEnded r)
  | _ => Overrun
  end.

Fixpoint turns (n : nat) (r : run) : outcome :=
  match n with
  | O => Goes r
  | S n => match turn r with Goes r => turns n r | o => o end
  end.

Fixpoint create_all (n : nat) (s : uthreads) : option uthreads :=
  match n with O => Some s | S n => s ← thread_create s; create_all n s end.

(** [main], up to its call of [thread_schedule]. *)
Definition start (numthreads : Z) : outcome :=
  match create_all (Z.to_nat numthreads) (thread_init uthreads0) with
  | None => Overrun
  | Some s =>
      let ts := imap (fun i t => if (i =? 0)%nat then InMain else if bool_decide (t = RUNNABLE) then New else Unborn) (all_thread s) in
      after (thread_schedule s) (Run s ts [])
  end.
End Program.

(** The whole program, for at most [fuel] turns of its threads. *)
Definition main (fuel : nat) (argv : list (list Z)) : option outcome :=
  match argv with
  | [_; a; b] =>
      numthreads ← Ulib.atoi a;
      numexecs ← Ulib.atoi b;
      Some (match start numthreads with Goes r => turns numexecs fuel r | o => o end)
  | _ => Some (Exits (emit (Usage (default [] (head argv))) (Run uthreads0 [] [])))
  end.

(** ** Round robin *)

(** The library with [n] threads: thread [k] runs, the ones before it are in state
    [a], the ones after it can run. *)
Definition cfg (a : tstate) (n k : nat) : uthreads :=
  Uthreads (RUNNING :: replicate (k - 1) a ++ RUNNING :: replicate (n - k) RUNNABLE ++ replicate (7 - n) FREE) k k.

#[export] Instance uthreads_eq : EqDecision uthreads.
Proof. solve_decision. Defined.
#[export] Instance schedule_eq : EqDecision schedule.
Proof. solve_decision. Defined.

(** A fact on each thread of each number of threads, by evaluation. *)
Lemma sweep (f g : nat -> nat -> schedule) :
  forallb (fun n => forallb (fun k => bool_decide (f n k = g n k)) (seq 1 n)) (seq 2 6) = true ->
  forall n k, (2 <= n <= 7)%nat -> (1 <= k <= n)%nat -> f n k = g n k.
Proof.
  intros Hb n k Hn Hk. rewrite forallb_forall in Hb. specialize (Hb n ltac:(apply in_seq; lia)).
  rewrite forallb_forall in Hb. specialize (Hb k ltac:(apply in_seq; lia)). by apply bool_decide_eq_true in Hb.
Qed.

Definition next (n k : nat) : nat := if (k <? n)%nat then S k else 1.

Lemma yield_next : forall n k, (2 <= n <= 7)%nat -> (1 <= k <= n)%nat ->
  thread_yield (cfg RUNNABLE n k) = Switch (cfg RUNNABLE n (next n k)).
Proof.
  refine (sweep (fun n k => thread_yield (cfg RUNNABLE n k)) (fun n k => Switch (cfg RUNNABLE n (next n k))) _). vm_compute. reflexivity.
Qed.

Lemma exit_next : forall n k, (2 <= n <= 7)%nat -> (1 <= k <= n)%nat ->
  thread_exit (cfg FREE n k) = if (k <? n)%nat then Switch (cfg FREE n (S k)) else NoThreads.
Proof.
  refine (sweep (fun n k => thread_exit (cfg FREE n k)) (fun n k => if (k <? n)%nat then Switch (cfg FREE n (S k)) else NoThreads) _).
  vm_compute. reflexivity.
Qed.

Definition locs (n k : nat) (a b : where_) : list where_ :=
  InMain :: replicate (k - 1) a ++ replicate (n - (k - 1)) b ++ replicate (7 - n) Unborn.

Lemma locs_lookup n k a b : (1 <= k <= n)%nat -> locs n k a b !! k = Some b.
Proof.
  intros H. unfold locs. destruct k as [|k]; [lia|]. cbn [Nat.sub]. rewrite Nat.sub_0_r.
  change ((InMain :: ?l) !! S k) with (l !! k). rewrite lookup_app_r by (rewrite length_replicate; lia).
  rewrite length_replicate, lookup_app_l by (rewrite length_replicate; lia). apply lookup_replicate. split; [done|lia].
Qed.

Lemma locs_insert n k a b : (1 <= k <= n)%nat -> <[k := a]> (locs n k a b) = locs n (S k) a b.
Proof.
  intros H. unfold locs. destruct k as [|k]; [lia|]. cbn [Nat.sub]. rewrite Nat.sub_0_r.
  change (<[S k := a]> (InMain :: ?l)) with (InMain :: <[k := a]> l). f_equal.
  rewrite insert_app_r_alt by (rewrite length_replicate; lia). rewrite length_replicate, Nat.sub_diag.
  replace (n - k)%nat with (S (n - S k)) by lia. by rewrite (replicate_S_end k), <- app_assoc.
Qed.

Lemma locs_same n k a b : (1 <= k <= n)%nat -> locs n 1 a b !! k = Some b.
Proof.
  intros H. unfold locs. destruct k as [|k]; [lia|]. cbn [Nat.sub replicate app]. rewrite Nat.sub_0_r.
  change ((InMain :: ?l) !! S k) with (l !! k). rewrite lookup_app_l by (rewrite length_replicate; lia). apply lookup_replicate. split; [done|lia].
Qed.

Lemma locs_wrap n a b c : locs n (S n) a b = locs n 1 c a.
Proof. unfold locs. cbn. by rewrite !Nat.sub_0_r, Nat.sub_diag. Qed.

Section RoundRobin.
Context (numexecs : Z) (n : nat) (Hn : (2 <= n <= 7)%nat).

Lemma turns_S m r : turns numexecs (S m) r = match turn numexecs r with Goes r => turns numexecs m r | o => o end.
Proof. done. Qed.

Lemma turns_app m1 m2 r r' : turns numexecs m1 r = Goes r' -> turns numexecs (m1 + m2) r = turns numexecs m2 r'.
Proof.
  revert r. induction m1 as [|m1 IH]; intros r; cbn; [by intros [= ->]|]. destruct (turn numexecs r); try done. apply IH.
Qed.

(** A round, in which every thread goes from [b] to [a] with its events. *)
Lemma round a b f : (forall k o, (1 <= k <= n)%nat -> turn numexecs (Run (cfg RUNNABLE n k) (locs n k a b) o) =
    Goes (Run (cfg RUNNABLE n (next n k)) (locs n (S k) a b) (o ++ f k))) ->
  forall o, turns numexecs n (Run (cfg RUNNABLE n 1) (locs n 1 a b) o) =
    Goes (Run (cfg RUNNABLE n 1) (locs n (S n) a b) (o ++ concat (map f (seq 1 n)))).
Proof.
  intros Hf. enough (forall m k o, (k + m = n)%nat -> turns numexecs m (Run (cfg RUNNABLE n (if (k <? n)%nat then S k else 1)) (locs n (S k) a b) o) =
    Goes (Run (cfg RUNNABLE n 1) (locs n (S n) a b) (o ++ concat (map f (seq (S k) m))))) as H.
  { intros o. specialize (H n 0%nat o ltac:(lia)). by rewrite (proj2 (Nat.ltb_lt 0 n)) in H by lia. }
  induction m as [|m IH]; intros k o Hk.
  - rewrite (proj2 (Nat.ltb_ge k n)) by lia. cbn. rewrite app_nil_r. by replace k with n by lia.
  - rewrite (proj2 (Nat.ltb_lt k n)) by lia. rewrite turns_S, Hf by lia. rewrite (IH (S k)) by lia. cbn. by rewrite <- app_assoc.
Qed.

Definition first_round : list event := concat (map (fun k => [Started k; Iter k 0]) (seq 1 n)).
Definition round_of (i : Z) : list event := concat (map (fun k => [Iter k i]) (seq 1 n)).

Lemma round_first : 0 < numexecs -> forall o, turns numexecs n (Run (cfg RUNNABLE n 1) (locs n 1 (InYield 0) New) o) =
  Goes (Run (cfg RUNNABLE n 1) (locs n (S n) (InYield 0) New) (o ++ first_round)).
Proof.
  intros He. apply round. intros k o Hk. unfold turn. cbn [lib threads current_thread cfg]. rewrite locs_lookup by done.
  unfold mythread_from. rewrite (proj2 (Z.ltb_lt _ _)) by lia. cbn -[thread_yield locs cfg]. fold (cfg RUNNABLE n k).
  rewrite yield_next by done. unfold after, emit, setter. cbn [lib threads out current_thread cfg].
  by rewrite locs_insert, <- app_assoc by done.
Qed.

Lemma round_next i : i + 1 < numexecs -> forall o, turns numexecs n (Run (cfg RUNNABLE n 1) (locs n 1 (InYield (i + 1)) (InYield i)) o) =
  Goes (Run (cfg RUNNABLE n 1) (locs n (S n) (InYield (i + 1)) (InYield i)) (o ++ round_of (i + 1))).
Proof.
  intros He. apply (round _ _ (fun k => [Iter k (i + 1)])). intros k o Hk.
  unfold turn. cbn [lib threads current_thread cfg]. rewrite locs_lookup by done.
  unfold mythread_from. rewrite (proj2 (Z.ltb_lt _ _)) by lia. cbn -[thread_yield locs cfg]. fold (cfg RUNNABLE n k).
  rewrite yield_next by done. unfold after, emit, setter. cbn [lib threads out current_thread cfg]. by rewrite locs_insert by done.
Qed.

(** All the rounds from [i]. *)
Lemma rounds m : forall i o c, i + Z.of_nat m < numexecs ->
  turns numexecs (m * n) (Run (cfg RUNNABLE n 1) (locs n 1 c (InYield i)) o) =
    Goes (Run (cfg RUNNABLE n 1) (locs n 1 c (InYield (i + Z.of_nat m))) (o ++ concat (map round_of (seqZ (i + 1) (Z.of_nat m))))).
Proof.
  induction m as [|m IH]; intros i o c Hi.
  - cbn. by rewrite Z.add_0_r, app_nil_r.
  - cbn [Nat.mul]. rewrite <- (locs_wrap n (InYield i) New c), (locs_wrap n _ _ (InYield (i + 1))).
    erewrite turns_app by (apply round_next; lia). rewrite (locs_wrap _ _ _ c), IH by lia.
    rewrite (seqZ_cons (i + 1)) by lia. cbn [map concat]. rewrite <- app_assoc.
    replace (i + 1 + Z.of_nat m) with (i + Z.of_nat (S m)) by lia. replace (Z.succ (i + 1)) with (i + 1 + 1) by lia.
    by replace (Z.pred (Z.of_nat (S m))) with (Z.of_nat m) by lia.
Qed.

(** The end: each thread ends, and with the last one the program does. *)
Lemma ending : forall m k b o e, (1 <= k)%nat -> (k + m = n)%nat ->
  (forall k o, (1 <= k <= n)%nat -> turn numexecs (Run (cfg FREE n k) (locs n 1 b b) o) =
     after (thread_exit (cfg FREE n k)) (Run (cfg FREE n k) (locs n 1 b b) (o ++ e k))) ->
  exists r, turns numexecs (S m) (Run (cfg FREE n k) (locs n 1 b b) o) = Exits r /\ out r = o ++ concat (map e (seq k (S m))) ++ [NoRunnable].
Proof.
  induction m as [|m IH]; intros k b o e H1 Hk He; rewrite turns_S, He, exit_next by lia.
  - rewrite (proj2 (Nat.ltb_ge _ _)) by lia. eexists. split; [done|]. cbn. by rewrite app_nil_r, <- app_assoc.
  - rewrite (proj2 (Nat.ltb_lt _ _)) by lia. destruct (IH (S k) b (o ++ e k) e ltac:(lia) ltac:(lia) He) as (r & Hr & Ho).
    exists r. split; [exact Hr|]. rewrite Ho. cbn. by rewrite <- !app_assoc.
Qed.
End RoundRobin.

(** The events of [n] threads with [e] iterations each. *)
Definition expected (n : nat) (e : Z) : list event :=
  if e <=? 0 then concat (map (fun k => [Started k; Ended k]) (seq 1 n)) ++ [NoRunnable]
  else first_round n ++ concat (map (round_of n) (seqZ 1 (e - 1))) ++ concat (map (fun k => [Ended k]) (seq 1 n)) ++ [NoRunnable].

Lemma uthread_start n : (2 <= n <= 7)%nat -> start (Z.of_nat n) = Goes (Run (cfg FREE n 1) (locs n 1 New New) []).
Proof.
  intros Hn. do 2 (destruct n as [|n]; [lia|]). do 6 (destruct n as [|n]; [vm_compute; reflexivity|]). lia.
Qed.

(** C33. The threads of [uthread] with two to seven threads take turns: each round
    runs every thread once, in the order of the table, for as many rounds as there
    are iterations; every thread ends; and the program exits. *)
Theorem uthread_round_robin n e : (2 <= n <= 7)%nat ->
  exists fuel r, match start (Z.of_nat n) with Goes r => turns e fuel r | o => o end = Exits r /\ out r = expected n e.
Proof.
  intros Hn. rewrite uthread_start by done. unfold expected. destruct (Z.leb_spec e 0) as [He|He].
  - destruct (ending e n Hn (n - 1) 1 New [] (fun k => [Started k; Ended k])) as (r & Hr & Ho); [lia|lia| |].
    + intros k o Hk. unfold turn. cbn [lib threads current_thread cfg]. rewrite locs_same by done.
      unfold mythread_from. rewrite (proj2 (Z.ltb_ge _ _)) by lia. unfold emit, setter. cbn [lib threads out current_thread cfg].
      by rewrite <- app_assoc.
    + exists (S (n - 1)), r. split; [exact Hr|]. rewrite Ho. by replace (S (n - 1)) with n by lia.
  - destruct (ending e n Hn (n - 1) 1 (InYield (e - 1)) (first_round n ++ concat (map (round_of n) (seqZ 1 (e - 1)))) (fun k => [Ended k]))
      as (r & Hr & Ho); [lia|lia| |].
    + intros k o Hk. unfold turn. cbn [lib threads current_thread cfg]. rewrite locs_same by done.
      unfold mythread_from. by rewrite (proj2 (Z.ltb_ge _ _)) by lia.
    + exists (n + (Z.to_nat (e - 1) * n + S (n - 1)))%nat, r. change (cfg FREE n 1) with (cfg RUNNABLE n 1).
      change (locs n 1 New New) with (locs n 1 (InYield 0) New).
      erewrite turns_app by (apply round_first; [done|lia]). rewrite (locs_wrap _ _ _ (InYield (e - 1))).
      erewrite turns_app by (apply rounds; [done|lia]). replace (0 + Z.of_nat (Z.to_nat (e - 1))) with (e - 1) by lia.
      rewrite Z2Nat.id by lia. change (cfg RUNNABLE n 1) with (cfg FREE n 1). split; [exact Hr|].
      rewrite Ho, <- !app_assoc. by replace (S (n - 1)) with n by lia.
Qed.

Lemma uthread_round_robin_witness : exists fuel r,
  match start (Z.of_nat 2) with Goes r => turns 2 fuel r | o => o end = Exits r /\
  out r = [Started 1; Iter 1 0; Started 2; Iter 2 0; Iter 1 1; Iter 2 1; Ended 1; Ended 2; NoRunnable].
Proof. apply (uthread_round_robin 2 2). lia. Defined.

(** A thread that is alone does not get the processor back when it yields: the test
    for it in [thread_schedule] compares the address of a thread of the table with
    the end of the table. *)
Lemma lone_thread_exits : exists r, match start 1 with Goes r => turns 5 10 r | o => o end = Exits r /\
  out r = [Started 1; Iter 1 0; NoRunnable].
Proof. eexists. split; reflexivity. Qed.

(** With eight threads, [thread_create] does not find a slot and writes past the
    table. *)
Lemma create_past_table : start 8 = Overrun.
Proof. reflexivity. Qed.
