(* ===== verification/Labs.v ===== *)
(** The programs of lab-01: sum.c, palabras.c and histograma.c. *)

From stdpp Require Import pretty.
From S2P Require Import Prelude Libc.

(** ** lab-01/sum.c *)

(** The loop starts at [argv[0]], the name of the program. *)
Definition sumaTotal (argv : list string) : Z := foldl (fun s a => i32 (s + atoi a)) 0 argv.

Definition sum_main (argv : list string) : string := "La suma es " +:+ pretty (sumaTotal argv).

Lemma suma_i32 l : forall s, i32 (foldl (fun s a => i32 (s + atoi a)) s l) = i32 (s + foldr Z.add 0 (map atoi l)).
Proof.
  induction l as [|a l IH]; intros s; cbn [foldl map foldr]; [by rewrite Z.add_0_r|]. rewrite IH. unfold i32.
  set (n := foldr Z.add 0 (map atoi l)).
  replace ((s + atoi a + 2147483648) mod 4294967296 - 2147483648 + n + 2147483648)
    with ((s + atoi a + 2147483648) mod 4294967296 + n) by lia.
  rewrite Zplus_mod_idemp_l. do 2 f_equal. lia.
Qed.

(** The sum of the numbers, at 32 bits. *)
Lemma sumaTotal_sum argv : argv <> [] -> sumaTotal argv = i32 (foldr Z.add 0 (map atoi argv)).
Proof.
  intros H. unfold sumaTotal. destruct argv as [|a argv]; [done|]. rewrite <- (Z.add_0_l (foldr _ _ _)), <- suma_i32.
  destruct (exists_last H) as (l & x & E). rewrite E, !foldl_app. cbn. symmetry. apply i32_id. unfold is_i32, i32.
  pose proof (Z.mod_pos_bound (foldl (fun s a => i32 (s + atoi a)) 0 l + atoi x + 2147483648) 4294967296 ltac:(lia)).
  unfold i32 in *. lia.
Qed.

(** ** lab-01/palabras.c *)

Definition palabras (input : list Z) : list Z := map (fun c => if c =? 32 then 10 else c) input.

(** ** lab-01/histograma.c *)

Definition cantdidadMaximaLetras : nat := 20.

Inductive lectura := Cuenta (cantidad : list Z) | MuyLarga | Fuera.

(** The loop over the input; [cantidad] is the memory from the start of the array
    on that can be written, [auxLength] the letters of the current word. *)
Fixpoint contar (input : list Z) (cantidad : list Z) (auxLength : nat) : lectura :=
  match input with
  | [] => Cuenta cantidad
  | c :: input =>
      if (c =? 32) || (c =? 10) then
        match cantidad !! auxLength with
        | None => Fuera
        | Some n => contar input (<[auxLength := n + 1]> cantidad) 0
        end
      else if (cantdidadMaximaLetras <? S auxLength)%nat then MuyLarga
      else contar input cantidad (S auxLength)
  end.

(** The last length with a word, of the ones below 20. *)
Definition indicePalabraMasLarga (cantidad : list Z) : nat :=
  foldl (fun m i => if 0 <? default 0 (cantidad !! i) then i else m) O (seq 0 cantdidadMaximaLetras).

Definition barras (cantidad : list Z) : list string :=
  map (fun i => pretty i +:+ " " +:+ fold_right (fun _ s => "*" +:+ s) EmptyString (seq 0 (Z.to_nat (default 0 (cantidad !! i)))))
      (seq 1 (indicePalabraMasLarga cantidad)).

(** [cells] are the cells of the array that can be written: [int cantidad[20]] has
    20, and the first loop writes 21. *)
Definition histograma (cells : nat) (input : list Z) : option (list string + string) :=
  if (cells <=? cantdidadMaximaLetras)%nat then None else
  match contar input (replicate cells 0) 0 with
  | Cuenta cantidad => Some (inl (barras cantidad))
  | MuyLarga => Some (inr "La palabra mas larga permitida es de 20 caracteres.")
  | Fuera => None
  end.

Lemma histograma_fuera input : histograma cantdidadMaximaLetras input = None.
Proof. done. Qed.

(** The words of a text in which each one ends with a space or a newline. *)
Definition letra (c : Z) : Prop := c <> 32 /\ c <> 10.

Lemma contar_palabra w rest cantidad : forall aux, Forall letra w -> (aux + length w <= cantdidadMaximaLetras)%nat ->
  contar (w ++ rest) cantidad aux = contar rest cantidad (aux + length w).
Proof.
  induction w as [|c w IH]; intros aux Hw Hl; [by rewrite Nat.add_0_r|]. apply Forall_cons in Hw as [[H1 H2] Hw]. cbn [app contar length] in *.
  rewrite !(proj2 (Z.eqb_neq _ _)) by done. cbn [orb]. rewrite (proj2 (Nat.ltb_ge _ _)) by lia. rewrite IH by (done || lia). f_equal. lia.
Qed.

Definition contadas (ws : list (list Z)) (i : nat) : Z := Z.of_nat (length (filter (fun w => length w = i) ws)).

(** With the cell that is missing, the counts are the numbers of words of each
    length. *)
Lemma contar_palabras cells ws : (21 <= cells)%nat -> Forall (fun w => Forall letra w /\ (length w <= 20)%nat) ws -> forall cantidad, length cantidad = cells ->
  exists c', contar (concat (map (fun w => w ++ [32]) ws)) cantidad 0 = Cuenta c' /\ length c' = cells /\
    forall i, (i < cells)%nat -> default 0 (c' !! i) = default 0 (cantidad !! i) + contadas ws i.
Proof.
  intros Hc Hws. induction Hws as [|w ws [Hw Hl] Hws IH]; intros cantidad Hlen; cbn [map concat contar].
  - exists cantidad. split; [done|]. split; [done|]. intros i _. unfold contadas. cbn. lia.
  - rewrite <- app_assoc, contar_palabra by (done || unfold cantdidadMaximaLetras; lia). cbn [app contar Nat.add].
    destruct (lookup_lt_is_Some_2 cantidad (length w)) as [n Hn]; [lia|]. change ((32 =? 32) || (32 =? 10)) with true. cbv iota.
    rewrite Hn. destruct (IH (<[length w := n + 1]> cantidad)) as (c' & E & Hl' & Hi); [by rewrite length_insert|].
    exists c'. split; [done|]. split; [done|]. intros i Hi'. rewrite Hi by done. unfold contadas.
    rewrite filter_cons. case_decide as E'.
    + subst i. rewrite list_lookup_insert_eq by lia. rewrite Hn. cbn. lia.
    + rewrite list_lookup_insert_ne by done. done.
Qed.
