(* ===== verification/Glob.v ===== *)
(** The shared counter of lab-04/glob.c: two threads that increment it [loops] times
    each, reading it, adding one and writing it between the calls on a semaphore. *)

From S2P Require Import Prelude Libc.

(** Where a thread is in [increment_glob], with [j] and [loc]. *)
Inductive pc := Vuelta (j : Z) | Lee (j : Z) | Suma (j loc : Z) | Escribe (j loc : Z) | Avisa (j : Z) | Fin.

Record estado := Estado { glob : Z; mutex : Z; hilos : list pc }.

(** The argument of [main]: the number of loops, or a message. *)
Definition main_args (argv : list string) : Z + string :=
  match argv with
  | [_; a] => if atoi a <? 1 then inr "Error: ciclos debe ser mayor a cero." else inl (atoi a)
  | _ => inr ("Uso: " +:+ default EmptyString (head argv) +:+ " ciclos")
  end.

Section Glob.
Context (loops : Z).

(** One step of a thread: the new counter, semaphore and place. *)
Definition increment_glob (p : pc) (g m : Z) : option (Z * Z * pc) :=
  match p with
  | Vuelta j => if j <? loops then if 0 <? m then Some (g, m - 1, Lee j) else None else Some (g, m, Fin)
  | Lee j => Some (g, m, Suma j (i32 g))
  | Suma j loc => Some (g, m, Escribe j (i32 (loc + 1)))
  | Escribe j loc => Some (loc, m, Avisa j)
  | Avisa j => Some (g, m + 1, Vuelta (j + 1))
  | Fin => None
  end.

Definition avanza (n : nat) (s : estado) : option estado :=
  p ← hilos s !! n;
  '(g, m, p') ← increment_glob p (glob s) (mutex s);
  Some (Estado g m (<[n := p']> (hilos s))).

Fixpoint corre (ns : list nat) (s : estado) : option estado :=
  match ns with [] => Some s | n :: ns => s ← avanza n s; corre ns s end.

(** [main] creates two threads; the program prints the counter when they end. *)
Definition inicio : estado := Estado 0 1 [Vuelta 0; Vuelta 0].

(** ** The invariant *)

Definition hechas (p : pc) : Z :=
  match p with Vuelta j | Lee j | Suma j _ | Escribe j _ => j | Avisa j => j + 1 | Fin => loops end.
Definition dentro (p : pc) : Z := match p with Lee _ | Suma _ _ | Escribe _ _ | Avisa _ => 1 | _ => 0 end.

Definition pc_ok (g : Z) (p : pc) : Prop :=
  match p with
  | Vuelta j => 0 <= j <= loops
  | Lee j | Avisa j => 0 <= j < loops
  | Suma j loc => 0 <= j < loops /\ loc = g
  | Escribe j loc => 0 <= j < loops /\ loc = g + 1
  | Fin => True
  end.

Record inv (s : estado) : Prop := Inv {
  i_glob : glob s = total hechas (hilos s);
  i_mutex : mutex s + total dentro (hilos s) = 1;
  i_mutex0 : 0 <= mutex s;
  i_two : length (hilos s) = 2%nat;
  i_pc : Forall (pc_ok (glob s)) (hilos s) }.

Context (Hloops : 0 <= loops) (Hmax : 2 * loops < 2147483648).

Lemma hechas_range g p : pc_ok g p -> 0 <= hechas p <= loops.
Proof. destruct p; cbn; lia. Qed.

(** The counter stays in the range of [loc]. *)
Lemma glob_range s : inv s -> 0 <= glob s <= 2 * loops.
Proof.
  intros [H1 _ _ H4 H5]. destruct s as [g m ts]. cbn in *. destruct ts as [|a [|b [|]]]; try done.
  apply Forall_cons in H5 as [Ha [Hb _]%Forall_cons]. apply hechas_range in Ha, Hb. rewrite !total_cons in H1. cbn in H1.
  unfold total in H1. cbn in H1. lia.
Qed.

(** The thread that is inside is the only one. *)
Lemma otros_fuera s n p : inv s -> hilos s !! n = Some p -> dentro p = 1 -> forall k q, k <> n -> hilos s !! k = Some q -> dentro q = 0.
Proof.
  intros [_ H2 H3 H4 _] Hp Hd k q Hk Hq. destruct s as [g m ts]. cbn in *. destruct ts as [|a [|b [|]]]; try done.
  unfold total in H2. cbn in H2. assert (0 <= dentro a /\ 0 <= dentro b) by (destruct a, b; cbn; lia).
  destruct n as [|[|n]], k as [|[|k]]; cbn in *; simplify_eq; lia.
Qed.

Lemma pc_ok_fuera g g' p : dentro p = 0 -> pc_ok g p -> pc_ok g' p.
Proof. by destruct p. Qed.

Lemma avanza_inv n s s' : inv s -> avanza n s = Some s' -> inv s'.
Proof.
  intros H. pose proof (glob_range s H) as Hg. unfold avanza. destruct (hilos s !! n) as [p|] eqn:Hp; [|done]. cbn.
  pose proof (otros_fuera s n p H Hp) as Ho. destruct H as [H1 H2 H3 H4 H5].
  pose proof (proj1 (Forall_lookup _ _) H5 _ _ Hp) as Hok.
  destruct (increment_glob p (glob s) (mutex s)) as [[[g m] p']|] eqn:E; [|done]. cbn. intros [= <-].
  assert (dentro p = 1 \/ g = glob s) as Hg'.
  { destruct p; cbn in *; repeat case_match; simplify_eq; auto. }
  assert (pc_ok g p' /\ g - glob s = hechas p' - hechas p /\ m - mutex s = dentro p - dentro p' /\ 0 <= m) as (Hok' & Hd1 & Hd2 & Hd3).
  { destruct p; cbn in *; repeat case_match; simplify_eq; cbn; rewrite ?i32_id by (unfold is_i32; lia); lia. }
  constructor; cbn; rewrite ?(total_insert _ _ _ _ _ Hp), ?length_insert; [lia|lia|done|done|].
  apply Forall_lookup. intros k q [(<- & <- & _)|[Hne Hq]]%list_lookup_insert_Some; [done|].
  pose proof (proj1 (Forall_lookup _ _) H5 _ _ Hq) as Hq'. destruct Hg' as [Hin| ->]; [|done].
  eapply pc_ok_fuera; [|done]. by eapply Ho.
Qed.

Lemma corre_glob ns : forall s s', inv s -> corre ns s = Some s' -> inv s'.
Proof.
  induction ns as [|n ns IH]; cbn; intros s s' H; [by intros [= <-]|]. destruct (avanza n s) as [s1|] eqn:E; [|done]. cbn.
  apply IH. by eapply avanza_inv.
Qed.

Lemma inicio_glob : inv inicio.
Proof. constructor; cbn; try done. repeat constructor; cbn; lia. Qed.

(** No increment is lost: when both threads have ended the counter is [2 * loops],
    whatever the interleaving; and until then some thread can go on. *)
Theorem glob_total ns s : corre ns inicio = Some s ->
  (hilos s = [Fin; Fin] /\ glob s = 2 * loops) \/ exists n s', avanza n s = Some s'.
Proof.
  intros E. pose proof (corre_glob _ _ _ inicio_glob E) as H. pose proof H as [H1 H2 H3 H4 H5]. destruct s as [g m ts]. cbn in *.
  destruct ts as [|a [|b [|]]]; try done. unfold total in *. cbn in H1, H2.
  assert (forall p, match p with Vuelta j => j < loops -> 0 < m | Fin => False | _ => True end -> is_Some (increment_glob p g m)) as Hs.
  { intros p Hp. destruct p; cbn in *; try done. destruct (Z.ltb_spec j loops); [|done]. by rewrite (proj2 (Z.ltb_lt 0 m)) by auto. }
  assert ((match a with Vuelta j => j < loops -> 0 < m | Fin => False | _ => True end) -> exists n s', avanza n (Estado g m [a; b]) = Some s') as Ha.
  { intros [[[g' m'] p'] E']%Hs. exists O. unfold avanza. cbn. rewrite E'. by eexists. }
  assert ((match b with Vuelta j => j < loops -> 0 < m | Fin => False | _ => True end) -> exists n s', avanza n (Estado g m [a; b]) = Some s') as Hb.
  { intros [[[g' m'] p'] E']%Hs. exists 1%nat. unfold avanza. cbn. rewrite E'. by eexists. }
  destruct a, b; cbn in H1, H2; try (right; by apply Ha); try (right; by apply Hb); try (right; apply Ha; lia); try (right; apply Hb; lia).
  left. split; [done|lia].
Qed.
End Glob.
