(* ===== verification/Mp.v ===== *)
(** The search for the processors, mp.c: the floating pointer structure that the
    firmware leaves in memory, the configuration table it points to, and the walk
    over the entries of the table.

    [mem] is the physical memory, byte by byte; a kernel pointer is the physical
    address it is mapped to. *)

From S2P Require Import Prelude Kernel.

Section Mp.
Context (mem : Z -> Z).

Definition rd16 (a : Z) : Z := mem a + 256 * mem (a + 1).
Definition rd32 (a : Z) : Z := rd16 a + 65536 * rd16 (a + 2).
Definition bytes_at (a : Z) (n : nat) : list Z := map (fun i => mem (a + Z.of_nat i)) (seq 0 n).

(** An [int] accumulator, returned as an [uchar]. *)
Definition sum (addr : Z) (len : nat) : Z := u8 (foldl Z.add 0 (bytes_at addr len)).

Definition sizeof_mp : Z := 16.
Definition sizeof_mpconf : Z := 44.
Definition sizeof_mpproc : Z := 20.
Definition sizeof_mpioapic : Z := 8.

Definition mp_physaddr (mp : Z) : Z := rd32 (mp + 4).
Definition mp_imcrp (mp : Z) : Z := mem (mp + 12).
Definition conf_length (conf : Z) : Z := rd16 (conf + 4).
Definition conf_version (conf : Z) : Z := mem (conf + 6).
Definition conf_lapicaddr (conf : Z) : Z := rd32 (conf + 36).

Definition mpsearch1 (a : Z) (len : Z) : option Z :=
  head (filter (fun p => bytes_at p 4 = bytes_of "_MP_" /\ sum p (Z.to_nat sizeof_mp) = 0)
    (map (fun i => a + sizeof_mp * Z.of_nat i) (seq 0 (Z.to_nat ((len + sizeof_mp - 1) / sizeof_mp))))).

Definition mpsearch : option Z :=
  let bda := 1024 in
  let p := Z.shiftl (Z.lor (Z.shiftl (mem (bda + 15)) 8) (mem (bda + 14))) 4 in
  let early := if negb (p =? 0) then mpsearch1 p 1024
               else let p := Z.lor (Z.shiftl (mem (bda + 20)) 8) (mem (bda + 19)) * 1024 in mpsearch1 (u32 (p - 1024)) 1024 in
  match early with Some mp => Some mp | None => mpsearch1 983040 65536 end.

(** The floating pointer and the configuration table. *)
Definition mpconfig : option (Z * Z) :=
  match mpsearch with
  | None => None
  | Some mp =>
      if mp_physaddr mp =? 0 then None else
      let conf := mp_physaddr mp in
      if negb (bool_decide (bytes_at conf 4 = bytes_of "PCMP")) then None else
      if negb (conf_version conf =? 1) && negb (conf_version conf =? 4) then None else
      if negb (sum conf (Z.to_nat (conf_length conf)) =? 0) then None else
      Some (mp, conf)
  end.

(** [cpus[i].apicid] of the processors found, and the port writes. *)
Record machine := Machine { apicids : list Z; ioapicid : Z; lapic : Z; ports : list (Z * Z) }.
#[export] Instance machine_set : Settable machine := fun r => Machine (apicids r) (ioapicid r) (lapic r) (ports r).

Definition MPPROC : Z := 0.
Definition MPBUS : Z := 1.
Definition MPIOAPIC : Z := 2.
Definition MPIOINTR : Z := 3.
Definition MPLINTR : Z := 4.
Definition NCPU : nat := 8.

(** The walk over the entries from [p] to [e]; [None] when the fuel runs out.  An
    entry of another type only clears [ismp]: the [break] leaves the switch, not
    the loop, and [p] does not move. *)
Fixpoint entries (fuel : nat) (p e : Z) (ismp : bool) (m : machine) : option (bool * machine) :=
  if negb (p <? e) then Some (ismp, m) else
  match fuel with
  | O => None
  | S fuel =>
      let t := mem p in
      if t =? MPPROC then
        entries fuel (p + sizeof_mpproc) e ismp
          (if (length (apicids m) <? NCPU)%nat then m <| apicids ::= fun l => l ++ [mem (p + 1)] |> else m)
      else if t =? MPIOAPIC then entries fuel (p + sizeof_mpioapic) e ismp (m <| ioapicid := mem (p + 1) |>)
      else if (t =? MPBUS) || (t =? MPIOINTR) || (t =? MPLINTR) then entries fuel (p + 8) e ismp m
      else entries fuel p e false m
  end.

Inductive mpresult := Found (m : machine) | Mpanic (msg : string) | Hangs.

(** The entries have at least 8 bytes, so the fuel is the length of the table.
    [inb23] is what port 0x23 reads. *)
Definition mpinit (inb23 : Z) : mpresult :=
  match mpconfig with
  | None => Mpanic "Expect to run on an SMP"
  | Some (mp, conf) =>
      match entries (Z.to_nat (conf_length conf)) (conf + sizeof_mpconf) (conf + conf_length conf) true
              (Machine [] 0 (conf_lapicaddr conf) []) with
      | None => Hangs
      | Some (false, _) => Mpanic "Didn't find a suitable machine"
      | Some (true, m) =>
          Found (if negb (mp_imcrp mp =? 0) then m <| ports := [(34, 112); (35, Z.lor inb23 1)] |> else m)
      end
  end.
End Mp.

(** ** The table *)

(** An entry, and the bytes after its type. *)
Inductive entry := Proc (apicid : Z) (rest : list Z) | Ioapic (apicno : Z) (rest : list Z) | Other (t : Z) (rest : list Z).

Definition entry_ok (x : entry) : Prop :=
  match x with
  | Proc _ rest => length rest = 18%nat
  | Ioapic _ rest => length rest = 6%nat
  | Other t rest => (t = MPBUS \/ t = MPIOINTR \/ t = MPLINTR) /\ length rest = 7%nat
  end.

Definition encode (x : entry) : list Z :=
  match x with
  | Proc a rest => MPPROC :: a :: rest
  | Ioapic a rest => MPIOAPIC :: a :: rest
  | Other t rest => t :: rest
  end.

(** What the walk is to find. *)
Definition procs_of (xs : list entry) : list Z := omap (fun x => match x with Proc a _ => Some a | _ => None end) xs.
Definition ioapic_of (io : Z) (xs : list entry) : Z := foldl (fun io x => match x with Ioapic a _ => a | _ => io end) io xs.

Definition stored (mem : Z -> Z) (p : Z) (l : list Z) : Prop := forall i c, l !! i = Some c -> mem (p + Z.of_nat i) = c.

Lemma stored_app mem p l r : stored mem p (l ++ r) -> stored mem p l /\ stored mem (p + Z.of_nat (length l)) r.
Proof.
  intros H. split; intros i c Hi; [by apply H, lookup_app_l_Some|].
  specialize (H (length l + i)%nat c). rewrite lookup_app_r, Nat.add_sub' in H by lia. rewrite <- H by done. f_equal. lia.
Qed.

Lemma stored_check mem p l : forallb (fun i => mem (p + Z.of_nat i) =? default 0 (l !! i)) (seq 0 (length l)) = true -> stored mem p l.
Proof.
  intros H i c Hi. rewrite forallb_forall in H. pose proof (lookup_lt_Some _ _ _ Hi).
  specialize (H i ltac:(apply in_seq; lia)). rewrite Hi in H. cbn in H. lia.
Qed.

Lemma stored_0 mem p c l : stored mem p (c :: l) -> mem p = c.
Proof. intros H. specialize (H O c eq_refl). by rewrite Z.add_0_r in H. Qed.

Lemma take_all_ge {A} (n : nat) (l r : list A) : (n <= length l)%nat -> take n (l ++ r) = take n l.
Proof. intros H. by rewrite take_app_le. Qed.

Lemma entries_step mem fuel p e m x : entry_ok x -> stored mem p (encode x) -> p < e ->
  entries mem (S fuel) p e true m = entries mem fuel (p + Z.of_nat (length (encode x))) e true
    (match x with
     | Proc a _ => if (length (apicids m) <? NCPU)%nat then m <| apicids ::= fun l => l ++ [a] |> else m
     | Ioapic a _ => m <| ioapicid := a |>
     | Other _ _ => m
     end).
Proof.
  intros Hx Hs Hp. cbn [entries]. rewrite (proj2 (Z.ltb_lt _ _)) by done. cbn [negb]. destruct x as [a r|a r|t r]; cbn [encode length] in *.
  - rewrite (stored_0 _ _ _ _ Hs). pose proof (Hs 1%nat a eq_refl) as H1. change (Z.of_nat 1) with 1 in H1. cbn. by rewrite H1, Hx.
  - rewrite (stored_0 _ _ _ _ Hs). pose proof (Hs 1%nat a eq_refl) as H1. change (Z.of_nat 1) with 1 in H1. cbn. by rewrite H1, Hx.
  - rewrite (stored_0 _ _ _ _ Hs). destruct Hx as [Ht ->]. by destruct Ht as [-> |[-> | ->]].
Qed.

(** The walk over a table of entries of the known types. *)
Lemma entries_run mem xs : forall fuel p m, Forall entry_ok xs -> stored mem p (concat (map encode xs)) -> (length xs <= fuel)%nat ->
  (length (apicids m) <= NCPU)%nat ->
  entries mem fuel p (p + Z.of_nat (length (concat (map encode xs)))) true m =
    Some (true, m <| apicids := take NCPU (apicids m ++ procs_of xs) |> <| ioapicid := ioapic_of (ioapicid m) xs |>).
Proof.
  induction xs as [|x xs IH]; intros fuel p m Hok Hs Hf Hn; cbn [map concat length procs_of ioapic_of foldl] in *.
  - rewrite Z.add_0_r. destruct fuel; cbn [entries]; rewrite Z.ltb_irrefl; cbn [negb]; rewrite app_nil_r, take_ge by done; by destruct m.
  - apply Forall_cons in Hok as [Hx Hok]. apply stored_app in Hs as [Hs1 Hs2]. destruct fuel as [|fuel]; [lia|].
    assert (0 < length (encode x))%nat by (destruct x; cbn; lia).
    rewrite (entries_step _ _ _ _ _ x) by (done || (rewrite length_app; lia)). rewrite length_app, Nat2Z.inj_add, Z.add_assoc.
    destruct x as [a r|a r|t r]; rewrite IH by first [done|lia|destruct (Nat.ltb_spec (length (apicids m)) NCPU); cbn; rewrite ?length_app; cbn; lia].
    + cbn [omap list_omap]. destruct (Nat.ltb_spec (length (apicids m)) NCPU) as [Hlt|Hge]; destruct m as [ids io la po];
        unfold setter; cbn [apicids ioapicid lapic ports] in *.
      * by rewrite <- app_assoc.
      * by rewrite !take_all_ge by done.
    + done.
    + done.
Qed.

(** An entry of another type is never left. *)
Lemma entries_hang mem fuel : forall p e b m, p < e -> (forall t, t ∈ [MPPROC; MPBUS; MPIOAPIC; MPIOINTR; MPLINTR] -> mem p <> t) ->
  entries mem fuel p e b m = None.
Proof.
  induction fuel as [|fuel IH]; intros p e b m Hp Ht; cbn [entries]; rewrite (proj2 (Z.ltb_lt _ _)) by done; cbn [negb]; [done|].
  rewrite !(proj2 (Z.eqb_neq _ _)) by (apply Ht; set_solver). cbn [orb]. by apply IH.
Qed.

Lemma encode_length xs : (length xs <= length (concat (map encode xs)))%nat.
Proof. induction xs as [|x xs IH]; cbn; [done|]. rewrite length_app. destruct x; cbn; lia. Qed.

(** C34. [mpinit] finds the machine that the firmware describes: when the tables in
    memory are the ones [mpconfig] accepts and the configuration table is a list of
    entries of the known types, the processors are the first eight of the table in
    its order, the I/O APIC is the last one of the table, and the walk ends.  With an
    entry of another type it does not end, as [mpinit_hangs] shows. *)
Theorem mpinit_finds mem inb23 mp conf xs : mpconfig mem = Some (mp, conf) -> Forall entry_ok xs ->
  conf_length mem conf = sizeof_mpconf + Z.of_nat (length (concat (map encode xs))) ->
  stored mem (conf + sizeof_mpconf) (concat (map encode xs)) ->
  exists m, mpinit mem inb23 = Found m /\ apicids m = take NCPU (procs_of xs) /\ ioapicid m = ioapic_of 0 xs /\
    lapic m = conf_lapicaddr mem conf.
Proof.
  intros Hc Hok Hlen Hs. unfold mpinit. rewrite Hc, Hlen. rewrite Z.add_assoc.
  rewrite entries_run; [|done|done|pose proof (encode_length xs); unfold sizeof_mpconf; lia|cbn; lia].
  eexists. split; [done|]. by destruct (negb (mp_imcrp mem mp =? 0)).
Qed.

(** A memory given by some of its bytes, zero elsewhere. *)
Definition memory (ls : list (Z * list Z)) (a : Z) : Z :=
  foldr (fun x r => if (x.1 <=? a) && (a <? x.1 + Z.of_nat (length x.2)) then default 0 (x.2 !! Z.to_nat (a - x.1)) else r) 0 ls.

Definition demo_entries : list entry :=
  [Proc 0 (replicate 18 0); Proc 3 (replicate 18 0); Other MPBUS (replicate 7 0); Ioapic 5 (replicate 6 0); Other MPLINTR (replicate 7 0)].

Definition demo_conf (check : Z) (body : list Z) : list Z :=
  bytes_of "PCMP" ++ [44 + Z.of_nat (length body); 0; 4; check] ++ replicate 28 0 ++ [0; 0; 224; 254] ++ replicate 4 0 ++ body.

Definition demo_mp : list Z := bytes_of "_MP_" ++ [0; 1; 15; 0; 1; 4; 144; 0; 0; 0; 0; 0].

Definition demo_mem (check : Z) (body : list Z) : Z -> Z := memory [(1038, [192; 159]); (654352, demo_mp); (983296, demo_conf check body)].

Lemma mpinit_finds_witness :
  exists m, mpinit (demo_mem 115 (concat (map encode demo_entries))) 0 = Found m /\ apicids m = [0; 3] /\ ioapicid m = 5.
Proof.
  destruct (mpinit_finds (demo_mem 115 (concat (map encode demo_entries))) 0 654352 983296 demo_entries) as (m & E & H1 & H2 & _).
  - vm_compute. reflexivity.
  - repeat constructor; cbn; tauto.
  - vm_compute. reflexivity.
  - apply stored_check. vm_compute. reflexivity.
  - exists m. split; [exact E|]. split; [exact H1|exact H2].
Defined.

(** With an entry of another type in the table, [mpinit] does not return. *)
Lemma mpinit_hangs : mpinit (demo_mem 179 [7; 0; 0; 0; 0; 0; 0; 0]) 0 = Hangs /\
  forall fuel m, entries (demo_mem 179 [7; 0; 0; 0; 0; 0; 0; 0]) fuel (983296 + 44) (983296 + 52) true m = None.
Proof.
  split; [vm_compute; reflexivity|]. intros fuel m. apply entries_hang; [lia|]. intros t Ht.
  change (demo_mem 179 [7; 0; 0; 0; 0; 0; 0; 0] (983296 + 44)) with 7. set_solver.
Qed.
