(* ===== verification/Ide.v ===== *)
(** The disk driver ide.c: the queue of requests and the commands to the disk
    controller.

    The driver runs with [idelock] held except while a process sleeps in [iderw], so
    its pieces are the request of a process up to its sleep, the interrupt handler,
    and the test that a process makes when it wakes up.  The controller is the
    registers behind the ports that the driver writes, the command in progress and
    the sectors of the two disks.  A process in [iderw] is named by its buffer, whose
    lock it holds: it is asleep on the buffer's channel, or awake and about to make the
    test of the loop. *)

From S2P Require Import Prelude Kernel.

(** ** The controller *)

Record ata := Ata { sector_count : Z; lba0 : Z; lba1 : Z; lba2 : Z; drive : Z; cmd : option Z; sent : list Z;
  sectors : gmap (Z * Z) (list Z) }.
#[export] Instance ata_set : Settable ata :=
  fun r => Ata (sector_count r) (lba0 r) (lba1 r) (lba2 r) (drive r) (cmd r) (sent r) (sectors r).

Definition outb (port v : Z) (d : ata) : ata :=
  let v := u8 v in
  if port =? 498 then d <| sector_count := v |>
  else if port =? 499 then d <| lba0 := v |>
  else if port =? 500 then d <| lba1 := v |>
  else if port =? 501 then d <| lba2 := v |>
  else if port =? 502 then d <| drive := v |>
  else if port =? 503 then d <| cmd := Some v |>
  else d.

Definition outsl (l : list Z) (d : ata) : ata := d <| sent := l |>.

(** The disk and the sector that the registers select. *)
Definition selected (d : ata) : Z * Z :=
  (Z.land (Z.shiftr (drive d) 4) 1, lba0 d + 256 * lba1 d + 65536 * lba2 d + 16777216 * Z.land (drive d) 15).

Definition insl (d : ata) : list Z := default (replicate 512 0) (sectors d !! selected d).

(** The end of a command, which raises the interrupt. *)
Definition complete (d : ata) : option ata :=
  c ← cmd d;
  Some ((if c =? 48 then d <| sectors ::= <[selected d := sent d]> |> else d) <| cmd := None |>).

(** ** The driver *)

Record dbuf := Dbuf { flags : Z; dev : Z; blockno : Z; data : list Z; qnext : option nat; held : bool }.
#[export] Instance dbuf_set : Settable dbuf := fun r => Dbuf (flags r) (dev r) (blockno r) (data r) (qnext r) (held r).

Inductive thread := Asleep | Awake.
#[export] Instance thread_dec : EqDecision thread.
Proof. solve_decision. Defined.

(** [inside] are the processes in [iderw]. *)
Record driver := Driver { idequeue : option nat; bufs : list dbuf; havedisk1 : bool; ctl : ata; inside : gmap nat thread }.
#[export] Instance driver_set : Settable driver := fun r => Driver (idequeue r) (bufs r) (havedisk1 r) (ctl r) (inside r).

Definition IDE_BSY : Z := 128.
Definition IDE_DRDY : Z := 64.
Definition IDE_DF : Z := 32.
Definition IDE_ERR : Z := 1.
Definition IDE_CMD_READ : Z := 32.
Definition IDE_CMD_WRITE : Z := 48.

(** [idewait]: [sts] are the values that the status port reads; [None] if the disk is
    not ready in any of them. *)
Fixpoint idewait (checkerr : bool) (sts : list Z) : option Z :=
  match sts with
  | [] => None
  | r :: sts =>
      if negb (Z.land r (Z.lor IDE_BSY IDE_DRDY) =? IDE_DRDY) then idewait checkerr sts
      else Some (if checkerr && negb (Z.land r (Z.lor IDE_DF IDE_ERR) =? 0) then -1 else 0)
  end.

(** [ideinit]: whether one of the first 1000 reads of the status of disk 1 is not
    zero.  The wait for the disk before them ends; the interrupt is enabled in
    ioapic.c. *)
Definition ideinit (sts : list Z) (s : driver) : driver :=
  let s := s <| ctl ::= outb 502 (Z.lor 224 (Z.shiftl 1 4)) |> in
  let s := if existsb (fun r => negb (r =? 0)) (take 1000 sts) then s <| havedisk1 := true |> else s in
  s <| ctl ::= outb 502 (Z.lor 224 (Z.shiftl 0 4)) |>.

(** A panic is [None].  The wait for the disk ends: it is ready when no command is in
    progress.  A block is one sector. *)
Definition idestart (b : option nat) (s : driver) : option driver :=
  i ← b;
  x ← bufs s !! i;
  if FSSIZE <=? blockno x then None else
  let sector := i32 (blockno x * 1) in
  let c := outb 1014 0 (ctl s) in
  let c := outb 498 1 c in
  let c := outb 499 (Z.land sector 255) c in
  let c := outb 500 (Z.land (Z.shiftr sector 8) 255) c in
  let c := outb 501 (Z.land (Z.shiftr sector 16) 255) c in
  let c := outb 502 (Z.lor (Z.lor 224 (Z.shiftl (Z.land (dev x) 1) 4)) (Z.land (Z.shiftr sector 24) 15)) c in
  let c := if hasf (flags x) B_DIRTY then outsl (data x) (outb 503 IDE_CMD_WRITE c) else outb 503 IDE_CMD_READ c in
  Some (s <| ctl := c |>).

Definition upd (i : nat) (f : dbuf -> dbuf) (s : driver) : driver := s <| bufs ::= alter f i |>.

(** [wakeup(b)]: the process that sleeps on the channel [b] is runnable again. *)
Definition wakeup (b : nat) (s : driver) : driver := s <| inside ::= alter (fun _ => Awake) b |>.

(** The interrupt handler; [sts] is what the status port reads in it. *)
Definition ideintr (sts : list Z) (s : driver) : option driver :=
  match idequeue s with
  | None => Some s
  | Some b =>
      x ← bufs s !! b;
      let s := s <| idequeue := qnext x |> in
      s ← (if negb (hasf (flags x) B_DIRTY)
           then r ← idewait true sts; Some (if 0 <=? r then upd b (fun x => x <| data := insl (ctl s) |>) s else s)
           else Some s);
      let s := upd b (fun x => x <| flags ::= fun f => setf f B_VALID |>) s in
      let s := upd b (fun x => x <| flags ::= fun f => clrf f B_DIRTY |>) s in
      let s := wakeup b s in
      match idequeue s with Some n => idestart (Some n) s | None => Some s end
  end.

(** The end of the queue, from the buffer [i]. *)
Fixpoint last_from (fuel : nat) (i : nat) (l : list dbuf) : option nat :=
  match fuel with
  | O => None
  | S fuel => x ← l !! i; match qnext x with None => Some i | Some j => last_from fuel j l end
  end.

(** The test of the loop of [iderw]. *)
Definition iderw_done (b : nat) (s : driver) : bool :=
  match bufs s !! b with Some x => Z.land (flags x) (Z.lor B_VALID B_DIRTY) =? B_VALID | None => false end.

(** One round of the loop: the process returns, or sleeps on its buffer. *)
Definition iderw_wait (b : nat) (s : driver) : driver :=
  if iderw_done b s then s <| inside ::= delete b |> else s <| inside ::= <[b := Asleep]> |>.

(** [iderw], up to its first sleep. *)
Definition iderw (b : nat) (s : driver) : option driver :=
  x ← bufs s !! b;
  if negb (held x) then None else
  if Z.land (flags x) (Z.lor B_VALID B_DIRTY) =? B_VALID then None else
  if negb (dev x =? 0) && negb (havedisk1 s) then None else
  let s := upd b (fun x => x <| qnext := None |>) s in
  s ← match idequeue s with
      | None => Some (s <| idequeue := Some b |>)
      | Some q => l ← last_from (S (length (bufs s))) q (bufs s); Some (upd l (fun x => x <| qnext := Some b |>) s)
      end;
  s ← (if bool_decide (idequeue s = Some b) then idestart (Some b) s else Some s);
  Some (iderw_wait b s).

(** ** Requests and interrupts *)

(** A process calls [iderw]; the disk raises its interrupt, at the end of a command or
    when there is none; a process in [iderw] runs, if it is awake; [kill] wakes a process
    that sleeps; a process that holds a buffer and is not in [iderw] writes to it. *)
Inductive event := Request (b : nat) | Interrupt (sts : list Z) | Resume (b : nat) | Kill (b : nat) | Store (b : nat) (l : list Z).

Definition step (e : event) (s : driver) : option driver :=
  match e with
  | Request b => iderw b s
  | Interrupt sts => ideintr sts (s <| ctl := default (ctl s) (complete (ctl s)) |>)
  | Resume b => match inside s !! b with Some Awake => Some (iderw_wait b s) | _ => Some s end
  | Kill b => Some (wakeup b s)
  | Store b l =>
      x ← bufs s !! b;
      if held x && bool_decide (inside s !! b = None)
      then Some (upd b (fun x => x <| data := l |> <| flags ::= fun f => setf f B_DIRTY |>) s) else None
  end.

Fixpoint run (es : list event) (s : driver) : option driver :=
  match es with [] => Some s | e :: es => s ← step e s; run es s end.
