(* ===== verification/IdeSpec.v ===== *)
(** The disk driver serves its requests in order, each one as the driver of the
    memory disk (memide.c) does at once. *)

From S2P Require Import Prelude Kernel Ide.

(** ** The specification *)



(** A request that the kernel can make. *)
Definition valid_request (have : bool) (x : dbuf) : Prop :=
  held x = true /\ Z.land (flags x) (Z.lor B_VALID B_DIRTY) <> B_VALID /\ 0 <= blockno x < FSSIZE /\ (dev x = 0 \/ dev x = 1 /\ have = true).
#[export] Instance valid_request_dec have x : Decision (valid_request have x).
Proof. unfold valid_request. apply _. Defined.



(** ** The queue in the buffers *)

Fixpoint chain (o : option nat) (l : list dbuf) (qs : list nat) : Prop :=
  match qs with
  | [] => o = None
  | b :: qs => o = Some b /\ exists x, l !! b = Some x /\ chain (qnext x) l qs
  end.



(** A change that keeps the links. *)
Lemma chain_same o l qs b f : (forall x, qnext (f x) = qnext x) -> chain o l qs -> chain o (alter f b l) qs.
Proof.
  intros Hf. revert o. induction qs as [|c qs IH]; intros o; cbn; [done|]. intros (-> & x & Hx & Hc). split; [done|].
  destruct (decide (c = b)) as [->|Hne].
  - exists (f x). rewrite list_lookup_alter_eq, Hx, Hf. split; [done|by apply IH].
  - exists x. rewrite list_lookup_alter_ne by done. split; [done|by apply IH].
Qed.




(** ** Commands *)






(** ** The simulation *)





















(** ** Requests that have been served *)








(** ** The other steps *)








