(* ===== verification/Boot.v ===== *)
(** The boot loader, bootmain.c: it reads the kernel's ELF file from the disk, where
    it starts at sector 1, and puts each of its segments in memory.

    The state is the physical memory, byte by byte, and the disk controller of
    [Ide].  The loader waits for the disk by polling; the wait ends. *)

From S2P Require Import Prelude Kernel Mp Exec Ide.

Definition SECTSIZE : Z := 512.

Record loader := Loader { mem : Z -> Z; disk : ata }.
#[export] Instance loader_set : Settable loader := fun r => Loader (mem r) (disk r).

(** The bytes [l] from the address [a], which wraps around at 2^32. *)
Definition store (a : Z) (l : list Z) (m : Z -> Z) : Z -> Z :=
  fun x => let i := u32 (x - a) in if i <? Z.of_nat (length l) then nth (Z.to_nat i) l 0 else m x.

Definition readsect (dst offset : Z) (s : loader) : loader :=
  let d := outb 498 1 (disk s) in
  let d := outb 499 offset d in
  let d := outb 500 (Z.shiftr offset 8) d in
  let d := outb 501 (Z.shiftr offset 16) d in
  let d := outb 502 (Z.lor (Z.shiftr offset 24) 224) d in
  let d := outb 503 32 d in
  s <| disk := d <| cmd := None |> |> <| mem ::= store dst (insl d) |>.

(** The loop of [readseg]; [None] if [fuel] iterations are not enough. *)
Fixpoint read_sectors (fuel : nat) (pa epa offset : Z) (s : loader) : option loader :=
  if pa <? epa then
    match fuel with
    | O => None
    | S fuel => read_sectors fuel (u32 (pa + SECTSIZE)) epa (u32 (offset + 1)) (readsect pa offset s)
    end
  else Some s.

Definition readseg (pa count offset : Z) (s : loader) : option loader :=
  let epa := u32 (pa + count) in
  let pa := u32 (pa - offset mod SECTSIZE) in
  let offset := offset / SECTSIZE + 1 in
  read_sectors (Z.to_nat (epa / SECTSIZE + 1)) pa epa offset s.

(** The fields of a program header that the loader uses. *)
Definition p_off (f : Z -> Z) (ph : Z) : Z := rd32 f (ph + 4).
Definition p_paddr (f : Z -> Z) (ph : Z) : Z := rd32 f (ph + 12).
Definition p_filesz (f : Z -> Z) (ph : Z) : Z := rd32 f (ph + 16).
Definition p_memsz (f : Z -> Z) (ph : Z) : Z := rd32 f (ph + 20).

(** One program segment. *)
Definition load_segment (ph : Z) (s : loader) : option loader :=
  let pa := p_paddr (mem s) ph in
  s ← readseg pa (p_filesz (mem s) ph) (p_off (mem s) ph) s;
  Some (if p_filesz (mem s) ph <? p_memsz (mem s) ph
        then s <| mem ::= store (u32 (pa + p_filesz (mem s) ph)) (replicate (Z.to_nat (p_memsz (mem s) ph - p_filesz (mem s) ph)) 0) |>
        else s).

(** The loop over the program headers, which ends when [ph] reaches [eph]. *)
Fixpoint load_segments (n : nat) (ph eph : Z) (s : loader) : option loader :=
  match n with
  | O => Some s
  | S n => if ph <? eph then s ← load_segment ph s; load_segments n (u32 (ph + SIZEOF_PROGHDR)) eph s else Some s
  end.

(** The address that the loader jumps to, or [None] if it returns to bootasm.S. *)
Definition bootmain (s : loader) : option (loader * option Z) :=
  let elf := 65536 in
  s ← readseg elf 4096 0 s;
  if negb (rd32 (mem s) elf =? ELF_MAGIC) then Some (s, None) else
  let ph := u32 (elf + rd32 (mem s) (elf + 28)) in
  let phnum := rd16 (mem s) (elf + 44) in
  s ← load_segments (Z.to_nat phnum) ph (u32 (ph + phnum * SIZEOF_PROGHDR)) s;
  Some (s, Some (rd32 (mem s) (elf + 24))).

(** ** Sectors *)

(** The kernel's file, byte by byte, as the disk holds it from sector 1. *)
Definition kfile (d : gmap (Z * Z) (list Z)) (i : Z) : Z :=
  nth (Z.to_nat (i mod SECTSIZE)) (default (replicate 512 0) (d !! (0, i / SECTSIZE + 1))) 0.

Definition whole_sectors (d : gmap (Z * Z) (list Z)) : Prop := map_Forall (fun _ l => length l = 512%nat) d.

Lemma whole_default d k : whole_sectors d -> length (default (replicate 512 0) (d !! k)) = 512%nat.
Proof. intros H. destruct (d !! k) as [l|] eqn:E; cbn [default]; [exact (H k l E)|apply length_replicate]. Qed.

Lemma lookup_store a l m x :
  0 <= a -> a + Z.of_nat (length l) <= 4294967296 -> 0 <= x < 4294967296 ->
  store a l m x = if bool_decide (a <= x < a + Z.of_nat (length l)) then nth (Z.to_nat (x - a)) l 0 else m x.
Proof.
  intros Ha Hl Hx. unfold store, u32. case_bool_decide as H.
  - rewrite Z.mod_small by lia. destruct (Z.ltb_spec (x - a) (Z.of_nat (length l))); [done|lia].
  - destruct (Z.ltb_spec ((x - a) mod 4294967296) (Z.of_nat (length l))); [|done].
    exfalso. destruct (Z.le_gt_cases a x).
    + rewrite Z.mod_small in * by lia. lia.
    + rewrite <- (Z.mod_add _ 1), Z.mod_small in * by lia. lia.
Qed.

Lemma selected_sector o : 0 <= o < 268435456 ->
  u8 o + 256 * u8 (Z.shiftr o 8) + 65536 * u8 (Z.shiftr o 16) + 16777216 * Z.land (u8 (Z.lor (Z.shiftr o 24) 224)) 15 = o /\
  Z.land (Z.shiftr (u8 (Z.lor (Z.shiftr o 24) 224)) 4) 1 = 0.
Proof.
  intros Ho. rewrite !Z.shiftr_div_pow2 by lia. assert (0 <= o / 2 ^ 24 < 16) as Hq by (change (2 ^ 24) with 16777216; lia).
  assert (forall q, 0 <= q < 16 -> Z.land (u8 (Z.lor q 224)) 15 = q /\ Z.shiftr (u8 (Z.lor q 224)) 4 = 14) as F.
  { intros q Hr. assert (q = 0 \/ q = 1 \/ q = 2 \/ q = 3 \/ q = 4 \/ q = 5 \/ q = 6 \/ q = 7 \/ q = 8 \/ q = 9 \/ q = 10 \/ q = 11 \/
      q = 12 \/ q = 13 \/ q = 14 \/ q = 15) as H by lia. repeat destruct H as [->|H]; try done. by subst q. }
  destruct (F _ Hq) as [E1 E2]. rewrite E1, <- (Z.shiftr_div_pow2 (u8 _)), E2 by lia. split; [|done]. unfold u8.
  change (2 ^ 8) with 256. change (2 ^ 16) with 65536. change (2 ^ 24) with 16777216. lia.
Qed.

Lemma readsect_selected dst o s : 0 <= o < 268435456 ->
  readsect dst o s = Loader (store dst (default (replicate 512 0) (sectors (disk s) !! (0, o))) (mem s))
    (disk (readsect dst o s)) /\ sectors (disk (readsect dst o s)) = sectors (disk s).
Proof.
  intros Ho. destruct (selected_sector o Ho) as [E1 E2]. split; [|done]. unfold readsect. unfold setter. cbn [loader_set mem disk].
  f_equal. unfold insl. cbn [sectors outb Z.eqb setter ata_set]. do 3 f_equal. unfold selected. cbn. by rewrite E1, E2.
Qed.

Lemma read_sectors_spec n : forall fuel lo epa o s, (n <= fuel)%nat -> whole_sectors (sectors (disk s)) ->
  0 <= lo -> lo + 512 * Z.of_nat n < 4294967296 -> 0 < o -> o + Z.of_nat n < 268435456 ->
  lo + 512 * Z.of_nat n - 512 < epa <= lo + 512 * Z.of_nat n ->
  exists s', read_sectors fuel lo epa o s = Some s' /\ sectors (disk s') = sectors (disk s) /\
    forall x, 0 <= x < 4294967296 -> mem s' x =
      if bool_decide (lo <= x < lo + 512 * Z.of_nat n) then kfile (sectors (disk s)) (x - lo + 512 * (o - 1)) else mem s x.
Proof.
  induction n as [|n IH]; intros fuel lo epa o s Hf Hw Hlo Hhi Ho Ho' He.
  - exists s. split; [|split; [done|]].
    + destruct fuel; cbn [read_sectors]; (destruct (Z.ltb_spec lo epa); [lia|done]).
    + intros x Hx. case_bool_decide; [lia|done].
  - destruct fuel as [|fuel]; [lia|]. cbn [read_sectors]. destruct (Z.ltb_spec lo epa); [|lia].
    destruct (readsect_selected lo o s ltac:(lia)) as [Er Es]. unfold u32, SECTSIZE. rewrite !Z.mod_small by lia.
    edestruct (IH fuel (lo + 512) epa (o + 1) (readsect lo o s)) as (s' & E & Es' & Hm); rewrite ?Es; try lia; [done|].
    exists s'. split; [done|]. split; [by rewrite Es', Es|]. intros x Hx. rewrite (Hm x Hx), Es. case_bool_decide as H1.
    + rewrite bool_decide_eq_true_2 by lia. f_equal. lia.
    + rewrite Er. cbn [mem]. rewrite lookup_store by (rewrite ?whole_default by done; lia). rewrite whole_default by done.
      change (Z.of_nat 512) with 512. case_bool_decide as H2.
      * rewrite bool_decide_eq_true_2 by lia. unfold kfile, SECTSIZE.
        replace ((x - lo + 512 * (o - 1)) mod 512) with (x - lo) by lia. by replace ((x - lo + 512 * (o - 1)) / 512 + 1) with o by lia.
      * rewrite bool_decide_eq_false_2 by lia. done.
Qed.

Lemma readseg_spec pa count off s :
  whole_sectors (sectors (disk s)) -> 0 <= off < 4294967296 -> 0 <= count ->
  0 <= pa - off mod 512 -> pa - off mod 512 + 512 * ((count + off mod 512 + 511) / 512) < 4294967296 ->
  exists s', readseg pa count off s = Some s' /\ sectors (disk s') = sectors (disk s) /\
    forall x, 0 <= x < 4294967296 -> mem s' x =
      if bool_decide (pa - off mod 512 <= x < pa - off mod 512 + 512 * ((count + off mod 512 + 511) / 512))
      then kfile (sectors (disk s)) (x - pa + off) else mem s x.
Proof.
  intros Hw Ho Hc Hlo Hhi. unfold readseg, SECTSIZE.
  set (n := (count + off mod 512 + 511) / 512) in *. assert (0 <= n /\ 512 * n - 512 < count + off mod 512 <= 512 * n) as Hn by (subst n; lia).
  assert (u32 (pa + count) = pa + count) as -> by (unfold u32; rewrite Z.mod_small; lia).
  assert (u32 (pa - off mod 512) = pa - off mod 512) as -> by (unfold u32; rewrite Z.mod_small; lia).
  destruct (read_sectors_spec (Z.to_nat n) (Z.to_nat ((pa + count) / 512 + 1)) (pa - off mod 512) (pa + count) (off / 512 + 1) s)
    as (s' & E & Es & Hm); try lia; [done|].
  exists s'. split; [exact E|]. split; [exact Es|]. intros x Hx. rewrite (Hm x Hx), Z2Nat.id by lia. case_bool_decide; [|done]. f_equal. lia.
Qed.

(** ** Segments *)

Record segment := Segment { s_off : Z; s_pa : Z; s_filesz : Z; s_memsz : Z }.
Definition segment_at (f : Z -> Z) (ph : Z) : segment := Segment (p_off f ph) (p_paddr f ph) (p_filesz f ph) (p_memsz f ph).
Fixpoint segments (f : Z -> Z) (n : nat) (ph : Z) : list segment :=
  match n with O => [] | S n => segment_at f ph :: segments f n (ph + SIZEOF_PROGHDR) end.

(** What a segment is in memory, and the bytes that are written to put it there:
    whole sectors are read, so some bytes around it are written too. *)
Definition s_end (g : segment) : Z := s_pa g + s_filesz g `max` s_memsz g.
Definition s_low (g : segment) : Z := s_pa g - s_off g mod 512.
Definition s_top (g : segment) : Z := (s_low g + 512 * ((s_filesz g + s_off g mod 512 + 511) / 512)) `max` (s_pa g + s_memsz g).
Definition s_byte (f : Z -> Z) (g : segment) (x : Z) : Z := if x <? s_pa g + s_filesz g then f (x - s_pa g + s_off g) else 0.

(** A segment that can be loaded: what is written stays in memory and out of the page
    where the headers are. *)
Record loadable (g : segment) : Prop := Loadable {
  l_off : 0 <= s_off g < 4294967296; l_filesz : 0 <= s_filesz g; l_memsz : 0 <= s_memsz g;
  l_low : 0 <= s_low g; l_top : s_top g < 4294967296; l_page : s_top g <= 65536 \/ 69632 <= s_low g }.

(** No segment is overwritten by one that is loaded after it. *)
Fixpoint apart (gs : list segment) : Prop :=
  match gs with [] => True | g :: gs => Forall (fun h => s_end g <= s_low h \/ s_top h <= s_pa g) gs /\ apart gs end.

(** The page of the headers. *)
Definition headers (f : Z -> Z) (s : loader) : Prop := forall k, 0 <= k < 4096 -> mem s (65536 + k) = f k.

Lemma rd32_headers f s k : headers f s -> 0 <= k <= 4092 -> rd32 (mem s) (65536 + k) = rd32 f k.
Proof. intros H Hk. unfold rd32, rd16. by rewrite <- !Z.add_assoc, !H by lia. Qed.

Lemma rd16_headers f s k : headers f s -> 0 <= k <= 4094 -> rd16 (mem s) (65536 + k) = rd16 f k.
Proof. intros H Hk. unfold rd16. by rewrite <- !Z.add_assoc, !H by lia. Qed.

Lemma segment_headers f s k : headers f s -> 0 <= k <= 4064 -> segment_at (mem s) (65536 + k) = segment_at f k.
Proof. intros H Hk. unfold segment_at, p_off, p_paddr, p_filesz, p_memsz. by rewrite <- !Z.add_assoc, !(rd32_headers f s) by (done || lia). Qed.

Lemma nth_replicate_0 n i : nth i (replicate n 0) 0 = 0.
Proof. revert i. induction n; intros [|i]; cbn; auto. Qed.

Lemma load_segment_spec f k s : f = kfile (sectors (disk s)) -> whole_sectors (sectors (disk s)) -> headers f s -> 0 <= k <= 4064 ->
  loadable (segment_at f k) -> let g := segment_at f k in
  exists s', load_segment (65536 + k) s = Some s' /\ sectors (disk s') = sectors (disk s) /\
    (forall x, s_pa g <= x < s_end g -> mem s' x = s_byte f g x) /\
    (forall x, 0 <= x < 4294967296 -> ~ s_low g <= x < s_top g -> mem s' x = mem s x).
Proof.
  intros -> Hw Hh Hk [L1 L2 L3 L4 L5 L6] g. pose proof (segment_headers _ s k Hh Hk) as Eg. fold g in Eg, L1, L2, L3, L4, L5, L6.
  unfold load_segment. change (p_paddr (mem s) (65536 + k)) with (s_pa (segment_at (mem s) (65536 + k))).
  change (p_filesz (mem s) (65536 + k)) with (s_filesz (segment_at (mem s) (65536 + k))).
  change (p_off (mem s) (65536 + k)) with (s_off (segment_at (mem s) (65536 + k))). rewrite Eg.
  unfold s_top, s_low in *. set (m := 512 * ((s_filesz g + s_off g mod 512 + 511) / 512)) in *.
  assert (s_filesz g + s_off g mod 512 <= m) as Hm by (subst m; lia).
  destruct (readseg_spec (s_pa g) (s_filesz g) (s_off g) s) as (s1 & E & Es & H1); try done; [lia|]. fold m in H1.
  rewrite E. cbn [mbind option_bind].
  assert (headers (kfile (sectors (disk s))) s1) as Hh1.
  { intros i Hi. rewrite H1, bool_decide_eq_false_2 by lia. by apply Hh. }
  pose proof (segment_headers _ s1 k Hh1 Hk) as Eg1. fold g in Eg1.
  assert (p_filesz (mem s1) (65536 + k) = s_filesz g) as -> by (by rewrite <- Eg1).
  assert (p_memsz (mem s1) (65536 + k) = s_memsz g) as -> by (by rewrite <- Eg1).
  eexists. split; [reflexivity|]. unfold s_end, s_byte. destruct (Z.ltb_spec (s_filesz g) (s_memsz g)) as [Hlt|Hge].
  - split; [exact Es|]. unfold setter. cbn [mem loader_set]. unfold u32. rewrite Z.mod_small by lia.
    split; intros x Hx; [|intros Hx']; rewrite lookup_store, length_replicate, Z2Nat.id by (rewrite ?length_replicate; lia).
    + destruct (Z.ltb_spec x (s_pa g + s_filesz g)).
      * rewrite bool_decide_eq_false_2, H1, bool_decide_eq_true_2 by lia. done.
      * rewrite bool_decide_eq_true_2 by lia. apply nth_replicate_0.
    + rewrite bool_decide_eq_false_2, H1, bool_decide_eq_false_2 by lia. done.
  - split; [exact Es|]. split; intros x Hx; [|intros Hx']; rewrite H1 by lia.
    + rewrite bool_decide_eq_true_2 by lia. destruct (Z.ltb_spec x (s_pa g + s_filesz g)); [done|lia].
    + by rewrite bool_decide_eq_false_2 by lia.
Qed.

Lemma load_segments_spec f n : forall k s, f = kfile (sectors (disk s)) -> whole_sectors (sectors (disk s)) -> headers f s ->
  0 <= k -> k + 32 * Z.of_nat n <= 4096 -> Forall loadable (segments f n k) -> apart (segments f n k) ->
  exists s', load_segments n (65536 + k) (65536 + k + 32 * Z.of_nat n) s = Some s' /\ headers f s' /\
    (forall g x, g ∈ segments f n k -> s_pa g <= x < s_end g -> mem s' x = s_byte f g x) /\
    (forall x, 0 <= x < 4294967296 -> Forall (fun g => ~ s_low g <= x < s_top g) (segments f n k) -> mem s' x = mem s x).
Proof.
  induction n as [|n IH]; intros k s Hf Hw Hh Hk Hn Hl Ha.
  - exists s. split; [done|]. split; [done|]. split; [by intros g x Hg%not_elem_of_nil|done].
  - cbn [segments] in Hl, Ha. apply Forall_cons in Hl as [Hg Hl]. destruct Ha as [Ha1 Ha].
    destruct (load_segment_spec f k s Hf Hw Hh ltac:(lia) Hg) as (s1 & E & Es & Hin & Hout).
    cbn [load_segments]. destruct (Z.ltb_spec (65536 + k) (65536 + k + 32 * Z.of_nat (S n))); [|lia].
    rewrite E. cbn [mbind option_bind]. unfold u32, SIZEOF_PROGHDR. rewrite Z.mod_small by lia.
    replace (65536 + k + 32 * Z.of_nat (S n)) with (65536 + (k + 32) + 32 * Z.of_nat n) by lia. rewrite <- Z.add_assoc.
    assert (headers f s1) as Hh1.
    { intros i Hi. destruct Hg. rewrite Hout by lia. by apply Hh. }
    destruct (IH (k + 32) s1) as (s2 & E2 & Hh2 & Hin2 & Hout2); try (rewrite ?Es; done || lia).
    exists s2. split; [exact E2|]. split; [done|]. split.
    + intros g x [->|Hg2]%elem_of_cons Hx; [|by apply Hin2]. rewrite Hout2; [by apply Hin| |].
      * destruct Hg as [G1 G2 G3 G4 G5 _]. unfold s_end, s_top, s_low in *. lia.
      * eapply Forall_impl; [exact Ha1|]. intros h Hh'. cbn in *. lia.
    + intros x Hx [H1 H2]%Forall_cons. by rewrite Hout2, Hout by done.
Qed.

(** The kernel on the disk: an ELF file whose headers are in its first page, and whose
    segments can be loaded in their order. *)
Record kernel_image (f : Z -> Z) : Prop := Kernel_image {
  k_magic : rd32 f 0 = ELF_MAGIC;
  k_phoff : 0 <= rd32 f 28; k_phnum : 0 <= rd16 f 44; k_headers : rd32 f 28 + 32 * rd16 f 44 <= 4096;
  k_loadable : Forall loadable (segments f (Z.to_nat (rd16 f 44)) (rd32 f 28));
  k_apart : apart (segments f (Z.to_nat (rd16 f 44)) (rd32 f 28)) }.

Lemma readseg_headers s : whole_sectors (sectors (disk s)) ->
  exists s', readseg 65536 4096 0 s = Some s' /\ sectors (disk s') = sectors (disk s) /\ headers (kfile (sectors (disk s))) s' /\
    forall x, 0 <= x < 4294967296 -> ~ 65536 <= x < 69632 -> mem s' x = mem s x.
Proof.
  intros Hw. destruct (readseg_spec 65536 4096 0 s Hw) as (s' & E & Es & Hm); try done. exists s'. split; [done|]. split; [done|].
  change (512 * ((4096 + 0 mod 512 + 511) / 512)) with 4096 in Hm. change (65536 - 0 mod 512) with 65536 in Hm.
  split; [intros k Hk|intros x Hx Hx']; rewrite Hm by lia.
  - rewrite bool_decide_eq_true_2 by lia. f_equal. lia.
  - by rewrite bool_decide_eq_false_2 by lia.
Qed.

(** C35. The boot loader puts the kernel in memory: it ends, it jumps to the entry point of
    the file on the disk, every segment has at its address the bytes of the file followed
    by zeroes up to its size in memory, and no byte away from the segments' sectors and
    from the page of the headers changes. *)
Theorem bootmain_loads s : let f := kfile (sectors (disk s)) in
  let gs := segments f (Z.to_nat (rd16 f 44)) (rd32 f 28) in
  whole_sectors (sectors (disk s)) -> kernel_image f ->
  exists s', bootmain s = Some (s', Some (rd32 f 24)) /\
    (forall g x, g ∈ gs -> s_pa g <= x < s_end g -> mem s' x = s_byte f g x) /\
    (forall x, 0 <= x < 4294967296 -> ~ 65536 <= x < 69632 -> Forall (fun g => ~ s_low g <= x < s_top g) gs -> mem s' x = mem s x).
Proof.
  intros f gs Hw [K1 K2 K3 K4 K5 K6]. destruct (readseg_headers s Hw) as (s1 & E1 & Es & Hh & Hout). fold f in Hh.
  unfold bootmain. rewrite E1. cbn [mbind option_bind]. change (rd32 (mem s1) 65536) with (rd32 (mem s1) (65536 + 0)).
  rewrite !(rd32_headers f s1), (rd16_headers f s1), K1 by (done || lia). cbn [negb Z.eqb].
  destruct (load_segments_spec f (Z.to_nat (rd16 f 44)) (rd32 f 28) s1) as (s2 & E2 & Hh2 & Hin2 & Hout2); try (rewrite ?Es; done || lia).
  rewrite Z2Nat.id in E2 by lia. unfold u32, SIZEOF_PROGHDR. rewrite !Z.mod_small, (Z.mul_comm (rd16 f 44)), E2 by (rewrite ?Z.mod_small; lia).
  cbn [mbind option_bind]. rewrite (rd32_headers f s2) by (done || lia). exists s2. split; [done|]. split; [done|].
  intros x Hx Hx' Hg. by rewrite Hout2, Hout by done.
Qed.

(** A kernel of two segments, the first one with 690 zeroes at its end. *)
Definition demo_file : list Z :=
  let hdr := put32 (put16 (put32 (put32 (replicate 2048 5) 0 ELF_MAGIC) 24 1048588) 44 2) 28 52 in
  let ph (k : nat) off pa fsz msz d := put32 (put32 (put32 (put32 d (k + 4) off) (k + 12) pa) (k + 16) fsz) (k + 20) msz in
  blit (ph 84%nat 1124 1050000 20 20 (ph 52%nat 600 1048576 10 700 hdr)) 600 [1; 2; 3; 4; 5; 6; 7; 8; 9; 10].
Definition demo_disk : ata :=
  Ata 0 0 0 0 0 None [] (list_to_map (map (fun k => ((0, Z.of_nat k + 1), slice demo_file (512 * k) 512)) (seq 0 4))).

Lemma demo_image : whole_sectors (sectors demo_disk) /\ kernel_image (kfile (sectors demo_disk)).
Proof.
  split; [apply map_Forall_to_list; vm_compute; by repeat constructor|].
  assert (segments (kfile (sectors demo_disk)) (Z.to_nat (rd16 (kfile (sectors demo_disk)) 44)) (rd32 (kfile (sectors demo_disk)) 28)
    = [Segment 600 1048576 10 700; Segment 1124 1050000 20 20]) as E by (vm_compute; reflexivity).
  constructor; [vm_compute; reflexivity|by vm_compute|by vm_compute|by vm_compute|rewrite E; clear E|rewrite E; clear E].
  - apply Forall_cons; split; [|apply Forall_cons; split; [|done]]; (constructor; [by vm_compute..|right; by vm_compute]).
  - split; [|split; [constructor|done]]. apply Forall_cons; split; [|constructor]. left. by vm_compute.
Qed.

Lemma bootmain_loads_witness : exists s', bootmain (Loader (fun _ => 3) demo_disk) = Some (s', Some 1048588) /\
  mem s' 1048577 = 2 /\ mem s' 1049275 = 0 /\ mem s' 1050019 = 5 /\ mem s' 2000000 = 3.
Proof.
  destruct (bootmain_loads (Loader (fun _ => 3) demo_disk) (proj1 demo_image) (proj2 demo_image)) as (s' & E & Hin & Hout).
  exists s'. split; [exact E|]. cbn [disk mem] in Hin, Hout.
  assert (segments (kfile (sectors demo_disk)) (Z.to_nat (rd16 (kfile (sectors demo_disk)) 44)) (rd32 (kfile (sectors demo_disk)) 28)
    = [Segment 600 1048576 10 700; Segment 1124 1050000 20 20]) as Es by (vm_compute; reflexivity). rewrite Es in Hin, Hout. split; [|split; [|split]].
  - erewrite (Hin (Segment 600 1048576 10 700)); [vm_compute; reflexivity|left|vm_compute; split; congruence].
  - erewrite (Hin (Segment 600 1048576 10 700)); [vm_compute; reflexivity|left|vm_compute; split; congruence].
  - erewrite (Hin (Segment 1124 1050000 20 20)); [vm_compute; reflexivity|right; left|vm_compute; split; congruence].
  - apply Hout; [lia|lia|]. repeat constructor; vm_compute; intros [H1 H2]; congruence.
Defined.

(** Without the magic number the loader returns, and no segment is loaded. *)
Theorem bootmain_not_elf s : whole_sectors (sectors (disk s)) -> rd32 (kfile (sectors (disk s))) 0 <> ELF_MAGIC ->
  exists s', bootmain s = Some (s', None) /\ forall x, 0 <= x < 4294967296 -> ~ 65536 <= x < 69632 -> mem s' x = mem s x.
Proof.
  intros Hw Hm. destruct (readseg_headers s Hw) as (s1 & E1 & _ & Hh & Hout). exists s1. split; [|done]. unfold bootmain. rewrite E1. cbn [mbind option_bind].
  change (rd32 (mem s1) 65536) with (rd32 (mem s1) (65536 + 0)). rewrite (rd32_headers _ s1 0 Hh) by lia. by apply Z.eqb_neq in Hm as ->.
Qed.
