(* ===== verification/Desc.v ===== *)
(** Segment and gate descriptors: the bit fields of mmu.h, the tables that [seginit]
    (vm.c), the task state that [switchuvm] (vm.c) sets up, and [tvinit] (trap.c), and
    what the processor reads in them. *)

From S2P Require Import Prelude Kernel Syscall.

(** ** Bit fields *)

(** The C bit fields of a structure, from the lowest bit: the width and the value of
    each one. *)
Fixpoint pack (l : list (Z * Z)) : Z :=
  match l with [] => 0 | (w, v) :: l => v mod 2 ^ w + 2 ^ w * pack l end.
Fixpoint width (l : list (Z * Z)) : Z :=
  match l with [] => 0 | f :: l => f.1 + width l end.

(** ** Segments *)

Definition SEG_KCODE : nat := 1.
Definition SEG_KDATA : nat := 2.
Definition SEG_UCODE : nat := 3.
Definition SEG_UDATA : nat := 4.
Definition SEG_TSS : nat := 5.
Definition NSEGS : nat := 6.
Definition DPL_USER : Z := 3.
Definition STA_X : Z := 8.
Definition STA_W : Z := 2.
Definition STA_R : Z := 2.
Definition STS_T32A : Z := 9.
Definition STS_IG32 : Z := 14.
Definition STS_TG32 : Z := 15.

Record segdesc := Segdesc { lim_15_0 : Z; base_15_0 : Z; base_23_16 : Z; sd_type : Z; sd_s : Z; sd_dpl : Z; sd_p : Z;
  lim_19_16 : Z; sd_avl : Z; sd_rsv1 : Z; sd_db : Z; sd_g : Z; base_31_24 : Z }.
#[export] Instance segdesc_set : Settable segdesc := fun r =>
  Segdesc (lim_15_0 r) (base_15_0 r) (base_23_16 r) (sd_type r) (sd_s r) (sd_dpl r) (sd_p r)
    (lim_19_16 r) (sd_avl r) (sd_rsv1 r) (sd_db r) (sd_g r) (base_31_24 r).

Definition segdesc_fields (d : segdesc) : list (Z * Z) :=
  [(16, lim_15_0 d); (16, base_15_0 d); (8, base_23_16 d); (4, sd_type d); (1, sd_s d); (2, sd_dpl d); (1, sd_p d);
   (4, lim_19_16 d); (1, sd_avl d); (1, sd_rsv1 d); (1, sd_db d); (1, sd_g d); (8, base_31_24 d)].

Definition SEG (type base lim dpl : Z) : segdesc :=
  Segdesc (Z.land (Z.shiftr lim 12) 65535) (Z.land base 65535) (Z.land (Z.shiftr base 16) 255) type 1 dpl 1
    (Z.shiftr lim 28) 0 0 1 1 (Z.shiftr base 24).
Definition SEG16 (type base lim dpl : Z) : segdesc :=
  Segdesc (Z.land lim 65535) (Z.land base 65535) (Z.land (Z.shiftr base 16) 255) type 1 dpl 1
    (Z.shiftr lim 16) 0 0 1 0 (Z.shiftr base 24).

(** The six bytes that [lgdt] and [lidt] give to the processor: the limit and the two
    halves of the address. *)
Definition lgdt (p size : Z) : Z * Z * Z := (u16 (size - 1), u16 p, u16 (Z.shiftr p 16)).
Definition lidt (p size : Z) : Z * Z * Z := (u16 (size - 1), u16 p, u16 (Z.shiftr p 16)).

(** The segments of a processor: its table, at [gdt_addr], and its table register. *)
Record cpusegs := Cpusegs { gdt : list segdesc; gdtr : option (Z * Z * Z) }.

Definition seginit (gdt_addr : Z) (c : cpusegs) : cpusegs :=
  let g := <[SEG_KCODE := SEG (Z.lor STA_X STA_R) 0 4294967295 0]> (gdt c) in
  let g := <[SEG_KDATA := SEG STA_W 0 4294967295 0]> g in
  let g := <[SEG_UCODE := SEG (Z.lor STA_X STA_R) 0 4294967295 DPL_USER]> g in
  let g := <[SEG_UDATA := SEG STA_W 0 4294967295 DPL_USER]> g in
  Cpusegs g (Some (lgdt gdt_addr (8 * Z.of_nat NSEGS))).

(** ** The task state *)

(** The fields of [struct taskstate] that the kernel sets; the structure has 104 bytes. *)
Record taskstate := Taskstate { ts_esp0 : Z; ts_ss0 : Z; ts_iomb : Z }.
Definition SIZEOF_TASKSTATE : Z := 104.

(** The task state of [switchuvm], at [ts_addr], for a process with the stack [kstack]. *)
Definition switch_tss (ts_addr kstack : Z) (c : cpusegs) : cpusegs * taskstate * Z :=
  let d := (SEG16 STS_T32A ts_addr (SIZEOF_TASKSTATE - 1) 0) <| sd_s := 0 |> in
  (Cpusegs (<[SEG_TSS := d]> (gdt c)) (gdtr c),
   Taskstate (u32 (kstack + 4096)) (Z.shiftl (Z.of_nat SEG_KDATA) 3) 65535,
   Z.shiftl (Z.of_nat SEG_TSS) 3).

(** ** Gates *)

Record gatedesc := Gatedesc { off_15_0 : Z; gd_cs : Z; gd_args : Z; gd_rsv1 : Z; gd_type : Z; gd_s : Z; gd_dpl : Z; gd_p : Z;
  off_31_16 : Z }.

Definition gatedesc_fields (d : gatedesc) : list (Z * Z) :=
  [(16, off_15_0 d); (16, gd_cs d); (5, gd_args d); (3, gd_rsv1 d); (4, gd_type d); (1, gd_s d); (2, gd_dpl d); (1, gd_p d);
   (16, off_31_16 d)].

Definition SETGATE (istrap : bool) (sel off d : Z) : gatedesc :=
  Gatedesc (Z.land off 65535) sel 0 0 (if istrap then STS_TG32 else STS_IG32) 0 d 1 (Z.shiftr off 16).

(** [vectors] are the addresses of the entry points in vectors.S. *)
Definition tvinit (vectors : nat -> Z) : list gatedesc :=
  let sel := Z.shiftl (Z.of_nat SEG_KCODE) 3 in
  let idt := map (fun i => SETGATE false sel (vectors i) 0) (seq 0 256) in
  <[Z.to_nat T_SYSCALL := SETGATE true sel (vectors (Z.to_nat T_SYSCALL)) DPL_USER]> idt.

Definition idtinit (idt_addr : Z) : Z * Z * Z := lidt idt_addr (8 * 256).

(** ** What the processor reads *)

Definition field (lo n w : Z) : Z := Z.shiftr w lo mod 2 ^ n.

(** A segment descriptor: base, last valid offset, type, whether it is for code or
    data, privilege level, and whether it is present. *)
Record segview := Segview { v_base : Z; v_limit : Z; v_type : Z; v_code_data : bool; v_dpl : Z; v_present : bool }.
Definition read_segment (w : Z) : segview :=
  let lim := field 0 16 w + 65536 * field 48 4 w in
  Segview (field 16 24 w + 16777216 * field 56 8 w) (if field 55 1 w =? 1 then 4096 * lim + 4095 else lim)
    (field 40 4 w) (field 44 1 w =? 1) (field 45 2 w) (field 47 1 w =? 1).

(** A gate: code segment and offset of the handler, whether interrupts go off, the
    privilege level that an explicit [int] needs, and whether it is present. *)
Record gateview := Gateview { g_selector : Z; g_offset : Z; g_masks : bool; g_dpl : Z; g_present : bool }.
Definition read_gate (w : Z) : gateview :=
  Gateview (field 16 16 w) (field 0 16 w + 65536 * field 48 16 w) (field 40 4 w =? 14) (field 45 2 w) (field 47 1 w =? 1).

(** The address in a table register. *)
Definition table_base (r : Z * Z * Z) : Z := r.1.2 + 65536 * r.2.

(** ** The fields of a packed word *)

Lemma pack_range l : Forall (fun f => 0 <= f.1) l -> 0 <= width l /\ 0 <= pack l < 2 ^ width l.
Proof.
  induction 1 as [|[w v] l Hw _ [IH1 IH2]]; [by vm_compute|]; cbn [width fst pack] in *. split; [lia|]. rewrite Z.pow_add_r by lia.
  pose proof (Z.mod_pos_bound v (2 ^ w) ltac:(apply Z.pow_pos_nonneg; lia)). pose proof (Z.pow_pos_nonneg 2 w). nia.
Qed.

Lemma pack_app l1 l2 : Forall (fun f => 0 <= f.1) l1 -> pack (l1 ++ l2) = pack l1 + 2 ^ width l1 * pack l2.
Proof.
  induction 1 as [|[w v] l Hw Hl IH]; cbn [pack width app fst] in *; [lia|]. rewrite IH.
  pose proof (pack_range l Hl) as [Hn _]. rewrite Z.pow_add_r by lia. lia.
Qed.

Lemma field_pack l1 l2 l3 : Forall (fun f => 0 <= f.1) (l1 ++ l2) -> field (width l1) (width l2) (pack (l1 ++ l2 ++ l3)) = pack l2.
Proof.
  intros [H1 H2]%Forall_app. destruct (pack_range l1 H1) as [N1 R1], (pack_range l2 H2) as [N2 R2].
  unfold field. rewrite Z.shiftr_div_pow2, !pack_app by done.
  rewrite (Z.mul_comm (2 ^ width l1)), Z.div_add, (Z.div_small (pack l1)), Z.add_0_l by lia.
  rewrite (Z.mul_comm (2 ^ width l2)), Z.mod_add, Z.mod_small by lia. done.
Qed.

Ltac pack_field l k n :=
  let l := eval cbv delta [l] in l in
  let l1 := eval cbn in (take k l) in let l2 := eval cbn in (take n (drop k l)) in let l3 := eval cbn in (drop (k + n) l) in
  etransitivity; [exact (field_pack l1 l2 l3 ltac:(repeat constructor; cbn; lia))|cbn [pack]].

Lemma halves x : 0 <= x < 4294967296 -> Z.land x 65535 = x mod 65536 /\ Z.shiftr x 16 = x / 65536.
Proof. intros Hx. split; [apply (Z.land_ones x 16); lia|rewrite Z.shiftr_div_pow2 by lia; done]. Qed.

(** What the processor reads in the gate that [SETGATE] builds is what was asked for. *)
Lemma read_setgate istrap sel off d : 0 <= off < 4294967296 -> 0 <= sel < 65536 -> 0 <= d < 4 ->
  read_gate (pack (gatedesc_fields (SETGATE istrap sel off d))) = Gateview sel off (negb istrap) d true.
Proof.
  intros Ho Hs Hd. destruct (halves off Ho) as [E1 E2]. unfold SETGATE, gatedesc_fields. cbn [off_15_0 gd_cs gd_args gd_rsv1 gd_type gd_s gd_dpl gd_p off_31_16].
  rewrite E1, E2. set (l := [_; _; _; _; _; _; _; _; _]). unfold read_gate.
  assert (field 16 16 (pack l) = sel) as -> by (pack_field l 1%nat 1%nat; lia).
  assert (field 0 16 (pack l) = off mod 65536) as -> by (pack_field l 0%nat 1%nat; lia).
  assert (field 48 16 (pack l) = off / 65536) as -> by (pack_field l 8%nat 1%nat; lia).
  assert (field 40 4 (pack l) = if istrap then STS_TG32 else STS_IG32) as -> by (pack_field l 4%nat 1%nat; destruct istrap; done).
  assert (field 45 2 (pack l) = d) as -> by (pack_field l 6%nat 1%nat; lia).
  assert (field 47 1 (pack l) = 1) as -> by (pack_field l 7%nat 1%nat; done).
  f_equal; [lia|by destruct istrap].
Qed.

Lemma thirds x : 0 <= x < 4294967296 ->
  Z.land x 65535 = x mod 65536 /\ Z.land (Z.shiftr x 16) 255 = x / 65536 mod 256 /\ Z.shiftr x 24 = x / 16777216.
Proof.
  intros Hx. destruct (halves x Hx) as [E1 E2]. rewrite E1, E2, Z.shiftr_div_pow2 by lia. split; [done|]. split; [|done].
  apply (Z.land_ones _ 8). lia.
Qed.

(** A descriptor with its base and limit in pieces is read back whole; [g] and [s] say
    whether the limit counts pages, and whether it is a code or data segment. *)
Lemma read_segdesc base lim type s dpl g : 0 <= base < 4294967296 -> 0 <= lim < 1048576 -> 0 <= type < 16 -> 0 <= s < 2 -> 0 <= dpl < 4 -> 0 <= g < 2 ->
  read_segment (pack (segdesc_fields (Segdesc (lim mod 65536) (base mod 65536) (base / 65536 mod 256) type s dpl 1 (lim / 65536) 0 0 1 g (base / 16777216))))
  = Segview base (if g =? 1 then 4096 * lim + 4095 else lim) type (s =? 1) dpl true.
Proof.
  intros Hb Hl Ht Hs Hd Hg. unfold segdesc_fields.
  cbn [lim_15_0 base_15_0 base_23_16 sd_type sd_s sd_dpl sd_p lim_19_16 sd_avl sd_rsv1 sd_db sd_g base_31_24].
  set (l := [_; _; _; _; _; _; _; _; _; _; _; _; _]). unfold read_segment.
  assert (field 0 16 (pack l) = lim mod 65536) as -> by (pack_field l 0%nat 1%nat; lia).
  assert (field 48 4 (pack l) = lim / 65536) as -> by (pack_field l 7%nat 1%nat; lia).
  assert (field 16 24 (pack l) = base mod 16777216) as -> by (pack_field l 1%nat 2%nat; lia).
  assert (field 56 8 (pack l) = base / 16777216) as -> by (pack_field l 12%nat 1%nat; lia).
  assert (field 55 1 (pack l) = g) as -> by (pack_field l 11%nat 1%nat; lia).
  assert (field 40 4 (pack l) = type) as -> by (pack_field l 3%nat 1%nat; lia).
  assert (field 44 1 (pack l) = s) as -> by (pack_field l 4%nat 1%nat; lia).
  assert (field 45 2 (pack l) = dpl) as -> by (pack_field l 5%nat 1%nat; lia).
  assert (field 47 1 (pack l) = 1) as -> by (pack_field l 6%nat 1%nat; done).
  by replace (lim mod 65536 + 65536 * (lim / 65536)) with lim by lia; replace (base mod 16777216 + 16777216 * (base / 16777216)) with base by lia.
Qed.

Lemma read_SEG type base lim dpl : 0 <= base < 4294967296 -> 0 <= lim < 4294967296 -> 0 <= type < 16 -> 0 <= dpl < 4 ->
  read_segment (pack (segdesc_fields (SEG type base lim dpl))) = Segview base (4096 * (lim / 4096) + 4095) type true dpl true.
Proof.
  intros Hb Hl Ht Hd. unfold SEG. destruct (thirds base Hb) as (-> & -> & ->). rewrite !(Z.shiftr_div_pow2 lim) by lia.
  change (2 ^ 12) with 4096. change (2 ^ 28) with (4096 * 65536). rewrite <- Z.div_div by lia.
  assert (Z.land (lim / 4096) 65535 = lim / 4096 mod 65536) as -> by (apply (Z.land_ones _ 16); lia).
  rewrite read_segdesc by lia. done.
Qed.

Lemma read_SEG16 type base lim dpl : 0 <= base < 4294967296 -> 0 <= lim < 1048576 -> 0 <= type < 16 -> 0 <= dpl < 4 ->
  read_segment (pack (segdesc_fields ((SEG16 type base lim dpl) <| sd_s := 0 |>))) = Segview base lim type false dpl true.
Proof.
  intros Hb Hl Ht Hd. unfold SEG16, setter. cbn [segdesc_set lim_15_0 base_15_0 base_23_16 sd_type sd_s sd_dpl sd_p lim_19_16 sd_avl sd_rsv1 sd_db sd_g base_31_24].
  destruct (thirds base Hb) as (-> & -> & ->). destruct (halves lim ltac:(lia)) as [-> ->]. by rewrite read_segdesc by lia.
Qed.

Lemma lgdt_base p size : 0 <= p < 4294967296 -> table_base (lgdt p size) = p.
Proof. intros Hp. unfold table_base, lgdt, u16. cbn. destruct (halves p Hp) as [_ ->]. lia. Qed.

(** ** The tables *)

Definition flat (type dpl : Z) : segview := Segview 0 4294967295 type true dpl true.

Lemma read_flat type dpl : 0 <= type < 16 -> 0 <= dpl < 4 -> read_segment (pack (segdesc_fields (SEG type 0 4294967295 dpl))) = flat type dpl.
Proof. intros Ht Hd. by rewrite read_SEG by lia. Qed.

(** [seginit] gives the kernel and the user a code and a data segment each, over the
    whole memory, with their privilege levels. *)
Theorem seginit_flat a c : length (gdt c) = NSEGS ->
  omap (fun i => read_segment ∘ pack ∘ segdesc_fields <$> gdt (seginit a c) !! i) [SEG_KCODE; SEG_KDATA; SEG_UCODE; SEG_UDATA] =
    [flat 10 0; flat 2 0; flat 10 3; flat 2 3].
Proof.
  intros Hl. destruct c as [g r]. cbn [gdt] in Hl. by do 7 (destruct g as [|? g]; try done).
Qed.

Lemma lookup_tvinit vectors i : (i < 256)%nat ->
  tvinit vectors !! i = Some (SETGATE (bool_decide (i = 64%nat)) 8 (vectors i) (if decide (i = 64%nat) then 3 else 0)).
Proof.
  intros Hi. unfold tvinit. change (Z.to_nat T_SYSCALL) with 64%nat. destruct (decide (i = 64%nat)) as [->|Hne].
  - rewrite list_lookup_insert_eq by (rewrite length_map, length_seq; lia). done.
  - rewrite list_lookup_insert_ne, list_lookup_fmap, lookup_seq_lt by done. rewrite bool_decide_eq_false_2 by done. done.
Qed.

(** C36. Every trap enters the kernel where it should: the gate of each of the 256 vectors
    is present and leads to its entry point in a code segment of privilege 0 that covers
    the whole memory, and a user program can raise only vector 64, the system call, which
    is also the only one that leaves interrupts on. *)
Theorem trap_enters_kernel vectors a c i : (i < 256)%nat -> 0 <= vectors i < 4294967296 -> length (gdt c) = NSEGS ->
  exists g d, tvinit vectors !! i = Some g /\
    let v := read_gate (pack (gatedesc_fields g)) in
    gdt (seginit a c) !! Z.to_nat (g_selector v / 8) = Some d /\ read_segment (pack (segdesc_fields d)) = flat 10 0 /\
    g_offset v = vectors i /\ g_present v = true /\
    (DPL_USER <= g_dpl v <-> i = 64%nat) /\ (g_masks v = false <-> i = 64%nat).
Proof.
  intros Hi Hv Hl. eexists _, (SEG (Z.lor STA_X STA_R) 0 4294967295 0). split; [by apply lookup_tvinit|].
  rewrite read_setgate by (try case_decide; lia). cbn [g_selector g_offset g_present g_dpl g_masks].
  split; [destruct c as [g r]; cbn [gdt] in Hl; by do 7 (destruct g as [|? g]; try done)|].
  split; [by apply read_flat|]. split; [done|]. split; [done|]. unfold DPL_USER. split.
  - case_decide; split; (done || lia).
  - case_bool_decide; done.
Qed.

Lemma trap_enters_kernel_witness : exists g d, tvinit (fun i => 2148532224 + 10 * Z.of_nat i) !! 64%nat = Some g /\
  gdt (seginit 0 (Cpusegs (replicate 6 (SEG 0 0 0 0)) None)) !! 1%nat = Some d /\ g_offset (read_gate (pack (gatedesc_fields g))) = 2148532864.
Proof.
  destruct (trap_enters_kernel (fun i => 2148532224 + 10 * Z.of_nat i) 0 (Cpusegs (replicate 6 (SEG 0 0 0 0)) None) 64)
    as (g & d & H1 & H2 & _ & H3 & _); [lia|lia|done|]. exists g, d. split; [exact H1|]. split; [|exact H3].
  injection H1 as <-. exact H2.
Defined.

(** The task state that [switchuvm] sets up: its descriptor is a system segment over the
    104 bytes of the structure, the stack for traps is the process's kernel stack in the
    kernel's data segment, and the I/O map is past the end, so that user programs have
    no ports. *)
Theorem switch_tss_reads ta ks c : 0 <= ta < 4294967296 -> 0 <= ks < 4294963200 -> length (gdt c) = NSEGS ->
  let '(c', ts, sel) := switch_tss ta ks c in
  exists d, gdt c' !! Z.to_nat (sel / 8) = Some d /\ read_segment (pack (segdesc_fields d)) = Segview ta 103 9 false 0 true /\
    ts_esp0 ts = ks + 4096 /\ ts_ss0 ts / 8 = Z.of_nat SEG_KDATA /\ v_limit (read_segment (pack (segdesc_fields d))) < ts_iomb ts.
Proof.
  intros Ha Hk Hl. unfold switch_tss. eexists. split.
  { change (Z.to_nat (_ / 8)) with 5%nat. apply list_lookup_insert_eq. cbn [gdt]. rewrite Hl. unfold SEG_TSS, NSEGS. lia. }
  rewrite read_SEG16 by (unfold STS_T32A, SIZEOF_TASKSTATE; lia). split; [done|]. split; [unfold u32; cbn [ts_esp0]; lia|]. split; [done|]. by vm_compute.
Qed.
