(* ===== verification/Apic.v ===== *)
(** The interrupt controllers, the serial port and the clock: ioapic.c, lapic.c,
    picirq.c and uart.c.

    A device is the registers that the code reads and writes.  The writes to the local
    APIC, to the ports and to the warm reset vector are kept in their order. *)

From S2P Require Import Prelude Kernel Syscall.

(** ** The I/O APIC *)

Module Ioapic.

Definition REG_ID : Z := 0.
Definition REG_VER : Z := 1.
Definition REG_TABLE : Z := 16.
Definition INT_DISABLED : Z := 65536.

(** The register that is selected, and the value of each one. *)
Record ioapic := Ioapic { io_reg : Z; io_regs : gmap Z Z }.
#[export] Instance ioapic_set : Settable ioapic := fun r => Ioapic (io_reg r) (io_regs r).

Definition reg_value (r : Z) (s : ioapic) : Z := default 0 (io_regs s !! r).

Definition ioapicread (reg : Z) (s : ioapic) : ioapic * Z :=
  let s := s <| io_reg := reg |> in (s, reg_value (io_reg s) s).
Definition ioapicwrite (reg data : Z) (s : ioapic) : ioapic :=
  let s := s <| io_reg := reg |> in s <| io_regs ::= <[io_reg s := u32 data]> |>.

(** The loop over the redirection table, from [i]. *)
Fixpoint disable_from (n : nat) (i : Z) (s : ioapic) : ioapic :=
  match n with
  | O => s
  | S n =>
      let s := ioapicwrite (REG_TABLE + 2 * i) (Z.lor INT_DISABLED (T_IRQ0 + i)) s in
      disable_from n (i + 1) (ioapicwrite (REG_TABLE + 2 * i + 1) 0 s)
  end.

Definition not_mp : string := "ioapicinit: id isn't equal to ioapicid; not a MP
".

(** The state and the message: [ioapicid] is the one that [mpinit] found. *)
Definition ioapicinit (ioapicid : Z) (s : ioapic) : ioapic * string :=
  let (s, ver) := ioapicread REG_VER s in
  let maxintr := Z.land (Z.shiftr ver 16) 255 in
  let (s, r) := ioapicread REG_ID s in
  let id := Z.shiftr r 24 in
  (disable_from (Z.to_nat (maxintr + 1)) 0 s,
   if negb (id =? ioapicid) then not_mp else ""%string).

Definition ioapicenable (irq cpunum : Z) (s : ioapic) : ioapic :=
  let s := ioapicwrite (REG_TABLE + 2 * irq) (T_IRQ0 + irq) s in
  ioapicwrite (REG_TABLE + 2 * irq + 1) (Z.shiftl cpunum 24) s.

(** What the controller does with a line: the vector and the processor of its
    interrupts, or nothing if it is masked. *)
Definition route (irq : Z) (s : ioapic) : option (Z * Z) :=
  let lo := reg_value (REG_TABLE + 2 * irq) s in
  let hi := reg_value (REG_TABLE + 2 * irq + 1) s in
  if Z.testbit lo 16 then None else Some (lo mod 256, Z.shiftr hi 24).

Lemma reg_write r r' v s : reg_value r (ioapicwrite r' v s) = if decide (r = r') then u32 v else reg_value r s.
Proof.
  unfold reg_value, ioapicwrite. unfold setter. cbn [io_regs io_reg ioapic_set]. case_decide as H.
  - subst. by rewrite lookup_insert_eq.
  - by rewrite lookup_insert_ne.
Qed.

Lemma disable_from_route n : forall i s irq, i <= irq < i + Z.of_nat n -> 0 <= irq < 224 -> route irq (disable_from n i s) = None.
Proof.
  assert (forall n i s r, r < 16 + 2 * i -> reg_value r (disable_from n i s) = reg_value r s) as Keep.
  { clear. induction n as [|n IH]; intros i s r Hr; [done|]. cbn [disable_from]. unfold REG_TABLE.
    rewrite IH, !reg_write, !decide_False by lia. done. }
  induction n as [|n IH]; intros i s irq Hi Hr; [lia|]. cbn [disable_from]. destruct (decide (irq = i)) as [->|Hne]; [|apply IH; lia].
  unfold route, REG_TABLE. rewrite !Keep by lia. rewrite !reg_write, decide_False, decide_True by lia.
  unfold u32, INT_DISABLED, T_IRQ0. rewrite (Z.mod_pow2_bits_low _ 32 16), Z.lor_spec by lia. done.
Qed.

Lemma route_enable irq irq' cpu s : 0 <= irq' < 224 -> 0 <= cpu < 256 ->
  route irq (ioapicenable irq' cpu s) = if decide (irq = irq') then Some (32 + irq, cpu) else route irq s.
Proof.
  intros Hi Hc. unfold route, ioapicenable, REG_TABLE. rewrite !reg_write. destruct (decide (irq = irq')) as [->|H].
  - rewrite decide_False, !decide_True by lia. unfold T_IRQ0, u32. rewrite Z.shiftl_mul_pow2, Z.shiftr_div_pow2, Z.testbit_eqb by lia.
    change (2 ^ 24) with 16777216. change (2 ^ 16) with 65536.
    rewrite !(Z.mod_small _ 4294967296), Z.div_mul, (Z.div_small (32 + irq')), (Z.mod_small (32 + irq')) by lia. done.
  - by rewrite !decide_False by lia.
Qed.

Lemma route_regsel irq r s : route irq (s <| io_reg := r |>) = route irq s.
Proof. done. Qed.

(** The lines that [main] turns on: the keyboard in [consoleinit], the serial port in
    [uartinit] if there is one, the disk in [ideinit]. *)
Definition main_irqs (ioapicid ncpu : Z) (uart : bool) (s : ioapic) : ioapic :=
  let s := (ioapicinit ioapicid s).1 in
  let s := ioapicenable IRQ_KBD 0 s in
  let s := if uart then ioapicenable IRQ_COM1 0 s else s in
  ioapicenable IRQ_IDE (ncpu - 1) s.

(** After the initialisation in [main] the I/O APIC delivers the keyboard and the
    serial port to the first processor and the disk to the last one, each on the vector
    that [trap] has for it, and no other line of the controller. *)
Theorem main_irqs_routes id ncpu uart s irq :
  let maxintr := Z.land (Z.shiftr (reg_value REG_VER s) 16) 255 in
  maxintr < 224 -> 1 <= ncpu <= 256 -> 0 <= irq <= maxintr ->
  route irq (main_irqs id ncpu uart s) =
    if decide (irq = IRQ_IDE) then Some (T_IRQ0 + IRQ_IDE, ncpu - 1)
    else if decide (irq = IRQ_COM1 /\ uart = true) then Some (T_IRQ0 + IRQ_COM1, 0)
    else if decide (irq = IRQ_KBD) then Some (T_IRQ0 + IRQ_KBD, 0) else None.
Proof.
  intros m Hm Hn Hi. unfold main_irqs. assert (route irq (ioapicinit id s).1 = None) as E.
  { change (ioapicinit id s).1 with (disable_from (Z.to_nat (m + 1)) 0 (s <| io_reg := REG_ID |>)). apply disable_from_route; lia. }
  rewrite route_enable by (unfold IRQ_IDE; lia). case_decide as H1; [by subst|].
  destruct uart; rewrite !route_enable by (unfold IRQ_COM1, IRQ_KBD; lia); rewrite E.
  - destruct (decide (irq = IRQ_COM1)) as [->|H2]; [by rewrite decide_True|]. rewrite (decide_False (P:=_ /\ _)) by (by intros [? _]).
    by destruct (decide (irq = IRQ_KBD)) as [->|].
  - rewrite (decide_False (P:=_ /\ _)) by (by intros [_ ?]). by destruct (decide (irq = IRQ_KBD)) as [->|].
Qed.

Lemma main_irqs_routes_witness :
  map (fun i => route i (main_irqs 0 2 true (Ioapic 0 {[1 := 1507328]}))) [0; 1; 4; 14] = [None; Some (33, 0); Some (36, 0); Some (46, 1)].
Proof.
  assert (H : forall irq, 0 <= irq <= 23 -> _) by (intros irq Hi; exact (main_irqs_routes 0 2 true (Ioapic 0 {[1 := 1507328]}) irq eq_refl ltac:(lia) Hi)).
  cbn [map]. by rewrite !H by lia.
Defined.

End Ioapic.

(** ** The local APIC *)

Module Lapic.

Definition ID : Z := 8.
Definition VER : Z := 12.
Definition TPR : Z := 32.
Definition EOI : Z := 44.
Definition SVR : Z := 60.
Definition ENABLE : Z := 256.
Definition ESR : Z := 160.
Definition ICRLO : Z := 192.
Definition INIT : Z := 1280.
Definition STARTUP : Z := 1536.
Definition DELIVS : Z := 4096.
Definition ASSERT : Z := 16384.
Definition LEVEL : Z := 32768.
Definition BCAST : Z := 524288.
Definition ICRHI : Z := 196.
Definition TIMER : Z := 200.
Definition X1 : Z := 11.
Definition PERIODIC : Z := 131072.
Definition PCINT : Z := 208.
Definition LINT0 : Z := 212.
Definition LINT1 : Z := 216.
Definition ERROR : Z := 220.
Definition MASKED : Z := 65536.
Definition TICR : Z := 224.
Definition TDCR : Z := 248.
Definition IRQ_ERROR : Z := 19.

(** A write to a register, to a port, or to a 16-bit word of memory. *)
Inductive write := Lapicw (index value : Z) | Outb (port value : Z) | Poke16 (pa value : Z).

Definition lapicw (index value : Z) : write := Lapicw index (u32 value).

(** [ver] is the version register and [icr] the values that [ICRLO] reads while the
    message is delivered; [None] if it is not delivered in them. *)
Definition lapicinit (lapic : bool) (ver : Z) (icr : list Z) : option (list write) :=
  if negb lapic then Some [] else
  if forallb (fun v => negb (Z.land v DELIVS =? 0)) icr then None else
  Some ([lapicw SVR (Z.lor ENABLE (T_IRQ0 + IRQ_SPURIOUS)); lapicw TDCR X1; lapicw TIMER (Z.lor PERIODIC (T_IRQ0 + IRQ_TIMER));
         lapicw TICR 10000000; lapicw LINT0 MASKED; lapicw LINT1 MASKED] ++
        (if 4 <=? Z.land (Z.shiftr ver 16) 255 then [lapicw PCINT MASKED] else []) ++
        [lapicw ERROR (T_IRQ0 + IRQ_ERROR); lapicw ESR 0; lapicw ESR 0; lapicw EOI 0; lapicw ICRHI 0;
         lapicw ICRLO (Z.lor (Z.lor BCAST INIT) LEVEL); lapicw TPR 0]).

Definition lapicid (lapic : bool) (id : Z) : Z := if negb lapic then 0 else Z.shiftr id 24.

Definition lapiceoi (lapic : bool) : list write := if lapic then [lapicw EOI 0] else [].

Definition CMOS_PORT : Z := 112.

Definition lapicstartap (apicid addr : Z) : list write :=
  let wrv := Z.lor (Z.shiftl 64 4) 103 in
  [Outb CMOS_PORT 15; Outb (CMOS_PORT + 1) 10; Poke16 wrv 0; Poke16 (wrv + 2) (u16 (Z.shiftr addr 4));
   lapicw ICRHI (Z.shiftl apicid 24); lapicw ICRLO (Z.lor (Z.lor INIT LEVEL) ASSERT); lapicw ICRLO (Z.lor INIT LEVEL)] ++
  concat (replicate 2 [lapicw ICRHI (Z.shiftl apicid 24); lapicw ICRLO (Z.lor STARTUP (Z.shiftr addr 12))]).

(** The value that a register is left with. *)
Definition final (index : Z) (l : list write) : option Z :=
  foldl (fun r w => match w with Lapicw i v => if i =? index then Some v else r | _ => r end) None l.

(** The messages that are sent: the processor, the kind and the vector of each one. *)
Fixpoint ipis (hi : Z) (l : list write) : list (Z * Z * Z) :=
  match l with
  | [] => []
  | Lapicw i v :: l => if i =? ICRHI then ipis v l
                       else if i =? ICRLO then (Z.shiftr hi 24, Z.shiftr v 8 mod 8, v mod 256) :: ipis hi l else ipis hi l
  | _ :: l => ipis hi l
  end.

(** After [lapicinit] the timer interrupts on the vector of [trap] and the two external
    lines are masked; interrupts are let in by the last write. *)
Theorem lapicinit_programs ver icr l : lapicinit true ver icr = Some l ->
  final TIMER l = Some (PERIODIC + (T_IRQ0 + IRQ_TIMER)) /\ final SVR l = Some (ENABLE + (T_IRQ0 + IRQ_SPURIOUS)) /\
  final LINT0 l = Some MASKED /\ final LINT1 l = Some MASKED /\ exists l', l = l' ++ [Lapicw TPR 0].
Proof.
  unfold lapicinit. cbn [negb]. destruct (forallb _ icr); [done|]. intros H. apply (inj Some) in H as <-.
  destruct (4 <=? Z.land (Z.shiftr ver 16) 255); (do 4 (split; [done|])).
  - by eexists [_; _; _; _; _; _; _; _; _; _; _; _; _].
  - by eexists [_; _; _; _; _; _; _; _; _; _; _; _].
Qed.

Lemma startup_page page : 0 <= page < 256 -> Z.lor STARTUP page = 6 * 256 + page.
Proof.
  assert (forallb (fun p => Z.lor STARTUP p =? 6 * 256 + p) (map Z.of_nat (seq 0 256)) = true) as H by (vm_compute; reflexivity).
  intros Hp. rewrite forallb_forall in H. apply Z.eqb_eq, H, in_map_iff. exists (Z.to_nat page). split; [lia|]. apply in_seq. lia.
Qed.

(** The processor that [lapicstartap] starts, at a page of the first megabyte: it is reset
    and sent two start-up messages for that page, no other processor is sent anything,
    and the warm reset vector points to the page too. *)
Theorem lapicstartap_starts apicid page : 0 <= apicid < 256 -> 0 <= page < 256 ->
  ipis 0 (lapicstartap apicid (4096 * page)) = [(apicid, 5, 0); (apicid, 5, 0); (apicid, 6, page); (apicid, 6, page)] /\
  exists seg, Poke16 1127 0 ∈ lapicstartap apicid (4096 * page) /\ Poke16 1129 seg ∈ lapicstartap apicid (4096 * page) /\ 16 * seg + 0 = 4096 * page.
Proof.
  intros Ha Hp. unfold lapicstartap. rewrite !(Z.shiftl_mul_pow2 apicid), !(Z.shiftr_div_pow2 (4096 * page)) by lia.
  change (2 ^ 24) with 16777216. change (2 ^ 4) with 16. change (2 ^ 12) with 4096. rewrite (Z.mul_comm 4096), Z.div_mul by lia. split.
  - assert (Z.lor STARTUP page = 6 * 256 + page) as -> by (by apply startup_page).
    cbn -[u32 Z.add Z.mul Z.modulo Z.shiftr]. unfold lapicw. cbn -[u32 Z.add Z.mul Z.modulo Z.shiftr]. unfold u32.
    rewrite !(Z.mod_small (apicid * 16777216)), !(Z.mod_small (6 * 256 + page)), !Z.shiftr_div_pow2 by lia.
    change (2 ^ 24) with 16777216. change (2 ^ 8) with 256. rewrite Z.div_mul by lia.
    replace ((6 * 256 + page) / 256) with 6 by lia. replace ((6 * 256 + page) mod 256) with page by lia. done.
  - exists (page * 4096 / 16). split; [by do 2 right; left|]. split; [|lia]. do 3 right. unfold u16. rewrite Z.mod_small by lia. left.
Qed.

End Lapic.

(** ** The 8259A controllers *)

(** [picinit] writes 0xFF in the two mask registers: no line gets through. *)
Definition picinit : list Lapic.write := [Lapic.Outb (32 + 1) 255; Lapic.Outb (160 + 1) 255].

(** ** The serial port *)

Module Uart.

Definition COM1 : Z := 1016.

(** The registers behind the ports, which depend on the divisor latch, and the bytes
    that have been sent. *)
Record uartdev := Uartdev { lcr : Z; divisor_low : Z; divisor_high : Z; ier : Z; fcr : Z; mcr : Z; thr : list Z }.
#[export] Instance uartdev_set : Settable uartdev :=
  fun r => Uartdev (lcr r) (divisor_low r) (divisor_high r) (ier r) (fcr r) (mcr r) (thr r).

Definition outb (port v : Z) (d : uartdev) : uartdev :=
  let v := u8 v in
  let latch := Z.testbit (lcr d) 7 in
  if port =? COM1 then if latch then d <| divisor_low := v |> else d <| thr ::= fun l => l ++ [v] |>
  else if port =? COM1 + 1 then if latch then d <| divisor_high := v |> else d <| ier := v |>
  else if port =? COM1 + 2 then d <| fcr := v |>
  else if port =? COM1 + 3 then d <| lcr := v |>
  else if port =? COM1 + 4 then d <| mcr := v |>
  else d.

(** The loop that waits for the transmitter: the number of reads of the status, at most
    128; [lsr i] is the status at the read [i]. *)
Fixpoint wait_thr (n : nat) (i : nat) (lsr : nat -> Z) : nat :=
  match n with
  | O => i
  | S n => if Z.land (lsr i) 32 =? 0 then wait_thr n (S i) lsr else S i
  end.

(** The device, and the number of reads of the status so far. *)
Definition uartputc (uart : bool) (lsr : nat -> Z) (c : Z) (s : uartdev * nat) : uartdev * nat :=
  if negb uart then s else
  let i := wait_thr 128 (snd s) lsr in
  (outb COM1 c (fst s), i).

(** [status] is the first read of the line status; whether there is a port, the device
    and the interrupt controller. *)
Definition uartinit (status : Z) (lsr : nat -> Z) (d : uartdev) (io : Ioapic.ioapic) : bool * uartdev * Ioapic.ioapic :=
  let d := outb (COM1 + 2) 0 d in
  let d := outb (COM1 + 3) 128 d in
  let d := outb COM1 (115200 / 9600) d in
  let d := outb (COM1 + 1) 0 d in
  let d := outb (COM1 + 3) 3 d in
  let d := outb (COM1 + 4) 0 d in
  let d := outb (COM1 + 1) 1 d in
  if status =? 255 then (false, d, io) else
  let io := Ioapic.ioapicenable IRQ_COM1 0 io in
  (true, fst (foldl (fun s c => uartputc true lsr c s) (d, O) (bytes_of "xv6...
")), io).

(** The line status and the byte in the receiver. *)
Definition uartgetc (uart : bool) (lsr rbr : Z) : Z :=
  if negb uart then -1 else if Z.land lsr 1 =? 0 then -1 else rbr.

(** The wait ends after 128 reads even if the transmitter is never ready. *)
Lemma wait_thr_bound n i lsr : (i <= wait_thr n i lsr <= i + n)%nat.
Proof. revert i. induction n as [|n IH]; intros i; cbn; [lia|]. destruct (_ =? 0); [specialize (IH (S i))|]; lia. Qed.

Lemma puts_thr lsr cs : forall d i, Z.testbit (lcr d) 7 = false ->
  fst (foldl (fun s c => uartputc true lsr c s) (d, i) cs) = d <| thr ::= fun l => l ++ map u8 cs |>.
Proof.
  induction cs as [|c cs IH]; intros d i Hd.
  - destruct d. cbn. unfold setter. cbn. by rewrite app_nil_r.
  - cbn [foldl]. unfold uartputc at 2. cbn [negb fst snd]. unfold outb. rewrite Z.eqb_refl, Hd. rewrite IH by done.
    unfold setter. cbn. by rewrite <- app_assoc.
Qed.

(** After [uartinit] the port runs at 9600 baud with 8 bits and interrupts on reception,
    and, if it exists, has sent its greeting. *)
Theorem uartinit_sets_up status lsr d io : let '(u, d', io') := uartinit status lsr d io in
  u = negb (status =? 255) /\ divisor_low d' + 256 * divisor_high d' = 115200 / 9600 /\ lcr d' = 3 /\ ier d' = 1 /\
  thr d' = thr d ++ (if u then bytes_of "xv6...
" else []).
Proof.
  unfold uartinit. destruct (status =? 255); [destruct d; cbn; by rewrite app_nil_r|].
  rewrite puts_thr by done. destruct d. cbn. done.
Qed.

End Uart.

(** ** The clock *)

Module Cmos.

Record rtcdate := Rtcdate { second : Z; minute : Z; hour : Z; day : Z; month : Z; year : Z }.
#[export] Instance rtcdate_eq_dec : EqDecision rtcdate.
Proof. solve_decision. Defined.

Definition CMOS_STATA : Z := 10.
Definition CMOS_STATB : Z := 11.
Definition CMOS_UIP : Z := Z.shiftl 1 7.
Definition SECS : Z := 0.
Definition MINS : Z := 2.
Definition HOURS : Z := 4.
Definition DAY : Z := 7.
Definition MONTH : Z := 8.
Definition YEAR : Z := 9.

Section Clock.

(** [clock k r] is what the register [r] reads in the read number [k]: the clock goes on
    while it is read. *)
Context (clock : nat -> Z -> Z).

Definition cmos_read (reg : Z) (k : nat) : Z := u8 (clock k reg).

(** [fill_rtcdate], with its six reads from the read number [k]. *)
Definition fill_rtcdate (k : nat) : rtcdate :=
  Rtcdate (cmos_read SECS k) (cmos_read MINS (1 + k)) (cmos_read HOURS (2 + k))
    (cmos_read DAY (3 + k)) (cmos_read MONTH (4 + k)) (cmos_read YEAR (5 + k)).

Definition uip (k : nat) : bool := negb (Z.land (cmos_read CMOS_STATA k) CMOS_UIP =? 0).

(** The loop that reads the date twice; [None] if it does not end in [fuel] rounds. *)
Fixpoint read_twice (fuel : nat) (k : nat) : option rtcdate :=
  match fuel with
  | O => None
  | S fuel =>
      let t1 := fill_rtcdate k in
      if uip (6 + k) then read_twice fuel (7 + k) else
      let t2 := fill_rtcdate (7 + k) in
      if bool_decide (t1 = t2) then Some t1 else read_twice fuel (13 + k)
  end.

Definition CONV (x : Z) : Z := Z.shiftr x 4 * 10 + Z.land x 15.

Definition cmostime (fuel : nat) : option rtcdate :=
  let sb := cmos_read CMOS_STATB 0 in
  let bcd := Z.land sb (Z.shiftl 1 2) =? 0 in
  t1 ← read_twice fuel 1;
  let t1 := if bcd then Rtcdate (CONV (second t1)) (CONV (minute t1)) (CONV (hour t1)) (CONV (day t1)) (CONV (month t1)) (CONV (year t1)) else t1 in
  Some (Rtcdate (second t1) (minute t1) (hour t1) (day t1) (month t1) (year t1 + 2000)).

(** From the read [n] on, the clock shows the values of [t] and is not updating. *)
Definition steady (n : nat) (t : rtcdate) : Prop := forall k, (n <= k)%nat ->
  cmos_read SECS k = second t /\ cmos_read MINS k = minute t /\ cmos_read HOURS k = hour t /\
  cmos_read DAY k = day t /\ cmos_read MONTH k = month t /\ cmos_read YEAR k = year t /\ uip k = false.

Lemma steady_fill n t k : steady n t -> (n <= k)%nat -> fill_rtcdate k = t.
Proof.
  intros H Hk. unfold fill_rtcdate. destruct (H k Hk) as (-> & _). destruct (H (1 + k)%nat ltac:(lia)) as (_ & -> & _).
  destruct (H (2 + k)%nat ltac:(lia)) as (_ & _ & -> & _). destruct (H (3 + k)%nat ltac:(lia)) as (_ & _ & _ & -> & _).
  destruct (H (4 + k)%nat ltac:(lia)) as (_ & _ & _ & _ & -> & _). destruct (H (5 + k)%nat ltac:(lia)) as (_ & _ & _ & _ & _ & -> & _).
  by destruct t.
Qed.

(** The loop ends once the clock has been steady for a round, and what it returns was
    read twice with no update in between. *)
Lemma read_twice_ends n t fuel : forall k, steady n t -> (n < k + fuel)%nat -> (0 < fuel)%nat ->
  exists j, (k <= j)%nat /\ read_twice fuel k = Some (fill_rtcdate j) /\ uip (6 + j) = false /\ fill_rtcdate (7 + j) = fill_rtcdate j.
Proof.
  induction fuel as [|fuel IH]; intros k Hs Hn Hf; [lia|]. cbn [read_twice].
  destruct (decide (n <= k)%nat) as [Hk|Hk].
  - destruct (Hs (6 + k)%nat ltac:(lia)) as (_ & _ & _ & _ & _ & _ & ->). rewrite !(steady_fill n t) by (done || lia).
    rewrite bool_decide_eq_true_2 by done. exists k. rewrite !(steady_fill n t) by (done || lia). split; [done|]. split; [done|]. split; [|done].
    by destruct (Hs (6 + k)%nat ltac:(lia)) as (_ & _ & _ & _ & _ & _ & ->).
  - destruct (uip (6 + k)) eqn:Eu.
    + destruct (IH (7 + k)%nat Hs ltac:(lia) ltac:(lia)) as (j & Hj & H). exists j. split; [lia|done].
    + case_bool_decide as E; [by exists k|]. destruct (IH (13 + k)%nat Hs ltac:(lia) ltac:(lia)) as (j & Hj & H). exists j. split; [lia|done].
Qed.

(** [cmostime] returns as soon as the clock is steady, with a date that was read twice
    with no update in between. *)
Theorem cmostime_ends n t : steady n t -> exists r j, cmostime (S n) = Some r /\ uip (6 + j) = false /\
  fill_rtcdate (7 + j) = fill_rtcdate j /\
  (Z.land (cmos_read CMOS_STATB 0) 4 <> 0 -> r = let d := fill_rtcdate j in Rtcdate (second d) (minute d) (hour d) (day d) (month d) (year d + 2000)).
Proof.
  intros Hs. destruct (read_twice_ends n t (S n) 1 Hs ltac:(lia) ltac:(lia)) as (j & _ & E & Hu & Hd).
  unfold cmostime. rewrite E. cbn [mbind option_bind]. eexists _, j. split; [reflexivity|]. split; [done|]. split; [done|].
  intros H. change (Z.shiftl 1 2) with 4. by apply Z.eqb_neq in H as ->.
Qed.

End Clock.

(** [CONV] reads a number of two decimal digits. *)
Lemma conv_bcd n : 0 <= n < 100 -> CONV (16 * (n / 10) + n mod 10) = n.
Proof.
  intros Hn. unfold CONV. rewrite Z.shiftr_div_pow2 by lia. change 15 with (Z.ones 4). rewrite Z.land_ones by lia.
  change (2 ^ 4) with 16. lia.
Qed.

End Cmos.
