(* ===== verification/Uprog.v ===== *)
(** User programs as interaction trees over the system calls, and their runs on a
    machine that answers the calls. *)

From ITree Require Import Core.ITreeDefinition.
From S2P Require Import Prelude Libc Printf.

(** ** System calls *)

Inductive call :=
  | Open (path : list Z) (mode : Z) | Read (fd n : Z) | Write (fd : Z) (l : list Z) | Close (fd : Z) | Dup (fd : Z)
  | Fstat (fd : Z) | Mknod (path : list Z) (major minor : Z) | Mkdir (path : list Z) | Unlink (path : list Z)
  | Link (old new : list Z) | Fork | Wait | Exec (path : list Z) (argv : list (list Z)) | Kill (pid : Z) | Sleep (n : Z)
  | Sbrk (n : Z) | Answer | Pscnt | Getppid | Trace (n : Z) | Pgcnt.

(** What a call returns, and the bytes that it leaves in the caller's buffer. *)
Record reply := Reply { ret : Z; data : list Z }.

(** [Puts] is the output of [printf], which ignores the results of its writes. *)
Inductive sysE : Type -> Type :=
  | Sys (c : call) : sysE reply
  | Puts (fd : Z) (l : list Z) : sysE unit
  | Exit : sysE Empty_set.

Notation prog := (itree sysE).

#[export] Instance prog_ret : MRet prog := fun A x => Ret x.
#[export] Instance prog_bind : MBind prog := fun A B k t => ITree.bind t k.

Definition sys (c : call) : prog reply := ITree.trigger (Sys c).
Definition exit {A} : prog A := ITree.bind (ITree.trigger Exit) (fun e => match e : Empty_set with end).
Definition printf (fd : Z) (fmt : string) (args : list varg) : prog unit :=
  ITree.trigger (Puts fd (default [] (Printf.printf fmt args))).

(** A loop over a list, whose body may leave it. *)
Fixpoint for_list {A} (l : list A) (body : A -> prog bool) : prog unit :=
  match l with [] => mret tt | x :: l => body x ≫= fun b : bool => if b then for_list l body else mret tt end.

(** ** Runs *)

Record machine (S : Type) := Machine { m_sys : call -> S -> reply * S; m_puts : Z -> list Z -> S -> S }.
Arguments m_sys {S} _ _ _.
Arguments m_puts {S} _ _ _ _.

Section Runs.

Context {S : Type} (M : machine S).

(** At most [fuel] steps of a program: its result, or [None] if it calls [exit], and
    the machine that it leaves. *)
Fixpoint run {R} (fuel : nat) (t : prog R) (s : S) : option (option R * S) :=
  match fuel with
  | O => None
  | Datatypes.S fuel =>
      match observe t with
      | RetF r => Some (Some r, s)
      | TauF t => run fuel t s
      | VisF e k =>
          match e in sysE X return (X -> prog R) -> option (option R * S) with
          | Sys c => fun k => let (r, s) := m_sys M c s in run fuel (k r) s
          | Puts fd l => fun k => run fuel (k tt) (m_puts M fd l s)
          | Exit => fun _ => Some (None, s)
          end k
      end
  end.

Definition runs {R} (t : prog R) (s : S) (o : option R) (s' : S) : Prop := exists fuel, run fuel t s = Some (o, s').

Lemma run_more {R} fuel : forall (t : prog R) s x n, run fuel t s = Some x -> run (fuel + n) t s = Some x.
Proof.
  induction fuel as [|fuel IH]; intros t s x n; [done|]. cbn [run Nat.add]. destruct (observe t) as [r|t'|X e k]; [done|apply IH|].
  destruct e as [c|fd l|]; [destruct (m_sys M c s); apply IH|apply IH|done].
Qed.

Lemma run_observe {R} fuel (t t' : prog R) s : observe t = observe t' -> run fuel t s = run fuel t' s.
Proof. intros E. destruct fuel; [done|]. cbn [run]. by rewrite E. Qed.

Lemma observe_bind {A B} (t : prog A) (k : A -> prog B) : observe (ITree.bind t k) =
  match observe t with RetF r => observe (k r) | TauF t => TauF (ITree.bind t k) | VisF e h => VisF e (fun x => ITree.bind (h x) k) end.
Proof.
  transitivity (observe match observe t with RetF r => k r | TauF t => Tau (ITree.bind t k) | VisF e h => Vis e (fun x => ITree.bind (h x) k) end);
    [reflexivity|]. destruct (observe t); reflexivity.
Qed.

Lemma run_bind {A B} n : forall (t : prog A) (k : A -> prog B) s r s1 m x,
  run n t s = Some (Some r, s1) -> run m (k r) s1 = Some x -> run (n + m) (ITree.bind t k) s = Some x.
Proof.
  induction n as [|n IH]; intros t k s r s1 m x Ht Hk; [done|]. cbn [run Nat.add] in *. rewrite observe_bind. destruct (observe t) as [r'|t'|X e h].
  - injection Ht as -> ->. pose proof (run_more m (k r) s1 x (Datatypes.S n) Hk) as E. by replace (m + Datatypes.S n)%nat with (Datatypes.S (n + m)) in E by lia.
  - by eapply IH.
  - destruct e as [c|fd l|]; [destruct (m_sys M c s)| |done]; by eapply IH.
Qed.

Lemma run_bind_exit {A B} n : forall (t : prog A) (k : A -> prog B) s s1,
  run n t s = Some (None, s1) -> run n (ITree.bind t k) s = Some (None, s1).
Proof.
  induction n as [|n IH]; intros t k s s1 Ht; [done|]. cbn [run] in *. rewrite observe_bind. destruct (observe t) as [r'|t'|X e h]; [done|by apply IH|].
  destruct e as [c|fd l|]; [destruct (m_sys M c s)| |by injection Ht as ->]; by apply IH.
Qed.

Lemma runs_ret {R} (r : R) s : runs (mret r) s (Some r) s.
Proof. by exists 1%nat. Qed.

Lemma runs_bind {A B} (t : prog A) (k : A -> prog B) s r s1 o s2 :
  runs t s (Some r) s1 -> runs (k r) s1 o s2 -> runs (t ≫= k) s o s2.
Proof. intros [n Hn] [m Hm]. exists (n + m)%nat. by eapply run_bind. Qed.

Lemma runs_bind_exit {A B} (t : prog A) (k : A -> prog B) s s1 : runs t s None s1 -> runs (t ≫= k) s None s1.
Proof. intros [n Hn]. exists n. by apply run_bind_exit. Qed.

Lemma runs_exit {R} s : runs (exit : prog R) s None s.
Proof. by exists 1%nat. Qed.

Lemma runs_call {B} c (k : reply -> prog B) s o s2 :
  runs (k (m_sys M c s).1) (m_sys M c s).2 o s2 -> runs (sys c ≫= k) s o s2.
Proof. apply runs_bind. exists 2%nat. cbn. by destruct (m_sys M c s). Qed.

Lemma runs_put fd fmt args l s : Printf.printf fmt args = Some l -> runs (printf fd fmt args) s (Some tt) (m_puts M fd l s).
Proof. intros E. exists 2%nat. unfold printf. cbn. by rewrite E. Qed.

Lemma runs_printf {B} fd fmt args l (k : unit -> prog B) s o s2 : Printf.printf fmt args = Some l ->
  runs (k tt) (m_puts M fd l s) o s2 -> runs (printf fd fmt args ≫= k) s o s2.
Proof. intros E. by apply runs_bind, runs_put. Qed.

(** A loop: another round, its end, or an exit from it. *)
Lemma runs_iter {I R} (step : I -> prog (I + R)) i s j s1 o s2 :
  runs (step i) s (Some (inl j)) s1 -> runs (ITree.iter step j) s1 o s2 -> runs (ITree.iter step i) s o s2.
Proof.
  intros [n Hn] [m Hm]. exists (n + Datatypes.S m)%nat.
  rewrite (run_observe _ _ (ITree.bind (step i) (fun lr => match lr with inl l => Tau (ITree.iter step l) | inr r => Ret r end))) by done.
  by eapply run_bind.
Qed.

Lemma runs_iter_end {I R} (step : I -> prog (I + R)) i s r s1 : runs (step i) s (Some (inr r)) s1 -> runs (ITree.iter step i) s (Some r) s1.
Proof.
  intros [n Hn]. exists (n + 1)%nat.
  rewrite (run_observe _ _ (ITree.bind (step i) (fun lr => match lr with inl l => Tau (ITree.iter step l) | inr r => Ret r end))) by done.
  by eapply run_bind.
Qed.

Lemma runs_iter_exit {I R} (step : I -> prog (I + R)) i s s1 : runs (step i) s None s1 -> runs (ITree.iter step i) s None s1.
Proof.
  intros [n Hn]. exists n.
  rewrite (run_observe _ _ (ITree.bind (step i) (fun lr => match lr with inl l => Tau (ITree.iter step l) | inr r => Ret r end))) by done.
  by apply run_bind_exit.
Qed.

End Runs.
