(* ===== verification/Programs.v ===== *)
(** The user programs of xv6: wc, cat, echo, grep, kill, ln, mkdir, rm, ls, init,
    forktest, zombie, stressfs and the programs that call the new system calls.

    [argv] is the list of arguments, the name of the program first, each one by its
    characters. *)

From ITree Require Import Core.ITreeDefinition.
From S2P Require Import Prelude Libc Printf Kernel Ulib Grep Uprog.

Definition O_RDONLY : Z := 0.
Definition O_RDWR : Z := 2.
Definition O_CREATE : Z := 512.

(** ** wc.c *)

Definition blank (c : Z) : bool :=
  match Ulib.strchr [32; 13; 9; 10; 11; 0] c with Some (Some _) => true | _ => false end.

(** [l], [w], [c] and [inword]. *)
Record counts := Counts { lines : Z; words : Z; chars : Z; inword : bool }.

Definition count1 (st : counts) (x : Z) : counts :=
  let c := i32 (chars st + 1) in
  let l := if x =? 10 then i32 (lines st + 1) else lines st in
  if blank x then Counts l (words st) c false
  else if negb (inword st) then Counts l (i32 (words st + 1)) c true
  else Counts l (words st) c (inword st).

(** The loop over what [read] leaves in [buf]; its result is also the last value of [n]. *)
Definition wc_loop (fd : Z) : counts -> prog (counts * Z) :=
  ITree.iter (fun st =>
    r ← sys (Read fd 512);
    mret (if 0 <? ret r then inl (foldl count1 st (data r)) else inr (st, ret r))).

Definition wc (fd : Z) (name : list Z) : prog unit :=
  r ← wc_loop fd (Counts 0 0 0 false);
  if snd r <? 0 then printf 1 "wc: read error
" [] ;; exit else
  printf 1 "%d %d %d %s
" [Vint (lines (fst r)); Vint (words (fst r)); Vint (chars (fst r)); Vstr (Some name)].

(** The loop of [wc], [cat] and [grep] over the files of the command line. *)
Definition for_files (cannot : string) (files : list (list Z)) (body : Z -> list Z -> prog unit) : prog unit :=
  for_list files (fun f =>
    r ← sys (Open f 0);
    if ret r <? 0 then printf 1 cannot [Vstr (Some f)] ;; exit else
    body (ret r) f ;; sys (Close (ret r)) ;; mret true).

Definition wc_main (argv : list (list Z)) : prog unit :=
  match argv with
  | _ :: f :: fs => for_files "wc: cannot open %s
" (f :: fs) wc ;; exit
  | _ => wc 0 [] ;; exit
  end.

(** ** cat.c *)

Definition cat (fd : Z) : prog unit :=
  n ← ITree.iter (fun _ : unit =>
    r ← sys (Read fd 512);
    if 0 <? ret r then
      w ← sys (Write 1 (data r));
      if negb (ret w =? ret r) then printf 1 "cat: write error
" [] ;; exit else mret (inl tt)
    else mret (inr (ret r))) tt;
  if n <? 0 then printf 1 "cat: read error
" [] ;; exit else mret tt.

Definition cat_main (argv : list (list Z)) : prog unit :=
  match argv with
  | _ :: f :: fs => for_files "cat: cannot open %s
" (f :: fs) (fun fd _ => cat fd) ;; exit
  | _ => cat 0 ;; exit
  end.

(** ** echo.c *)

Fixpoint echo_args (args : list (list Z)) : prog unit :=
  match args with
  | [] => mret tt
  | [a] => printf 1 "%s%s" [Vstr (Some a); Vstr (Some [10])]
  | a :: args => printf 1 "%s%s" [Vstr (Some a); Vstr (Some [32])] ;; echo_args args
  end.

Definition echo_main (argv : list (list Z)) : prog unit := echo_args (tail argv) ;; exit.

(** ** kill.c, ln.c, mkdir.c and rm.c *)

Definition user_atoi (s : list Z) : Z := default 0 (Ulib.atoi (s ++ [0])).

Definition kill_main (argv : list (list Z)) : prog unit :=
  if (length argv <? 2)%nat then printf 2 "usage: kill pid...
" [] ;; exit else
  for_list (tail argv) (fun a => sys (Kill (user_atoi a)) ;; mret true) ;; exit.

Definition ln_main (argv : list (list Z)) : prog unit :=
  match argv with
  | [_; old; new] =>
      r ← sys (Link old new);
      (if ret r <? 0 then printf 2 "link %s %s: failed
" [Vstr (Some old); Vstr (Some new)] else mret tt) ;; exit
  | _ => printf 2 "Usage: ln old new
" [] ;; exit
  end.

Definition mkdir_main (argv : list (list Z)) : prog unit :=
  if (length argv <? 2)%nat then printf 2 "Usage: mkdir files...
" [] ;; exit else
  for_list (tail argv) (fun a =>
    r ← sys (Mkdir a);
    if ret r <? 0 then printf 2 "mkdir: %s failed to create
" [Vstr (Some a)] ;; mret false else mret true) ;; exit.

Definition rm_main (argv : list (list Z)) : prog unit :=
  if (length argv <? 2)%nat then printf 2 "Usage: rm files...
" [] ;; exit else
  for_list (tail argv) (fun a =>
    r ← sys (Unlink a);
    if ret r <? 0 then printf 2 "rm: %s failed to delete
" [Vstr (Some a)] ;; mret false else mret true) ;; exit.

(** ** The main function of grep.c *)

(** [grep] is the loop that [Grep] models, on a pattern and a file. *)
Definition grep_main (grep : list Z -> Z -> prog unit) (argv : list (list Z)) : prog unit :=
  match argv with
  | _ :: pattern :: [] => grep pattern 0 ;; exit
  | _ :: pattern :: files => for_files "grep: cannot open %s
" files (fun fd _ => grep pattern fd) ;; exit
  | _ => printf 2 "usage: grep pattern [file ...]
" [] ;; exit
  end.

(** ** ls.c *)

(** [stat] of ulib.c: the result of [fstat] and the bytes of the structure. *)
Definition ulib_stat (n : list Z) : prog reply :=
  r ← sys (Open n O_RDONLY);
  if ret r <? 0 then mret (Reply (-1) []) else
  st ← sys (Fstat (ret r));
  sys (Close (ret r)) ;; mret st.

(** The fields of [struct stat] that [ls] prints. *)
Definition st_type (st : list Z) : Z := i16 (get16 st 0).
Definition st_ino (st : list Z) : Z := get32 st 8.
Definition st_size (st : list Z) : Z := get32 st 16.
Definition T_DIR : Z := 1.
Definition T_FILE : Z := 2.

(** The characters after the last slash. *)
Definition after_slash (path : list Z) : list Z :=
  foldl (fun p c => if c =? 47 then [] else p ++ [c]) [] path.

Definition fmtname (path : list Z) : list Z :=
  let p := after_slash path in
  if (DIRSIZ <=? length p)%nat then p else p ++ replicate (DIRSIZ - length p) 32.

Definition ls_line (path st : list Z) : prog unit :=
  printf 1 "%s %d %d %d
" [Vstr (Some (fmtname path)); Vint (st_type st); Vint (st_ino st); Vint (st_size st)].

(** One directory entry; [false] when the directory has no more of them. *)
Definition ls_entry (fd : Z) (path : list Z) : prog bool :=
  r ← sys (Read fd 16);
  if negb (ret r =? 16) then mret false else
  if get16 (data r) 0 =? 0 then mret true else
  let buf := path ++ [47] ++ default (slice (data r) 2 DIRSIZ) (string_at (slice (data r) 2 DIRSIZ ++ [0])) in
  st ← ulib_stat buf;
  (if ret st <? 0 then printf 1 "ls: cannot stat %s
" [Vstr (Some buf)] else ls_line buf (data st)) ;;
  mret true.

Definition ls (path : list Z) : prog unit :=
  r ← sys (Open path 0);
  if ret r <? 0 then printf 2 "ls: cannot open %s
" [Vstr (Some path)] else
  let fd := ret r in
  st ← sys (Fstat fd);
  if ret st <? 0 then printf 2 "ls: cannot stat %s
" [Vstr (Some path)] ;; sys (Close fd) ;; mret tt else
  (if st_type (data st) =? T_FILE then ls_line path (data st)
   else if st_type (data st) =? T_DIR then
     if (512 <? length path + 1 + DIRSIZ + 1)%nat then printf 1 "ls: path too long
" []
     else ITree.iter (fun _ : unit => more ← ls_entry fd path; mret (if more : bool then inl tt else inr tt)) tt
   else mret tt) ;;
  sys (Close fd) ;; mret tt.

Definition ls_main (argv : list (list Z)) : prog unit :=
  (if (length argv <? 2)%nat then ls [46] else for_list (tail argv) (fun a => ls a ;; mret true)) ;; exit.

(** ** init.c *)

Definition console : list Z := bytes_of "console".

(** The wait for the shell, which also collects the processes left without a parent. *)
Definition init_wait (pid : Z) : prog unit :=
  ITree.iter (fun _ : unit =>
    w ← sys Wait;
    if (0 <=? ret w) && negb (ret w =? pid) then printf 1 "zombie!
" [] ;; mret (inl tt) else mret (inr tt)) tt.

Definition init_round : prog unit :=
  printf 1 "init: starting sh
" [] ;;
  r ← sys Fork;
  if ret r <? 0 then printf 1 "init: fork failed
" [] ;; exit else
  if ret r =? 0 then
    sys (Exec (bytes_of "sh") [bytes_of "sh"]) ;; printf 1 "init: exec sh failed
" [] ;; exit
  else init_wait (ret r).

Definition init_main : prog unit :=
  r ← sys (Open console O_RDWR);
  (if ret r <? 0 then sys (Mknod console 1 1) ;; sys (Open console O_RDWR) ;; mret tt else mret tt) ;;
  sys (Dup 0) ;; sys (Dup 0) ;;
  ITree.iter (fun _ : unit => init_round ;; mret (inl tt)) tt.

(** ** forktest.c *)

(** The [printf] of forktest.c writes its format as it is. *)
Definition fputs (fd : Z) (s : string) : prog unit := sys (Write fd (bytes_of s)) ;; mret tt.

(** The loop of the forks, with [k] of the 1000 rounds left: the value of [n]. *)
Fixpoint fork_loop (k : nat) (n : Z) : prog Z :=
  match k with
  | O => mret n
  | S k =>
      r ← sys Fork;
      if ret r <? 0 then mret n else if ret r =? 0 then exit else fork_loop k (n + 1)
  end.

(** The loop of the waits, for [n] children. *)
Fixpoint wait_loop (n : nat) : prog unit :=
  match n with
  | O => mret tt
  | S n => r ← sys Wait; if ret r <? 0 then fputs 1 "wait stopped early
" ;; exit else wait_loop n
  end.

Definition forktest : prog unit :=
  fputs 1 "fork test
" ;;
  n ← fork_loop 1000 0;
  if n =? 1000 then fputs 1 "fork claimed to work N times!
" ;; exit else
  wait_loop (Z.to_nat n) ;;
  r ← sys Wait;
  if negb (ret r =? -1) then fputs 1 "wait got too many
" ;; exit else
  fputs 1 "fork test OK
".

Definition forktest_main : prog unit := forktest ;; exit.

(** ** zombie.c and stressfs.c *)

Definition zombie_main : prog unit :=
  r ← sys Fork; (if 0 <? ret r then sys (Sleep 5) ;; mret tt else mret tt) ;; exit.

(** The loop of the forks of [stressfs]: the value of [i] at its end. *)
Fixpoint stress_forks (k : nat) (i : Z) : prog Z :=
  match k with O => mret i | S k => r ← sys Fork; if 0 <? ret r then mret i else stress_forks k (i + 1) end.

Definition stressfs_main : prog unit :=
  printf 1 "stressfs starting
" [] ;;
  i ← stress_forks 4 0;
  printf 1 "write %d
" [Vint i] ;;
  let path := bytes_of "stressfs" ++ [48 + i] in
  r ← sys (Open path (Z.lor O_CREATE O_RDWR));
  for_list (seq 0 20) (fun _ => sys (Write (ret r) (replicate 512 97)) ;; mret true) ;;
  sys (Close (ret r)) ;;
  printf 1 "read
" [] ;;
  r ← sys (Open path O_RDONLY);
  for_list (seq 0 20) (fun _ => sys (Read (ret r) 512) ;; mret true) ;;
  sys (Close (ret r)) ;;
  sys Wait ;; exit.

(** ** The programs that call the new system calls: answer.c, testppid.c, trace.c, pgcnt.c and pscnt.c *)

Definition answer_main : prog unit := r ← sys Answer; printf 1 "%d
" [Vint (ret r)] ;; exit.
Definition testppid_main : prog unit := r ← sys Getppid; printf 1 "%d
" [Vint (ret r)] ;; exit.

Definition trace_main (argv : list (list Z)) : prog unit :=
  match argv with
  | [_; a] => sys (Trace (user_atoi a)) ;; exit
  | _ => printf 2 "Uso: %s [0|1]
" [Vstr (head argv)] ;; exit
  end.

(** [malloc(1)] on an empty heap asks [sbrk] for 4096 units of 8 bytes. *)
Definition pgcnt_main : prog unit :=
  r ← sys Pgcnt; printf 1 "%d
" [Vint (ret r)] ;;
  sys (Sbrk 4096) ;; r ← sys Pgcnt; printf 1 "%d
" [Vint (ret r)] ;;
  sys (Sbrk 32768) ;; r ← sys Pgcnt; printf 1 "%d
" [Vint (ret r)] ;; exit.

Definition pscnt_main : prog unit :=
  r ← sys Pscnt; printf 1 "Antes del fork, hay %d procesos.
" [Vint (ret r)] ;;
  f ← sys Fork;
  if ret f <? 0 then printf 2 "Fork fallido
" [] ;; exit else
  (if negb (ret f =? 0) then r ← sys Pscnt; printf 1 "Luego del fork, hay %d procesos.
" [Vint (ret r)] else mret tt) ;;
  sys (Kill (ret f)) ;; sys (Sleep 1) ;; exit.
