(* ===== verification/ProgramsSpec.v ===== *)
(** What the user programs do: [wc] and [cat] over files that are read in pieces,
    [fmtname] and [init]; [forktest] is in Forktest.v. *)

From ITree Require Import Core.ITreeDefinition.
From S2P Require Import Prelude Libc Printf Kernel Uprog Programs.

(** ** wc *)

(** The pieces of a text between blanks, and its words. *)
Fixpoint pieces (l : list Z) : list (list Z) :=
  match l with
  | [] => [[]]
  | c :: l => if blank c then [] :: pieces l else match pieces l with p :: ps => (c :: p) :: ps | [] => [[c]] end
  end.
Definition text_words (l : list Z) : list (list Z) := filter (fun w => w <> []) (pieces l).
Definition newlines (l : list Z) : list Z := filter (fun c => c = 10) l.

(** Whether a word starts at the head of a text. *)
Definition in_word (l : list Z) : bool := match l with c :: _ => negb (blank c) | [] => false end.

Lemma pieces_head l : exists p ps, pieces l = p :: ps /\ (p = [] <-> in_word l = false).
Proof.
  induction l as [|c l (p & ps & E & H)]; [by exists [], []|]. cbn [pieces in_word]. destruct (blank c) eqn:Eb; cbn [negb].
  - eexists [], _. split; [done|done].
  - rewrite E. by eexists (c :: p), ps.
Qed.

Lemma text_words_cons c l : Z.of_nat (length (text_words (c :: l))) =
  Z.of_nat (length (text_words l)) + if negb (blank c) && negb (in_word l) then 1 else 0.
Proof.
  unfold text_words. cbn [pieces]. destruct (blank c) eqn:Eb; cbn [negb andb].
  - rewrite filter_cons_False by auto. lia.
  - destruct (pieces_head l) as (p & ps & -> & Hp). rewrite filter_cons_True by done. rewrite filter_cons. destruct (in_word l); cbn [negb].
    + rewrite decide_True by naive_solver. cbn. lia.
    + rewrite decide_False by naive_solver. cbn. lia.
Qed.

Lemma i32_small n : 0 <= n < 2147483648 -> i32 n = n.
Proof. intros H. apply i32_id. unfold is_i32. lia. Qed.

(** The loop of [wc] over one piece: a word that goes on from the piece before it is
    counted once. *)
Lemma foldl_count1 l : forall st, 0 <= lines st <= chars st -> 0 <= words st <= chars st -> chars st + Z.of_nat (length l) < 2147483648 ->
  exists b, foldl count1 st l = Counts (lines st + Z.of_nat (length (newlines l)))
    (words st + Z.of_nat (length (text_words l)) - if inword st && in_word l then 1 else 0) (chars st + Z.of_nat (length l)) b /\
    (l = [] -> b = inword st) /\ (forall c, last l = Some c -> b = negb (blank c)).
Proof.
  induction l as [|c l IH]; intros st H1 H2 H3.
  - exists (inword st). split; [|done]. destruct st as [a b c d]. cbn. rewrite andb_false_r. rewrite decide_False by auto. cbn. f_equal; lia.
  - cbn [length] in H3. cbn [foldl]. pose proof (text_words_cons c l) as Hw.
    set (st1 := count1 st c). assert (lines st1 = lines st + (if c =? 10 then 1 else 0) /\ chars st1 = chars st + 1 /\ inword st1 = negb (blank c) /\
      words st1 = words st + if negb (blank c) && negb (inword st) then 1 else 0) as (E1 & E2 & E3 & E4).
    { subst st1. unfold count1. rewrite !i32_small by lia. destruct (c =? 10), (blank c), (inword st) eqn:Ei; cbn; rewrite ?Ei; repeat split; lia. }
    clearbody st1. destruct (IH st1) as (b & E & Hb1 & Hb2); [rewrite E1, E2; destruct (c =? 10); lia|rewrite E4, E2; destruct (negb (blank c) && negb (inword st)); lia|lia|].
    exists b. split; [|split; [done|]].
    + rewrite E, E1, E2, E3, E4, Hw. cbn [in_word length]. unfold newlines. rewrite filter_cons. f_equal; [| |lia].
      * destruct (Z.eqb_spec c 10); [rewrite decide_True by done|rewrite decide_False by done]; cbn; lia.
      * destruct (blank c), (inword st), (in_word l); cbn; lia.
    + intros x Hx. destruct l as [|y l]; [injection Hx as <-; by rewrite Hb1, E3|by apply Hb2].
Qed.

(** Counting a text in two parts is counting it at once. *)
Lemma foldl_counts cs : forall st, foldl (fun st l => foldl count1 st l) st cs = foldl count1 st (concat cs).
Proof. induction cs as [|c cs IH]; intros st; [done|]. cbn [foldl concat]. by rewrite foldl_app, IH. Qed.

(** A number in decimal, without leading zeros. *)
Definition decimal (n : Z) (d : list Z) : Prop := exists ds, d = map (fun k => 48 + k) ds /\
  Forall (fun k => 0 <= k < 10) ds /\ value 10 ds = n /\ (head ds = Some 0 -> ds = [0]).

Lemma printint_decimal_u n : 0 <= n < 2147483648 -> exists d, Printf.printint (i32 n) 10 true = Some d /\ decimal n d.
Proof.
  intros Hn. rewrite i32_small by done. destruct (Printf.printint_spec n 10 true) as (ds & E & Hd & Hv & Hz); [unfold is_i32; lia|by left|].
  rewrite (proj2 (Z.ltb_ge n 0)) in * by lia. cbn [andb app] in *. eexists. split; [exact E|]. exists ds. split; [|split; [done|split; [|done]]].
  - apply map_ext_in. intros k Hk%list_elem_of_In. rewrite Forall_forall in Hd. specialize (Hd k Hk).
    assert (k = 0 \/ k = 1 \/ k = 2 \/ k = 3 \/ k = 4 \/ k = 5 \/ k = 6 \/ k = 7 \/ k = 8 \/ k = 9) as H by lia.
    by repeat destruct H as [->|H]; [..|subst k].
  - rewrite Hv. unfold u32. rewrite Z.mod_small; lia.
Qed.

Lemma printf_d fmt v args d l : Printf.printint (i32 v) 10 true = Some d -> printf_loop fmt args false = Some l ->
  printf_loop (37 :: 100 :: fmt) (Vint v :: args) false = Some (d ++ l).
Proof. intros E1 E2. change (printf_loop (37 :: 100 :: fmt) (Vint v :: args) false) with (d ← Printf.printint (i32 v) 10 true; l ← printf_loop fmt args false; Some (d ++ l)). by rewrite E1, E2. Qed.

Lemma printf_c c fmt args l : c <> 37 -> printf_loop fmt args false = Some l -> printf_loop (c :: fmt) args false = Some (c :: l).
Proof. intros Hc E. cbn [printf_loop negb]. apply Z.eqb_neq in Hc as ->. by rewrite E. Qed.

Lemma printf_s s fmt args l : Forall (fun c => c <> 37) s -> printf_loop fmt args false = Some l -> printf_loop (s ++ fmt) args false = Some (s ++ l).
Proof. induction 1 as [|c s Hc _ IH]; intros E; [done|]. apply printf_c; auto. Qed.

Lemma wc_line a b c name da db dc : Printf.printint (i32 a) 10 true = Some da -> Printf.printint (i32 b) 10 true = Some db ->
  Printf.printint (i32 c) 10 true = Some dc ->
  Printf.printf "%d %d %d %s
" [Vint a; Vint b; Vint c; Vstr (Some name)] = Some (da ++ [32] ++ db ++ [32] ++ dc ++ [32] ++ name ++ [10]).
Proof.
  intros Ea Eb Ec. change (printf_loop [37; 100; 32; 37; 100; 32; 37; 100; 32; 37; 115; 10] [Vint a; Vint b; Vint c; Vstr (Some name)] false
    = Some (da ++ [32] ++ db ++ [32] ++ dc ++ [32] ++ name ++ [10])).
  apply printf_d, printf_c; [done..|]. apply printf_d, printf_c; [done..|]. by apply printf_d, printf_c.
Qed.

Section Reading.

Context {S : Type} (M : machine S) (fd : Z).

(** A file that is read in the given pieces, up to its end. *)
Inductive feeds : list (list Z) -> S -> S -> Prop :=
  | feeds_end s d s' : m_sys M (Read fd 512) s = (Reply 0 d, s') -> feeds [] s s'
  | feeds_more c cs s s1 s' : c <> [] -> m_sys M (Read fd 512) s = (Reply (Z.of_nat (length c)) c, s1) ->
      feeds cs s1 s' -> feeds (c :: cs) s s'.

Lemma wc_loop_feeds cs s s' : feeds cs s s' -> forall st,
  runs M (wc_loop fd st) s (Some (foldl (fun st l => foldl count1 st l) st cs, 0)) s'.
Proof.
  induction 1 as [s d s' E|c cs s s1 s' Hc E _ IH]; intros st.
  - apply runs_iter_end. apply runs_call. rewrite E. cbn. apply (runs_ret M (inr (st, 0))).
  - eapply runs_iter; [|apply IH]. apply runs_call. rewrite E. cbn [fst snd ret data].
    destruct c as [|x c]; [done|]. apply (runs_ret M (inl (foldl count1 st (x :: c)))).
Qed.

(** C38. However the file is cut into pieces by [read], [wc] ends and prints the numbers
    of lines, of words and of characters of its whole text, in decimal, and the name;
    words that cross a cut are counted once. *)
Theorem wc_counts cs name s s' : let text := concat cs in feeds cs s s' -> Z.of_nat (length text) < 2147483648 ->
  exists dl dw dc, decimal (Z.of_nat (length (newlines text))) dl /\ decimal (Z.of_nat (length (text_words text))) dw /\
    decimal (Z.of_nat (length text)) dc /\
    runs M (wc fd name) s (Some tt) (m_puts M 1 (dl ++ [32] ++ dw ++ [32] ++ dc ++ [32] ++ name ++ [10]) s').
Proof.
  intros text Hf Ht. destruct (foldl_count1 text (Counts 0 0 0 false)) as (b & E & _ & _); [cbn; lia..|]. cbn [lines words chars inword andb] in E.
  rewrite !Z.add_0_l, Z.sub_0_r in E.
  assert (length (newlines text) <= length text)%nat by apply length_filter.
  assert (length (text_words text) <= length text)%nat as Hw.
  { clear. induction text as [|c l IH]; [done|]. pose proof (text_words_cons c l). cbn [length]. destruct (negb (blank c) && negb (in_word l)); lia. }
  destruct (printint_decimal_u (Z.of_nat (length (newlines text)))) as (dl & El & Hl); [lia|].
  destruct (printint_decimal_u (Z.of_nat (length (text_words text)))) as (dw & Ew & Hw'); [lia|].
  destruct (printint_decimal_u (Z.of_nat (length text))) as (dc & Ec & Hc); [lia|].
  exists dl, dw, dc. split; [done|]. split; [done|]. split; [done|]. unfold wc.
  eapply runs_bind; [apply wc_loop_feeds, Hf|]. rewrite foldl_counts. fold text. rewrite E. cbn [snd fst Z.ltb Z.compare lines words chars].
  by apply runs_put, wc_line.
Qed.

End Reading.

(** ** A machine with files *)

(** The contents of the files, what is left to read in each open one, and the bytes on
    the standard output and the standard error. *)
Record fsys := Fsys { contents : gmap (list Z) (list Z); opened : gmap Z (list Z); out : list Z; err : list Z }.
#[export] Instance fsys_set : Settable fsys := fun r => Fsys (contents r) (opened r) (out r) (err r).

(** The lowest descriptor that is free; a process has 16. *)
Definition free_fd (s : fsys) : option Z := head (filter (fun n => opened s !! n = None) (map Z.of_nat (seq 0 16))).

Definition files : machine fsys := {|
  m_sys c s :=
    match c with
    | Open p 0 => match contents s !! p, free_fd s with
                  | Some l, Some fd => (Reply fd [], s <| opened ::= <[fd := l]> |>)
                  | _, _ => (Reply (-1) [], s)
                  end
    | Read fd n => match opened s !! fd with
                   | Some l => let d := take (Z.to_nat n) l in
                               (Reply (Z.of_nat (length d)) d, s <| opened ::= <[fd := drop (Z.to_nat n) l]> |>)
                   | None => (Reply (-1) [], s)
                   end
    | Write 1 l => (Reply (Z.of_nat (length l)) [], s <| out ::= fun o => o ++ l |>)
    | Close fd => match opened s !! fd with Some _ => (Reply 0 [], s <| opened ::= delete fd |>) | None => (Reply (-1) [], s) end
    | _ => (Reply (-1) [], s)
    end;
  m_puts fd l s := if fd =? 1 then s <| out ::= fun o => o ++ l |> else s <| err ::= fun o => o ++ l |> |}.

(** The pieces in which an open file is read. *)
Fixpoint cut (fuel : nat) (l : list Z) : list (list Z) :=
  match fuel, l with
  | S fuel, _ :: _ => take 512 l :: cut fuel (drop 512 l)
  | _, _ => []
  end.

Lemma concat_cut fuel : forall l, (length l <= 512 * fuel)%nat -> concat (cut fuel l) = l.
Proof.
  induction fuel as [|fuel IH]; intros [|x l] Hl; cbn [cut concat]; try done; [cbn in Hl; lia|].
  rewrite IH by (rewrite length_drop; lia). apply take_drop.
Qed.

Lemma files_read s fd l : opened s !! fd = Some l ->
  m_sys files (Read fd 512) s = (Reply (Z.of_nat (length (take 512 l))) (take 512 l), s <| opened ::= <[fd := drop 512 l]> |>).
Proof. intros E. cbn. by rewrite E. Qed.

(** Reading an open file to its end takes pieces of 512 bytes. *)
Lemma files_feeds fd fuel : forall l s, opened s !! fd = Some l -> (length l <= 512 * fuel)%nat ->
  feeds files fd (cut fuel l) s (s <| opened ::= <[fd := []]> |>).
Proof.
  induction fuel as [|fuel IH]; intros l s E Hl.
  - destruct l; [|cbn in Hl; lia]. eapply feeds_end. by rewrite (files_read s fd []).
  - destruct l as [|x l]; [eapply feeds_end; by rewrite (files_read s fd [])|]. cbn [cut].
    eapply feeds_more; [done|by apply files_read|].
    set (s1 := s <| opened ::= _ |>). assert (s <| opened ::= <[fd := []]> |> = s1 <| opened ::= <[fd := []]> |>) as ->.
    { subst s1. unfold setter. cbn. by rewrite insert_insert_eq. }
    apply IH; [subst s1; unfold setter; cbn; by rewrite lookup_insert_eq|rewrite length_drop; lia].
Qed.

Lemma wc_counts_witness : let s := Fsys ∅ {[3 := bytes_of "uno dos tres"]} [] [] in
  exists dl dw dc, decimal 0 dl /\ decimal 3 dw /\ decimal 12 dc /\
    runs files (wc 3 (bytes_of "f")) s (Some tt) (m_puts files 1 (dl ++ [32] ++ dw ++ [32] ++ dc ++ [32] ++ bytes_of "f" ++ [10]) (s <| opened ::= <[3 := []]> |>)).
Proof.
  intros s. destruct (wc_counts files 3 [bytes_of "uno dos tres"] (bytes_of "f") s (s <| opened ::= <[3 := []]> |>)) as (dl & dw & dc & H1 & H2 & H3 & H4);
    [apply (files_feeds 3 1 (bytes_of "uno dos tres")); [done|cbn; lia]|done|]. exists dl, dw, dc. done.
Defined.

(** ** cat *)

Lemma cat_copies fd fuel : forall l s, opened s !! fd = Some l -> (length l <= 512 * fuel)%nat ->
  runs files (cat fd) s (Some tt) (s <| out ::= fun o => o ++ l |> <| opened ::= <[fd := []]> |>).
Proof.
  intros l s E Hl. unfold cat. eapply (runs_bind _ _ _ _ 0); [|apply runs_ret].
  revert l s E Hl. induction fuel as [|fuel IH]; intros [|x l] s E Hl; [|cbn in Hl; lia| |].
  1,2: replace (s <| out ::= fun o => o ++ [] |> <| opened ::= <[fd := []]> |>) with (s <| opened ::= <[fd := []]> |>)
         by (unfold setter; cbn [opened out contents err fsys_set]; by rewrite app_nil_r);
       apply runs_iter_end, runs_call; rewrite (files_read s fd []) by done; apply (runs_ret files (inr 0)).
  set (s1 := s <| opened ::= <[fd := drop 512 (x :: l)]> |> <| out ::= fun o => o ++ take 512 (x :: l) |>).
  apply (runs_iter _ _ _ _ tt s1).
  - apply runs_call. rewrite (files_read s fd (x :: l)) by done. cbn [fst snd ret data]. rewrite (proj2 (Z.ltb_lt _ _)) by (cbn; lia).
    apply runs_call. cbn [m_sys files fst snd ret]. rewrite Z.eqb_refl. apply (runs_ret files (inl tt)).
  - replace (s <| out ::= fun o => o ++ x :: l |> <| opened ::= <[fd := []]> |>)
      with (s1 <| out ::= fun o => o ++ drop 512 (x :: l) |> <| opened ::= <[fd := []]> |>).
    + apply IH; [subst s1; unfold setter; cbn [opened fsys_set]; by rewrite lookup_insert_eq|rewrite length_drop; lia].
    + subst s1. unfold setter. cbn [opened out contents err fsys_set]. rewrite insert_insert_eq, <- app_assoc, take_drop. done.
Qed.

Lemma free_fd_closed s fd : free_fd s = Some fd -> opened s !! fd = None.
Proof.
  unfold free_fd. destruct (filter _ _) as [|x l] eqn:E; [done|]. intros [= ->].
  assert (fd ∈ filter (fun n => opened s !! n = None) (map Z.of_nat (seq 0 16))) as H by (rewrite E; left). by apply list_elem_of_filter in H as [H _].
Qed.

(** One file of the command line: it is open only while it is copied. *)
Lemma cat_one s fd f l : free_fd s = Some fd -> contents s !! f = Some l ->
  m_sys files (Open f 0) s = (Reply fd [], s <| opened ::= <[fd := l]> |>) /\
  runs files (cat fd) (s <| opened ::= <[fd := l]> |>) (Some tt) (s <| out ::= fun o => o ++ l |> <| opened ::= <[fd := []]> |>) /\
  m_sys files (Close fd) (s <| out ::= fun o => o ++ l |> <| opened ::= <[fd := []]> |>) = (Reply 0 [], s <| out ::= fun o => o ++ l |>).
Proof.
  intros Hf Hl. split; [|split].
  - cbn [m_sys files]. by rewrite Hl, Hf.
  - replace (s <| out ::= fun o => o ++ l |> <| opened ::= <[fd := []]> |>)
      with (s <| opened ::= <[fd := l]> |> <| out ::= fun o => o ++ l |> <| opened ::= <[fd := []]> |>).
    + apply (cat_copies fd (length l)); [unfold setter; cbn [opened fsys_set]; by rewrite lookup_insert_eq|lia].
    + unfold setter. cbn [opened out contents err fsys_set]. by rewrite insert_insert_eq.
  - unfold setter. cbn [m_sys files opened out contents err fsys_set]. rewrite lookup_insert_eq. unfold setter. cbn [opened out contents err fsys_set].
    by rewrite delete_insert_eq, delete_id by (by apply free_fd_closed).
Qed.

Lemma for_files_cat cannot fd : forall fls s, free_fd s = Some fd -> Forall (fun f => is_Some (contents s !! f)) fls ->
  runs files (for_files cannot fls (fun fd _ => cat fd)) s (Some tt) (s <| out ::= fun o => o ++ concat (omap (fun f => contents s !! f) fls) |>).
Proof.
  induction fls as [|f fls IH]; intros s Hf Hc.
  - replace (s <| out ::= _ |>) with s by (destruct s; unfold setter; cbn; by rewrite app_nil_r). apply runs_ret.
  - apply Forall_cons in Hc as [[l Hl] Hc]. destruct (cat_one s fd f l Hf Hl) as (E1 & E2 & E3).
    assert (0 <= fd) as Hfd.
    { unfold free_fd in Hf. apply head_Some_elem_of, list_elem_of_filter in Hf as [_ Hf]. apply list_elem_of_fmap in Hf as (n & -> & _). lia. }
    unfold for_files. cbn [for_list]. eapply (runs_bind _ _ _ _ true).
    + apply runs_call. rewrite E1. cbn [fst snd ret]. rewrite (proj2 (Z.ltb_ge _ _)) by done.
      eapply runs_bind; [exact E2|]. apply runs_call. rewrite E3. apply (runs_ret files true).
    + cbn [omap list_omap]. rewrite Hl. cbn [concat].
      replace (s <| out ::= fun o => o ++ l ++ concat (omap (fun f => contents s !! f) fls) |>)
        with (s <| out ::= fun o => o ++ l |> <| out ::= fun o => o ++ concat (omap (fun f => contents s !! f) fls) |>)
        by (unfold setter; cbn [opened out contents err fsys_set]; by rewrite <- app_assoc).
      set (s1 := s <| out ::= fun o => o ++ l |>). exact (IH s1 Hf Hc).
Qed.

(** [cat] of files that exist ends, prints their contents one after the other, and
    leaves none of them open. *)
Theorem cat_main_concat name f fls s fd : free_fd s = Some fd -> Forall (fun f => is_Some (contents s !! f)) (f :: fls) ->
  runs files (cat_main (name :: f :: fls)) s None (s <| out ::= fun o => o ++ concat (omap (fun f => contents s !! f) (f :: fls)) |>).
Proof. intros Hf Hc. eapply runs_bind; [by apply (for_files_cat _ fd)|apply runs_exit]. Qed.

(** ** ls *)

(** [fmtname] gives the name after the last slash, in at least 14 columns. *)
Lemma after_slash_app d n : Forall (fun c => c <> 47) n -> after_slash (d ++ 47 :: n) = n.
Proof.
  intros Hn. unfold after_slash. rewrite foldl_app. cbn [foldl Z.eqb Pos.eqb].
  assert (forall p, foldl (fun p c => if c =? 47 then [] else p ++ [c]) p n = p ++ n) as H; [|apply H].
  induction Hn as [|c n Hc _ IH]; intros p; cbn; [by rewrite app_nil_r|]. apply Z.eqb_neq in Hc as ->. by rewrite IH, <- app_assoc.
Qed.

Theorem fmtname_pads d n : Forall (fun c => c <> 47) n ->
  fmtname (d ++ 47 :: n) = n ++ replicate (14 - length n) 32 /\ (length (fmtname (d ++ 47 :: n)) = Nat.max 14 (length n)).
Proof.
  intros Hn. unfold fmtname. rewrite after_slash_app by done. unfold DIRSIZ. destruct (Nat.leb_spec 14 (length n)).
  - replace (14 - length n)%nat with 0%nat by lia. rewrite app_nil_r. split; [done|lia].
  - split; [done|]. rewrite length_app, length_replicate. lia.
Qed.

(** ** init and pscnt *)

(** A machine whose forks and waits return the given results, and which records the
    system calls and the output. *)
Record script := Script { forks : list Z; waits : list Z; calls : list call; said : list Z }.
Definition scripted : machine script := {|
  m_sys c s :=
    let s := Script (forks s) (waits s) (calls s ++ [c]) (said s) in
    match c with
    | Fork => (Reply (default (-1) (head (forks s))) [], Script (tail (forks s)) (waits s) (calls s) (said s))
    | Wait => (Reply (default (-1) (head (waits s))) [], Script (forks s) (tail (waits s)) (calls s) (said s))
    | _ => (Reply 0 [], s)
    end;
  m_puts fd l s := Script (forks s) (waits s) (calls s) (said s ++ l) |}.

Definition starting : list Z := bytes_of "init: starting sh
".
Definition zombie : list Z := bytes_of "zombie!
".
Definition fork_failed : list Z := bytes_of "init: fork failed
".

Lemma init_wait_zombies pid orphans : forall fs ws cs o, 0 <= pid -> Forall (fun p => 0 <= p /\ p <> pid) orphans ->
  runs scripted (init_wait pid) (Script fs (orphans ++ pid :: ws) cs o) (Some tt)
    (Script fs ws (cs ++ replicate (S (length orphans)) Wait) (o ++ concat (replicate (length orphans) zombie))).
Proof.
  induction orphans as [|p orphans IH]; intros fs ws cs o Hp Ho.
  - apply runs_iter_end, runs_call. cbn [m_sys scripted forks waits calls said app head tail default fst snd ret length replicate concat].
    rewrite Z.eqb_refl, andb_false_r, app_nil_r. apply (runs_ret scripted (inr tt)).
  - apply Forall_cons in Ho as [[H1 H2] Ho]. apply (runs_iter _ _ _ _ tt (Script fs (orphans ++ pid :: ws) (cs ++ [Wait]) (o ++ zombie))).
    + apply runs_call. cbn [m_sys scripted forks waits calls said app head tail default fst snd ret].
      rewrite (proj2 (Z.leb_le _ _)), (proj2 (Z.eqb_neq _ _)) by done. cbn [negb andb].
      eapply (runs_printf _ _ _ _ zombie); [reflexivity|]. apply (runs_ret scripted (inl tt)).
    + cbn [length]. change (replicate (S (S (length orphans))) Wait) with ([Wait] ++ replicate (S (length orphans)) Wait).
      change (concat (replicate (S (length orphans)) zombie)) with (zombie ++ concat (replicate (length orphans) zombie)). rewrite !app_assoc. by apply IH.
Qed.

(** The rounds of [init]: the shell that was started, and the processes without a parent
    that ended before it. *)
Definition rounds_ok (rounds : list (Z * list Z)) : Prop := Forall (fun r => 0 < r.1 /\ Forall (fun p => 0 <= p /\ p <> r.1) r.2) rounds.
Definition rounds_said (rounds : list (Z * list Z)) : list Z := concat (map (fun r => starting ++ concat (replicate (length r.2) zombie)) rounds).

Lemma init_round_starts pid orphans fs ws cs o : 0 < pid -> Forall (fun p => 0 <= p /\ p <> pid) orphans ->
  runs scripted init_round (Script (pid :: fs) (orphans ++ pid :: ws) cs o) (Some tt)
    (Script fs ws ((cs ++ [Fork]) ++ replicate (S (length orphans)) Wait) ((o ++ starting) ++ concat (replicate (length orphans) zombie))).
Proof.
  intros Hp Ho. unfold init_round. eapply (runs_printf _ _ _ _ starting); [reflexivity|]. apply runs_call.
  cbn [m_sys scripted m_puts forks waits calls said head tail default fst snd ret]. unfold id.
  rewrite (proj2 (Z.ltb_ge pid 0)), (proj2 (Z.eqb_neq pid 0)) by lia. apply init_wait_zombies; [lia|done].
Qed.

Lemma init_rounds rounds : forall cs o, rounds_ok rounds ->
  exists cs', runs scripted (ITree.iter (fun _ : unit => init_round ;; mret (inl tt)) tt : prog unit)
    (Script (map fst rounds) (concat (map (fun r => r.2 ++ [r.1]) rounds)) cs o) None
    (Script [] [] cs' (o ++ rounds_said rounds ++ starting ++ fork_failed)).
Proof.
  induction rounds as [|[pid orphans] rounds IH]; intros cs o Hr.
  - eexists. apply runs_iter_exit, runs_bind_exit. unfold init_round. eapply (runs_printf _ _ _ _ starting); [reflexivity|]. apply runs_call.
    cbn [m_sys scripted m_puts forks waits calls said map concat head tail default fst snd ret]. change (-1 <? 0) with true. cbv iota.
    eapply (runs_printf _ _ _ _ fork_failed); [reflexivity|]. cbn [m_puts scripted forks waits calls said]. rewrite <- app_assoc. apply runs_exit.
  - apply Forall_cons in Hr as [[H1 H2] Hr]. cbn [fst snd map concat] in *.
    destruct (IH ((cs ++ [Fork]) ++ replicate (S (length orphans)) Wait) ((o ++ starting) ++ concat (replicate (length orphans) zombie)) Hr) as [cs' H].
    exists cs'. unfold rounds_said at 1. cbn [map concat fst snd]. fold (rounds_said rounds). rewrite <- !app_assoc in *. cbn [app].
    eapply runs_iter; [|exact H]. eapply (runs_bind _ _ _ _ tt); [|apply (runs_ret scripted (inl tt))].
    pose proof (init_round_starts pid orphans (map fst rounds) (concat (map (fun r => r.2 ++ [r.1]) rounds)) cs o H1 H2) as Hi.
    by rewrite <- !app_assoc in Hi.
Qed.

(** [init] starts the shell again each time it ends, and collects every process that
    was left without a parent in the meantime, until a fork fails. *)
Theorem init_restarts rounds : rounds_ok rounds ->
  exists cs, runs scripted init_main (Script (map fst rounds) (concat (map (fun r => r.2 ++ [r.1]) rounds)) [] []) None
    (Script [] [] cs (rounds_said rounds ++ starting ++ fork_failed)).
Proof.
  intros Hr. destruct (init_rounds rounds [Open console O_RDWR; Dup 0; Dup 0] [] Hr) as [cs H]. exists cs. unfold init_main. apply runs_call. cbn [m_sys scripted fst snd ret].
  change (0 <? 0) with false. cbv iota. eapply runs_bind; [apply runs_ret|]. apply runs_call, runs_call. exact H.
Qed.

Lemma init_restarts_witness : exists cs, runs scripted init_main (Script [2; 5] [3; 4; 2; 5] [] []) None
  (Script [] [] cs (starting ++ zombie ++ zombie ++ starting ++ starting ++ fork_failed)).
Proof. apply (init_restarts [(2, [3; 4]); (5, [])]). repeat constructor; cbn; lia. Defined.

(** The child of [pscnt] goes on to the call of [kill], with the 0 that [fork] returned. *)
Theorem pscnt_child_kills_0 : exists s, runs scripted pscnt_main (Script [0] [] [] []) None s /\ Kill 0 ∈ calls s.
Proof.
  eexists. split; [exists 20%nat; vm_compute; reflexivity|]. cbn [calls]. apply list_elem_of_In. cbn. tauto.
Qed.
