(* ===== verification/Ptable.v ===== *)
(** Several user programs on one process table: what [fork], [exit] and [wait] (proc.c)
    do to the table and to the programs that call them.

    A process is an entry of the table and the program that it still has to run.  [fork]
    copies the program of the caller, that goes on with 0 in the child; a process that
    sleeps in [wait] stays at its call and scans the table again when it has been woken.
    The processor is given to one process that is runnable for one turn, up to the end of
    its next system call; a sequence of turns is a schedule.  What the rest of the kernel
    decides is in the schedule too: whether there is memory for a [fork]. *)

From ITree Require Import Core.ITreeDefinition.
From S2P Require Import Prelude Libc Kernel Uprog.

(** The fields of [struct proc] that the table's operations use. *)
Record entry := Entry { e_state : procstate; e_pid : Z; e_parent : option nat; e_chan : option chan; e_killed : bool }.
#[export] Instance entry_set : Settable entry := fun r => Entry (e_state r) (e_pid r) (e_parent r) (e_chan r) (e_killed r).

Definition entry_of (p : proc) : entry := Entry (p_state p) (p_pid p) (p_parent p) (p_chan p) (p_killed p).

(** ** The table *)

Definition t_wake1 (ch : option chan) (e : entry) : entry :=
  if bool_decide (e_state e = SLEEPING) && bool_decide (e_chan e = ch) then e <| e_state := RUNNABLE |> else e.
Definition t_wakeup1 (ch : option chan) (tb : list entry) : list entry := map (t_wake1 ch) tb.

(** [allocproc] and the end of [fork]: the slot that they take and the new table.  With no
    memory for the kernel stack or for the copy of the address space the slot is given
    back, with the pid in it. *)
Definition t_fork (mem : bool) (me : nat) (pid : Z) (tb : list entry) : option (nat * list entry) :=
  '(np, _) ← list_find (fun e => e_state e = UNUSED) tb;
  let tb := alter (fun e => e <| e_pid := pid |>) np tb in
  Some (np, if mem then alter (fun e => e <| e_parent := Some me |> <| e_state := RUNNABLE |>) np tb else tb).

(** The children of [me] are given to [init]. *)
Definition t_abandon (me : nat) (init : option nat) (tb : list entry) (i : nat) : list entry :=
  match tb !! i with
  | Some e =>
      if bool_decide (e_parent e = Some me) then
        let tb := alter (fun e => e <| e_parent := init |>) i tb in
        if bool_decide (e_state e = ZOMBIE) then t_wakeup1 (Cproc <$> init) tb else tb
      else tb
  | None => tb
  end.

Definition t_exit (me : nat) (init : option nat) (tb : list entry) : list entry :=
  let tb := t_wakeup1 (Cproc <$> (tb !! me ≫= e_parent)) tb in
  let tb := foldl (t_abandon me init) tb (seq 0 (length tb)) in
  alter (fun e => e <| e_state := ZOMBIE |>) me tb.

(** One scan of [wait]: the value that it returns, or [None] if the caller sleeps. *)
Definition t_wait (me : nat) (tb : list entry) : option Z * list entry :=
  match list_find (fun e => e_parent e = Some me /\ e_state e = ZOMBIE) tb with
  | Some (i, e) =>
      (Some (e_pid e), alter (fun e => e <| e_pid := 0 |> <| e_parent := None |> <| e_killed := false |> <| e_state := UNUSED |>) i tb)
  | None =>
      if negb (existsb (fun e => bool_decide (e_parent e = Some me)) tb) || default false (e_killed <$> tb !! me)
      then (Some (-1), tb)
      else (None, alter (fun e => e <| e_chan := Some (Cproc me) |> <| e_state := SLEEPING |>) me tb)
  end.

(** ** Programs *)

(** The next step of a program. *)
Inductive view :=
  | Vret | Vtau (t : prog unit) | Vsys (c : call) (k : reply -> prog unit) | Vputs (fd : Z) (l : list Z) (t : prog unit) | Vexit.

Definition view_of (t : prog unit) : view :=
  match observe t with
  | RetF _ => Vret
  | TauF t => Vtau t
  | VisF e k =>
      match e in sysE X return (X -> prog unit) -> view with
      | Sys c => fun k => Vsys c k
      | Puts fd l => fun k => Vputs fd l (k tt)
      | Exit => fun _ => Vexit
      end k
  end.

Record system := System { s_table : list entry; s_code : gmap nat (prog unit); s_nextpid : Z; s_initproc : option nat; s_out : list Z }.
#[export] Instance system_set : Settable system :=
  fun r => System (s_table r) (s_code r) (s_nextpid r) (s_initproc r) (s_out r).

(** A turn of process [i]; [mem]: there is memory.  [None]: the process is not runnable, or its program does
    what this machine has no answer to: it returns from [main], it calls a system call
    that is not of proc.c, it writes to a file, or it is [init] and exits.  [sleep] sets
    the channel of a process back to 0 when the process runs again. *)
Definition turn (i : nat) (mem : bool) (s : system) : option system :=
  e ← s_table s !! i;
  if bool_decide (e_state e <> RUNNABLE) then None else
  t ← s_code s !! i;
  match view_of t with
  | Vtau t => Some (s <| s_code ::= <[i := t]> |>)
  | Vsys Fork k =>
      match t_fork mem i (s_nextpid s) (s_table s) with
      | None => Some (s <| s_code ::= <[i := k (Reply (-1) [])]> |>)
      | Some (np, tb) =>
          let s' := s <| s_table := tb |> <| s_nextpid := i32 (s_nextpid s + 1) |> in
          if mem then Some (s' <| s_code ::= fun c => <[i := k (Reply (s_nextpid s) [])]> (<[np := k (Reply 0 [])]> c) |>)
          else Some (s' <| s_code ::= <[i := k (Reply (-1) [])]> |>)
      end
  | Vsys Wait k =>
      match t_wait i (alter (fun e => e <| e_chan := None |>) i (s_table s)) with
      | (Some r, tb) => Some (s <| s_table := tb |> <| s_code ::= <[i := k (Reply r [])]> |>)
      | (None, tb) => Some (s <| s_table := tb |>)
      end
  | Vsys (Write fd l) k =>
      if fd =? 1 then Some (s <| s_out ::= fun o => o ++ l |> <| s_code ::= <[i := k (Reply (Z.of_nat (length l)) [])]> |>) else None
  | Vputs fd l t => if fd =? 1 then Some (s <| s_out ::= fun o => o ++ l |> <| s_code ::= <[i := t]> |>) else None
  | Vexit =>
      if bool_decide (Some i = s_initproc s) then None
      else Some (s <| s_table ::= t_exit i (s_initproc s) |> <| s_code ::= delete i |>)
  | _ => None
  end.

Fixpoint turns (sched : list (nat * bool)) (s : system) : option system :=
  match sched with [] => Some s | (i, mem) :: sched => s ← turn i mem s; turns sched s end.

(** Nothing more can happen. *)
Definition idle (s : system) : Prop := forall i mem, turn i mem s = None.
