(* ===== verification/PtableSpec.v ===== *)
(** The table of Ptable.v is the process table of proc.c: [fork], [wait] and the end of
    [exit] do to the entries what [t_fork], [t_wait] and [t_exit] say. *)

From S2P Require Import Prelude Kernel Sched Cons Str Bio Log Inode Fs Kalloc Vm File VmSpec MemFrame Proc ProcSpec Ptable.

Definition ents (w : world) : list entry := map entry_of (k_ptable (w_k w)).

(** What a computation does if it returns. *)
Definition post {A} (c : M A) (w : world) (Q : A -> world -> Prop) : Prop := forall a w', c w = Ok a w' -> Q a w'.

Lemma post_bind {A B} (c : M A) (k : A -> M B) w Q : post c w (fun a w' => post (k a) w' Q) -> post (c ≫= k) w Q.
Proof. intros H b w'. unfold mbind, M_bind. destruct (c w) as [a w1| | | |] eqn:E; try done. by apply H. Qed.

Lemma post_ret {A} (a : A) w (Q : A -> world -> Prop) : Q a w -> post (mret a) w Q.
Proof. by intros H b w' [= <- <-]. Qed.

(** The parts of the state that the table's operations read. *)
Definition snap (w : world) : list entry * Z * option nat * option nat := (ents w, k_nextpid (w_k w), k_initproc (w_k w), w_proc w).

Definition keeps {A} (c : M A) : Prop := forall w a w', c w = Ok a w' -> snap w' = snap w.

Lemma keeps_bind {A B} (c : M A) (k : A -> M B) : keeps c -> (forall a, keeps (k a)) -> keeps (c ≫= k).
Proof.
  intros Hc Hk w b w'. unfold mbind, M_bind. destruct (c w) as [a w1| | | |] eqn:E; try done. intros E2.
  rewrite (Hk _ _ _ _ E2). by eapply Hc.
Qed.

Lemma keeps_same {A} (c : M A) : (forall w a w', c w = Ok a w' -> w' = w) -> keeps c.
Proof. intros H w a w' E. by rewrite (H _ _ _ E). Qed.

Lemma keeps_ret {A} (a : A) : keeps (mret a).
Proof. apply keeps_same. by intros w b w' [= _ <-]. Qed.

Lemma keeps_panic {A} s : keeps (panic s : M A).
Proof. by intros w a w'. Qed.

Lemma keeps_get {A} (f : kstate -> A) : keeps (get f).
Proof. apply keeps_same. by intros w b w' [= _ <-]. Qed.

Lemma keeps_deref {A} (o : option A) : keeps (deref o).
Proof. destruct o; [apply keeps_ret|by intros w a w']. Qed.

Lemma keeps_mem {A} (c : M A) : mem_only c -> keeps c.
Proof. intros H w a w' E. destruct (H _ _ _ E) as (m & -> & _). by destruct w. Qed.

Lemma keeps_acquire lk : keeps (acquire lk).
Proof. intros w a w'. unfold acquire. destruct (bool_decide _); [done|]. by intros [= _ <-]. Qed.

Lemma keeps_release lk : keeps (release lk).
Proof. intros w a w'. unfold release. destruct (bool_decide _); [|done]. by intros [= _ <-]. Qed.

Lemma keeps_for_each {A} (body : A -> M unit) : (forall a, keeps (body a)) -> forall l, keeps (for_each l body).
Proof. intros H. induction l; cbn; [apply keeps_ret|]. by apply keeps_bind. Qed.

Lemma keeps_find_each {A R} (body : A -> M (option R)) : (forall a, keeps (body a)) -> forall l, keeps (find_each l body).
Proof. intros H. induction l; cbn; [apply keeps_ret|]. apply keeps_bind; [done|]. intros [r|]; [apply keeps_ret|done]. Qed.

(** An assignment to a field that is not in the table. *)
Lemma keeps_upd_proc i f : (forall p, entry_of (f p) = entry_of p) -> keeps (upd_proc i f).
Proof.
  intros Hf w a w' [= _ <-]. unfold snap, ents, setter. cbn. do 3 f_equal. apply list_eq. intros j.
  rewrite !list_lookup_fmap, list_lookup_alter. case_decide as H; [|done]. subst j.
  destruct (k_ptable (w_k w) !! i) as [p|]; [|done]. apply (f_equal Some), Hf.
Qed.

Lemma keeps_upd_file f g : keeps (upd_file f g).
Proof. by intros w a w' [= _ <-]. Qed.

Lemma keeps_upd_inode ip g : keeps (upd_inode ip g).
Proof. by intros w a w' [= _ <-]. Qed.

Create HintDb keeps.
#[export] Hint Resolve keeps_ret keeps_panic keeps_get keeps_deref keeps_acquire keeps_release keeps_upd_file keeps_upd_inode : keeps.

Lemma keeps_get_proc i : keeps (get_proc i).
Proof. apply keeps_bind; auto with keeps. Qed.

Lemma keeps_get_file f : keeps (get_file f).
Proof. apply keeps_bind; auto with keeps. Qed.

Lemma keeps_filedup f : keeps (filedup f).
Proof.
  unfold filedup. apply keeps_bind; [auto with keeps|intros _]. apply keeps_bind; [apply keeps_get_file|intros x].
  destruct (_ <? _); [auto with keeps|]. repeat (apply keeps_bind; [auto with keeps|intros]). auto with keeps.
Qed.

Lemma keeps_idup ip : keeps (idup ip).
Proof. unfold idup. repeat (apply keeps_bind; [auto with keeps|intros]). auto with keeps. Qed.

#[export] Hint Resolve keeps_get_proc keeps_filedup keeps_idup : keeps.

(** Running past a part that keeps the table. *)
Lemma post_skip {A B} (c : M A) (k : A -> M B) w Q : keeps c -> (forall a w', c w = Ok a w' -> snap w' = snap w -> post (k a) w' Q) -> post (c ≫= k) w Q.
Proof. intros Hc Hk. apply post_bind. intros a w' E. apply Hk; [done|]. by eapply Hc. Qed.

(** An assignment to the table. *)
Lemma post_upd_proc i f g w (Q : unit -> world -> Prop) : (forall p, entry_of (f p) = g (entry_of p)) ->
  (forall w', ents w' = alter g i (ents w) -> k_nextpid (w_k w') = k_nextpid (w_k w) -> k_initproc (w_k w') = k_initproc (w_k w) -> w_proc w' = w_proc w -> Q tt w') ->
  post (upd_proc i f) w Q.
Proof.
  intros Hf HQ [] w' [= <-]. apply HQ; try done. unfold ents, setter. cbn. apply list_eq. intros j.
  rewrite !list_lookup_fmap, !list_lookup_alter, !list_lookup_fmap. case_decide as H; [|done]. subst j.
  destruct (k_ptable (w_k w) !! i) as [p|]; [|done]. apply (f_equal Some), Hf.
Qed.

Lemma ents_lookup w i p : k_ptable (w_k w) !! i = Some p -> ents w !! i = Some (entry_of p).
Proof. intros H. unfold ents. by rewrite list_lookup_fmap, H. Qed.

Lemma post_curproc i w (Q : nat -> world -> Prop) : w_proc w = Some i -> Q i w -> post curproc w Q.
Proof. intros H HQ j w'. unfold curproc, myproc, mbind, M_bind, deref. rewrite H. by intros [= <- <-]. Qed.

(** The search of [allocproc]. *)
Lemma post_find_unused w : length (k_ptable (w_k w)) = NPROC ->
  post (find_each procs (fun i => p ← get_proc i; mret (if bool_decide (p_state p = UNUSED) then Some i else None))) w
    (fun r w' => w' = w /\ r = fst <$> list_find (fun e => e_state e = UNUSED) (ents w)).
Proof.
  intros Hlen r w'. unfold procs. destruct (list_find (fun e => e_state e = UNUSED) (ents w)) as [[i e]|] eqn:E.
  - apply list_find_Some in E as (He & Hu & Hfirst). unfold ents in He, Hfirst. rewrite list_lookup_fmap in He.
    destruct (k_ptable (w_k w) !! i) as [p|] eqn:Hp; [|done]. injection He as <-.
    pose proof (find_unused w (k_ptable (w_k w)) (k_nextpid (w_k w)) (k_mem (w_k w)) (k_ftable (w_k w)) (k_icache (w_k w)) (w_held w) i Hlen) as Hf.
    rewrite pw_id in Hf. unfold procs in Hf. rewrite Hf; [by intros [= <- <-]|]. exists p. split; [done|]. split; [done|].
    intros j q Hj Hq. apply (Hfirst j (entry_of q)); [|done]. by rewrite list_lookup_fmap, Hq.
  - rewrite find_each_miss; [by intros [= <- <-]|]. intros j Hj%elem_of_seq. destruct (lookup_lt_is_Some_2 (k_ptable (w_k w)) j) as [q Hq]; [lia|].
    erewrite bind_run by (by apply get_proc_run). rewrite bool_decide_eq_false_2; [done|].
    apply list_find_None in E. rewrite Forall_lookup in E. by apply (E j (entry_of q)), ents_lookup.
Qed.

(** [allocproc]: the slot is taken, with the next pid; without a page for the kernel
    stack it is given back. *)
Lemma post_allocproc w (Q : option nat -> world -> Prop) : length (k_ptable (w_k w)) = NPROC ->
  (list_find (fun e => e_state e = UNUSED) (ents w) = None -> forall w', snap w' = snap w -> Q None w') ->
  (forall np e w', list_find (fun e => e_state e = UNUSED) (ents w) = Some (np, e) -> k_nextpid (w_k w') = i32 (k_nextpid (w_k w) + 1) ->
     k_initproc (w_k w') = k_initproc (w_k w) -> w_proc w' = w_proc w ->
     (ents w' = alter (fun e => e <| e_pid := k_nextpid (w_k w) |>) np (ents w) -> Q None w') /\
     (ents w' = alter (fun e => e <| e_pid := k_nextpid (w_k w) |> <| e_state := EMBRYO |>) np (ents w) -> Q (Some np) w')) ->
  post allocproc w Q.
Proof.
  intros Hlen HN HS. unfold allocproc. apply post_bind. intros [] w1. unfold acquire. destruct (bool_decide _); [done|]. intros [= <-].
  apply post_bind. intros r w2 E. apply post_find_unused in E as [-> ->]; [|done]. set (w2 := w <| w_held ::= _ |>).
  change (ents w2) with (ents w). destruct (list_find _ (ents w)) as [[np e]|] eqn:E; cbn [fmap option_fmap option_map fst].
  2:{ apply post_skip; [auto with keeps|]. intros [] w3 _ Hs. apply post_ret, HN; [done|]. by rewrite Hs. }
  apply post_bind. apply (post_upd_proc np _ (fun e => e <| e_state := EMBRYO |>)); [done|]. intros w3 E3 N3 I3 P3.
  apply post_bind. intros pid w4 [= <- <-].
  apply post_bind. apply (post_upd_proc np _ (fun e => e <| e_pid := k_nextpid (w_k w3) |>)); [done|]. intros w4 E4 N4 I4 P4.
  apply post_bind. intros [] w5 [= <-]. set (w5 := w4 <| w_k ::= _ |>).
  assert (ents w5 = alter (fun e => e <| e_pid := k_nextpid (w_k w) |> <| e_state := EMBRYO |>) np (ents w) /\
    k_nextpid (w_k w5) = i32 (k_nextpid (w_k w) + 1) /\ k_initproc (w_k w5) = k_initproc (w_k w) /\ w_proc w5 = w_proc w) as H5.
  { split; [change (ents w5) with (ents w4)|]; [rewrite E4, E3; change (ents w2) with (ents w); rewrite alter_alter; by rewrite N3|].
    cbn. rewrite N4, N3, I4, I3, P4, P3. done. }
  clearbody w5. destruct H5 as (E5 & N5 & I5 & P5).
  apply post_skip; [auto with keeps|]. intros [] w6 _ Hs6. apply post_skip; [apply keeps_mem, mem_only_kalloc|]. intros o w7 _ Hs7.
  apply post_skip; [by apply keeps_upd_proc|]. intros [] w8 _ Hs8. rewrite Hs7, Hs6 in Hs8. injection Hs8 as A1 A2 A3 A4.
  destruct o as [v|].
  - apply post_skip; [by apply keeps_upd_proc|]. intros [] w9 _ Hs9. injection Hs9 as B1 B2 B3 B4. apply post_ret.
    apply (HS np e); congruence.
  - apply post_bind. apply (post_upd_proc np _ (fun e => e <| e_state := UNUSED |>)); [done|]. intros w9 E9 N9 I9 P9. apply post_ret.
    apply (HS np e); [done|congruence..|]. rewrite E9, A1, E5, alter_alter. apply list_find_Some in E as (He & Hu & _).
    eapply alter_ext_at; [exact He|]. destruct e. cbn in *. by subst.
Qed.

(** The copies of the open files, the directory and the name. *)
Lemma keeps_dup_files me np : keeps (for_each (seq 0 NOFILE) (fun i =>
  c ← get_proc me; fo ← deref (p_ofile c !! i);
  match fo with Some f => g ← filedup f; upd_proc np (fun p => p <| p_ofile ::= <[i := Some g]> |>) | None => mret tt end)).
Proof.
  apply keeps_for_each. intros i. apply keeps_bind; [auto with keeps|]. intros c. apply keeps_bind; [auto with keeps|]. intros [f|]; [|auto with keeps].
  apply keeps_bind; [auto with keeps|]. intros g. by apply keeps_upd_proc.
Qed.

(** [fork] does to the table what [t_fork] says, whether it finds memory or not. *)
Theorem fork_table w me r w' : w_proc w = Some me -> length (k_ptable (w_k w)) = NPROC -> fork w = Ok r w' ->
  exists mem, match t_fork mem me (k_nextpid (w_k w)) (ents w) with
  | None => snap w' = snap w /\ r = -1
  | Some (_, tb) => ents w' = tb /\ k_nextpid (w_k w') = i32 (k_nextpid (w_k w) + 1) /\ k_initproc (w_k w') = k_initproc (w_k w) /\
      w_proc w' = Some me /\ r = if mem : bool then k_nextpid (w_k w) else -1
  end.
Proof.
  intros Hme Hlen E. revert r w' E.
  match goal with |- forall r w', _ -> @?Q r w' => change (post fork w Q) end. set (Q := fun r w' => _).
  unfold fork. apply post_bind, (post_curproc me); [done|].
  apply post_bind, post_allocproc; [done| |].
  { intros Ef w1 Hs. apply post_ret. exists true. unfold t_fork. by rewrite Ef. }
  intros np e w1 Ef N1 I1 P1. split; intros E1.
  { apply post_ret. exists false. unfold t_fork. rewrite Ef. cbn. by rewrite P1. }
  apply post_skip; [auto with keeps|]. intros cur w2 _ Hs2. apply post_skip; [apply keeps_mem, mem_only_copyuvm|]. intros pg w3 _ Hs3.
  apply post_skip; [by apply keeps_upd_proc|]. intros [] w4 _ Hs4. rewrite Hs3, Hs2 in Hs4. destruct pg as [d|].
  - apply post_skip; [by apply keeps_upd_proc|]. intros [] w5 _ Hs5. rewrite Hs4 in Hs5. injection Hs5 as A1 A2 A3 A4.
    apply post_bind. apply (post_upd_proc np _ (fun e => e <| e_parent := Some me |>)); [done|]. intros w6 E6 N6 I6 P6.
    do 2 (apply post_skip; [by apply keeps_upd_proc|]; intros [] ? _ ?). apply post_skip; [apply keeps_dup_files|]. intros [] ? _ ?.
    apply post_skip; [auto with keeps|]. intros c ? _ ?. apply post_skip; [auto with keeps|]. intros cwd ? _ ?.
    apply post_skip; [auto with keeps|]. intros dd ? _ ?. apply post_skip; [by apply keeps_upd_proc|]. intros [] ? _ ?.
    apply post_skip; [auto with keeps|]. intros x ? _ ?. apply post_skip; [auto with keeps|]. intros name ? _ ?.
    apply post_skip; [by apply keeps_upd_proc|]. intros [] w7 _ ?. assert (snap w7 = snap w6) as Hs7 by congruence.
    injection Hs7 as B1 B2 B3 B4. apply post_bind. intros y w8 Ey.
    assert (w8 = w7 /\ ents w7 !! np = Some (entry_of y)) as [-> Hy].
    { revert Ey. unfold get_proc, get, mbind, M_bind, deref. destruct (k_ptable (w_k w7) !! np) as [z|] eqn:Ez; [|done]. intros [= <- <-]. split; [done|]. by apply ents_lookup. }
    apply list_find_Some in Ef as Hf. destruct Hf as (He & _).
    rewrite B1, E6, A1, E1, list_lookup_alter_eq, list_lookup_alter_eq, He in Hy. injection Hy as Hy1 Hy2 Hy3 Hy4 Hy5.
    apply post_skip; [auto with keeps|]. intros [] w9 _ Hs9. injection Hs9 as C1 C2 C3 C4.
    apply post_bind. apply (post_upd_proc np _ (fun e => e <| e_state := RUNNABLE |>)); [done|]. intros w10 E10 N10 I10 P10.
    apply post_skip; [auto with keeps|]. intros [] w11 _ Hs11. injection Hs11 as D1 D2 D3 D4. apply post_ret.
    exists true. unfold t_fork. rewrite Ef. cbn. split; [|split; [|split; [|split]]]; [|congruence..].
    rewrite D1, E10, C1, B1, E6, A1, E1, !alter_alter. done.
  - apply post_skip; [auto with keeps|]. intros x w5 _ Hs5. apply post_skip; [apply keeps_mem, mem_only_kfree|]. intros [] w6 _ Hs6.
    apply post_skip; [by apply keeps_upd_proc|]. intros [] w7 _ Hs7. assert (snap w7 = snap w1) as Hs by congruence. injection Hs as A1 A2 A3 A4.
    apply post_bind. apply (post_upd_proc np _ (fun e => e <| e_state := UNUSED |>)); [done|]. intros w8 E8 N8 I8 P8. apply post_ret.
    exists false. unfold t_fork. rewrite Ef. cbn. split; [|split; [|split; [|split]]]; [|congruence..|done].
    rewrite E8, A1, E1, alter_alter. apply list_find_Some in Ef as (He & Hu & _). eapply alter_ext_at; [exact He|]. destruct e. cbn in *. by subst.
Qed.

(** ** [wait] *)

Definition zombie_of (me : nat) (e : entry) : Prop := e_parent e = Some me /\ e_state e = ZOMBIE.
#[export] Instance zombie_of_dec me e : Decision (zombie_of me e).
Proof. unfold zombie_of. apply _. Defined.

Definition reap (e : entry) : entry := e <| e_pid := 0 |> <| e_parent := None |> <| e_killed := false |> <| e_state := UNUSED |>.

Lemma drop_entry w s p : k_ptable (w_k w) !! s = Some p -> drop s (ents w) = entry_of p :: drop (S s) (ents w).
Proof. intros H. apply drop_S. by apply ents_lookup. Qed.

(** The scan without a child to reap changes nothing. *)
Lemma wait_scan_none me w n : forall s hk, (s + n = length (k_ptable (w_k w)))%nat -> list_find (zombie_of me) (drop s (ents w)) = None ->
  wait_scan me (seq s n) hk w = Ok (inr (hk || existsb (fun e => bool_decide (e_parent e = Some me)) (drop s (ents w)))) w.
Proof.
  induction n as [|n IH]; intros s hk Hs Hf; cbn [seq wait_scan].
  { rewrite drop_ge by (unfold ents; rewrite length_map; lia). cbn. by rewrite orb_false_r. }
  destruct (lookup_lt_is_Some_2 (k_ptable (w_k w)) s) as [p Hp]; [lia|]. erewrite bind_run by (by apply get_proc_run).
  rewrite (drop_entry _ _ _ Hp) in *. apply list_find_None in Hf. apply Forall_cons in Hf as [Hz Hf]. apply (list_find_None (zombie_of me)) in Hf. cbn [existsb e_parent entry_of].
  destruct (bool_decide (p_parent p = Some me)) eqn:Ep; cbn [negb orb].
  - rewrite bool_decide_eq_false_2; [|intros Ez; apply Hz; split; [by apply bool_decide_eq_true in Ep|done]]. rewrite IH by (done || lia). by rewrite orb_true_r.
  - apply IH; [lia|done].
Qed.

Lemma wait_scan_reaps me w n i e : forall s hk, (s + n = length (k_ptable (w_k w)))%nat -> list_find (zombie_of me) (drop s (ents w)) = Some (i, e) ->
  post (wait_scan me (seq s n) hk) w (fun r w' => r = inl (e_pid e) /\ ents w' = alter reap (s + i)%nat (ents w)).
Proof.
  revert i. induction n as [|n IH]; intros i s hk Hs Hf; cbn [seq wait_scan].
  { by rewrite drop_ge in Hf by (unfold ents; rewrite length_map; lia). }
  destruct (lookup_lt_is_Some_2 (k_ptable (w_k w)) s) as [p Hp]; [lia|].
  apply post_bind. intros q w0. rewrite (get_proc_run _ _ _ Hp). intros [= <- <-]. rewrite (drop_entry _ _ _ Hp) in Hf. cbn [list_find] in Hf.
  destruct (decide (zombie_of me (entry_of p))) as [[Hz1 Hz2]|Hz].
  - injection Hf as <- <-. rewrite (bool_decide_eq_true_2 (p_parent p = Some me)), bool_decide_eq_true_2 by done. cbn [negb].
    apply post_skip; [apply keeps_mem, mem_only_kfree|]. intros [] w1 _ Hs1. apply post_skip; [by apply keeps_upd_proc|]. intros [] w2 _ Hs2.
    apply post_skip; [apply keeps_mem, mem_only_freevm|]. intros [] w3 _ Hs3. assert (snap w3 = snap w) as Hs' by congruence. injection Hs' as A1 _ _ _.
    apply post_bind. apply (post_upd_proc s _ (fun e => e <| e_pid := 0 |>)); [done|]. intros w4 E4 _ _ _.
    apply post_bind. apply (post_upd_proc s _ (fun e => e <| e_parent := None |>)); [done|]. intros w5 E5 _ _ _.
    apply post_skip; [by apply keeps_upd_proc|]. intros [] w6 _ Hs6. injection Hs6 as A6 _ _ _.
    apply post_bind. apply (post_upd_proc s _ (fun e => e <| e_killed := false |>)); [done|]. intros w7 E7 _ _ _.
    apply post_bind. apply (post_upd_proc s _ (fun e => e <| e_state := UNUSED |>)); [done|]. intros w8 E8 _ _ _.
    apply post_skip; [auto with keeps|]. intros [] w9 _ Hs9. injection Hs9 as A9 _ _ _. apply post_ret. split; [done|].
    rewrite A9, E8, E7, A6, E5, E4, A1, !alter_alter, Nat.add_0_r. done.
  - destruct (list_find _ (drop (S s) (ents w))) as [[j f]|] eqn:E; [|done]. cbn in Hf. injection Hf as <- <-.
    replace (s + S j)%nat with (S s + j)%nat by lia. destruct (bool_decide (p_parent p = Some me)) eqn:Ep; cbn [negb]; [|apply IH; [lia|done]].
    rewrite bool_decide_eq_false_2; [apply IH; [lia|done]|]. intros Ez. apply Hz. split; [by apply bool_decide_eq_true in Ep|done].
Qed.

(** A process gives up the CPU for good: the state that [sched] leaves to the others. *)
Lemma sched_waits w me p : w_proc w = Some me -> k_ptable (w_k w) !! me = Some p -> p_state p <> RUNNING -> w_held w = [Lptable] -> w_env w = [] ->
  exists w', sched w = Wait w' /\ ents w' = ents w.
Proof.
  intros Hme Hp Hs Hh He. unfold sched. run (unfold holding; rewrite Hh; reflexivity).
  rewrite bool_decide_eq_true_2 by left. cbn [negb]. run (unfold ncli; rewrite Hh; reflexivity). change (negb (Z.of_nat (length [Lptable]) =? 1)) with false. cbv iota.
  run (unfold curproc, myproc, mbind, M_bind, deref; rewrite Hme; reflexivity). run (by apply get_proc_run). rewrite bool_decide_eq_false_2 by done.
  run (unfold interruptible, ncli, mbind, M_bind; rewrite Hh; reflexivity). change (Z.of_nat (length [Lptable]) =? 0) with false. cbv iota.
  run reflexivity. unfold swtch. cbn. rewrite He. eexists. split; [reflexivity|].
  assert (keeps (upd_proc me (fun p => p <| p_ctx := Rsaved |>))) as Hk by (by apply keeps_upd_proc). specialize (Hk w tt _ eq_refl). by injection Hk.
Qed.

(** [wait] does to the table what [t_wait] says: it reaps the first child that has ended,
    or returns -1, or the caller sleeps until it is woken. *)
Theorem wait_table w me p : w_proc w = Some me -> k_ptable (w_k w) !! me = Some p -> length (k_ptable (w_k w)) = NPROC -> w_held w = [] -> w_env w = [] ->
  match t_wait me (ents w) with
  | (Some r, tb) => forall r' w', wait w = Ok r' w' -> r' = r /\ ents w' = tb
  | (None, tb) => exists w', wait w = Wait w' /\ ents w' = tb
  end.
Proof.
  intros Hme Hp Hlen Hh He. set (w1 := w <| w_held := [Lptable] |>).
  assert (forall k : M Z, (acquire Lptable ;; k) w = k w1) as Ha.
  { intros k. unfold mbind, M_bind. rewrite acquire_run by (rewrite Hh; apply not_elem_of_nil). unfold w1. destruct w. cbn in *. by subst. }
  assert (wait w = loop 1 (fun _ : unit => r ← wait_scan me procs false;
    match r with inl pid => mret (inr pid) | inr havekids => c ← get_proc me;
      if negb havekids || p_killed c then release Lptable ;; mret (inr (-1)) else sleep (Cproc me) (Some Lptable) ;; mret (inl tt) end) tt w1) as Ew.
  { unfold wait. run (unfold curproc, myproc, mbind, M_bind, deref; rewrite Hme; reflexivity). rewrite Ha. unfold loop_sleep. unfold w1 at 1. cbn [w_env setter world_set]. by rewrite He. }
  rewrite Ew. clear Ha Ew. unfold t_wait. fold (zombie_of me). change (ents w) with (ents w1).
  change (list_find _ (ents w1)) with (list_find (zombie_of me) (drop 0 (ents w1))).
  destruct (list_find _ (drop 0 (ents w1))) as [[i e]|] eqn:E.
  - intros r' w'. revert r' w'. apply post_bind, post_bind. intros r w2 E2. apply (wait_scan_reaps me w1 NPROC i e 0 false) in E2 as [-> E2]; [|done|done].
    apply post_ret, post_ret. split; [done|]. exact E2.
  - pose proof (wait_scan_none me w1 NPROC 0 false (eq_sym Hlen) E) as Es. cbn [orb] in Es. change (drop 0 (ents w1)) with (ents w1) in Es.
    rewrite (ents_lookup w1 me p Hp). cbn [fmap option_fmap option_map default entry_of e_killed id].
    set (hk := existsb _ (ents w1)) in *. destruct (negb hk || p_killed p) eqn:Ek.
    + intros r' w'. revert r' w'. apply post_bind, post_bind. intros r w2 E2. unfold procs in E2. rewrite Es in E2. injection E2 as <- <-.
      apply post_bind. intros c w2. rewrite (get_proc_run me w1 p Hp). intros [= <- <-]. rewrite Ek. apply post_skip; [auto with keeps|]. intros [] w3 _ Hs3.
      apply post_ret, post_ret. split; [done|]. by injection Hs3.
    + cbn [loop]. set (w2 := w1 <| w_k ::= fun k => k <| k_ptable ::= alter (fun p => p <| p_chan := Some (Cproc me) |>) me |> |>
        <| w_k ::= fun k => k <| k_ptable ::= alter (fun p => p <| p_state := SLEEPING |>) me |> |>).
      destruct (sched_waits w2 me (p <| p_chan := Some (Cproc me) |> <| p_state := SLEEPING |>)) as (w' & Ew & Ee); [done| |done|done|done|].
      { cbn. by rewrite !list_lookup_alter_eq, Hp. }
      exists w'. split.
      * unfold procs. unfold mbind at 1, M_bind at 1. unfold mbind at 1, M_bind at 1. rewrite Es. cbv beta iota.
        run (exact (get_proc_run me w1 p Hp)). rewrite Ek. unfold sleep.
        unfold mbind, M_bind, myproc. change (w_proc w1) with (w_proc w). rewrite Hme. rewrite bool_decide_eq_true_2 by done. cbn [negb when]. unfold mret, M_ret.
        unfold upd_proc, modify. fold w2. by rewrite Ew.
      * rewrite Ee. unfold w2. unfold ents. cbn. rewrite alter_alter. apply list_eq. intros j. rewrite !list_lookup_fmap, !list_lookup_alter, !list_lookup_fmap.
        case_decide; [|done]. subst. by destruct (k_ptable (w_k w) !! _).
Qed.

(** ** [exit] *)

Lemma wakeup1_table ch w : length (k_ptable (w_k w)) = NPROC ->
  exists w', wakeup1 ch w = Ok tt w' /\ ents w' = t_wakeup1 ch (ents w) /\ length (k_ptable (w_k w')) = NPROC /\
    w_held w' = w_held w /\ w_env w' = w_env w /\ w_proc w' = w_proc w.
Proof.
  intros Hlen. eexists. split; [by apply wakeup1_run|]. cbn. rewrite length_map. split; [|done].
  unfold ents, t_wakeup1. cbn. rewrite !map_map. apply map_ext. intros p. unfold wake1, t_wake1. cbn. by destruct (bool_decide _ && _).
Qed.

(** The loop over the children. *)
Lemma abandon_table me init l : forall w, length (k_ptable (w_k w)) = NPROC -> (forall i, i ∈ l -> (i < NPROC)%nat) ->
  exists w', for_each l (fun i => p ← get_proc i; when (bool_decide (p_parent p = Some me))
    (upd_proc i (fun p => p <| p_parent := init |>) ;; when (bool_decide (p_state p = ZOMBIE)) (wakeup1 (pchan init)))) w = Ok tt w' /\
    ents w' = foldl (t_abandon me init) (ents w) l /\ length (k_ptable (w_k w')) = NPROC /\ w_held w' = w_held w /\ w_env w' = w_env w /\ w_proc w' = w_proc w.
Proof.
  induction l as [|i l IH]; intros w Hlen Hl; [by exists w|]. cbn [for_each foldl].
  destruct (lookup_lt_is_Some_2 (k_ptable (w_k w)) i) as [p Hp]; [rewrite Hlen; apply Hl; left|].
  assert (exists w1, (p ← get_proc i; when (bool_decide (p_parent p = Some me))
    (upd_proc i (fun p => p <| p_parent := init |>) ;; when (bool_decide (p_state p = ZOMBIE)) (wakeup1 (pchan init)))) w = Ok tt w1 /\
    ents w1 = t_abandon me init (ents w) i /\ length (k_ptable (w_k w1)) = NPROC /\ w_held w1 = w_held w /\ w_env w1 = w_env w /\ w_proc w1 = w_proc w)
    as (w1 & E1 & Ee & Hl1 & Hh1 & He1 & Hp1).
  { erewrite bind_run by (by apply get_proc_run). unfold t_abandon. rewrite (ents_lookup w i p Hp). cbn [e_parent e_state entry_of].
    destruct (bool_decide (p_parent p = Some me)); cbn [when]; [|by exists w].
    set (w2 := w <| w_k ::= fun k => k <| k_ptable ::= alter (fun p => p <| p_parent := init |>) i |> |>).
    erewrite bind_run by reflexivity. fold w2.
    assert (ents w2 = alter (fun e => e <| e_parent := init |>) i (ents w)) as E2.
    { eapply (post_upd_proc i (fun p => p <| p_parent := init |>) (fun e => e <| e_parent := init |>) w (fun _ w' => ents w' = _)); [done|by intros|reflexivity]. }
    assert (length (k_ptable (w_k w2)) = NPROC) as Hl2 by (cbn; by rewrite length_alter).
    destruct (bool_decide (p_state p = ZOMBIE)); cbn [when]; [|by exists w2].
    destruct (wakeup1_table (pchan init) w2 Hl2) as (w3 & E3 & Ee3 & H3). exists w3. split; [exact E3|]. rewrite Ee3, E2. done. }
  destruct (IH w1 Hl1) as (w' & E' & Ee' & H'); [intros j Hj; apply Hl; by right|].
  exists w'. split; [by erewrite bind_run by exact E1|]. split; [by rewrite Ee', Ee|]. destruct H' as (? & ? & ? & ?). split_and!; congruence.
Qed.

(** The end of [exit] does to the table what [t_exit] says, and the process does not run
    again. *)
Theorem exit_table_run {A} w me init p : w_proc w = Some me -> k_ptable (w_k w) !! me = Some p -> length (k_ptable (w_k w)) = NPROC ->
  w_held w = [] -> w_env w = [] -> exists w', (exit_table me init : M A) w = Wait w' /\ ents w' = t_exit me init (ents w).
Proof.
  intros Hme Hp Hlen Hh He. unfold exit_table. run (apply acquire_run; rewrite Hh; apply not_elem_of_nil).
  set (w1 := w <| w_held ::= cons Lptable |>). run (exact (get_proc_run me w1 p Hp)).
  destruct (wakeup1_table (pchan (p_parent p)) w1 Hlen) as (w2 & E2 & Ee2 & Hl2 & Hh2 & He2 & Hp2). run (exact E2).
  destruct (abandon_table me init procs w2 Hl2) as (w3 & E3 & Ee3 & Hl3 & Hh3 & He3 & Hp3); [intros i Hi%elem_of_seq; lia|]. run (exact E3).
  run reflexivity. set (w4 := w3 <| w_k ::= _ |>).
  assert (ents w4 = t_exit me init (ents w)) as E4.
  { unfold t_exit. rewrite (ents_lookup w me p Hp). cbn [mbind option_bind entry_of e_parent].
    transitivity (alter (fun e => e <| e_state := ZOMBIE |>) me (ents w3)).
    - eapply (post_upd_proc me (fun p => p <| p_state := ZOMBIE |>) (fun e => e <| e_state := ZOMBIE |>) w3 (fun _ w' => ents w' = _)); [done|by intros|reflexivity].
    - rewrite Ee3, Ee2. change (ents w1) with (ents w). unfold procs, pchan. replace NPROC with (length (t_wakeup1 (Cproc <$> p_parent p) (ents w))); [done|].
      unfold t_wakeup1, ents. by rewrite !length_map. }
  destruct (lookup_lt_is_Some_2 (k_ptable (w_k w3)) me) as [q Hq]; [apply lookup_lt_Some in Hp; congruence|].
  destruct (sched_waits w4 me (q <| p_state := ZOMBIE |>)) as (w' & Ew & Ee).
  - cbn. by rewrite Hp3, Hp2.
  - cbn. by rewrite list_lookup_alter_eq, Hq.
  - done.
  - cbn. rewrite Hh3, Hh2. cbn. by rewrite Hh.
  - cbn. by rewrite He3, He2.
  - exists w'. split; [|by rewrite Ee]. unfold mbind, M_bind. by rewrite Ew.
Qed.
