(* ===== verification/Forktest.v ===== *)
(** [forktest] on the process table of Ptable.v: under every schedule it forks until the
    table is full, waits for all of its children, and reports success. *)

From ITree Require Import Core.ITreeDefinition.
From S2P Require Import Prelude Libc Kernel Uprog Programs Ptable.

Definition msg_start : list Z := bytes_of "fork test
".
Definition msg_ok : list Z := bytes_of "fork test OK
".

(** ** What is left of the program *)

Inductive phase := Pstart | Pfork (k : nat) (n : Z) | Pwait (m : nat) | Pok | Pexit.

Definition after_waits : prog unit :=
  r ← sys Wait;
  if negb (ret r =? -1) then fputs 1 "wait got too many
" ;; exit else
  fputs 1 "fork test OK
".

Definition after_forks (n : Z) : prog unit :=
  if n =? 1000 then fputs 1 "fork claimed to work N times!
" ;; exit else
  wait_loop (Z.to_nat n) ;; after_waits.

Definition rest (ph : phase) : prog unit :=
  match ph with
  | Pstart => forktest_main
  | Pfork k n => (n ← fork_loop k n; after_forks n) ;; exit
  | Pwait m => (wait_loop m ;; after_waits) ;; exit
  | Pok => fputs 1 "fork test OK
" ;; exit
  | Pexit => exit
  end.

Lemma view_start : exists k, view_of (rest Pstart) = Vsys (Write 1 msg_start) k /\ forall r, view_of (k r) = view_of (rest (Pfork 1000 0)).
Proof. eexists. split; [reflexivity|]. intros r. reflexivity. Qed.

Lemma view_fork k n : exists c, view_of (rest (Pfork (S k) n)) = Vsys Fork c /\
  (forall l, n <> 1000 -> view_of (c (Reply (-1) l)) = view_of (rest (Pwait (Z.to_nat n)))) /\
  (forall l, view_of (c (Reply 0 l)) = Vexit) /\
  (forall p l, 0 < p -> view_of (c (Reply p l)) = view_of (rest (Pfork k (n + 1)))).
Proof.
  eexists. split; [reflexivity|]. split; [|split].
  - intros l Hn. transitivity (view_of (after_forks n ;; exit)); [reflexivity|]. unfold after_forks. by rewrite (proj2 (Z.eqb_neq _ _) Hn).
  - intros l. reflexivity.
  - intros p l Hp. transitivity (view_of ((n0 ← (if p <? 0 then mret n else if p =? 0 then exit else fork_loop k (n + 1)); after_forks n0) ;; exit)); [reflexivity|].
    by rewrite (proj2 (Z.ltb_ge p 0)), (proj2 (Z.eqb_neq p 0)) by lia.
Qed.

Lemma view_wait m : exists c, view_of (rest (Pwait (S m))) = Vsys Wait c /\
  forall p l, 0 < p -> view_of (c (Reply p l)) = view_of (rest (Pwait m)).
Proof.
  eexists. split; [reflexivity|]. intros p l Hp.
  transitivity (view_of (((if p <? 0 then fputs 1 "wait stopped early
" ;; exit else wait_loop m) ;; after_waits) ;; exit)); [reflexivity|]. by rewrite (proj2 (Z.ltb_ge p 0)) by lia.
Qed.

Lemma view_last : exists c, view_of (rest (Pwait 0)) = Vsys Wait c /\ forall l, view_of (c (Reply (-1) l)) = view_of (rest Pok).
Proof. eexists. split; [reflexivity|]. intros l. reflexivity. Qed.

Lemma view_ok : exists c, view_of (rest Pok) = Vsys (Write 1 msg_ok) c /\ forall r, view_of (c r) = view_of (rest Pexit).
Proof. eexists. split; [reflexivity|]. intros r. reflexivity. Qed.

(** Nothing runs without a program. *)
Lemma no_code_idle s : s_code s = ∅ -> idle s.
Proof.
  intros Ec i mem. unfold turn. rewrite Ec, lookup_empty. destruct (s_table s !! i) as [e|]; [|done]. cbn. by destruct (bool_decide _).
Qed.

(** ** The table *)

(** The pid of a slot that is free has no meaning. *)
Definition norm (e : entry) : entry := if bool_decide (e_state e = UNUSED) then e <| e_pid := 0 |> else e.

Lemma norm_eq e f : norm e = norm f -> e_state e = e_state f /\ e_parent e = e_parent f /\ e_chan e = e_chan f /\
  e_killed e = e_killed f /\ (e_state e <> UNUSED -> e = f).
Proof.
  unfold norm. destruct e as [[] p1 q1 c1 k1], f as [[] p2 q2 c2 k2]; cbn; intros E; injection E as; subst; try done; repeat split; congruence.
Qed.

(** The table that [forktest] starts on, as process [me]: nothing is its child, nothing
    else sleeps on its channel, no parent is in a free slot, and the slots that are free
    look like [wait] leaves them. *)
Record table_ok (tb0 : list entry) (me : nat) (e0 : entry) : Prop := Table_ok {
  to_me : tb0 !! me = Some e0;
  to_run : e_state e0 = RUNNABLE /\ e_killed e0 = false /\ e_chan e0 = None;
  to_parent : forall j e, tb0 !! j = Some e -> e_parent e <> Some me /\
    (forall i f, e_parent e = Some i -> tb0 !! i = Some f -> e_state f <> UNUSED);
  to_chan : forall j e, tb0 !! j = Some e -> e_chan e <> Some (Cproc me);
  to_free : forall j e, tb0 !! j = Some e -> e_state e = UNUSED -> e_parent e = None /\ e_killed e = false }.

(** [forktest] itself: it runs, it sleeps in [wait], or it has been woken there. *)
Inductive mode := Mrun | Msleep | Mwoken.

#[export] Instance mode_eqdec : EqDecision mode.
Proof. solve_decision. Defined.

Section Table.
Context (tb0 : list entry) (me : nat) (e0 : entry) (init : option nat).
Hypothesis (H0 : table_ok tb0 me e0).

Definition me_entry (m : mode) : entry :=
  match m with
  | Mrun => e0
  | Msleep => e0 <| e_chan := Some (Cproc me) |> <| e_state := SLEEPING |>
  | Mwoken => e0 <| e_chan := Some (Cproc me) |>
  end.

(** Its children, by slot: whether each one still runs, and its pid. *)
Definition kid_entry (x : bool * Z) (e : entry) : entry :=
  e <| e_pid := x.2 |> <| e_parent := Some me |> <| e_state := if x.1 then RUNNABLE else ZOMBIE |>.

Record tab_ok (tb : list entry) (kids : gmap nat (bool * Z)) (m : mode) : Prop := Tab_ok {
  t_len : length tb = length tb0;
  t_me : tb !! me = Some (me_entry m);
  t_kid : forall j x, kids !! j = Some x ->
    exists e, tb0 !! j = Some e /\ e_state e = UNUSED /\ tb !! j = Some (kid_entry x e) /\ 0 < x.2;
  t_other : forall j, j <> me -> kids !! j = None -> norm <$> tb !! j = norm <$> tb0 !! j }.

Lemma kid_not_me tb kids m j x : tab_ok tb kids m -> kids !! j = Some x -> j <> me.
Proof. intros Ht Hj ->. destruct (t_kid _ _ _ Ht _ _ Hj) as (e & He & Hu & _). destruct H0 as [Hm [Hr _] _ _ _]. congruence. Qed.

Lemma kids_me tb kids m : tab_ok tb kids m -> kids !! me = None.
Proof. intros Ht. apply eq_None_not_Some. intros [x Hx]. by apply (kid_not_me _ _ _ _ _ Ht Hx). Qed.

(** The entries one by one. *)
Lemma tab_cases tb kids m j e : tab_ok tb kids m -> tb !! j = Some e ->
  j = me /\ e = me_entry m \/
  (exists x f, j <> me /\ kids !! j = Some x /\ tb0 !! j = Some f /\ e_state f = UNUSED /\ e = kid_entry x f /\ 0 < x.2) \/
  (j <> me /\ kids !! j = None /\ exists f, tb0 !! j = Some f /\ norm e = norm f).
Proof.
  intros Ht Hj. destruct (decide (j = me)) as [->|Hne]; [left; split; [done|]; pose proof (t_me _ _ _ Ht); congruence|right].
  destruct (kids !! j) as [x|] eqn:E; [left|right].
  2:{ split; [done|]. split; [done|]. pose proof (t_other _ _ _ Ht j Hne E) as Eo. rewrite Hj in Eo. cbn in Eo.
      destruct (tb0 !! j) as [f|]; [|done]. injection Eo as Eo. by exists f. }
  destruct (t_kid _ _ _ Ht _ _ E) as (f & Hf & Hu & Hx & Hp). exists x, f. naive_solver congruence.
Qed.

Lemma tab_done tb : tab_ok tb ∅ Mrun -> map norm tb = map norm tb0.
Proof.
  intros Ht. apply list_eq. intros j. rewrite !list_lookup_fmap. destruct (decide (j = me)) as [->|Hne].
  - by rewrite (t_me _ _ _ Ht), (to_me _ _ _ H0).
  - apply (t_other _ _ _ Ht); [done|apply lookup_empty].
Qed.

Lemma tab_fork mem tb kids pid np tb' : tab_ok tb kids Mrun -> 0 < pid -> t_fork mem me pid tb = Some (np, tb') ->
  kids !! np = None /\ np <> me /\ tab_ok tb' (if mem then <[np := (true, pid)]> kids else kids) Mrun.
Proof.
  intros Ht Hp. unfold t_fork. destruct (list_find _ tb) as [[j e]|] eqn:E; [|done]. cbn. intros [= -> <-].
  apply list_find_Some in E as (He & Hu & _). pose proof H0 as [Hm [Hr _] _ _ _].
  destruct (tab_cases _ _ _ _ _ Ht He) as [[-> ->]|[(x & f & _ & _ & _ & _ & -> & _)|(Hne & Hk & f & Hf & En)]]; [cbn in Hu; congruence|by destruct x as [[] ?]|].
  split; [done|]. split; [done|]. destruct (norm_eq _ _ En) as (E1 & E2 & E3 & E4 & _). destruct Ht as [T1 T2 T3 T4]. destruct mem; constructor.
  - by rewrite !length_alter.
  - by rewrite !list_lookup_alter_ne.
  - intros j x [[<- <-]|[Hj Hx]]%lookup_insert_Some.
    + exists f. rewrite !list_lookup_alter_eq, He. cbn. split; [done|]. split; [congruence|]. split; [|done].
      unfold kid_entry. destruct e, f. cbn in *. by subst.
    + destruct (T3 j x Hx) as (g & Hg). exists g. by rewrite !list_lookup_alter_ne by done.
  - intros j Hj [Hk' Hn]%lookup_insert_None. rewrite !list_lookup_alter_ne by done. by apply T4.
  - by rewrite length_alter.
  - by rewrite list_lookup_alter_ne.
  - intros j x Hx. destruct (T3 j x Hx) as (g & Hg). exists g. rewrite list_lookup_alter_ne by (intros <-; congruence). done.
  - intros j Hj Hn. destruct (decide (j = np)) as [->|Hjn]; [|rewrite list_lookup_alter_ne by done; by apply T4].
    rewrite list_lookup_alter_eq, He, Hf. cbn. rewrite <- En. unfold norm. cbn. by rewrite Hu.
Qed.

Definition wake (m : mode) : mode := match m with Msleep => Mwoken | _ => m end.

Lemma tab_wakeup tb kids m : tab_ok tb kids m -> tab_ok (t_wakeup1 (Some (Cproc me)) tb) kids (wake m).
Proof.
  intros Ht. pose proof Ht as [T1 T2 T3 T4]. pose proof H0 as [Hm (Hr & Hki & Hc) Hpa Hch Hfr]. constructor.
  - unfold t_wakeup1. by rewrite length_map.
  - unfold t_wakeup1. rewrite list_lookup_fmap, T2. cbn. f_equal. unfold t_wake1. destruct m; cbn [wake me_entry].
    + by rewrite Hr.
    + cbn. rewrite !bool_decide_eq_true_2 by done. clear -Hr. destruct e0. cbn in *. by subst.
    + cbn. by rewrite Hr.
  - intros j x Hx. destruct (T3 j x Hx) as (f & Hf & Hu & Hj & Hp). exists f. split; [done|]. split; [done|]. split; [|done].
    unfold t_wakeup1. rewrite list_lookup_fmap, Hj. cbn. unfold t_wake1. by destruct x as [[] ?].
  - intros j Hj Hk. unfold t_wakeup1. rewrite list_lookup_fmap. destruct (tb !! j) as [e|] eqn:E; [|by rewrite <- T4, E].
    destruct (tab_cases _ _ _ _ _ Ht E) as [[? _]|[(x & f & _ & ? & _)|(_ & _ & f & Hf & En)]]; [done|congruence|].
    rewrite Hf. cbn. rewrite <- En. destruct (norm_eq _ _ En) as (_ & _ & E3 & _). unfold t_wake1.
    rewrite (bool_decide_eq_false_2 (e_chan e = _)) by (rewrite E3; by eapply Hch). by rewrite andb_false_r.
Qed.

Lemma abandon_none j tb l : (forall i e, tb !! i = Some e -> e_parent e <> Some j) -> foldl (t_abandon j init) tb l = tb.
Proof.
  intros H. induction l as [|i l IH]; [done|]. cbn. unfold t_abandon at 2. destruct (tb !! i) as [e|] eqn:E; [|done].
  by rewrite bool_decide_eq_false_2 by (by eapply H).
Qed.

Lemma tab_kid_exit tb kids m j pid : tab_ok tb kids m -> kids !! j = Some (true, pid) ->
  tab_ok (t_exit j init tb) (<[j := (false, pid)]> kids) (wake m).
Proof.
  intros Ht Hj. pose proof (kid_not_me _ _ _ _ _ Ht Hj) as Hne. destruct (t_kid _ _ _ Ht _ _ Hj) as (e & He & Hu & Htj & Hp).
  unfold t_exit. rewrite Htj. cbn [mbind option_bind kid_entry e_parent fmap option_fmap option_map].
  pose proof (tab_wakeup _ _ _ Ht) as Hw. set (tb1 := t_wakeup1 _ tb) in *. rewrite abandon_none.
  2:{ intros i f Hf. destruct (tab_cases _ _ _ _ _ Hw Hf) as [[-> ->]|[(x & g & _ & _ & _ & _ & -> & _)|(_ & _ & g & Hg & En)]].
      - destruct (to_parent _ _ _ H0 me e0) as [_ Hpa]; [apply H0|]. intros E. apply (Hpa j e); [by destruct m|done|done].
      - cbn. congruence.
      - destruct (to_parent _ _ _ H0 i g Hg) as [_ Hpa]. destruct (norm_eq _ _ En) as (_ & E2 & _). rewrite E2. intros E. by apply (Hpa j e). }
  destruct Hw as [T1 T2 T3 T4]. constructor.
  - by rewrite length_alter.
  - by rewrite list_lookup_alter_ne.
  - intros i x [[<- <-]|[Hi Hx]]%lookup_insert_Some.
    + destruct (T3 j _ Hj) as (f & Hf & Hfu & Hfj & _). exists f. by rewrite list_lookup_alter_eq, Hfj.
    + destruct (T3 i x Hx) as (f & Hf). exists f. by rewrite list_lookup_alter_ne by done.
  - intros i Hi [Hk Hn]%lookup_insert_None. rewrite list_lookup_alter_ne by done. by apply T4.
Qed.

(** The channel, when [sleep] returns. *)
Lemma tab_tidy tb kids m : tab_ok tb kids m -> m <> Msleep -> tab_ok (alter (fun e => e <| e_chan := None |>) me tb) kids Mrun.
Proof.
  intros Ht Hm. pose proof Ht as [T1 T2 T3 T4]. pose proof H0 as [_ (_ & _ & Hc) _ _ _]. constructor.
  - by rewrite length_alter.
  - rewrite list_lookup_alter_eq, T2. cbn. clear -Hc Hm. unfold me_entry. destruct e0, m; cbn in *; by subst.
  - intros j x Hx. destruct (T3 j x Hx) as (f & Hf). exists f. rewrite list_lookup_alter_ne; [done|]. intros <-. by apply (kid_not_me _ _ _ _ _ Ht Hx).
  - intros j Hj Hk. rewrite list_lookup_alter_ne by done. by apply T4.
Qed.

Lemma tab_wait tb kids : tab_ok tb kids Mrun ->
  (exists j pid tb', kids !! j = Some (false, pid) /\ 0 < pid /\ t_wait me tb = (Some pid, tb') /\ tab_ok tb' (delete j kids) Mrun) \/
  (kids = ∅ /\ t_wait me tb = (Some (-1), tb)) \/
  (kids <> ∅ /\ (forall j x, kids !! j = Some x -> x.1 = true) /\ exists tb', t_wait me tb = (None, tb') /\ tab_ok tb' kids Msleep).
Proof.
  intros Ht. pose proof Ht as [T1 T2 T3 T4]. pose proof H0 as [Hm (Hr & Hki & Hc) Hpa Hch Hfr]. unfold t_wait.
  destruct (list_find _ tb) as [[j e]|] eqn:E.
  - left. apply list_find_Some in E as (He & (Hp & Hz) & _).
    destruct (tab_cases _ _ _ _ _ Ht He) as [[-> ->]|[(x & f & Hne & Hx & Hf & Hu & -> & Hpid)|(_ & _ & f & Hf & En)]]; [cbn in Hz; congruence| |].
    2:{ destruct (norm_eq _ _ En) as (_ & E2 & _). destruct (Hpa j f Hf). congruence. }
    destruct x as [[] pid]; [by cbn in Hz|]. destruct (Hfr j f Hf Hu) as (F2 & F3). eexists j, pid, _. split; [done|]. split; [done|]. split; [reflexivity|].
    constructor.
    + by rewrite length_alter.
    + by rewrite list_lookup_alter_ne.
    + intros i x [Hi Hx']%lookup_delete_Some. destruct (T3 i x Hx') as (g & Hg). exists g. by rewrite list_lookup_alter_ne by done.
    + intros i Hi [<-|Hk]%lookup_delete_None.
      * rewrite list_lookup_alter_eq, He, Hf. cbn. destruct f. cbn in *. by subst.
      * destruct (decide (i = j)) as [->|]; [congruence|]. rewrite list_lookup_alter_ne by done. by apply T4.
  - right. assert (forall j x, kids !! j = Some x -> x.1 = true) as Hall.
    { intros j [[] pid] Hx; [done|]. destruct (T3 j _ Hx) as (f & _ & _ & Hj & _). apply list_find_None in E. rewrite Forall_lookup in E.
      exfalso. by apply (E j _ Hj). }
    rewrite T2. cbn [fmap option_fmap option_map default me_entry]. rewrite Hki, orb_false_r.
    destruct (decide (kids = ∅)) as [Hk|Hk].
    + left. split; [done|]. destruct (existsb _ tb) eqn:Ex; [exfalso|done]. apply existsb_exists in Ex as (f & Hf & Hp%bool_decide_eq_true).
      apply list_elem_of_In, list_elem_of_lookup in Hf as [j Hj]. subst kids.
      destruct (tab_cases _ _ _ _ _ Ht Hj) as [[-> ->]|[(x & g & _ & ? & _)|(_ & _ & g & Hg & En)]]; [by destruct (Hpa me e0 Hm)|done|].
      destruct (norm_eq _ _ En) as (_ & E2 & _). destruct (Hpa j g Hg). congruence.
    + right. split; [done|]. split; [done|]. apply map_choose in Hk as (j & x & Hx). destruct (T3 j x Hx) as (f & _ & _ & Hj & _).
      rewrite (proj2 (existsb_exists _ tb)).
      2:{ exists (kid_entry x f). split; [apply list_elem_of_In; by eapply list_elem_of_lookup_2|]. by apply bool_decide_eq_true_2. }
      cbn. eexists. split; [reflexivity|]. constructor.
      * by rewrite length_alter.
      * by rewrite list_lookup_alter_eq, T2.
      * intros i y Hy. destruct (T3 i y Hy) as (g & Hg). exists g. rewrite list_lookup_alter_ne; [done|]. intros <-. by apply (kid_not_me _ _ _ _ _ Ht Hy).
      * intros i Hi Hn. rewrite list_lookup_alter_ne by done. by apply T4.
Qed.

(** ** The system *)

Context (out0 : list Z).

Definition phase_ok (s : system) (ph : phase) (kids : gmap nat (bool * Z)) (m : mode) : Prop :=
  match ph with
  | Pstart => kids = ∅ /\ m = Mrun /\ s_out s = out0 /\ 0 < s_nextpid s /\ s_nextpid s + 1000 < 2 ^ 31
  | Pfork k n => Z.of_nat (size kids) = n /\ Z.of_nat k + n = 1000 /\ m = Mrun /\ s_out s = out0 ++ msg_start /\
      0 < s_nextpid s /\ s_nextpid s + Z.of_nat k < 2 ^ 31
  | Pwait c => size kids = c /\ s_out s = out0 ++ msg_start
  | Pok => kids = ∅ /\ m = Mrun /\ s_out s = out0 ++ msg_start
  | Pexit => kids = ∅ /\ m = Mrun /\ s_out s = out0 ++ msg_start ++ msg_ok
  end.

Record inv (s : system) (ph : phase) (kids : gmap nat (bool * Z)) (m : mode) : Prop := Inv {
  in_tab : tab_ok (s_table s) kids m;
  in_init : s_initproc s = init;
  in_me : exists t, s_code s !! me = Some t /\ view_of t = view_of (rest ph);
  in_kid : forall j pid, kids !! j = Some (true, pid) -> exists t, s_code s !! j = Some t /\ view_of t = Vexit;
  in_none : forall j, j <> me -> (forall pid, kids !! j <> Some (true, pid)) -> s_code s !! j = None;
  in_phase : phase_ok s ph kids m;
  in_sleep : m = Msleep -> kids <> ∅ /\ forall j x, kids !! j = Some x -> x.1 = true }.

Definition finished (s : system) : Prop :=
  s_out s = out0 ++ msg_start ++ msg_ok /\ map norm (s_table s) = map norm (t_exit me init tb0) /\ s_code s = ∅.

(** The number of turns that are left at most. *)
Definition running (kids : gmap nat (bool * Z)) : nat := size (filter (fun kv : nat * (bool * Z) => kv.2.1 = true) kids).
Definition phase_left (ph : phase) : Z :=
  let n := Z.of_nat (length tb0) in
  match ph with
  | Pstart => 4 * n + 5
  | Pfork _ i => 3 * (n - i) + n + 4
  | Pwait c => Z.of_nat c + 3
  | Pok => 2
  | Pexit => 1
  end.
Definition left (ph : phase) (kids : gmap nat (bool * Z)) (m : mode) : Z :=
  phase_left ph + 2 * Z.of_nat (running kids) + match m with Msleep => 0 | _ => 1 end.

Lemma kids_size tb kids m : tab_ok tb kids m -> (size kids < length tb0)%nat.
Proof.
  intros Ht. assert (dom kids ⊆ list_to_set (seq 0 (length tb0)) ∖ {[me]}) as Hsub.
  { intros j [x Hx]%elem_of_dom. apply elem_of_difference. split.
    - apply elem_of_list_to_set, elem_of_seq. destruct (t_kid _ _ _ Ht _ _ Hx) as (e & He & _). apply lookup_lt_Some in He. lia.
    - apply not_elem_of_singleton. by eapply kid_not_me. }
  apply subseteq_size in Hsub. rewrite size_dom in Hsub.
  assert (me ∈ (list_to_set (seq 0 (length tb0)) : gset nat)) as Hin.
  { apply elem_of_list_to_set, elem_of_seq. pose proof (lookup_lt_Some _ _ _ (to_me _ _ _ H0)). lia. }
  rewrite size_difference in Hsub by set_solver. rewrite size_singleton in Hsub.
  rewrite size_list_to_set, length_seq in Hsub by apply NoDup_seq.
  pose proof (lookup_lt_Some _ _ _ (to_me _ _ _ H0)). lia.
Qed.

Lemma running_insert kids j pid : kids !! j = None -> running (<[j := (true, pid)]> kids) = S (running kids).
Proof.
  intros Hj. unfold running. rewrite map_filter_insert_True by done. rewrite map_size_insert_None; [done|].
  apply map_lookup_filter_None. by left.
Qed.

Lemma running_exit kids j pid : kids !! j = Some (true, pid) -> S (running (<[j := (false, pid)]> kids)) = running kids.
Proof.
  intros Hj. unfold running. rewrite map_filter_insert_False by done. rewrite <- (insert_delete_id kids j (true, pid)) at 2 by done.
  rewrite map_filter_insert_True by done. rewrite map_size_insert_None; [done|]. apply map_lookup_filter_None. left. apply lookup_delete_eq.
Qed.

Lemma running_delete kids j pid : kids !! j = Some (false, pid) -> running (delete j kids) = running kids.
Proof.
  intros Hj. unfold running. rewrite <- (insert_delete_id kids j (false, pid)) at 2 by done. by rewrite map_filter_insert_False, delete_delete_eq by done.
Qed.

(** *** One turn *)

Hypothesis (Hlen : (length tb0 <= 1000)%nat).
Hypothesis (Hinit : init <> Some me /\ forall i e, init = Some i -> tb0 !! i = Some e -> e_state e <> UNUSED).

(** A state with the same children, where [me] has made a step. *)
Lemma inv_me s ph kids m t tb out np ph' kids' m' :
  inv s ph kids m -> tab_ok tb kids' m' -> view_of t = view_of (rest ph') ->
  (forall j pid, kids' !! j = Some (true, pid) <-> kids !! j = Some (true, pid)) ->
  phase_ok (s <| s_table := tb |> <| s_nextpid := np |> <| s_out := out |>) ph' kids' m' -> m' <> Msleep ->
  inv (s <| s_table := tb |> <| s_nextpid := np |> <| s_out := out |> <| s_code ::= <[me := t]> |>) ph' kids' m'.
Proof.
  intros [I1 I2 I3 I4 I5 I6 I7] Ht Hv Hk Hp Hm. constructor; try done.
  - exists t. cbn. by rewrite lookup_insert_eq.
  - intros j pid Hj. destruct (I4 j pid) as (u & Hu); [by apply Hk|]. exists u. cbn. rewrite lookup_insert_ne; [done|].
    intros <-. by apply (kid_not_me _ _ _ _ _ Ht Hj).
  - intros j Hj Hn. cbn. rewrite lookup_insert_ne by done. apply I5; [done|]. intros pid. rewrite <- Hk. apply Hn.
Qed.

Definition next_ok (l : Z) (s : system) : Prop := finished s \/ exists ph kids m, inv s ph kids m /\ left ph kids m < l.

Lemma step_fork s k n kids c mem t :
  inv s (Pfork (S k) n) kids Mrun -> s_code s !! me = Some t -> view_of t = Vsys Fork c ->
  (forall l, n <> 1000 -> view_of (c (Reply (-1) l)) = view_of (rest (Pwait (Z.to_nat n)))) ->
  (forall l, view_of (c (Reply 0 l)) = Vexit) ->
  (forall p l, 0 < p -> view_of (c (Reply p l)) = view_of (rest (Pfork k (n + 1)))) ->
  exists s', turn me mem s = Some s' /\ next_ok (left (Pfork (S k) n) kids Mrun) s'.
Proof.
  intros Hi Ht Hv Hfail Hchild Hpar. pose proof Hi as [I1 I2 _ I4 I5 (P1 & P2 & _ & P4 & P5 & P6) _].
  pose proof (kids_size _ _ _ I1) as Hsz. pose proof H0 as [_ (Hr & _) _ _ _].
  unfold turn. rewrite (t_me _ _ _ I1). cbn [mbind option_bind me_entry]. rewrite bool_decide_eq_false_2 by auto. rewrite Ht. cbn [mbind option_bind]. rewrite Hv.
  assert (i32 (s_nextpid s + 1) = s_nextpid s + 1) as E32 by (apply i32_id; unfold is_i32; lia).
  assert (forall l, phase_left (Pwait (Z.to_nat n)) + l < phase_left (Pfork (S k) n) + l) as Hdown by (intros l; unfold phase_left; lia).
  destruct (t_fork mem me (s_nextpid s) (s_table s)) as [[np tb]|] eqn:E.
  - destruct (tab_fork _ _ _ _ _ _ I1 P5 E) as (Hnp & Hne & Htb). destruct mem.
    + eexists. split; [reflexivity|]. right. exists (Pfork k (n + 1)), (<[np := (true, s_nextpid s)]> kids), Mrun. split.
      * constructor; try done.
        -- eexists. cbn. rewrite lookup_insert_eq. split; [done|]. by apply Hpar.
        -- intros j pid [[<- [= <-]]|[Hj Hx]]%lookup_insert_Some; cbn.
           ++ rewrite lookup_insert_ne, lookup_insert_eq by done. eexists. split; [done|]. apply Hchild.
           ++ rewrite !lookup_insert_ne; [by eapply I4|done|]. intros <-. by apply (kid_not_me _ _ _ _ _ I1 Hx).
        -- intros j Hj Hn. cbn. destruct (decide (j = np)) as [->|Hjn]; [exfalso; apply (Hn (s_nextpid s)); apply lookup_insert_eq|].
           rewrite !lookup_insert_ne by done. apply I5; [done|]. intros pid Hp. apply (Hn pid). by rewrite lookup_insert_ne.
        -- cbn. rewrite map_size_insert_None, E32 by done. repeat split; try done; lia.
      * unfold left. rewrite running_insert by done. unfold phase_left. lia.
    + eexists. split; [reflexivity|]. right. exists (Pwait (Z.to_nat n)), kids, Mrun. split; [|unfold left; specialize (Hdown (2 * Z.of_nat (running kids) + 1)); lia].
      destruct s as [tb1 code1 np1 init1 out1]. apply (inv_me _ _ _ _ _ tb out1 (i32 (np1 + 1)) _ _ _ Hi); [done|apply Hfail; lia|done| |done].
      split; [lia|exact P4].
  - eexists. split; [reflexivity|]. right. exists (Pwait (Z.to_nat n)), kids, Mrun. split; [|unfold left; specialize (Hdown (2 * Z.of_nat (running kids) + 1)); lia].
    destruct s as [tb1 code1 np1 init1 out1]. apply (inv_me _ _ _ _ _ tb1 out1 np1 _ _ _ Hi); [done|apply Hfail; lia|done| |done].
    split; [lia|exact P4].
Qed.

Lemma step_wait s c kids m mem : inv s (Pwait c) kids m -> m <> Msleep ->
  exists s', turn me mem s = Some s' /\ next_ok (left (Pwait c) kids m) s'.
Proof.
  intros Hi Hm. pose proof Hi as [I1 I2 (t & Ht & Hv) I4 I5 (P1 & P2) _]. pose proof H0 as [_ (Hr & _) _ _ _].
  assert (e_state (me_entry m) = RUNNABLE) as Hrun by (by destruct m).
  unfold turn. rewrite (t_me _ _ _ I1). cbn [mbind option_bind]. rewrite bool_decide_eq_false_2 by auto. rewrite Ht. cbn [mbind option_bind]. rewrite Hv.
  pose proof (tab_tidy _ _ _ I1 Hm) as Htb. destruct s as [tb1 code1 np1 init1 out1]. cbn [s_table s_code s_out] in *. set (tb := alter _ me tb1) in *.
  destruct (tab_wait _ _ Htb) as [(j & pid & tb' & Hj & Hpid & E & Htb')|[(-> & E)|(Hk & Hall & tb' & E & Htb')]].
  - destruct c as [|c]; [apply map_size_empty_inv in P1 as ->; done|]. destruct (view_wait c) as (k & Ek & Hpos). rewrite Ek, E.
    eexists. split; [reflexivity|]. right. exists (Pwait c), (delete j kids), Mrun. split.
    + apply (inv_me _ _ _ _ _ tb' out1 np1 _ _ _ Hi); [done|by apply Hpos| | |done].
      * intros i q. destruct (decide (i = j)) as [->|Hne]; [rewrite lookup_delete_eq, Hj; split; congruence|by rewrite lookup_delete_ne].
      * split; [|done]. rewrite map_size_delete_Some by (by eexists). lia.
    + unfold left. erewrite running_delete by done. unfold phase_left. destruct m; [lia|done|lia].
  - rewrite map_size_empty in P1. subst c. destruct view_last as (k & Ek & Hneg). rewrite Ek, E.
    eexists. split; [reflexivity|]. right. exists Pok, ∅, Mrun. split; [|unfold left, phase_left; destruct m; [lia|done|lia]].
    apply (inv_me _ _ _ _ _ tb out1 np1 _ _ _ Hi); [done|apply Hneg|done|done|done].
  - destruct c as [|c]; [by apply map_size_empty_inv in P1|]. destruct (view_wait c) as (k & Ek & _). rewrite Ek, E.
    eexists. split; [reflexivity|]. right. exists (Pwait (S c)), kids, Msleep. split; [|unfold left; destruct m; [lia|done|lia]].
    constructor; try done. by exists t.
Qed.

Lemma t_exit_norm tb : tab_ok tb ∅ Mrun -> map norm (t_exit me init tb) = map norm (t_exit me init tb0).
Proof.
  intros Ht. pose proof (tab_done _ Ht) as En. pose proof (to_me _ _ _ H0) as Hm.
  assert (forall ch l j e, (forall i f, l !! i = Some f -> e_parent f <> Some me) -> t_wakeup1 ch l !! j = Some e -> e_parent e <> Some me) as Hpar.
  { intros ch l j e Hl He. unfold t_wakeup1 in He. rewrite list_lookup_fmap in He. destruct (l !! j) as [f|] eqn:Ef; [|done].
    injection He as <-. unfold t_wake1. destruct (bool_decide _ && _); exact (Hl j f Ef). }
  assert (forall i f, tb !! i = Some f -> e_parent f <> Some me) as Htb.
  { intros i f Hf. apply (f_equal (.!! i)) in En. rewrite !list_lookup_fmap, Hf in En. destruct (tb0 !! i) as [g|] eqn:Hg; [|done].
    injection En as En. destruct (norm_eq _ _ En) as (_ & -> & _). by apply (to_parent _ _ _ H0 i g). }
  unfold t_exit. rewrite (t_me _ _ _ Ht), Hm. cbn [mbind option_bind me_entry]. rewrite !abandon_none.
  2:{ intros i e. apply Hpar. intros j f Hf. by apply (to_parent _ _ _ H0 j f). }
  2:{ intros i e. by apply Hpar. }
  set (ch := Cproc <$> e_parent e0). apply list_eq. intros i. rewrite !list_lookup_fmap. unfold t_wakeup1.
  destruct (decide (i = me)) as [->|Hne].
  { by rewrite !list_lookup_alter_eq, !list_lookup_fmap, (t_me _ _ _ Ht), Hm. }
  rewrite !list_lookup_alter_ne, !list_lookup_fmap by done. apply (f_equal (.!! i)) in En. rewrite !list_lookup_fmap in En.
  destruct (tb !! i) as [e|], (tb0 !! i) as [f|]; try done. injection En as En. cbn. f_equal.
  destruct (norm_eq _ _ En) as (E1 & _ & _ & _ & E5). destruct (decide (e_state e = UNUSED)) as [Hu|Hu]; [|by rewrite (E5 Hu)].
  unfold t_wake1. by rewrite <- E1, Hu.
Qed.

Lemma step_me s ph kids m mem : inv s ph kids m -> m <> Msleep -> exists s', turn me mem s = Some s' /\ next_ok (left ph kids m) s'.
Proof.
  intros Hi Hm. pose proof Hi as [I1 I2 (t & Ht & Hv) I4 I5 Hp _]. pose proof H0 as [_ (Hr & _) _ _ _].
  destruct ph as [|k n|c| |]; [| |by apply step_wait| |].
  - destruct Hp as (-> & -> & P1 & P2 & P3). destruct view_start as (k & Ek & Hk).
    unfold turn. rewrite (t_me _ _ _ I1). cbn [mbind option_bind me_entry]. rewrite bool_decide_eq_false_2 by auto. rewrite Ht. cbn [mbind option_bind]. rewrite Hv, Ek.
    eexists. split; [reflexivity|]. right. exists (Pfork 1000 0), ∅, Mrun. split; [|unfold left, phase_left; lia].
    destruct s as [tb1 code1 np1 init1 out1]. cbn in P1. subst out1. apply (inv_me _ _ _ _ _ tb1 (out0 ++ msg_start) np1 _ _ _ Hi); [done|apply Hk|done|done|done].
  - destruct Hp as (P1 & P2 & -> & P4). pose proof (kids_size _ _ _ I1). destruct k as [|k]; [lia|].
    destruct (view_fork k n) as (c & Ec & H1 & H2 & H3). rewrite Ec in Hv. by eapply step_fork.
  - destruct Hp as (-> & -> & P1). destruct view_ok as (k & Ek & Hk).
    unfold turn. rewrite (t_me _ _ _ I1). cbn [mbind option_bind me_entry]. rewrite bool_decide_eq_false_2 by auto. rewrite Ht. cbn [mbind option_bind]. rewrite Hv, Ek.
    eexists. split; [reflexivity|]. right. exists Pexit, ∅, Mrun. split; [|unfold left, phase_left; lia].
    destruct s as [tb1 code1 np1 init1 out1]. cbn in P1. subst out1.
    apply (inv_me _ _ _ _ _ tb1 ((out0 ++ msg_start) ++ msg_ok) np1 _ _ _ Hi); [done|apply Hk|done| |done]. cbn. by rewrite <- app_assoc.
  - destruct Hp as (-> & -> & P1).
    unfold turn. rewrite (t_me _ _ _ I1). cbn [mbind option_bind me_entry]. rewrite bool_decide_eq_false_2 by auto. rewrite Ht. cbn [mbind option_bind].
    rewrite Hv. change (view_of (rest Pexit)) with Vexit. cbv iota. rewrite I2, bool_decide_eq_false_2 by (intros E; by destruct Hinit).
    eexists. split; [reflexivity|]. left. split; [done|]. cbn. split; [by apply t_exit_norm|].
    apply map_eq. intros j. rewrite lookup_empty. destruct (decide (j = me)) as [->|Hj]; [apply lookup_delete_eq|].
    rewrite lookup_delete_ne by done. apply I5; [done|]. intros pid. by rewrite lookup_empty.
Qed.

Lemma step_kid s ph kids m mem j pid : inv s ph kids m -> kids !! j = Some (true, pid) ->
  exists s', turn j mem s = Some s' /\ next_ok (left ph kids m) s'.
Proof.
  intros Hi Hj. pose proof Hi as [I1 I2 I3 I4 I5 Hp Hs]. destruct (t_kid _ _ _ I1 _ _ Hj) as (e & He & Hu & Htj & Hpid).
  pose proof (kid_not_me _ _ _ _ _ I1 Hj) as Hne. destruct (I4 j pid Hj) as (t & Ht & Hv).
  unfold turn. rewrite Htj. cbn [mbind option_bind]. rewrite bool_decide_eq_false_2 by (cbn; auto). rewrite Ht. cbn [mbind option_bind]. rewrite Hv.
  rewrite I2, bool_decide_eq_false_2 by (intros E; destruct Hinit as [_ H]; by apply (H j e)).
  eexists. split; [reflexivity|]. right. exists ph, (<[j := (false, pid)]> kids), (wake m). split.
  - constructor; cbn; try done.
    + by apply tab_kid_exit.
    + destruct I3 as (u & Hu' & Hvu). exists u. by rewrite lookup_delete_ne by done.
    + intros i q [[<- ?]|[Hi' Hq]]%lookup_insert_Some; [done|]. rewrite lookup_delete_ne by done. by eapply I4.
    + intros i Hi' Hn. destruct (decide (i = j)) as [->|Hij]; [apply lookup_delete_eq|]. rewrite lookup_delete_ne by done.
      apply I5; [done|]. intros q Hq. apply (Hn q). by rewrite lookup_insert_ne.
    + assert (size (<[j := (false, pid)]> kids) = size kids) as Esz by (apply map_size_insert_Some; by eexists).
      destruct ph; cbn [phase_ok s_out s_nextpid] in *; rewrite ?Esz.
      * destruct Hp as [-> _]. by rewrite lookup_empty in Hj.
      * destruct Hp as (? & ? & -> & ?). done.
      * exact Hp.
      * destruct Hp as [-> _]. by rewrite lookup_empty in Hj.
      * destruct Hp as [-> _]. by rewrite lookup_empty in Hj.
    + by destruct m.
  - unfold left. pose proof (running_exit _ _ _ Hj). destruct m; cbn; lia.
Qed.

(** Every process that is runnable and has a program can take its turn, and the turn
    brings the end nearer. *)
Lemma step_any s ph kids m mem i : inv s ph kids m ->
  match turn i mem s with
  | Some s' => next_ok (left ph kids m) s'
  | None => forall e, s_table s !! i = Some e -> e_state e = RUNNABLE -> s_code s !! i = None
  end.
Proof.
  intros Hi. pose proof Hi as [I1 _ _ _ I5 _ _]. destruct (decide (i = me)) as [->|Hne].
  - destruct (decide (m = Msleep)) as [->|Hm]; [|by destruct (step_me s ph kids m mem Hi Hm) as (s' & -> & H)].
    unfold turn. rewrite (t_me _ _ _ I1). cbn. by intros e [= <-].
  - destruct (kids !! i) as [[[] pid]|] eqn:E; [by destruct (step_kid s ph kids m mem i pid Hi E) as (s' & -> & H)| |].
    + destruct (t_kid _ _ _ I1 _ _ E) as (e & _ & _ & Hj & _). unfold turn. rewrite Hj. cbn. by intros f [= <-].
    + assert (s_code s !! i = None) as Ec by (apply I5; [done|congruence]). unfold turn. rewrite Ec.
      destruct (s_table s !! i) as [e|]; [|done]. cbn. by destruct (bool_decide _).
Qed.

Lemma not_idle s ph kids m : inv s ph kids m -> ~ idle s.
Proof.
  intros Hi Hidle. destruct (decide (m = Msleep)) as [->|Hm].
  - destruct (in_sleep _ _ _ _ Hi eq_refl) as [Hk Hall]. apply map_choose in Hk as (j & [b pid] & Hx). pose proof (Hall _ _ Hx) as Eb. cbn in Eb. subst b.
    destruct (step_kid s ph kids Msleep true j pid Hi Hx) as (s' & E & _). by rewrite Hidle in E.
  - destruct (step_me s ph kids m true Hi Hm) as (s' & E & _). by rewrite Hidle in E.
Qed.

Lemma finished_idle s : finished s -> idle s.
Proof. intros (_ & _ & Ec). by apply no_code_idle. Qed.

Lemma left_pos s ph kids m : inv s ph kids m -> 0 < left ph kids m.
Proof.
  intros Hi. pose proof (kids_size _ _ _ (in_tab _ _ _ _ Hi)). pose proof (in_phase _ _ _ _ Hi) as Hp.
  unfold left. destruct ph; cbn [phase_left phase_ok] in *; destruct m; lia.
Qed.

(** A state of a run. *)
Definition reached (s : system) : Prop := finished s \/ exists ph kids m, inv s ph kids m.

Lemma turns_reach sched : forall s ph kids m s', inv s ph kids m -> turns sched s = Some s' ->
  Z.of_nat (length sched) <= left ph kids m /\ reached s'.
Proof.
  induction sched as [|[i mem] sched IH]; intros s ph kids m s' Hi; cbn [turns].
  { intros [= <-]. pose proof (left_pos _ _ _ _ Hi). split; [cbn; lia|]. right. eauto. }
  pose proof (step_any s ph kids m mem i Hi) as Hs. destruct (turn i mem s) as [s1|]; [|done]. cbn [mbind option_bind]. intros E.
  destruct Hs as [Hf|(ph1 & kids1 & m1 & Hi1 & Hlt)].
  - pose proof (left_pos _ _ _ _ Hi). destruct sched as [|[j mem1] sched].
    + injection E as <-. split; [cbn; lia|]. by left.
    + exfalso. cbn [turns] in E. by rewrite (finished_idle _ Hf) in E.
  - destruct (IH _ _ _ _ _ Hi1 E) as [Hl Hr]. split; [|done]. cbn [length]. lia.
Qed.

Lemma inv_start nextpid : 0 < nextpid -> nextpid + 1000 < 2 ^ 31 ->
  inv (System tb0 {[me := forktest_main]} nextpid init out0) Pstart ∅ Mrun.
Proof.
  intros Hp1 Hp2. constructor; try done.
  - constructor; try done. apply H0.
  - exists forktest_main. cbn [s_code]. by rewrite lookup_singleton_eq.
  - intros j Hj _. cbn [s_code]. by apply lookup_singleton_ne.
Qed.

End Table.

(** C39. [forktest] succeeds under every schedule.  It starts as a process that is
    runnable, on a table of at most 1000 entries (xv6 has 64) in which nothing is its
    child.  Whatever the order in which [forktest] and its children are given the
    processor, and whichever [fork]s find no memory, its runs end: none is longer than
    four turns per entry and six.  At every point of a run no process that is runnable is stuck,
    and when nothing is left to run [forktest] has printed its two messages and no other,
    all of its children are gone, and the table is the one that it started on after the
    [exit] of [forktest], but for the pids of free slots. *)
Theorem forktest_ok tb0 me e0 nextpid init out0 sched s :
  table_ok tb0 me e0 -> (length tb0 <= 1000)%nat -> init <> Some me ->
  (forall i e, init = Some i -> tb0 !! i = Some e -> e_state e <> UNUSED) ->
  0 < nextpid -> nextpid + 1000 < 2 ^ 31 ->
  turns sched (System tb0 {[me := forktest_main]} nextpid init out0) = Some s ->
  (length sched <= 4 * length tb0 + 6)%nat /\
  (forall i mem e t, s_table s !! i = Some e -> e_state e = RUNNABLE -> s_code s !! i = Some t -> is_Some (turn i mem s)) /\
  (idle s -> s_out s = out0 ++ bytes_of "fork test
" ++ bytes_of "fork test OK
" /\ s_code s = ∅ /\ map norm (s_table s) = map norm (t_exit me init tb0)).
Proof.
  intros H0 Hlen Hi1 Hi2 Hp1 Hp2 E. pose proof (inv_start tb0 me e0 init H0 out0 nextpid Hp1 Hp2) as Hinv.
  destruct (turns_reach tb0 me e0 init H0 out0 Hlen (conj Hi1 Hi2) sched _ _ _ _ _ Hinv E) as [Hl Hr]. split; [|split].
  - revert Hl. unfold left, running, phase_left. rewrite map_filter_empty, map_size_empty. lia.
  - intros i mem e t He Hrun Ht. destruct Hr as [(_ & _ & Ec)|(ph & kids & m & Hi)]; [by rewrite Ec, lookup_empty in Ht|].
    pose proof (step_any tb0 me e0 init H0 out0 Hlen (conj Hi1 Hi2) s ph kids m mem i Hi) as Hs.
    destruct (turn i mem s); [by eexists|]. rewrite (Hs e He Hrun) in Ht. done.
  - intros Hidle. destruct Hr as [(H1 & H2 & H3)|(ph & kids & m & Hi)]; [done|].
    by destruct (not_idle tb0 me e0 init H0 out0 Hlen (conj Hi1 Hi2) s ph kids m Hi).
Qed.

(** [init] and the shell wait for their children, the shell's child is [forktest], and
    the other 61 slots are free; [forktest] forks three times, the next [fork] finds no
    memory, and the children run one after the other, two of them while [forktest] sleeps. *)
Definition demo_table : list entry :=
  [Entry SLEEPING 1 None (Some (Cproc 0)) false; Entry SLEEPING 2 (Some 0%nat) (Some (Cproc 1)) false;
   Entry RUNNABLE 3 (Some 1%nat) None false] ++ replicate 61 (Entry UNUSED 0 None None false).

Definition demo_sched : list (nat * bool) :=
  [(2, true); (2, true); (2, true); (3, true); (2, true); (2, false); (2, true); (2, true); (4, true); (2, true); (2, true); (5, true);
   (2, true); (2, true); (2, true); (2, true)]%nat.

Lemma demo_table_ok : table_ok demo_table 2 (Entry RUNNABLE 3 (Some 1%nat) None false).
Proof.
  assert (forall j e, demo_table !! j = Some e -> (j < 3)%nat \/ e = Entry UNUSED 0 None None false) as Hc.
  { intros j e He. destruct (decide (j < 3)%nat); [by left|right]. unfold demo_table in He. rewrite lookup_app_r in He by (cbn; lia).
    by apply lookup_replicate in He as [-> _]. }
  constructor; [done|done| | |].
  - intros j e He. destruct (Hc j e He) as [Hj| ->]; [|done]. destruct j as [|[|[|j]]]; [..|lia]; injection He as <-; (split; [done|]);
      intros i f [= <-] [= <-]; done.
  - intros j e He. destruct (Hc j e He) as [Hj| ->]; [|done]. destruct j as [|[|[|j]]]; [..|lia]; by injection He as <-.
  - intros j e He. destruct (Hc j e He) as [Hj| ->]; [|done]. destruct j as [|[|[|j]]]; [..|lia]; by injection He as <-.
Qed.

Lemma forktest_ok_witness : exists s, turns demo_sched (System demo_table {[2%nat := forktest_main]} 4 (Some 0%nat) []) = Some s /\
  s_out s = bytes_of "fork test
" ++ bytes_of "fork test OK
" /\ map norm (s_table s) = map norm (t_exit 2 (Some 0%nat) demo_table).
Proof.
  assert (s_code <$> turns demo_sched (System demo_table {[2%nat := forktest_main]} 4 (Some 0%nat) []) = Some ∅) as Hc by (vm_compute; reflexivity).
  destruct (turns demo_sched _) as [s|] eqn:E; [|discriminate]. exists s. split; [reflexivity|].
  destruct (forktest_ok demo_table 2 _ 4 (Some 0%nat) [] demo_sched s demo_table_ok ltac:(vm_compute; lia) ltac:(discriminate)
    ltac:(intros i e [= <-] [= <-]; discriminate) ltac:(lia) ltac:(vm_compute; reflexivity) E) as (_ & _ & H).
  destruct H as (H1 & _ & H2); [apply no_code_idle; injection Hc as Hc; exact Hc|]. split; [exact H1|exact H2].
Defined.
