(* ===== verification/LabSh.v ===== *)
(** The shell of lab-02/sh.c: a smaller grammar than the one of xv6, words that are
    copied out of the line, and redirections made with the descriptors of the process.

    The parsers, positions and outcomes are the ones of [Sh]; [peek] and the skipping of
    blanks are the same code. *)

From S2P Require Import Prelude Libc Sh ShSpec.

Definition symbols : list Z := Eval cbv in bytes_of "<|>".
Definition MAXARGS : nat := 10.

(** The flags of [open] on the host. *)
Definition O_RDONLY : Z := 0.
Definition O_WRONLY_CREAT_TRUNC : Z := 577.

Inductive cmd :=
  | Exec (argv : list (list Z))
  | Redir (c : cmd) (file : list Z) (mode fd : Z)
  | Pipe (left right : cmd).

Definition redircmd (subcmd : cmd) (file : list Z) (type : Z) : cmd :=
  Redir subcmd file (if type =? 60 then O_RDONLY else O_WRONLY_CREAT_TRUNC) (if type =? 60 then 0 else 1).

Section Parser.
Context (s : list Z).

Definition gettoken : P (Z * word) :=
  skip_ws s ;;
  q ← getp;
  c ← rd s q;
  ret ← (if c =? 0 then mret 0
         else if is_in symbols c then setp (S q) ;; mret c
         else setp (skip_while (fun c => negb (is_in whitespace c) && negb (is_in symbols c)) (drop q s) q) ;; mret 97);
  eq ← getp;
  skip_ws s ;;
  mret (ret, (q, eq)).

Definition peek (toks : list Z) : P bool := Sh.peek s toks.

Definition mkcopy (w : word) : list Z := slice s (fst w) (snd w - fst w).

(** [exit(-1)] after a message; the messages go to the standard error. *)
Definition fails {A} (msg : string) : P A := die (bytes_of msg ++ [10]).

(** The redirections, in order: the file and the symbol. *)
Fixpoint redirs_loop (fuel : nat) : P (list (list Z * Z)) :=
  match fuel with
  | O => nofuel
  | S fuel =>
      b ← peek t_redir;
      if negb b then mret [] else
      t ← gettoken;
      f ← gettoken;
      if negb (fst f =? 97) then fails "missing file for redirection" else
      rs ← redirs_loop fuel;
      if (fst t =? 60) || (fst t =? 62) then mret ((mkcopy (snd f), fst t) :: rs) else mret rs
  end.

Definition parseredirs : P (list (list Z * Z)) := redirs_loop (S (length s)).

Definition redir_all (c : cmd) (rs : list (list Z * Z)) : cmd := fold_left (fun c r => redircmd c (fst r) (snd r)) rs c.

(** The loop over the arguments, [argc] of them so far. *)
Fixpoint args_loop (fuel argc : nat) : P (list (list Z) * list (list Z * Z)) :=
  match fuel with
  | O => nofuel
  | S fuel =>
      b ← peek t_pipe;
      if (b : bool) then mret ([], []) else
      t ← gettoken;
      if fst t =? 0 then mret ([], []) else
      if negb (fst t =? 97) then fails "syntax error" else
      if (MAXARGS <=? S argc)%nat then fails "too many args" else
      rs ← parseredirs;
      r ← args_loop fuel (S argc);
      mret (mkcopy (snd t) :: fst r, rs ++ snd r)
  end.

Definition parseexec : P cmd :=
  rs ← parseredirs;
  r ← args_loop MAXARGS 0;
  mret (redir_all (Exec (fst r)) (rs ++ snd r)).

Fixpoint parsepipe (fuel : nat) : P cmd :=
  match fuel with
  | O => nofuel
  | S fuel =>
      c ← parseexec;
      b ← peek t_pipe;
      if negb b then mret c else
      gettoken ;;
      r ← parsepipe fuel;
      mret (Pipe c r)
  end.

Definition parseline : P cmd := parsepipe (S (length s)).

Definition parsecmd : P cmd :=
  c ← parseline;
  peek [] ;;
  p ← getp;
  if negb (p =? length s)%nat then die (bytes_of "leftovers: " ++ drop p s ++ [10]) else mret c.

End Parser.

(** ** Running a command *)

(** An open file of the process: one that it inherited, or one that it opened. *)
Inductive handle := Inherited (n : nat) | File (name : list Z) (mode : Z).

(** The descriptors; [open] takes the lowest one that is free. *)
Definition fds : Type := list (option handle).
Fixpoint alloc (t : fds) (h : handle) : fds :=
  match t with
  | [] => [Some h]
  | None :: t => Some h :: t
  | Some x :: t => Some x :: alloc t h
  end.

(** How a command ends: it becomes the program, with the descriptors that the program
    gets, or the process exits. *)
Inductive fin := Becomes (argv : list (list Z)) (t : fds) | Exit0.

Section Run.
(** Whether [open] and [execvp] succeed, and the text of the error of [open]. *)
Context (open_ : list Z -> Z -> bool) (exec_ : list (list Z) -> bool) (strerror : list Z -> list Z).

(** The text on the standard error, and the end. *)
Fixpoint runcmd (c : cmd) (t : fds) : list Z * fin :=
  match c with
  | Exec [] => ([], Exit0)
  | Exec (a :: argv) =>
      if exec_ (a :: argv) then ([], Becomes (a :: argv) t)
      else (bytes_of "No se pudo ejecutar el comando: " ++ [34] ++ a ++ [34; 10], Exit0)
  | Redir c file mode fd =>
      let t := <[Z.to_nat fd := None]> t in
      if open_ file mode then runcmd c (alloc t (File file mode))
      else let r := runcmd c t in (bytes_of "Redir: " ++ strerror file ++ [10] ++ r.1, r.2)
  | Pipe l _ => runcmd l t
  end.

(** The child of [main]. *)
Definition run_line (buf : list Z) (t : fds) : option (list Z * fin) :=
  match parsecmd buf 0%nat with
  | Done (c, _) => Some (runcmd c t)
  | Exits e => Some (e, Exit0)
  | Fault | NoFuel => None
  end.

Definition sizeof_buf : nat := 100.

(** [fgets]: at most [room] characters, up to a newline; the line and the rest. *)
Fixpoint fgets (room : nat) (input : list Z) : list Z * list Z :=
  match room, input with
  | S room, c :: input => if c =? 10 then ([c], input) else let (l, rest) := fgets room input in (c :: l, rest)
  | _, _ => ([], input)
  end.

(** The string in [buf], or nothing at the end of the input. *)
Definition getcmd (input : list Z) : option (list Z) * list Z :=
  let (line, rest) := fgets (sizeof_buf - 1) input in
  let buf := default [] (string_at (line ++ [0])) in
  (match buf with [] => None | _ => Some buf end, rest).

(** What the shell does with a line. *)
Inductive action := Cd (path : list Z) | Child (err : list Z) (f : fin) | ForkFailed.

(** The loop of [main], which reads a character at least in each round; [fork_] says
    whether the fork for a line succeeds. *)
Fixpoint main_loop (fork_ : list Z -> bool) (fuel : nat) (t : fds) (input : list Z) : option (list action) :=
  match fuel with
  | O => None
  | S fuel =>
      let (line, rest) := getcmd input in
      match line with
      | None => Some []
      | Some buf =>
          if bool_decide (take 3 buf = bytes_of "cd ") then
            l ← main_loop fork_ fuel t rest; Some (Cd (removelast (drop 3 buf)) :: l)
          else if fork_ buf then
            r ← run_line buf t; l ← main_loop fork_ fuel t rest; Some (Child r.1 r.2 :: l)
          else l ← main_loop fork_ fuel t rest; Some (ForkFailed :: l)
      end
  end.

End Run.

(** ** The parser is total *)

(** A word of this shell, and what the parser guarantees of a command. *)
Definition word_ok (w : list Z) : Prop := w <> [] /\ Forall (fun c => c <> 0 /\ is_in whitespace c = false /\ is_in symbols c = false) w.

Definition redirection_ok (r : list Z * Z) : Prop := word_ok (fst r) /\ (snd r = 60 \/ snd r = 62).

Fixpoint cmd_ok (c : cmd) : Prop :=
  match c with
  | Exec argv => (length argv < MAXARGS)%nat /\ Forall word_ok argv
  | Redir c f mode fd => cmd_ok c /\ word_ok f /\ (mode = O_RDONLY /\ fd = 0 \/ mode = O_WRONLY_CREAT_TRUNC /\ fd = 1)
  | Pipe l r => cmd_ok l /\ cmd_ok r
  end.

Lemma redir_all_ok rs : forall c, cmd_ok c -> Forall redirection_ok rs -> cmd_ok (redir_all c rs).
Proof.
  induction rs as [|[f t] rs IH]; intros c Hc Hr; [done|]. apply Forall_cons in Hr as [[Hf Ht] Hr]. cbn. apply IH; [|done].
  unfold redircmd. cbn [cmd_ok]. split; [done|]. split; [done|]. cbn in Ht. destruct Ht as [-> | ->]; cbn; tauto.
Qed.

Section Total.
Context (s : list Z) (Hs : 0 ∉ s).

Lemma lab_gettoken_wp p Q : (p <= length s)%nat ->
  (forall t w p', (p <= p' <= length s)%nat -> (t <> 0 -> (p < p')%nat) -> (settled s p -> (p < length s)%nat -> (p < p')%nat) ->
     (t = 97 -> word_ok (mkcopy s w)) -> Q (t, w) p') ->
  pwp (gettoken s) p Q.
Proof.
  intros Hp HQ. unfold gettoken. apply pwp_bind, skip_ws_wp; [done|]. intros q Hq Hset Hqp.
  apply pwp_bind. unfold getp at 1, pwp at 1. apply pwp_bind, rd_wp; [lia|].
  assert (forall t eq, (q <= eq <= length s)%nat -> (t <> 0 -> (q < eq)%nat) -> (t = 0 -> q = length s) ->
            (t = 97 -> word_ok (mkcopy s (q, eq))) -> pwp (skip_ws s ;; mret (t, (q, eq))) eq Q) as Hend.
  { intros t eq He Ht Ht0 Hw. apply pwp_bind, skip_ws_wp; [lia|]. intros p' Hp' _ _. apply pwp_ret, HQ; auto; [lia| |].
    - intros Ht'. specialize (Ht Ht'). lia.
    - intros Hsp Hlt. rewrite (Hqp Hsp) in *. destruct (decide (t = 0)) as [E|E]; [specialize (Ht0 E)|specialize (Ht E)]; lia. }
  apply pwp_bind. destruct (s !! q) as [c|] eqn:Ec; cbn [from_option id].
  2:{ apply pwp_ret. apply pwp_bind. unfold getp at 1, pwp at 1. apply lookup_ge_None in Ec. apply Hend; [lia|done|lia|done]. }
  apply lookup_lt_Some in Ec as Hlt. assert (c <> 0) as Hc0 by (intros ->; apply Hs; by apply list_elem_of_lookup_2 in Ec).
  rewrite (proj2 (Z.eqb_neq c 0)) by done. destruct (is_in symbols c) eqn:Esym.
  { apply pwp_bind. unfold setp, pwp at 1. apply pwp_ret. apply pwp_bind. unfold getp at 1, pwp at 1. apply Hend; [lia|lia|done|]. intros ->. done. }
  set (f := fun c => negb (is_in whitespace c) && negb (is_in symbols c)).
  destruct (skip_while_spec s f (drop q s) q eq_refl ltac:(lia)) as (H1 & H2 & H3). set (eq := skip_while f (drop q s) q) in *.
  apply pwp_bind. unfold setp, pwp at 1. apply pwp_ret. apply pwp_bind. unfold getp at 1, pwp at 1.
  assert (f c = true) as Hf by (unfold f; by rewrite (Hset c Ec), Esym).
  assert (q < eq)%nat as Hlt2.
  { destruct (decide (eq = q)) as [E|]; [|lia]. rewrite E in H3. specialize (H3 c Ec). congruence. }
  apply Hend; [lia|lia|done|]. intros _. unfold mkcopy. cbn [fst snd]. split.
  - intros E. apply (f_equal length) in E. unfold slice in E. rewrite length_take, length_drop in E. cbn in E. lia.
  - apply Forall_lookup. intros i x Hx. unfold slice in Hx. apply lookup_take_Some in Hx as [Hx Hi]. rewrite lookup_drop in Hx.
    destruct (H2 (q + i)%nat ltac:(lia)) as (c' & E' & Hf'). rewrite Hx in E'. injection E' as <-. unfold f in Hf'.
    rewrite andb_true_iff, !negb_true_iff in Hf'. split; [intros ->; apply Hs; by apply list_elem_of_lookup_2 in Hx|done].
Qed.

Lemma lab_redirs_loop_wp : forall fuel p Q, (length s - p < fuel)%nat -> (p <= length s)%nat ->
  (forall rs p', (p <= p' <= length s)%nat -> Forall redirection_ok rs -> Q rs p') -> pwp (redirs_loop s fuel) p Q.
Proof.
  induction fuel as [|fuel IH]; intros p Q Hf Hp HQ; [lia|]. cbn [redirs_loop].
  apply pwp_bind, peek_wp; [done|]. intros p1 b Hp1 Hset Hb. destruct b; cbn [negb].
  2:{ apply pwp_ret, HQ; [lia|constructor]. }
  destruct (Hb eq_refl) as (c & Hc & _). apply lookup_lt_Some in Hc as Hlt.
  apply pwp_bind, lab_gettoken_wp; [lia|]. intros t1 w1 p2 Hp2 _ Hpr _. specialize (Hpr Hset Hlt).
  apply pwp_bind, lab_gettoken_wp; [lia|]. intros t2 w2 p3 Hp3 _ _ Hok. cbn [fst snd].
  destruct (Z.eqb_spec t2 97) as [->|]; cbn [negb]; [|exact I].
  apply pwp_bind, IH; [lia|lia|]. intros rs p4 Hp4 Hrs.
  destruct (Z.eqb_spec t1 60), (Z.eqb_spec t1 62); cbn [orb]; apply pwp_ret, HQ; try lia; try done; (constructor; [split; [by apply Hok|cbn; tauto]|done]).
Qed.

Lemma lab_args_loop_wp : forall fuel n p Q, (MAXARGS <= n + fuel)%nat -> (n < MAXARGS)%nat -> (p <= length s)%nat ->
  (forall r p', (p <= p' <= length s)%nat -> Forall word_ok (fst r) -> (n + length (fst r) < MAXARGS)%nat ->
     Forall redirection_ok (snd r) -> Q r p') ->
  pwp (args_loop s fuel n) p Q.
Proof.
  induction fuel as [|fuel IH]; intros n p Q Hf Hn Hp HQ; [lia|]. cbn [args_loop].
  apply pwp_bind, peek_wp; [done|]. intros p1 b Hp1 _ _. destruct b.
  { apply pwp_ret, HQ; cbn; (apply Forall_nil_2 || lia). }
  apply pwp_bind, lab_gettoken_wp; [lia|]. intros t w p2 Hp2 _ _ Hok. cbn [fst snd].
  destruct (Z.eqb_spec t 0); [apply pwp_ret, HQ; cbn; (apply Forall_nil_2 || lia)|].
  destruct (Z.eqb_spec t 97) as [->|]; cbn [negb]; [|exact I]. destruct (Nat.leb_spec MAXARGS (S n)); [exact I|].
  apply pwp_bind, lab_redirs_loop_wp; [lia|lia|]. intros rs p3 Hp3 Hrs.
  apply pwp_bind, IH; [lia|lia|lia|]. intros [ws rs'] p4 Hp4 Hws Hlen Hrs'. cbn [fst snd] in *.
  apply pwp_ret, HQ; cbn [fst snd length]; [lia|by constructor; [apply Hok|]|lia|by apply Forall_app].
Qed.

Lemma lab_parsepipe_wp : forall fuel p Q, (length s - p < fuel)%nat -> (p <= length s)%nat ->
  (forall c p', (p <= p' <= length s)%nat -> cmd_ok c -> Q c p') -> pwp (parsepipe s fuel) p Q.
Proof.
  induction fuel as [|fuel IH]; intros p Q Hf Hp HQ; [lia|]. cbn [parsepipe]. apply pwp_bind. unfold parseexec.
  apply pwp_bind, lab_redirs_loop_wp; [lia|done|]. intros rs p1 Hp1 Hrs.
  apply pwp_bind, lab_args_loop_wp; [unfold MAXARGS; lia|unfold MAXARGS; lia|lia|]. intros [ws rs'] p2 Hp2 Hws Hlen Hrs'. cbn [fst snd] in *. apply pwp_ret.
  assert (cmd_ok (redir_all (Exec ws) (rs ++ rs'))) as Hc by (apply redir_all_ok; [by split|by apply Forall_app]).
  apply pwp_bind, peek_wp; [lia|]. intros p3 [] Hp3 Hset Hb; cbn [negb]; [|apply pwp_ret, HQ; [lia|done]].
  destruct (Hb eq_refl) as (x & Hx & _). apply lookup_lt_Some in Hx as Hlt.
  apply pwp_bind, lab_gettoken_wp; [lia|]. intros t w p4 Hp4 _ Hpr _. specialize (Hpr Hset Hlt).
  apply pwp_bind, IH; [lia|lia|]. intros c5 p5 Hp5 Hc5. apply pwp_ret, HQ; [lia|done].
Qed.

Lemma lab_parsecmd_total : (exists c p, parsecmd s 0%nat = Done (c, p) /\ cmd_ok c) \/ exists e, parsecmd s 0%nat = Exits e.
Proof.
  assert (pwp (parsecmd s) 0 (fun c _ => cmd_ok c)) as H.
  { unfold parsecmd. apply pwp_bind, lab_parsepipe_wp; [lia|lia|]. intros c p Hp Hc. apply pwp_bind, peek_wp; [lia|]. intros p' b Hp' _ _.
    apply pwp_bind. unfold getp at 1, pwp at 1. destruct (p' =? length s)%nat; [by apply pwp_ret|exact I]. }
  unfold pwp in H. destruct (parsecmd s 0%nat) as [[c p]|e| |]; [left; by exists c, p|right; by exists e|done..].
Qed.

End Total.

(** ** Redirections *)







(** ** The loop of the shell *)

Lemma fgets_rest room : forall input l rest, fgets room input = (l, rest) -> input = l ++ rest.
Proof.
  induction room as [|room IH]; intros [|c input] l rest; cbn; try (intros [= <- <-]; done).
  destruct (c =? 10); [intros [= <- <-]; done|]. destruct (fgets room input) as [l' r'] eqn:E. intros [= <- <-]. by rewrite (IH _ _ _ E).
Qed.

Lemma string_at_nonzero l w : string_at l = Some w -> 0 ∉ w.
Proof.
  revert w. induction l as [|c l IH]; intros w; cbn; [done|]. destruct (Z.eqb_spec c 0); [intros [= <-]; apply not_elem_of_nil|].
  destruct (string_at l) as [w'|]; [|done]. intros [= <-]. apply not_elem_of_cons. auto.
Qed.

Lemma lab_getcmd_shorter input line rest : getcmd input = (Some line, rest) -> (length rest < length input)%nat /\ 0 ∉ line.
Proof.
  unfold getcmd. destruct (fgets _ input) as [l r] eqn:E. intros [= Hl <-]. apply fgets_rest in E as ->. rewrite length_app. split.
  - destruct l; [by cbn in Hl|cbn; lia].
  - destruct (string_at (l ++ [0])) as [[|c w]|] eqn:Es; cbn in Hl; [done| |done]. injection Hl as <-. by eapply string_at_nonzero.
Qed.

(** The shell reads any input to its end: every line is run, whatever it contains. *)
Theorem lab_main_loop_total open_ exec_ strerror fork_ t input :
  exists l, main_loop open_ exec_ strerror fork_ (S (length input)) t input = Some l.
Proof.
  assert (forall fuel inp, (length inp < fuel)%nat -> exists l, main_loop open_ exec_ strerror fork_ fuel t inp = Some l) as H; [|apply H; lia].
  induction fuel as [|fuel IH]; intros inp Hf; [lia|]. cbn [main_loop].
  destruct (getcmd inp) as [[line|] rest] eqn:E; [|by eexists]. apply lab_getcmd_shorter in E as [Hr H0].
  destruct (IH rest ltac:(lia)) as [l ->]. case_bool_decide; [by eexists|]. destruct (fork_ line); [|by eexists]. unfold run_line.
  destruct (lab_parsecmd_total line H0) as [(c & p & -> & _)|[e ->]]; by eexists.
Qed.
