(* ===== verification/SchedThreads.v ===== *)
(** The threads of lab-04/sched-threads.c, which write their number in a shared buffer
    at a shared position that no lock protects.

    Each read and each write of a shared variable is a step, so that an update of the
    position may be lost.  [vueltas] is the number of times that a thread writes the
    same cell, 0x1FFFFFF in the code. *)

From S2P Require Import Prelude Libc.

(** The arguments of [main]: whether the policy is round robin, the number of threads
    and of items; or the first line of the message. *)
Definition sched_args (argv : list string) : (bool * Z * Z) + string :=
  match argv with
  | [_; o; a; b] =>
      let count := atoi a in
      let items := atoi b in
      if count <=? 0 then inr "Error: el numero de hilos debe ser mayor que cero."
      else if items <=? 0 then inr "Error: el numero de items debe ser mayor que cero."
      else match bytes_of o !! 1%nat with
           | Some 82 => inl (true, count, items)
           | Some 70 => inl (false, count, items)
           | _ => inr ("Error: opción invalida " +:+ o +:+ ".")
           end
  | _ => inr ("Uso: " +:+ default EmptyString (head argv) +:+ " [-R | -F] hilos items")
  end.

(** Where a thread is in [write_buffer], with [i], [j] and the position that it read. *)
Inductive pc :=
  | Ciclo (i : Z)
  | Carga (i j : Z)
  | Escribe (i j p : Z)
  | LeePos (i : Z)
  | GuardaPos (i p : Z)
  | Fin.

Record estado := Estado { pos : Z; buf : list Z; hilos : list pc }.

Inductive resultado := Sigue (s : estado) | Fuera | Nada.

Section Threads.
Context (items vueltas : Z).

(** The place after the write number [j] of the item [i]. *)
Definition otra (i j : Z) : pc := if j <? vueltas then Carga i j else LeePos i.

(** One step of the thread [id]: the position, the buffer and the place, or [None] if
    it writes outside of the buffer. *)
Definition write_buffer (id : Z) (p : pc) (pos : Z) (buf : list Z) : option (Z * list Z * pc) :=
  match p with
  | Ciclo i => Some (pos, buf, if i <? items then otra i 0 else Fin)
  | Carga i j => Some (pos, buf, Escribe i j pos)
  | Escribe i j p =>
      if (0 <=? p) && (p <? Z.of_nat (length buf)) then Some (pos, <[Z.to_nat p := id]> buf, otra i (j + 1)) else None
  | LeePos i => Some (pos, buf, GuardaPos i pos)
  | GuardaPos i p => Some (i32 (p + 1), buf, Ciclo (i + 1))
  | Fin => None
  end.

Definition avanza (n : nat) (s : estado) : resultado :=
  match hilos s !! n with
  | None | Some Fin => Nada
  | Some p =>
      match write_buffer (Z.of_nat n) p (pos s) (buf s) with
      | Some (x, b, p') => Sigue (Estado x b (<[n := p']> (hilos s)))
      | None => Fuera
      end
  end.

(** A schedule, of threads that have not ended. *)
Fixpoint corre (ns : list nat) (s : estado) : resultado :=
  match ns with
  | [] => Sigue s
  | n :: ns => match avanza n s with Sigue s => corre ns s | r => r end
  end.

(** [main]: the buffer in zeroes, and the threads. *)
Definition inicio (count : Z) : estado :=
  Estado 0 (replicate (Z.to_nat (count * items)) 0) (replicate (Z.to_nat count) (Ciclo 0)).

(** ** The invariant *)

(** The items that a thread has finished, and the steps that it has left. *)
Definition hechos (p : pc) : Z :=
  match p with Ciclo i | Carga i _ | Escribe i _ _ | LeePos i | GuardaPos i _ => i | Fin => items end.

Definition por_item : Z := 2 * vueltas + 3.
Definition resta (p : pc) : Z :=
  match p with
  | Ciclo i => (items - i) * por_item + 1
  | Carga i j => (items - i) * por_item - 2 * j
  | Escribe i j _ => (items - i) * por_item - 2 * j - 1
  | LeePos i => (items - i) * por_item - 2 * vueltas
  | GuardaPos i _ => (items - i) * por_item - 2 * vueltas - 1
  | Fin => 0
  end.

(** [h] is the number of items that all the threads have finished. *)
Definition pc_ok (h : Z) (p : pc) : Prop :=
  match p with
  | Ciclo i => 0 <= i <= items
  | Carga i j => 0 <= i < items /\ 0 <= j < vueltas
  | Escribe i j p => 0 <= i < items /\ 0 <= j < vueltas /\ 0 <= p <= h
  | LeePos i => 0 <= i < items
  | GuardaPos i p => 0 <= i < items /\ 0 <= p <= h
  | Fin => True
  end.

Record inv (count : Z) (s : estado) : Prop := Inv {
  i_pos : 0 <= pos s <= total hechos (hilos s);
  i_len : Z.of_nat (length (buf s)) = count * items;
  i_hilos : Z.of_nat (length (hilos s)) = count;
  i_pc : Forall (pc_ok (total hechos (hilos s))) (hilos s) }.

Context (Hitems : 0 < items) (Hvueltas : 0 <= vueltas).

Lemma pc_ok_mono h h' p : h <= h' -> pc_ok h p -> pc_ok h' p.
Proof. destruct p; cbn; lia. Qed.

Lemma hechos_le h l : Forall (pc_ok h) l -> total hechos l <= Z.of_nat (length l) * items.
Proof.
  induction 1 as [|p l Hp _ IH]; [unfold total; cbn; lia|]. rewrite total_cons. cbn [length].
  assert (hechos p <= items) by (destruct p; cbn in *; lia). lia.
Qed.

(** While a thread has items left, so has the sum. *)
Lemma hechos_lt h l n p : Forall (pc_ok h) l -> l !! n = Some p -> hechos p < items -> total hechos l < Z.of_nat (length l) * items.
Proof.
  intros Hl. revert n. induction Hl as [|q l Hq Hl IH]; intros [|n] Hp Hlt; try done; rewrite total_cons; cbn [length].
  - injection Hp as ->. pose proof (hechos_le h l Hl). lia.
  - specialize (IH n Hp Hlt). assert (hechos q <= items) by (destruct q; cbn in *; lia). lia.
Qed.

Lemma hilo_avanza_inv count n s : count * items < 2147483648 -> inv count s ->
  avanza n s = Nada \/ exists s', avanza n s = Sigue s' /\ inv count s' /\ total resta (hilos s') + 1 = total resta (hilos s).
Proof.
  intros Hmax [H1 H2 H3 H4]. unfold avanza. destruct (hilos s !! n) as [p|] eqn:Hp; [|by left].
  pose proof (proj1 (Forall_lookup _ _) H4 _ _ Hp) as Hok. set (h := total hechos (hilos s)) in *.
  assert (p = Fin \/ exists x b p', write_buffer (Z.of_nat n) p (pos s) (buf s) = Some (x, b, p') /\ length b = length (buf s) /\
    pc_ok (h + (hechos p' - hechos p)) p' /\ hechos p <= hechos p' /\ 0 <= x <= h + (hechos p' - hechos p) /\ resta p' + 1 = resta p) as [->|H].
  { destruct p as [i|i j|i j q|i|i q|]; [right..|by left]; cbn in Hok; cbn [write_buffer].
    - eexists _, _, _. split; [done|]. split; [done|]. destruct (Z.ltb_spec i items); [|assert (i = items) as -> by lia; cbn; rewrite Z.sub_diag; split_and!; lia].
      unfold otra. destruct (Z.ltb_spec 0 vueltas); cbn; unfold por_item; split_and!; lia.
    - eexists _, _, _. split; [done|]. split; [done|]. cbn. split_and!; lia.
    - assert (h < count * items) as Hh by (rewrite <- H3; apply (hechos_lt h (hilos s) n (Escribe i j q)); [done|done|cbn; lia]).
      rewrite (proj2 (Z.leb_le 0 q)), (proj2 (Z.ltb_lt q _)) by lia. cbn [andb]. eexists _, _, _. split; [done|]. split; [by rewrite length_insert|].
      unfold otra. destruct (Z.ltb_spec (j + 1) vueltas); cbn; split_and!; lia.
    - eexists _, _, _. split; [done|]. split; [done|]. cbn. split_and!; lia.
    - assert (h < count * items) as Hh by (rewrite <- H3; apply (hechos_lt h (hilos s) n (GuardaPos i q)); [done|done|cbn; lia]).
      rewrite i32_id by (unfold is_i32; lia). eexists _, _, _. split; [done|]. split; [done|]. cbn. unfold por_item. split_and!; lia. }
  - by left.
  - right. destruct H as (x & b & p' & E & Hb & Hok' & Hle & Hx & Hr). exists (Estado x b (<[n := p']> (hilos s))).
    split; [destruct p; try done; by rewrite E|]. cbn [hilos]. rewrite (total_insert resta _ _ _ _ Hp). split; [|lia].
    assert (total hechos (<[n := p']> (hilos s)) = h + (hechos p' - hechos p)) as Et by (rewrite (total_insert hechos _ _ _ _ Hp); lia).
    constructor; cbn [pos buf hilos]; rewrite ?Et, ?length_insert, ?Hb; [lia|done|done|].
    apply Forall_lookup. intros k q [(<- & <- & _)|[Hne Hq]]%list_lookup_insert_Some; [done|].
    eapply pc_ok_mono; [|exact (proj1 (Forall_lookup _ _) H4 _ _ Hq)]. lia.
Qed.

Lemma inicio_inv count : 0 <= count -> inv count (inicio count).
Proof.
  intros Hc. constructor; cbn; rewrite ?length_replicate, ?Z2Nat.id by nia; [|done|done|].
  - rewrite total_zero; [lia|]. intros p [-> _]%elem_of_replicate. done.
  - apply Forall_replicate. cbn. lia.
Qed.

Lemma total_replicate f n (p : pc) : total f (replicate n p) = Z.of_nat n * f p.
Proof. induction n as [|n IH]; [done|]. cbn [replicate]. rewrite total_cons, IH. lia. Qed.

Lemma resta_pos h p : pc_ok h p -> 0 <= resta p.
Proof. destruct p; cbn; unfold por_item; nia. Qed.

(** Although the position is not protected and updates of it may be lost, no schedule
    of the threads writes outside of the buffer, the position never passes the
    number of items, and every schedule ends within the steps of all the threads. *)
Theorem hilos_en_rango count ns : 0 <= count -> count * items < 2147483648 ->
  corre ns (inicio count) = Nada \/ exists s, corre ns (inicio count) = Sigue s /\ 0 <= pos s <= count * items /\
    Z.of_nat (length ns) <= count * (items * (2 * vueltas + 3) + 1).
Proof.
  intros Hc Hmax.
  assert (forall ns s, inv count s -> corre ns s = Nada \/ exists s', corre ns s = Sigue s' /\ inv count s' /\
    total resta (hilos s') + Z.of_nat (length ns) = total resta (hilos s)) as H.
  { clear ns. induction ns as [|n ns IH]; intros s Hs; [right; exists s; cbn; split_and!; (done || lia)|]. cbn [corre length].
    destruct (hilo_avanza_inv count n s Hmax Hs) as [->|(s1 & -> & Hs1 & E1)]; [by left|].
    destruct (IH s1 Hs1) as [->|(s2 & -> & Hs2 & E2)]; [by left|right]. exists s2. split_and!; [done|done|lia]. }
  destruct (H ns (inicio count) (inicio_inv count Hc)) as [->|(s & -> & [H1 H2 H3 H4] & E)]; [by left|right]. exists s. split; [done|].
  pose proof (hechos_le _ _ H4) as Hle. rewrite H3 in Hle. split; [lia|].
  assert (0 <= total resta (hilos s)) as H0.
  { clear -H4 Hitems Hvueltas. induction H4 as [|p l Hp _ IH]; [done|]. rewrite total_cons. apply resta_pos in Hp. lia. }
  cbn [hilos inicio] in E. rewrite total_replicate in E. rewrite Z2Nat.id in E by done. cbn [resta] in E. unfold por_item in E. lia.
Qed.

End Threads.

Lemma hilos_en_rango_witness : exists s, corre 1 1 [0; 1; 0; 1; 0; 1; 0; 1; 0; 1; 0; 1]%nat (inicio 1 2) = Sigue s /\ 0 <= pos s <= 2 * 1.
Proof.
  destruct (hilos_en_rango 1 1 ltac:(lia) ltac:(lia) 2 [0; 1; 0; 1; 0; 1; 0; 1; 0; 1; 0; 1]%nat ltac:(lia) ltac:(lia)) as [E|(s & E & H & _)];
    [vm_compute in E; discriminate|]. exists s. split; [exact E|exact H].
Defined.

(** An update is lost when two threads read the same position: two threads with one
    item each leave the position at 1, and one of the items is overwritten. *)
Theorem hilos_pierden : corre 1 1 [0; 1; 0; 1; 0; 1; 0; 1; 0; 1; 0; 1]%nat (inicio 1 2) = Sigue (Estado 1 [1; 0] [Fin; Fin]).
Proof. reflexivity. Qed.
