(* ===== verification/ForkPrio.v ===== *)
(** The program of lab-03/forkprio.c: a parent that starts children with different
    priorities, lets them work, and stops them. *)

From S2P Require Import Prelude Libc.

Definition MAX_HIJOS : Z := 25.
Definition MIN_HIJOS : Z := 1.
Definition PRIORIDAD_MINIMA : Z := 20.
Definition MAX_SEGS : Z := 35.
Definition MIN_SEGS : Z := 0.

(** The arguments: children, seconds and whether priorities are lowered; or the message. *)
Definition forkprio_args (argv : list string) : (Z * Z * bool) + string :=
  match argv with
  | _ :: a :: b :: c :: _ =>
      let nHijos := atoi a in
      let segundosEjecucion := atoi b in
      let prioridad := atoi c in
      if (nHijos <? MIN_HIJOS) || (MAX_HIJOS <? nHijos) then inr "Cantidad de hijos (primer parametro), debe estar entre: 1 y 25"
      else if (segundosEjecucion <? MIN_SEGS) || (MAX_SEGS <? segundosEjecucion) then
        inr "Cantidad de segundos de ejecucion (segundo parametro), debe estar entre: 0 y 35"
      else if negb (prioridad =? 0) && negb (prioridad =? 1) then
        inr "Los valores posibles para el tercer parametro son 1 y 0 para reducir (o no), la prioridad."
      else inl (nHijos, segundosEjecucion, prioridad =? 1)
  | _ => inr "Uso: forkprio <cant_hijos> <segundos_ejecucion_hijos> <reducir_prioridades [0-1]>."
  end.

(** ** The children *)

(** A process: its pid, its priority, whether it is alive and has been waited for, and
    the lines that it printed, each by the priority that it shows. *)
Record hijo := Hijo { pid : Z; nice : Z; vivo : bool; esperado : bool; lineas : list Z }.
#[export] Instance hijo_set : Settable hijo := fun r => Hijo (pid r) (nice r) (vivo r) (esperado r) (lineas r).

(** The system keeps priorities between -20 and 19. *)
Definition setpriority (p : Z) : Z := Z.max (-20) (Z.min 19 p).

Definition SIGINT : Z := 2.
Definition SIGUSR1 : Z := 10.
Definition SIGUSR2 : Z := 12.
Definition SIGTERM : Z := 15.

(** The handler of a child; the default case is for other signals. *)
Definition alarm_handler (signal : Z) (h : hijo) : hijo :=
  if signal =? SIGINT then h
  else if signal =? SIGTERM then h <| lineas ::= fun l => l ++ [nice h] |> <| vivo := false |>
  else if signal =? SIGUSR1 then h <| lineas ::= fun l => l ++ [nice h] |>
  else if signal =? SIGUSR2 then h <| nice := setpriority (nice h + 1) |>
  else h <| vivo := false |>.

(** [kill(pid, signal)]: the signal reaches the living process with that pid. *)
Definition kill (p signal : Z) (hs : list hijo) : list hijo :=
  map (fun h => if (pid h =? p) && vivo h then alarm_handler signal h else h) hs.

(** [waitpid]: [None] if the process never ends. *)
Definition waitpid (p : Z) (hs : list hijo) : option (list hijo) :=
  if existsb (fun h => (pid h =? p) && vivo h) hs then None
  else Some (map (fun h => if pid h =? p then h <| esperado := true |> else h) hs).

(** ** The parent *)

(** The loop that creates the children, with [auxPrioridad] so far; the pids are the ones
    that [fork] returns. *)
Fixpoint crear_hijos (prioridad : bool) (auxPrioridad : Z) (pids : list Z) : list hijo :=
  match pids with
  | [] => []
  | p :: pids =>
      let aux := if prioridad then if PRIORIDAD_MINIMA <? auxPrioridad + 1 then PRIORIDAD_MINIMA else auxPrioridad + 1 else auxPrioridad in
      Hijo p (setpriority aux) true false [] :: crear_hijos prioridad aux pids
  end.

(** The handler of the parent for an interrupt from the terminal. *)
Definition killSons (signal : Z) (hijos : list Z) (hs : list hijo) : list hijo :=
  if signal =? SIGINT then foldl (fun hs p => kill p SIGTERM hs) hs hijos else hs.

(** The end of [main]: each child is stopped and waited for. *)
Fixpoint terminar (hijos : list Z) (hs : list hijo) : option (list hijo) :=
  match hijos with
  | [] => Some hs
  | p :: hijos => hs ← waitpid p (kill p SIGTERM hs); terminar hijos hs
  end.

(** [main] after its arguments, with forks that succeed and no signal from outside: the
    children at its end, or [None] if it waits for ever, as it does for 0 seconds. *)
Definition forkprio_main (segundosEjecucion : Z) (prioridad : bool) (pids : list Z) : option (list hijo) :=
  let hs := crear_hijos prioridad 0 pids in
  if segundosEjecucion =? 0 then None else terminar pids hs.

(** ** Properties *)

Lemma crear_hijos_lookup b pids : forall aux k p, 0 <= aux <= 20 -> pids !! k = Some p ->
  crear_hijos b aux pids !! k = Some (Hijo p (if b then Z.min 19 (aux + Z.of_nat k + 1) else Z.min 19 aux) true false []).
Proof.
  induction pids as [|q pids IH]; intros aux k p Ha Hk; [done|]. cbn [crear_hijos]. unfold PRIORIDAD_MINIMA, setpriority.
  destruct k as [|k]; cbn in Hk |- *.
  - injection Hk as ->. do 2 f_equal. destruct b; [destruct (Z.ltb_spec 20 (aux + 1))|]; lia.
  - rewrite (IH _ _ p) by first [done|destruct b; [destruct (Z.ltb_spec 20 (aux + 1))|]; lia]. do 2 f_equal.
    destruct b; [destruct (Z.ltb_spec 20 (aux + 1))|]; lia.
Qed.

Lemma crear_hijos_pids b pids : forall aux, map pid (crear_hijos b aux pids) = pids.
Proof. induction pids as [|p pids IH]; intros aux; [done|]. cbn. by rewrite IH. Qed.

(** A child that has been stopped and waited for, with its only line. *)
Definition terminado (h : hijo) : hijo := Hijo (pid h) (nice h) false true (lineas h ++ [nice h]).

Lemma terminar_paso p hs : NoDup (map pid hs) -> Forall (fun h => pid h = p -> vivo h = true) hs ->
  waitpid p (kill p SIGTERM hs) = Some (map (fun h => if pid h =? p then terminado h else h) hs).
Proof.
  intros Hn Hv. unfold waitpid, kill. destruct (existsb _ _) eqn:Ee; [exfalso|].
  2:{ f_equal. rewrite map_map. apply map_ext_in. intros h Hh%list_elem_of_In. rewrite Forall_forall in Hv. specialize (Hv h Hh).
    destruct (Z.eqb_spec (pid h) p) as [E|E]; cbn [andb].
    + rewrite (Hv E). change (alarm_handler SIGTERM h) with (Hijo (pid h) (nice h) false (esperado h) (lineas h ++ [nice h])). cbn [pid].
      by rewrite (proj2 (Z.eqb_eq _ _) E).
    + by apply Z.eqb_neq in E as ->. }
  - apply existsb_exists in Ee as (x & Hx & Hp). apply in_map_iff in Hx as (h & <- & Hh).
    destruct (Z.eqb_spec (pid h) p) as [E|E]; cbn [andb] in Hp.
    + apply list_elem_of_In in Hh. rewrite Forall_forall in Hv. rewrite (Hv h Hh E) in Hp.
      change (alarm_handler SIGTERM h) with (Hijo (pid h) (nice h) false (esperado h) (lineas h ++ [nice h])) in Hp. cbn in Hp. by rewrite andb_false_r in Hp.
    + by apply Z.eqb_neq in E as E'; rewrite E' in Hp.
Qed.

Lemma terminar_todos ps : forall hs, NoDup ps -> NoDup (map pid hs) -> Forall (fun h => pid h ∈ ps -> vivo h = true) hs ->
  terminar ps hs = Some (map (fun h => if bool_decide (pid h ∈ ps) then terminado h else h) hs).
Proof.
  induction ps as [|p ps IH]; intros hs Hps Hn Hv.
  - cbn. f_equal. rewrite <- (map_id hs) at 1. apply map_ext. intros h. by rewrite bool_decide_eq_false_2 by apply not_elem_of_nil.
  - apply NoDup_cons in Hps as [Hp Hps]. cbn [terminar]. rewrite terminar_paso; [|done|].
    2:{ eapply Forall_impl; [exact Hv|]. intros h H E. apply H. rewrite E. left. }
    cbn [mbind option_bind]. rewrite IH; [|done| |].
    + f_equal. rewrite map_map. apply map_ext. intros h. destruct (Z.eqb_spec (pid h) p) as [E|E].
      * rewrite bool_decide_eq_false_2 by (cbn; by rewrite E). rewrite bool_decide_eq_true_2 by (rewrite E; left). done.
      * destruct (decide (pid h ∈ ps)); [rewrite !bool_decide_eq_true_2 by (try right; done); done|].
        rewrite !bool_decide_eq_false_2 by (try (intros [?|?]%elem_of_cons; done); done). done.
    + rewrite map_map. erewrite map_ext; [exact Hn|]. intros h. by destruct (pid h =? p).
    + apply Forall_map. eapply Forall_impl; [exact Hv|]. intros h H. cbn. destruct (Z.eqb_spec (pid h) p) as [E|E]; [cbn; by rewrite E|].
      intros Hin. apply H. by right.
Qed.

Lemma crear_hijos_vivos b pids : Forall (fun h => vivo h = true) (crear_hijos b 0 pids).
Proof.
  apply Forall_lookup. intros i h Hi. destruct (pids !! i) as [q|] eqn:Eq.
  - rewrite (crear_hijos_lookup b pids 0 i q) in Hi by (done || lia). by injection Hi as <-.
  - apply lookup_ge_None in Eq. apply lookup_lt_Some in Hi. rewrite <- (length_map pid), crear_hijos_pids in Hi. lia.
Qed.

(** Each child at the end of the program. *)
Lemma forkprio_hijos n b pids : n <> 0 -> NoDup pids -> exists hs, forkprio_main n b pids = Some hs /\ length hs = length pids /\
  forall k p, pids !! k = Some p -> hs !! k = Some (let n := if b then Z.min 19 (Z.of_nat k + 1) else 0 in Hijo p n false true [n]).
Proof.
  intros Hz Hn. unfold forkprio_main. rewrite (proj2 (Z.eqb_neq n 0)) by done. rewrite terminar_todos; [|done|by rewrite crear_hijos_pids|].
  - eexists. split; [done|]. split; [rewrite length_map, <- (length_map pid), crear_hijos_pids; done|]. intros k p Hk.
    change (@map hijo hijo) with (@fmap list list_fmap hijo hijo). rewrite list_lookup_fmap, (crear_hijos_lookup b pids 0 k p) by (done || lia). cbn.
    rewrite bool_decide_eq_true_2 by (by eapply list_elem_of_lookup_2). by destruct b.
  - eapply Forall_impl; [apply crear_hijos_vivos|done].
Qed.

(** After some seconds every child is stopped, waited for and prints one line; the child number [k] runs
    at priority 0, or one lower than the child before it down to the lowest one, 19. *)
Theorem forkprio_termina n b pids k p : n <> 0 -> NoDup pids -> pids !! k = Some p ->
  exists hs, forkprio_main n b pids = Some hs /\ length hs = length pids /\
    hs !! k = Some (let n := if b then Z.min 19 (Z.of_nat k + 1) else 0 in Hijo p n false true [n]).
Proof. intros Hz Hn Hk. destruct (forkprio_hijos n b pids Hz Hn) as (hs & E & Hl & H). exists hs. auto. Qed.

(** With 25 children and lowered priorities, the last seven share the lowest priority:
    the limit of the program is 20, and the system's is 19. *)
Theorem prioridades_iguales n pids k p : n <> 0 -> NoDup pids -> pids !! k = Some p -> (18 <= k)%nat ->
  exists hs, forkprio_main n true pids = Some hs /\ nice <$> hs !! k = Some 19.
Proof.
  intros Hz Hn Hk Hl. destruct (forkprio_hijos n true pids Hz Hn) as (hs & E & _ & H). exists hs. split; [done|]. rewrite (H k p Hk). cbn. f_equal. lia.
Qed.
