(* ===== verification/LabFiles.v ===== *)
(** The programs of the labs that write files: lab-08/write_bytes.c on the host, and
    lab-08/big.c and lab-06/testwrite.c on xv6. *)

From ITree Require Import Core.ITreeDefinition.
From S2P Require Import Prelude Libc Printf Uprog Programs ProgramsSpec.

(** ** write_bytes.c *)

(** What the program does with its file; [Error] is a message and the end. *)
Inductive accion := Escribe (n : Z) | Fsync | Fdatasync | Cierra | Error (msg : string).

Section WriteBytes.
(** Whether the write of [n] bytes after [tot] of them is complete. *)
Context (write_ : Z -> Z -> bool) (numBytes bufSize sync : Z).

(** The loop from [totWritten]; [None] if it does not end in [fuel] rounds. *)
Fixpoint write_loop (fuel : nat) (totWritten : Z) : option (list accion) :=
  if totWritten <? numBytes then
    match fuel with
    | O => None
    | S fuel =>
        let thisWrite := if bufSize <? numBytes - totWritten then bufSize else numBytes - totWritten in
        if negb (write_ totWritten thisWrite) then Some [Escribe thisWrite; Error "write"] else
        match sync with
        | 0 => l ← write_loop fuel (totWritten + thisWrite); Some (Escribe thisWrite :: l)
        | 1 => l ← write_loop fuel (totWritten + thisWrite); Some (Escribe thisWrite :: Fsync :: l)
        | 2 => l ← write_loop fuel (totWritten + thisWrite); Some (Escribe thisWrite :: Fdatasync :: l)
        | _ => Some [Escribe thisWrite; Error "Opcion de sincronizacion invalida"]
        end
    end
  else Some [].

End WriteBytes.

(** Whether the program ended with an error. *)
Definition fallo (l : list accion) : bool := match last l with Some (Error _) => true | _ => false end.

(** [numBytes] and [bufSize] are the arguments as a [size_t]; [malloc_], [open_] and
    [close_] say whether these calls succeed. *)
Definition write_bytes_main (malloc_ : Z -> bool) (open_ : string -> bool) (close_ : bool) (write_ : Z -> Z -> bool)
    (fuel : nat) (argv : list string) : option (list accion) :=
  match argv with
  | [_; a; b; c; archivo] =>
      let numBytes := wrapu 64 (atoi a) in
      let bufSize := wrapu 64 (atoi b) in
      let sync := atoi c in
      if negb (malloc_ bufSize) then Some [Error "malloc"] else
      if negb (open_ archivo) then Some [Error "open"] else
      l ← write_loop write_ numBytes bufSize sync fuel 0;
      Some (if fallo l then l else if close_ then l ++ [Cierra] else l ++ [Cierra; Error "close"])
  | _ => Some [Error ("Uso: " +:+ default EmptyString (head argv) +:+ " num-bytes buf-size sync archivo")]
  end.

Definition escritos (l : list accion) : list Z := omap (fun a => match a with Escribe n => Some n | _ => None end) l.

(** With a buffer and writes that succeed, the program writes the bytes that it was
    asked for, in pieces that fit the buffer. *)
Theorem write_bytes_todos numBytes bufSize sync : 0 <= numBytes -> 0 < bufSize -> 0 <= sync <= 2 ->
  exists l, write_loop (fun _ _ => true) numBytes bufSize sync (Z.to_nat numBytes) 0 = Some l /\
    total id (escritos l) = numBytes /\ Forall (fun n => 0 < n <= bufSize) (escritos l).
Proof.
  intros Hn Hb Hs.
  assert (forall fuel tot, 0 <= tot <= numBytes -> numBytes - tot <= Z.of_nat fuel ->
    exists l, write_loop (fun _ _ => true) numBytes bufSize sync fuel tot = Some l /\ total id (escritos l) = numBytes - tot /\
      Forall (fun n => 0 < n <= bufSize) (escritos l)) as H.
  2:{ destruct (H (Z.to_nat numBytes) 0) as (l & E & Ht & Hf); [lia|lia|]. exists l. split; [done|]. split; [lia|done]. }
  induction fuel as [|fuel IH]; intros tot Ht Hf; cbn [write_loop]; (destruct (Z.ltb_spec tot numBytes); [|exists []; split; [done|]; split; [unfold total; cbn; lia|constructor]]); [lia|].
  set (w := if bufSize <? numBytes - tot then bufSize else numBytes - tot).
  assert (0 < w <= bufSize /\ w <= numBytes - tot) as Hw by (subst w; destruct (Z.ltb_spec bufSize (numBytes - tot)); lia).
  destruct (IH (tot + w)) as (l & E & Hl & Hl'); [lia|lia|]. cbn [negb]. rewrite E.
  assert (sync = 0 \/ sync = 1 \/ sync = 2) as [-> | [-> | ->]] by lia; cbn [mbind option_bind]; eexists; (split; [done|]);
    (split; [etransitivity; [apply (total_cons id w (escritos l))|unfold id at 1; lia]|apply (Forall_cons_2 _ w (escritos l)); [lia|done]]).
Qed.

(** With a buffer of size 0 the program never ends. *)
Theorem write_bytes_sin_fin numBytes sync fuel : 0 < numBytes -> 0 <= sync <= 2 -> write_loop (fun _ _ => true) numBytes 0 sync fuel 0 = None.
Proof.
  intros Hn Hs. induction fuel as [|fuel IH]; cbn [write_loop]; rewrite (proj2 (Z.ltb_lt 0 numBytes)) by done; [done|].
  rewrite (proj2 (Z.ltb_lt 0 (numBytes - 0))) by lia. cbn [negb]. change (0 + 0) with 0. rewrite IH.
  assert (sync = 0 \/ sync = 1 \/ sync = 2) as [-> | [-> | ->]] by lia; done.
Qed.

(** ** big.c and testwrite.c *)

Definition big_file : list Z := bytes_of "big.file".
Definition O_WRONLY : Z := 1.

(** The loop of the writes: the sectors written.  [junk] is the rest of [buf], which the
    program does not set. *)
Definition big_writes (junk : list Z) (fd : Z) : Z -> prog Z :=
  ITree.iter (fun sectors =>
    w ← sys (Write fd (le_bytes 4 sectors ++ junk));
    if ret w <=? 0 then mret (inr sectors) else
    (if (sectors + 1) mod 100 =? 0 then printf 2 "." [] else mret tt) ;; mret (inl (sectors + 1))).

(** The loop of the reads, with [n] sectors left. *)
Fixpoint big_reads (n : nat) (fd i : Z) : prog unit :=
  match n with
  | O => mret tt
  | S n =>
      r ← sys (Read fd 512);
      if ret r <=? 0 then printf 2 "big: read error at sector %d
" [Vint i] ;; exit else
      if negb (i32 (get32 (data r) 0) =? i) then printf 2 "big: read the wrong data (%d) for sector %d
" [Vint (get32 (data r) 0); Vint i] ;; exit else
      big_reads n fd (i + 1)
  end.

Definition big_main (junk : list Z) : prog unit :=
  r ← sys (Open big_file (Z.lor O_CREATE O_WRONLY));
  if ret r <? 0 then printf 2 "big: cannot open big.file for writing
" [] ;; exit else
  sectors ← big_writes junk (ret r) 0;
  printf 1 "
wrote %d sectors
" [Vint sectors] ;;
  sys (Close (ret r)) ;;
  r ← sys (Open big_file O_RDONLY);
  if ret r <? 0 then printf 2 "big: cannot re-open big.file for reading
" [] ;; exit else
  big_reads (Z.to_nat sectors) (ret r) 0 ;;
  printf 1 "done; ok
" [] ;; exit.

(** The text that [testwrite] stores. *)
Definition testwrite_buf : list Z := map (fun i => 97 + Z.of_nat i mod 26) (seq 0 2048).

Definition testwrite_main : prog unit :=
  printf 1 "Writing %d bytes to disk.
" [Vint 2048] ;;
  r ← sys (Open (bytes_of "testwrite.bin") (Z.lor O_CREATE O_WRONLY));
  sys (Write (ret r) testwrite_buf) ;; sys (Write (ret r) [10]) ;; sys (Close (ret r)) ;; exit.

(** A machine with one file of at most [room] sectors. *)
Record bigfs := Bigfs { room : nat; sectors_ : list (list Z); next : nat; bout : list Z; berr : list Z }.
Definition bigdisk : machine bigfs := {|
  m_sys c s :=
    match c with
    | Open _ _ => (Reply 3 [], Bigfs (room s) (sectors_ s) 0 (bout s) (berr s))
    | Close _ => (Reply 0 [], s)
    | Write _ l => if (length (sectors_ s) <? room s)%nat
                   then (Reply (Z.of_nat (length l)) [], Bigfs (room s) (sectors_ s ++ [l]) (next s) (bout s) (berr s))
                   else (Reply (-1) [], s)
    | Read _ _ => match sectors_ s !! next s with
                  | Some l => (Reply (Z.of_nat (length l)) l, Bigfs (room s) (sectors_ s) (S (next s)) (bout s) (berr s))
                  | None => (Reply 0 [], s)
                  end
    | _ => (Reply (-1) [], s)
    end;
  m_puts fd l s := if fd =? 1 then Bigfs (room s) (sectors_ s) (next s) (bout s ++ l) (berr s)
                   else Bigfs (room s) (sectors_ s) (next s) (bout s) (berr s ++ l) |}.

Section Big.
Context (junk : list Z).

(** The sectors from [i] on, as the program writes them. *)
Definition numbered (i n : nat) : list (list Z) := map (fun k => le_bytes 4 (Z.of_nat k) ++ junk) (seq i n).

Lemma big_writes_all n : forall i done o e nx, length done = i ->
  exists e', runs bigdisk (big_writes junk 3 (Z.of_nat i)) (Bigfs (i + n) done nx o e) (Some (Z.of_nat (i + n))) (Bigfs (i + n) (done ++ numbered i n) nx o e').
Proof.
  induction n as [|n IH]; intros i dn o e nx Hd.
  - exists e. rewrite Nat.add_0_r, app_nil_r. apply runs_iter_end, runs_call. cbn [m_sys bigdisk sectors_ room].
    rewrite (proj2 (Nat.ltb_ge _ _)) by lia. apply (runs_ret bigdisk (inr (Z.of_nat i))).
  - set (e1 := if (Z.of_nat i + 1) mod 100 =? 0 then e ++ [46] else e).
    destruct (IH (S i) (dn ++ [le_bytes 4 (Z.of_nat i) ++ junk]) o e1 nx) as [e' H]; [rewrite length_app; cbn; lia|].
    replace (S i + n)%nat with (i + S n)%nat in H by lia. exists e'. rewrite <- app_assoc in H.
    eapply (runs_iter _ _ _ _ (Z.of_nat (S i))); [|exact H]. apply runs_call. cbn [m_sys bigdisk sectors_ room bout berr next].
    rewrite (proj2 (Nat.ltb_lt _ _)) by lia. cbn [fst snd ret]. rewrite (proj2 (Z.leb_gt _ _)) by (rewrite length_app, length_le_bytes; lia).
    replace (Z.of_nat (S i)) with (Z.of_nat i + 1) by lia. subst e1. destruct ((Z.of_nat i + 1) mod 100 =? 0).
    + eapply (runs_printf _ _ _ _ [46]); [reflexivity|]. apply (runs_ret bigdisk (inl (Z.of_nat i + 1))).
    + eapply runs_bind; [apply runs_ret|]. apply (runs_ret bigdisk (inl (Z.of_nat i + 1))).
Qed.

Lemma big_reads_all n : forall i tot o e, (i + n <= tot)%nat -> Z.of_nat tot < 2147483648 ->
  runs bigdisk (big_reads n 3 (Z.of_nat i)) (Bigfs tot (numbered 0 tot) i o e) (Some tt) (Bigfs tot (numbered 0 tot) (i + n) o e).
Proof.
  induction n as [|n IH]; intros i tot o e Hi Ht; [rewrite Nat.add_0_r; apply runs_ret|]. cbn [big_reads]. apply runs_call.
  cbn [m_sys bigdisk sectors_ room bout berr next].
  assert (numbered 0 tot !! i = Some (le_bytes 4 (Z.of_nat i) ++ junk)) as ->.
  { unfold numbered. change (@map nat (list Z)) with (@fmap list list_fmap nat (list Z)). by rewrite list_lookup_fmap, lookup_seq_lt by lia. }
  cbn [fst snd ret data]. rewrite (proj2 (Z.leb_gt _ _)) by (rewrite length_app, length_le_bytes; lia).
  assert (get32 (le_bytes 4 (Z.of_nat i) ++ junk) 0 = Z.of_nat i) as ->.
  { unfold get32, slice. rewrite drop_0, take_app_le, take_ge by (rewrite length_le_bytes; lia). rewrite le_val_le_bytes. apply Z.mod_small. cbn. lia. }
  rewrite i32_small by lia. rewrite Z.eqb_refl. cbn [negb]. replace (Z.of_nat i + 1) with (Z.of_nat (S i)) by lia.
  replace (i + S n)%nat with (S i + n)%nat by lia. apply IH; lia.
Qed.

(** [big] fills the file, says how many sectors it has, and reads every one of them
    back. *)
Theorem big_main_ok n e : Z.of_nat n < 2147483648 ->
  exists d s, decimal (Z.of_nat n) d /\ runs bigdisk (big_main junk) (Bigfs n [] 0 [] e) None s /\
    bout s = bytes_of "
wrote " ++ d ++ bytes_of " sectors
" ++ bytes_of "done; ok
".
Proof.
  intros Hn. destruct (printint_decimal_u (Z.of_nat n)) as (d & Ed & Hd); [lia|]. destruct (big_writes_all n 0 [] [] e 0 eq_refl) as [e' Hw].
  exists d. eexists. split; [done|]. split.
  - unfold big_main. apply runs_call. cbn [m_sys bigdisk sectors_ room bout berr next fst snd ret]. change (3 <? 0) with false. cbv iota.
    eapply runs_bind; [exact Hw|]. eapply (runs_printf _ _ _ _ (bytes_of "
wrote " ++ d ++ bytes_of " sectors
")).
    { change (printf_loop (bytes_of "
wrote " ++ 37 :: 100 :: bytes_of " sectors
") [Vint (Z.of_nat (0 + n))] false = Some (bytes_of "
wrote " ++ d ++ bytes_of " sectors
")). apply printf_s; [repeat constructor; done|]. by apply printf_d. }
    apply runs_call, runs_call. cbn [m_sys bigdisk sectors_ room bout berr next fst snd ret m_puts Z.eqb Pos.eqb]. change (3 <? 0) with false. cbv iota.
    rewrite Nat2Z.id. eapply runs_bind; [apply (big_reads_all (0 + n) 0 n); lia|].
    eapply (runs_printf _ _ _ _ (bytes_of "done; ok
")); [reflexivity|]. apply runs_exit.
  - cbn [m_puts bigdisk Z.eqb Pos.eqb bout]. by rewrite app_nil_l, <- !app_assoc.
Qed.

End Big.
