(* ===== verification/Smp.v ===== *)
(** The other processors, and what is printed by [panic]: [startothers], [mpenter] and
    [mpmain] of main.c, [switchkvm] of vm.c, [getcallerpcs] of spinlock.c and [panic]
    of console.c. *)

From S2P Require Import Prelude Kernel Sched Kalloc Cons Line Mp Desc Apic.

(** ** The call stack *)

Section Stack.
(** The words of memory. *)
Context (word : Z -> Z).

(** The loop over the frames, with [n] of the ten cells of [pcs] left. *)
Fixpoint walk_frames (n : nat) (ebp : Z) : list Z :=
  match n with
  | O => []
  | S n' => if (ebp =? 0) || (ebp <? KERNBASE) || (ebp =? 4294967295) then replicate n 0
            else word (u32 (ebp + 4)) :: walk_frames n' (word ebp)
  end.

(** [v] is the address of the first argument of the caller. *)
Definition getcallerpcs (v : Z) : list Z := walk_frames 10 (u32 (v - 8)).

(** A chain of frames in the kernel's memory: the return address of each one, up to a
    frame that is not in it. *)
Inductive frames : Z -> list Z -> Prop :=
  | frames_end ebp : ebp < KERNBASE \/ ebp = 4294967295 -> frames ebp []
  | frames_cons ebp l : KERNBASE <= ebp < 4294967292 -> frames (word ebp) l -> frames ebp (word (ebp + 4) :: l).

(** The first ten return addresses of the chain, and zeroes after its end. *)
Theorem walk_frames_chain n : forall ebp l, frames ebp l -> walk_frames n ebp = take n l ++ replicate (n - length l) 0.
Proof.
  induction n as [|n IH]; intros ebp l Hl; [done|]. cbn [walk_frames]. destruct Hl as [ebp H|ebp l H Hl].
  - assert ((ebp =? 0) || (ebp <? KERNBASE) || (ebp =? 4294967295) = true) as ->; [|done].
    destruct H as [H| ->]; [|done]. rewrite (proj2 (Z.ltb_lt ebp KERNBASE)) by done. by rewrite orb_true_r.
  - unfold KERNBASE in *. rewrite (proj2 (Z.eqb_neq ebp 0)), (proj2 (Z.ltb_ge ebp _)), (proj2 (Z.eqb_neq ebp _)) by lia. cbn [orb].
    unfold u32. rewrite Z.mod_small by lia. cbn [take app length Nat.sub]. f_equal. by apply IH.
Qed.

End Stack.

(** ** panic *)

(** What [panic] does before it stops: the console lock is not used from then on. *)
Definition panic_report (lapicid : Z) (s : string) (pcs : list Z) : M unit :=
  modify (fun k => k <| k_locking := false |>) ;;
  cprintf "lapicid %d: panic: " [Aint lapicid] ;;
  cprintf s [] ;;
  cprintf "
" [] ;;
  for_each pcs (fun pc => cprintf " %p" [Aint pc]).

(** A message without directives is reported whatever lock the processor holds, the
    console's included. *)
Theorem panic_reports id s pcs w : fmt_ok (bytes_of s) [] = true -> cga_ok (k_cga (w_k w)) ->
  exists out g, panic_report id s pcs w = Ok tt (screen out g (w <| w_k ::= fun k => k <| k_locking := false |> |>)).
Proof.
  intros Hs Hw. unfold panic_report. erewrite bind_run by done. cbv beta.
  set (w1 := w <| w_k ::= fun k => k <| k_locking := false |> |>).
  assert (forall fmt args o g, fmt_ok (bytes_of fmt) args = true -> cga_ok g -> displays (cprintf fmt args) (screen o g w1)) as Hd.
  { intros fmt args o g Hf Hg. by apply cprintf_displays. }
  assert (displays (cprintf "lapicid %d: panic: " [Aint id] ;; cprintf s [] ;; cprintf "
" [] ;; for_each pcs (fun pc => cprintf " %p" [Aint pc])) w1) as (out & g & _ & E); [|by exists out, g].
  apply displays_seq; [by apply cprintf_displays|]. intros o1 g1 H1. apply displays_seq; [by apply Hd|]. intros o2 g2 H2. rewrite screen_screen.
  apply displays_seq; [by apply Hd|]. intros o3 g3 H3. rewrite screen_screen.
  apply displays_for_each; [done|]. intros pc o4 g4 _ H4. rewrite screen_screen. by apply Hd.
Qed.

(** ** Starting the other processors *)

Definition switchkvm (kpgdir : Z) : Z := V2P kpgdir.

(** What a processor has when it enters [scheduler]: its page table register, segments,
    the table of its interrupts, and the programming of its local APIC. *)
Record ready := Ready { r_cr3 : Z; r_segs : cpusegs; r_idtr : Z * Z * Z; r_lapic : list Lapic.write }.

(** [mpmain] prints the number of the processor, loads the interrupt table and sets
    [started], for which [startothers] waits. *)
Definition mpmain (cr3 : Z) (c : cpusegs) (l : list Lapic.write) (idt_addr : Z) : ready := Ready cr3 c (idtinit idt_addr) l.

Definition mpenter (kpgdir gdt_addr idt_addr ver : Z) (icr : list Z) (c : cpusegs) : option ready :=
  let cr3 := switchkvm kpgdir in
  let c := seginit gdt_addr c in
  l ← Lapic.lapicinit true ver icr;
  Some (mpmain cr3 c l idt_addr).











